(** * Compiler Explorer broker: the process runner, the compiler driver,
      the request handler and the peer fetch, embedded in Rocq.

    Sources embedded here:
    - lib/exec.js            ([execute], [sandbox])
    - lib/base-compiler.js   ([Compile.prototype.*])
    - lib/compile-handler.js ([CompileHandler.handler])
    - app.js                 ([retryPromise], [fetchRemote], [recurseGetCompilers],
                              [compilerProps], [compilerConfigFor], [StringStartsWith])
    - lib/properties         ([get], [propsFor], [fakeProps], [parseProperties])
    - lib/compilers/swift.js ([handlePostProcessResult])

    Conventions.  JavaScript strings are [string]s (sequences of 8-bit code
    units; a character above 255 has no counterpart here).  JavaScript
    numbers are [Z] (the code only counts, compares and prints integers).
    A JavaScript value whose shape the code does not inspect is a [jsval];
    objects keep their properties in insertion order, as [JSON.stringify]
    and [delete] see them.  A promise is a [Settle]: resolved, rejected or
    never settled.  Node's callbacks are run in the order of an explicit
    list of events. *)

From Stdlib Require Import String Ascii List ZArith Lia Bool Arith.
From Stdlib Require Import DecimalString DecimalPos.
Import ListNotations.

Local Open Scope string_scope.
Local Open Scope list_scope.

Set Implicit Arguments.
Set Warnings "-register-all".


(* ===================================================================== *)
(** * JavaScript strings *)
(* ===================================================================== *)

Module Js.

(** [s.length] as a number. *)
Definition len (s : string) : Z := Z.of_nat (String.length s).

(** [s === ""] decides falsiness of a string. *)
Definition nonempty (s : string) : bool :=
  match s with EmptyString => false | String _ _ => true end.

(** [parts.join(sep)]. *)
Fixpoint join (sep : string) (parts : list string) : string :=
  match parts with
  | [] => ""
  | [p] => p
  | p :: rest => (p ++ sep ++ join sep rest)%string
  end.

(** [s.split(c)] for a one-character separator: the pieces between the
    separators, empty pieces kept; the empty string gives one empty piece. *)
Fixpoint split_on (c : ascii) (s : string) : list string :=
  match s with
  | EmptyString => [""]
  | String a rest =>
      if Ascii.eqb a c then "" :: split_on c rest
      else match split_on c rest with
           | [] => [String a ""]
           | p :: ps => String a p :: ps
           end
  end.

(** [array.filter(_.identity)] on an array of strings: the empty string is
    the only falsy string. *)
Definition compact (l : list string) : list string := filter nonempty l.

(** [s.indexOf(sub) === 0]. *)
Definition starts_with (sub s : string) : bool := String.prefix sub s.

(** [s.indexOf(sub) !== -1], [s.includes(sub)]. *)
Fixpoint includes (sub s : string) : bool :=
  String.prefix sub s ||
  match s with
  | EmptyString => false
  | String _ rest => includes sub rest
  end.

(** The white space of [String.prototype.trim], of [\s] and of [parseInt],
    among the code units below 256: TAB, LF, VT, FF, CR, SP, NBSP. *)
Definition is_space (a : ascii) : bool :=
  let n := nat_of_ascii a in
  (n =? 9)%nat || (n =? 10)%nat || (n =? 11)%nat || (n =? 12)%nat ||
  (n =? 13)%nat || (n =? 32)%nat || (n =? 160)%nat.

Fixpoint trim_start (s : string) : string :=
  match s with
  | String a rest => if is_space a then trim_start rest else s
  | EmptyString => ""
  end.

(** The string without its trailing white space. *)
Fixpoint trim_end (s : string) : string :=
  match s with
  | EmptyString => ""
  | String a rest =>
      match trim_end rest with
      | EmptyString => if is_space a then "" else String a ""
      | r => String a r
      end
  end.

Definition trim (s : string) : string := trim_end (trim_start s).

(** A decimal numeral, as [String(n)] prints an integer. *)
Definition show (z : Z) : string := NilEmpty.string_of_int (Z.to_int z).

(** A number or [NaN], as string concatenation prints it. *)
Definition show_num (n : option Z) : string :=
  match n with Some z => show z | None => "NaN" end.

Definition digit_value (a : ascii) : option Z :=
  let n := nat_of_ascii a in
  if ((48 <=? n) && (n <=? 57))%nat then Some (Z.of_nat (n - 48)) else None.

Definition hex_value (a : ascii) : option Z :=
  let n := nat_of_ascii a in
  if ((48 <=? n) && (n <=? 57))%nat then Some (Z.of_nat (n - 48))
  else if ((97 <=? n) && (n <=? 102))%nat then Some (Z.of_nat (n - 87))
  else if ((65 <=? n) && (n <=? 70))%nat then Some (Z.of_nat (n - 55))
  else None.

(** The longest run of digits at the head of [s], read in base [radix];
    [None] when [s] starts with no digit. *)
Fixpoint digits (value : ascii -> option Z) (radix : Z) (acc : option Z) (s : string)
  : option Z :=
  match s with
  | EmptyString => acc
  | String a rest =>
      match value a with
      | Some d =>
          digits value radix
            (Some (match acc with Some n => (n * radix + d)%Z | None => d end)) rest
      | None => acc
      end
  end.

(** [parseInt(s)]: leading white space, a sign, [0x] for base sixteen, then
    the longest run of digits; [None] is [NaN]. *)
Definition parseInt (s : string) : option Z :=
  let s := trim_start s in
  let '(neg, s) :=
    match s with
    | String "-" rest => (true, rest)
    | String "+" rest => (false, rest)
    | _ => (false, s)
    end in
  let n :=
    match s with
    | String "0" (String "x" rest) => digits hex_value 16 None rest
    | String "0" (String "X" rest) => digits hex_value 16 None rest
    | _ => digits digit_value 10 None s
    end in
  match n with
  | Some z => Some (if neg then (- z)%Z else z)
  | None => None
  end.

End Js.

(* ===================================================================== *)
(** * JavaScript values and [JSON.stringify] *)
(* ===================================================================== *)

(** Values handed around without being taken apart by the code, and the
    objects it serialises.  An object is the list of its own enumerable
    properties in insertion order (no property name here is an array
    index, which JavaScript would enumerate first). *)
Inductive jsval : Type :=
| JUndef
| JNull
| JBool (b : bool)
| JNum (z : Z)
| JNaN
| JStr (s : string)
| JArr (items : list jsval)
| JObj (props : list (string * jsval)).

Module Obj.

(** [obj[k]], [None] when [k] is not a property. *)
Fixpoint get (k : string) (o : list (string * jsval)) : option jsval :=
  match o with
  | [] => None
  | (k', v) :: rest => if String.eqb k k' then Some v else get k rest
  end.

(** [delete obj[k]]. *)
Fixpoint delete (k : string) (o : list (string * jsval)) : list (string * jsval) :=
  match o with
  | [] => []
  | (k', v) :: rest =>
      if String.eqb k k' then delete k rest else (k', v) :: delete k rest
  end.

(** [obj[k] = v]: an existing property keeps its place, a new one is added
    last. *)
Fixpoint set (k : string) (v : jsval) (o : list (string * jsval))
  : list (string * jsval) :=
  match o with
  | [] => [(k, v)]
  | (k', v') :: rest =>
      if String.eqb k k' then (k', v) :: rest else (k', v') :: set k v rest
  end.

(** Truthiness of a value. *)
Definition truthy (v : jsval) : bool :=
  match v with
  | JUndef | JNull | JNaN => false
  | JBool b => b
  | JNum z => negb (z =? 0)%Z
  | JStr s => Js.nonempty s
  | JArr _ | JObj _ => true
  end.

(** Truthiness of [obj.k]. *)
Definition flag (k : string) (o : list (string * jsval)) : bool :=
  match get k o with Some v => truthy v | None => false end.

(** [v.k] for any value [v] that is not [undefined] or [null]. *)
Definition field (k : string) (v : jsval) : jsval :=
  match v with
  | JObj o => match get k o with Some x => x | None => JUndef end
  | _ => JUndef
  end.

End Obj.

Module Json.

(** The two characters a Rocq string literal cannot hold directly. *)
Definition dquote : string := String (ascii_of_nat 34) "".
Definition nl : string := String (ascii_of_nat 10) "".

Definition hex_digit (n : nat) : ascii :=
  match String.get n "0123456789abcdef" with Some a => a | None => "0"%char end.

(** [QuoteJSONString]'s treatment of one code unit. *)
Definition escape_char (a : ascii) : string :=
  let n := nat_of_ascii a in
  if (n =? 34)%nat then ("\" ++ dquote)%string
  else if (n =? 92)%nat then "\\"
  else if (n =? 8)%nat then "\b"
  else if (n =? 12)%nat then "\f"
  else if (n =? 10)%nat then "\n"
  else if (n =? 13)%nat then "\r"
  else if (n =? 9)%nat then "\t"
  else if (n <? 32)%nat then
    ("\u00" ++ String (hex_digit (n / 16)) (String (hex_digit (n mod 16)) ""))%string
  else String a "".

Fixpoint escape (s : string) : string :=
  match s with
  | EmptyString => ""
  | String a rest => (escape_char a ++ escape rest)%string
  end.

Definition quote (s : string) : string := (dquote ++ escape s ++ dquote)%string.

(** [JSON.stringify(v)] without indentation; [None] is the [undefined] it
    returns for [undefined].  A property whose value is [undefined] is left
    out, an [undefined] array item is written [null]. *)
Fixpoint stringify (v : jsval) : option string :=
  match v with
  | JUndef => None
  | JNull => Some "null"
  | JBool true => Some "true"
  | JBool false => Some "false"
  | JNum z => Some (Js.show z)
  | JNaN => Some "null"
  | JStr s => Some (quote s)
  | JArr items =>
      Some ("[" ++
            Js.join ","
              (map (fun x => match stringify x with Some s => s | None => "null" end)
                   items) ++
            "]")%string
  | JObj props =>
      Some ("{" ++
            Js.join ","
              (flat_map
                 (fun p => match stringify (snd p) with
                           | Some s => [(quote (fst p) ++ ":" ++ s)%string]
                           | None => []
                           end)
                 props) ++
            "}")%string
  end.

(** The members of an object as [stringify] writes them. *)
Definition members (props : list (string * jsval)) : list string :=
  flat_map
    (fun p => match stringify (snd p) with
              | Some s => [(quote (fst p) ++ ":" ++ s)%string]
              | None => []
              end)
    props.

Definition hex_nat (a : ascii) : nat :=
  match Js.hex_value a with Some z => Z.to_nat z | None => 0 end.

(** The character a backslash and [x] stand for. *)
Definition unescape_letter (x : ascii) : ascii :=
  let n := nat_of_ascii x in
  if (n =? 98)%nat then ascii_of_nat 8
  else if (n =? 102)%nat then ascii_of_nat 12
  else if (n =? 110)%nat then ascii_of_nat 10
  else if (n =? 114)%nat then ascii_of_nat 13
  else if (n =? 116)%nat then ascii_of_nat 9
  else x.

(** Reading back what [escape] wrote. *)
Fixpoint unescape (s : string) : string :=
  match s with
  | EmptyString => ""
  | String a rest =>
      if (nat_of_ascii a =? 92)%nat then
        match rest with
        | String x rest1 =>
            if (nat_of_ascii x =? 117)%nat then
              match rest1 with
              | String _ (String _ (String h (String l rest2))) =>
                  String (ascii_of_nat (16 * hex_nat h + hex_nat l)) (unescape rest2)
              | _ => ""
              end
            else String (unescape_letter x) (unescape rest1)
        | EmptyString => ""
        end
      else String a (unescape rest)
  end.

(** An optional string property: absent when [undefined]. *)
Definition opt_str (o : option string) : jsval :=
  match o with Some s => JStr s | None => JUndef end.

(** A string or [null]. *)
Definition str_or_null (o : option string) : jsval :=
  match o with Some s => JStr s | None => JNull end.

Definition num_or_null (o : option Z) : jsval :=
  match o with Some z => JNum z | None => JNull end.

Definition strings (l : list string) : jsval := JArr (map JStr l).

(** The number [parseInt] gave, [NaN] included. *)
Definition num_or_nan (o : option Z) : jsval :=
  match o with Some z => JNum z | None => JNaN end.

End Json.

(* ===================================================================== *)
(** * Promises *)
(* ===================================================================== *)

(** What a promise is rejected with. *)
Inductive Rejection : Type :=
| RejError (message : string)   (* an [Error]; only its message is kept *)
| RejString (s : string)        (* a bare string *)
| RejValue (v : jsval).         (* any other object, such as a process result *)

(** [e.message] in a [catch] handler. *)
Definition message_of (e : Rejection) : jsval :=
  match e with
  | RejError m => JStr m
  | RejString _ => JUndef
  | RejValue v => Obj.field "message" v
  end.

(** The fate of a promise. *)
Inductive Settle (A : Type) : Type :=
| Resolved (a : A)
| Rejected (e : Rejection)
| Pending.

Arguments Resolved {A} a.
Arguments Rejected {A} e.
Arguments Pending {A}.

(** The same fate with the value seen through [f]. *)
Definition settle_map {A B : Type} (f : A -> B) (s : Settle A) : Settle B :=
  match s with
  | Resolved a => Resolved (f a)
  | Rejected e => Rejected e
  | Pending => Pending
  end.

(* ===================================================================== *)
(** * lib/exec.js: the process runner *)
(* ===================================================================== *)

Module Exec.

Inductive StreamName : Type := SOut | SErr.

(** What Node delivers to the callbacks [execute] installs, one at a time. *)
Inductive Event : Type :=
| EvData (name : StreamName) (data : string)     (* 'data' on stdout or stderr *)
| EvTimer                                        (* the [setTimeout] callback *)
| EvExit (code : option Z)                       (* 'exit' of the child *)
| EvClose (code : option Z) (sig : option string) (* 'close' of the child *)
| EvError (e : string)                           (* 'error' of the child *)
| EvStreamError (e : string).                    (* 'error' of a stream: logged *)

(** The [options] argument.  [killChild] tells whether the caller passed a
    callback of its own. *)
Record Options : Type := {
  maxOutput : option Z;
  timeoutMs : option Z;
  env : jsval;
  wrapper : option string;
  input : option string;
  killChild : bool
}.

Definition no_options : Options :=
  {| maxOutput := None; timeoutMs := None; env := JUndef; wrapper := None;
     input := None; killChild := false |}.

(** What the runner does to the outside. *)
Inductive Action : Type :=
| Spawn (command : string) (args : list string)
| SetTimeout (ms : Z)
| StdinWrite (data : string)
| TreeKill          (* [treeKill(child.pid)] *)
| KillChild.        (* [options.killChild()] *)

(** [var timeout]: never set, set and waiting, run, or cleared. *)
Inductive Timer : Type := NoTimer | Armed | Fired | Cleared.

Record Streams : Type := {
  s_stderr : string;
  s_stdout : string;
  s_truncated : bool
}.

(** The variables the callbacks close over. *)
Record State : Type := {
  st_streams : Streams;
  st_okToCache : bool;
  st_running : bool;
  st_timeout : Timer;
  st_actions : list Action
}.

(** The object handed to [resolve]. *)
Record Result : Type := {
  status : option Z;
  signal : option string;
  stdout : string;
  stderr : string;
  okToCache : bool
}.

(** The result as the object literal the code builds: its five properties. *)
Definition result_object (r : Result) : jsval :=
  JObj [("status", Json.num_or_null (status r));
        ("signal", Json.str_or_null (signal r));
        ("stdout", JStr (stdout r));
        ("stderr", JStr (stderr r));
        ("okToCache", JBool (okToCache r))].

Definition truncated_marker : string := (Json.nl ++ "[Truncated]")%string.
Definition timeout_message : string :=
  (Json.nl ++ "Killed - processing time exceeded")%string.

(** [options.maxOutput || 1024 * 1024]. *)
Definition maxOutput_of (o : Options) : Z :=
  match maxOutput o with
  | Some n => if (n =? 0)%Z then 1048576%Z else n
  | None => 1048576%Z
  end.

(** [options.timeoutMs || 0]. *)
Definition timeoutMs_of (o : Options) : Z :=
  match timeoutMs o with Some n => n | None => 0%Z end.

Definition has_wrapper (o : Options) : option string :=
  match wrapper o with
  | Some w => if Js.nonempty w then Some w else None
  | None => None
  end.

(** The command and the arguments after [args.unshift(command)]. *)
Definition spawned_args (command : string) (args : list string) (o : Options)
  : list string :=
  match has_wrapper o with Some _ => command :: args | None => args end.

Definition spawned_command (command : string) (o : Options) : string :=
  match has_wrapper o with Some w => w | None => command end.

Definition act (a : Action) (st : State) : State :=
  {| st_streams := st_streams st; st_okToCache := st_okToCache st;
     st_running := st_running st; st_timeout := st_timeout st;
     st_actions := st_actions st ++ [a] |}.

(** [var kill = options.killChild || function () { if (running) treeKill(child.pid); }]. *)
Definition kill (o : Options) (st : State) : State :=
  if killChild o then act KillChild st
  else if st_running st then act TreeKill st else st.

Definition stream (name : StreamName) (s : Streams) : string :=
  match name with SOut => s_stdout s | SErr => s_stderr s end.

(** [streams[name] += text]. *)
Definition append (name : StreamName) (text : string) (s : Streams) : Streams :=
  match name with
  | SOut => {| s_stderr := s_stderr s; s_stdout := (s_stdout s ++ text)%string;
               s_truncated := s_truncated s |}
  | SErr => {| s_stderr := (s_stderr s ++ text)%string; s_stdout := s_stdout s;
               s_truncated := s_truncated s |}
  end.

Definition set_truncated (s : Streams) : Streams :=
  {| s_stderr := s_stderr s; s_stdout := s_stdout s; s_truncated := true |}.

Definition with_streams (s : Streams) (st : State) : State :=
  {| st_streams := s; st_okToCache := st_okToCache st;
     st_running := st_running st; st_timeout := st_timeout st;
     st_actions := st_actions st |}.

(** The 'data' callback of [setupStream]. *)
Definition on_data (o : Options) (name : StreamName) (data : string) (st : State)
  : State :=
  if s_truncated (st_streams st) then st
  else if (Js.len (stream name (st_streams st)) >? maxOutput_of o)%Z then
    kill o (with_streams (set_truncated (append name truncated_marker (st_streams st))) st)
  else with_streams (append name data (st_streams st)) st.

(** The [setTimeout] callback; it can run only while the timer waits. *)
Definition on_timer (o : Options) (st : State) : State :=
  match st_timeout st with
  | Armed =>
      let st1 := {| st_streams := st_streams st; st_okToCache := false;
                    st_running := st_running st; st_timeout := Fired;
                    st_actions := st_actions st |} in
      let st2 := kill o st1 in
      with_streams (append SErr timeout_message (st_streams st2)) st2
  | _ => st
  end.

(** [if (timeout !== undefined) clearTimeout(timeout)]. *)
Definition clear_timeout (t : Timer) : Timer :=
  match t with Armed => Cleared | other => other end.

(** The 'exit' callback. *)
Definition on_exit (st : State) : State :=
  {| st_streams := st_streams st; st_okToCache := st_okToCache st;
     st_running := false; st_timeout := clear_timeout (st_timeout st);
     st_actions := st_actions st |}.

(** The object built by the 'close' callback. *)
Definition on_close (code : option Z) (sig : option string) (st : State) : Result :=
  {| status := code; signal := sig;
     stdout := s_stdout (st_streams st); stderr := s_stderr (st_streams st);
     okToCache := st_okToCache st |}.

(** The state when [execute] has returned its promise. *)
Definition start (command : string) (args : list string) (o : Options) : State :=
  {| st_streams := {| s_stderr := ""; s_stdout := ""; s_truncated := false |};
     st_okToCache := true;
     st_running := true;
     st_timeout := if (timeoutMs_of o =? 0)%Z then NoTimer else Armed;
     st_actions :=
       [Spawn (spawned_command command o) (spawned_args command args o)] ++
       (if (timeoutMs_of o =? 0)%Z then [] else [SetTimeout (timeoutMs_of o)]) ++
       (match input o with
        | Some i => if Js.nonempty i then [StdinWrite i] else []
        | None => []
        end) |}.

(** The callbacks run on the events in order; the promise settles at the
    first 'close' (resolved) or 'error' (rejected) of the child and nothing
    that follows can change it.  Without either it never settles. *)
Fixpoint run (o : Options) (evs : list Event) (st : State) : Settle Result * State :=
  match evs with
  | [] => (Pending, st)
  | EvData name data :: rest => run o rest (on_data o name data st)
  | EvTimer :: rest => run o rest (on_timer o st)
  | EvExit _ :: rest => run o rest (on_exit st)
  | EvStreamError _ :: rest => run o rest st
  | EvClose code sig :: _ => (Resolved (on_close code sig st), st)
  | EvError e :: _ => (Rejected (RejError e), st)
  end.

(** [execute(command, args, options)] against the events of its child: the
    promise and everything done to the outside. *)
Definition execute (command : string) (args : list string) (o : Options)
    (evs : list Event) : Settle Result * list Action :=
  let (p, st) := run o evs (start command args o) in (p, st_actions st).

(** ** Readings of a list of events *)

(** The timer callback gets to run: its event comes while the child has
    neither exited nor closed nor failed. *)
Fixpoint fires (evs : list Event) : bool :=
  match evs with
  | [] => false
  | EvTimer :: _ => true
  | EvExit _ :: _ => false
  | EvClose _ _ :: _ => false
  | EvError _ :: _ => false
  | _ :: rest => fires rest
  end.

(** The run is killed by its timer: a timer was set and its callback ran. *)
Definition timed_out (o : Options) (evs : list Event) : bool :=
  negb (timeoutMs_of o =? 0)%Z && fires evs.

(** The promise gets resolved: a 'close' comes before any 'error'. *)
Fixpoint closes (evs : list Event) : bool :=
  match evs with
  | [] => false
  | EvClose _ _ :: _ => true
  | EvError _ :: _ => false
  | _ :: rest => closes rest
  end.

(** The length of the longest chunk of data among the events. *)
Fixpoint max_chunk (evs : list Event) : Z :=
  match evs with
  | [] => 0%Z
  | EvData _ data :: rest => Z.max (Js.len data) (max_chunk rest)
  | _ :: rest => max_chunk rest
  end.

(** How many 'data' callbacks, in the run of [evs] from [st] up to the
    'close' or 'error', take the branch that appends the marker. *)
Fixpoint markers (o : Options) (evs : list Event) (st : State) : nat :=
  match evs with
  | [] => 0
  | EvData name data :: rest =>
      (if negb (s_truncated (st_streams st)) &&
          (Js.len (stream name (st_streams st)) >? maxOutput_of o)%Z
       then 1 else 0) + markers o rest (on_data o name data st)
  | EvTimer :: rest => markers o rest (on_timer o st)
  | EvExit _ :: rest => markers o rest (on_exit st)
  | EvStreamError _ :: rest => markers o rest st
  | EvClose _ _ :: _ => 0
  | EvError _ :: _ => 0
  end.

(** The action [kill()] performs on a child that is still running. *)
Definition kill_action (o : Options) : Action :=
  if killChild o then KillChild else TreeKill.

End Exec.

(* ===================================================================== *)
(** * lib/exec.js: the sandbox *)
(* ===================================================================== *)

Module Sandbox.

(** What the outside answers to one call of [sandbox]: the configured
    [sandboxType], Node's [path.dirname] and [path.basename], and the events
    of each child that is waited for.  [docker rm] and [docker kill] are
    started and never looked at again, so only their spawn is recorded. *)
Record World : Type := {
  sandboxType : string;
  dirname : string -> string;
  basename : string -> string;
  direct : list Exec.Event;        (* the binary itself, when the type is none *)
  docker_run : list Exec.Event;
  docker_wait : list Exec.Event;
  docker_logs : list Exec.Event
}.

(** [result.signal || result.status !== 0]. *)
Definition failed (r : Exec.Result) : bool :=
  match Exec.signal r with
  | Some s => Js.nonempty s
  | None => false
  end ||
  match Exec.status r with
  | Some z => negb (z =? 0)%Z
  | None => true
  end.

Definition run_args (w : World) (command : string) (args : list string) : list string :=
  ["run"; "--detach"; "--cpu-shares=128"; "--cpu-quota=25000";
   "--ulimit"; "nofile=20"; "--ulimit"; "cpu=3";
   "--ulimit"; ("rss=" ++ Js.show (128 * 1024))%string;
   "--network=none"; "--memory=128M"; "--memory-swap=0";
   ("-v" ++ dirname w command ++ ":/home/ce-user:ro")%string;
   "mattgodbolt/compiler-explorer:exec";
   ("./" ++ basename w command)%string] ++ args.

(** [removeContainer()]: an empty container id is falsy. *)
Definition removeContainer (containerId : string) : list Exec.Action :=
  if Js.nonempty containerId then [Exec.Spawn "docker" ["rm"; containerId]] else [].

(** The [killChild] passed to the [docker wait] run starts [docker kill]. *)
Definition wait_actions (containerId : string) (acts : list Exec.Action)
  : list Exec.Action :=
  flat_map (fun a => match a with
                     | Exec.KillChild => [Exec.Spawn "docker" ["kill"; containerId]]
                     | other => [other]
                     end) acts.

(** [killed]: the callback has run. *)
Definition killed (acts : list Exec.Action) : bool :=
  existsb (fun a => match a with Exec.KillChild => true | _ => false end) acts.

(** The result of the failed [docker run], after [result.stdout = []] and
    [result.stderr = []]. *)
Definition start_failure (r : Exec.Result) : jsval :=
  JObj [("status", Json.num_or_null (Exec.status r));
        ("signal", Json.str_or_null (Exec.signal r));
        ("stdout", JArr []);
        ("stderr", JArr []);
        ("okToCache", JBool (Exec.okToCache r))].

(** The log result the promise is resolved with: [status] replaced by the
    container's exit code and the kill note added to [stdout]. *)
Definition log_result (r : Exec.Result) (returnValue : option Z) (was_killed : bool)
    (timeoutMs : Z) : jsval :=
  JObj [("status", Json.num_or_nan returnValue);
        ("signal", Json.str_or_null (Exec.signal r));
        ("stdout",
         JStr (if was_killed
               then (Exec.stdout r ++ Json.nl ++ "### Killed after " ++
                     Js.show timeoutMs ++ "ms")%string
               else Exec.stdout r));
        ("stderr", JStr (Exec.stderr r));
        ("okToCache", JBool (Exec.okToCache r))].

(** A promise settles once: an earlier [reject] is not overridden. *)
Definition first_of {A : Type} (early : option Rejection) (later : Settle A) : Settle A :=
  match early with Some e => Rejected e | None => later end.

(** [sandbox(command, args, options)]. *)
Definition sandbox (w : World) (command : string) (args : list string)
    (o : Exec.Options) : Settle jsval * list Exec.Action :=
  if String.eqb (sandboxType w) "none" then
    let (p, acts) := Exec.execute command args o (direct w) in
    (match p with
     | Resolved r => Resolved (Exec.result_object r)
     | Rejected e => Rejected e
     | Pending => Pending
     end, acts)
  else
    let timeoutMs := Exec.timeoutMs_of o in
    let (p_run, a_run) :=
      Exec.execute "docker" (run_args w command args) Exec.no_options (docker_run w) in
    match p_run with
    | Pending => (Pending, a_run)
    | Rejected e => (Rejected e, a_run)     (* containerId is still null *)
    | Resolved started =>
        let containerId := Js.trim (Exec.stdout started) in
        let early :=
          if failed started && Js.nonempty containerId
          then Some (RejValue (start_failure started)) else None in
        let wait_options :=
          {| Exec.maxOutput := None; Exec.timeoutMs := Some timeoutMs;
             Exec.env := JUndef; Exec.wrapper := None; Exec.input := None;
             Exec.killChild := true |} in
        let (p_wait, a_wait0) :=
          Exec.execute "docker" ["wait"; containerId] wait_options (docker_wait w) in
        let a_wait := wait_actions containerId a_wait0 in
        let rm := removeContainer containerId in
        match p_wait with
        | Pending => (first_of early Pending, a_run ++ a_wait)
        | Rejected e => (first_of early (Rejected e), a_run ++ a_wait ++ rm)
        | Resolved waited =>
            if failed waited then
              (first_of early (Rejected (RejValue (Exec.result_object waited))),
               a_run ++ a_wait ++ rm ++ rm)
            else
              let returnValue := Js.parseInt (Exec.stdout waited) in
              let (p_logs, a_logs) :=
                Exec.execute "docker" ["logs"; containerId] o (docker_logs w) in
              match p_logs with
              | Pending => (first_of early Pending, a_run ++ a_wait ++ a_logs)
              | Rejected e =>
                  (first_of early (Rejected e), a_run ++ a_wait ++ a_logs ++ rm)
              | Resolved logged =>
                  if failed logged then
                    (first_of early (Rejected (RejValue (Exec.result_object logged))),
                     a_run ++ a_wait ++ a_logs ++ rm ++ rm)
                  else
                    (first_of early
                       (Resolved (log_result logged returnValue (killed a_wait0) timeoutMs)),
                     a_run ++ a_wait ++ a_logs ++ rm)
              end
        end
    end.

End Sandbox.

(* ===================================================================== *)
(** * Regular expressions, as far as [checkSource] needs them *)
(* ===================================================================== *)

Module Regex.

Inductive re : Type :=
| Void                              (* matches nothing *)
| Eps                               (* matches the empty string *)
| Class (p : ascii -> bool)         (* one character of a class *)
| Seq (r1 r2 : re)
| Alt (r1 r2 : re)
| Star (r : re).

Definition chr (c : ascii) : re := Class (Ascii.eqb c).

Fixpoint lit (s : string) : re :=
  match s with
  | EmptyString => Eps
  | String a rest => Seq (chr a) (lit rest)
  end.

Definition opt (r : re) : re := Alt r Eps.
Definition plus (r : re) : re := Seq r (Star r).

(** [\s]. *)
Definition space : re := Class Js.is_space.

(** [.]: any character but a line terminator. *)
Definition dot : re :=
  Class (fun a => negb ((nat_of_ascii a =? 10)%nat || (nat_of_ascii a =? 13)%nat)).

Fixpoint nullable (r : re) : bool :=
  match r with
  | Void => false
  | Eps => true
  | Class _ => false
  | Seq r1 r2 => nullable r1 && nullable r2
  | Alt r1 r2 => nullable r1 || nullable r2
  | Star _ => true
  end.

(** Brzozowski's derivative: what is left to match after reading [a]. *)
Fixpoint deriv (a : ascii) (r : re) : re :=
  match r with
  | Void => Void
  | Eps => Void
  | Class p => if p a then Eps else Void
  | Seq r1 r2 =>
      if nullable r1 then Alt (Seq (deriv a r1) r2) (deriv a r2)
      else Seq (deriv a r1) r2
  | Alt r1 r2 => Alt (deriv a r1) (deriv a r2)
  | Star r1 => Seq (deriv a r1) (Star r1)
  end.

(** [r] matches the whole of [s]. *)
Fixpoint matches (r : re) (s : string) : bool :=
  match s with
  | EmptyString => nullable r
  | String a rest => matches (deriv a r) rest
  end.

(** [s.match(/^r/)] is not null: [r] matches at the start of [s], whatever
    follows. *)
Fixpoint matches_at_start (r : re) (s : string) : bool :=
  nullable r ||
  match s with
  | EmptyString => false
  | String a rest => matches_at_start (deriv a r) rest
  end.

End Regex.

(* ===================================================================== *)
(** * lib/base-compiler.js: the compiler driver *)
(* ===================================================================== *)

Module Compiler.

(** The compiler descriptor ([this.compiler]): the properties
    [compilerConfigFor] creates, in its order, then those added later
    ([version] by [initialise], [supportedOptions], [optArg] and
    [supportsOptOutput] by the argument parser, [remote] for a peer's
    compiler).  [None] is [undefined], except for [exe] where it is [null]. *)
Record Descriptor : Type := {
  id : string;
  exe : option string;
  name : string;
  alias : option string;
  options : option string;
  versionFlag : option string;
  versionRe : option string;
  compilerType : string;
  demangler : string;
  objdumper : string;
  intelAsm : string;
  needsMulti : bool;
  supportsBinary : bool;
  supportsExecute : bool;
  supportsIntelAsm : bool;
  postProcess : list string;
  version : option string;
  supportedOptions : jsval;
  optArg : option string;
  supportsOptOutput : option bool;
  remote : option string
}.

Definition opt_bool (o : option bool) : jsval :=
  match o with Some b => JBool b | None => JUndef end.

(** The descriptor as the object [JSON.stringify] walks. *)
Definition descriptor_object (c : Descriptor) : jsval :=
  JObj [("id", JStr (id c));
        ("exe", Json.str_or_null (exe c));
        ("name", JStr (name c));
        ("alias", Json.opt_str (alias c));
        ("options", Json.opt_str (options c));
        ("versionFlag", Json.opt_str (versionFlag c));
        ("versionRe", Json.opt_str (versionRe c));
        ("compilerType", JStr (compilerType c));
        ("demangler", JStr (demangler c));
        ("objdumper", JStr (objdumper c));
        ("intelAsm", JStr (intelAsm c));
        ("needsMulti", JBool (needsMulti c));
        ("supportsBinary", JBool (supportsBinary c));
        ("supportsExecute", JBool (supportsExecute c));
        ("supportsIntelAsm", JBool (supportsIntelAsm c));
        ("postProcess", Json.strings (postProcess c));
        ("version", Json.opt_str (version c));
        ("supportedOptions", supportedOptions c);
        ("optArg", Json.opt_str (optArg c));
        ("supportsOptOutput", opt_bool (supportsOptOutput c));
        ("remote", Json.opt_str (remote c))].

(** [this.compiler.version = version]. *)
Definition set_version (v : string) (c : Descriptor) : Descriptor :=
  {| id := id c; exe := exe c; name := name c; alias := alias c; options := options c;
     versionFlag := versionFlag c; versionRe := versionRe c;
     compilerType := compilerType c; demangler := demangler c;
     objdumper := objdumper c; intelAsm := intelAsm c; needsMulti := needsMulti c;
     supportsBinary := supportsBinary c; supportsExecute := supportsExecute c;
     supportsIntelAsm := supportsIntelAsm c; postProcess := postProcess c;
     version := Some v;
     supportedOptions := supportedOptions c; optArg := optArg c;
     supportsOptOutput := supportsOptOutput c; remote := remote c |}.

(** [delete compiler.compiler.supportedOptions]. *)
Definition delete_supportedOptions (c : Descriptor) : Descriptor :=
  {| id := id c; exe := exe c; name := name c; alias := alias c; options := options c;
     versionFlag := versionFlag c; versionRe := versionRe c;
     compilerType := compilerType c; demangler := demangler c;
     objdumper := objdumper c; intelAsm := intelAsm c; needsMulti := needsMulti c;
     supportsBinary := supportsBinary c; supportsExecute := supportsExecute c;
     supportsIntelAsm := supportsIntelAsm c; postProcess := postProcess c;
     version := version c;
     supportedOptions := JUndef; optArg := optArg c;
     supportsOptOutput := supportsOptOutput c; remote := remote c |}.

(** A filter set is an object of flags. *)
Definition Filters : Type := list (string * jsval).

(** The result object of a compile, with every property the driver sets on
    it.  [None] and [JUndef] are [undefined]. *)
Record Result : Type := {
  status : option Z;
  signal : option string;
  stdout : jsval;
  stderr : jsval;
  okToCache : bool;
  dirPath : option string;
  asm : jsval;
  output_file_path : option string;
  hasOptOutput : option bool;
  optPath : option string;
  hasAstOutput : option bool;
  astOutput : option string;
  optOutput : jsval;
  execResult : jsval;
  supportsCfg : option bool;
  cfg : jsval
}.

Definition set_dirPath (v : option string) (r : Result) : Result :=
  {| status := status r; signal := signal r; stdout := stdout r; stderr := stderr r;
     okToCache := okToCache r; dirPath := v; asm := asm r; output_file_path :=
     output_file_path r; hasOptOutput := hasOptOutput r; optPath := optPath r;
     hasAstOutput := hasAstOutput r; astOutput := astOutput r; optOutput := optOutput r;
     execResult := execResult r; supportsCfg := supportsCfg r; cfg := cfg r |}.

Definition set_asm (v : jsval) (r : Result) : Result :=
  {| status := status r; signal := signal r; stdout := stdout r; stderr := stderr r;
     okToCache := okToCache r; dirPath := dirPath r; asm := v; output_file_path :=
     output_file_path r; hasOptOutput := hasOptOutput r; optPath := optPath r;
     hasAstOutput := hasAstOutput r; astOutput := astOutput r; optOutput := optOutput r;
     execResult := execResult r; supportsCfg := supportsCfg r; cfg := cfg r |}.

Definition set_output_file_path (v : option string) (r : Result) : Result :=
  {| status := status r; signal := signal r; stdout := stdout r; stderr := stderr r;
     okToCache := okToCache r; dirPath := dirPath r; asm := asm r; output_file_path :=
     v; hasOptOutput := hasOptOutput r; optPath := optPath r; hasAstOutput :=
     hasAstOutput r; astOutput := astOutput r; optOutput := optOutput r; execResult :=
     execResult r; supportsCfg := supportsCfg r; cfg := cfg r |}.

Definition set_hasOptOutput (v : option bool) (r : Result) : Result :=
  {| status := status r; signal := signal r; stdout := stdout r; stderr := stderr r;
     okToCache := okToCache r; dirPath := dirPath r; asm := asm r; output_file_path :=
     output_file_path r; hasOptOutput := v; optPath := optPath r; hasAstOutput :=
     hasAstOutput r; astOutput := astOutput r; optOutput := optOutput r; execResult :=
     execResult r; supportsCfg := supportsCfg r; cfg := cfg r |}.

Definition set_optPath (v : option string) (r : Result) : Result :=
  {| status := status r; signal := signal r; stdout := stdout r; stderr := stderr r;
     okToCache := okToCache r; dirPath := dirPath r; asm := asm r; output_file_path :=
     output_file_path r; hasOptOutput := hasOptOutput r; optPath := v; hasAstOutput :=
     hasAstOutput r; astOutput := astOutput r; optOutput := optOutput r; execResult :=
     execResult r; supportsCfg := supportsCfg r; cfg := cfg r |}.

Definition set_hasAstOutput (v : option bool) (r : Result) : Result :=
  {| status := status r; signal := signal r; stdout := stdout r; stderr := stderr r;
     okToCache := okToCache r; dirPath := dirPath r; asm := asm r; output_file_path :=
     output_file_path r; hasOptOutput := hasOptOutput r; optPath := optPath r;
     hasAstOutput := v; astOutput := astOutput r; optOutput := optOutput r; execResult
     := execResult r; supportsCfg := supportsCfg r; cfg := cfg r |}.

Definition set_astOutput (v : option string) (r : Result) : Result :=
  {| status := status r; signal := signal r; stdout := stdout r; stderr := stderr r;
     okToCache := okToCache r; dirPath := dirPath r; asm := asm r; output_file_path :=
     output_file_path r; hasOptOutput := hasOptOutput r; optPath := optPath r;
     hasAstOutput := hasAstOutput r; astOutput := v; optOutput := optOutput r;
     execResult := execResult r; supportsCfg := supportsCfg r; cfg := cfg r |}.

Definition set_optOutput (v : jsval) (r : Result) : Result :=
  {| status := status r; signal := signal r; stdout := stdout r; stderr := stderr r;
     okToCache := okToCache r; dirPath := dirPath r; asm := asm r; output_file_path :=
     output_file_path r; hasOptOutput := hasOptOutput r; optPath := optPath r;
     hasAstOutput := hasAstOutput r; astOutput := astOutput r; optOutput := v;
     execResult := execResult r; supportsCfg := supportsCfg r; cfg := cfg r |}.

Definition set_execResult (v : jsval) (r : Result) : Result :=
  {| status := status r; signal := signal r; stdout := stdout r; stderr := stderr r;
     okToCache := okToCache r; dirPath := dirPath r; asm := asm r; output_file_path :=
     output_file_path r; hasOptOutput := hasOptOutput r; optPath := optPath r;
     hasAstOutput := hasAstOutput r; astOutput := astOutput r; optOutput := optOutput r;
     execResult := v; supportsCfg := supportsCfg r; cfg := cfg r |}.

Definition set_supportsCfg (v : option bool) (r : Result) : Result :=
  {| status := status r; signal := signal r; stdout := stdout r; stderr := stderr r;
     okToCache := okToCache r; dirPath := dirPath r; asm := asm r; output_file_path :=
     output_file_path r; hasOptOutput := hasOptOutput r; optPath := optPath r;
     hasAstOutput := hasAstOutput r; astOutput := astOutput r; optOutput := optOutput r;
     execResult := execResult r; supportsCfg := v; cfg := cfg r |}.

Definition set_cfg (v : jsval) (r : Result) : Result :=
  {| status := status r; signal := signal r; stdout := stdout r; stderr := stderr r;
     okToCache := okToCache r; dirPath := dirPath r; asm := asm r; output_file_path :=
     output_file_path r; hasOptOutput := hasOptOutput r; optPath := optPath r;
     hasAstOutput := hasAstOutput r; astOutput := astOutput r; optOutput := optOutput r;
     execResult := execResult r; supportsCfg := supportsCfg r; cfg := v |}.

(** The outcome of a callback-style file operation. *)
Inductive Fs (A : Type) : Type :=
| Done (a : A)
| Failed (err : string)
| Never.

Arguments Done {A} a.
Arguments Failed {A} err.
Arguments Never {A}.

(** What the driver does to the outside, in order. *)
Inductive Effect : Type :=
| CacheGet (key : string)
| CachePut (key : string) (r : Result)
| Enqueue
| MkTemp
| WriteFile (path data : string)
| Proc (a : Exec.Action)            (* a process runner's action *)
| RunSandbox (executable : string)  (* [exec.sandbox] is called *)
| ExistsSync (path : string)
| Stat (path : string)
| ReadFile (path : string)
| ReadOptRecords (path : string)
| RemoveDir (path : string).

(** The environment ([this.env]), the configuration it serves and the
    modules of the repository the driver calls but that are not part of the
    sources at hand: [utils.splitLines], [utils.parseOutput],
    [asm.AsmParser.process], [cfg.ControlFlowGraph.generateCfgStructure];
    Node's [path.join].  [couldSupportASTDump] and [processAstOutput] stand
    for the driver's own functions of these names; nothing below depends on
    what they compute.  The cache is any type with a get and a put. *)
Record Env (Cache : Type) : Type := {
  findBadOptions : list string -> list string;
  stubRe_matches : string -> bool;     (* [source.match(compilerProps("stubRe"))] *)
  stubText : string;
  compileFilename : string;
  compileTimeoutMs : Z;                (* [gccProps("compileTimeoutMs", 100)] *)
  maxAsmSize : Z;                      (* [gccProps("max-asm-size", 8 MiB)] *)
  maxExecutableOutputSize : Z;         (* [gccProps("max-executable-output-size", 32 KiB)] *)
  getEnv : bool -> jsval;
  compilerWrapper : option string;     (* [compilerProps("compiler-wrapper")] *)
  cacheGet : Cache -> string -> option Result;
  cachePut : Cache -> string -> Result -> Cache;
  splitLines : string -> list string;
  parseOutput : string -> option string -> jsval;
  asmProcess : jsval -> Filters -> jsval;
  generateCfgStructure : string -> jsval -> jsval;
  path_join : string -> string -> string;
  couldSupportASTDump : list string -> string -> bool;
  processAstOutput : jsval -> string
}.

(** What the outside answers during one compile. *)
Record World : Type := {
  tempDir : Fs string;                     (* [temp.mkdir] *)
  written : Fs unit;                       (* [fs.writeFile] of the input *)
  main_events : list Exec.Event;           (* the compiler *)
  ast_events : list Exec.Event;            (* the compiler, dumping the AST *)
  opt_exists : bool;                       (* [fs.existsSync(optPath)] *)
  opt_records : Settle jsval;              (* [processOptOutput]'s promise *)
  output_stat : Fs Z;                      (* [fs.stat(outputFilename)].size *)
  output_read : Fs string;                 (* [fs.readFile(outputFilename)] *)
  objdump_events : list Exec.Event;
  post_events : list Exec.Event;           (* the [bash -c] post-processing *)
  demangle_events : list Exec.Event;
  sandbox_world : Sandbox.World
}.

(** ** Promises with the effects performed on the way *)

Definition Task (A : Type) : Type := (Settle A * list Effect)%type.

Definition ret {A : Type} (a : A) : Task A := (Resolved a, []).

(** [p.then(k)]. *)
Definition bind {A B : Type} (m : Task A) (k : A -> Task B) : Task B :=
  match fst m with
  | Resolved a => let r := k a in (fst r, snd m ++ snd r)
  | Rejected e => (Rejected e, snd m)
  | Pending => (Pending, snd m)
  end.

Notation "x <- m ;; k" := (bind m (fun x => k))
  (at level 61, m at next level, right associativity).

Definition effect (e : Effect) : Task unit := (Resolved tt, [e]).

(** [Promise.all([a, b])]: both have been started; a rejection settles it
    even while the other is pending.  When both reject, the model takes the
    first of the array. *)
Definition both {A B : Type} (a : Task A) (b : Task B) : Task (A * B) :=
  (match fst a, fst b with
   | Resolved x, Resolved y => Resolved (x, y)
   | Rejected e, _ => Rejected e
   | _, Rejected e => Rejected e
   | _, _ => Pending
   end, snd a ++ snd b).

Definition of_fs {A : Type} (f : Fs A) : Settle A :=
  match f with
  | Done a => Resolved a
  | Failed err => Rejected (RejError err)
  | Never => Pending
  end.

(** ** The driver's functions *)

(** [Compile.prototype.getRemote]. *)
Definition getRemote (c : Descriptor) : option string :=
  match exe c, remote c with
  | None, Some r => if Js.nonempty r then Some r else None
  | _, _ => None
  end.

(** [Compile.prototype.getDefaultFilters]. *)
Definition getDefaultFilters : Filters :=
  [("intel", JBool true);
   ("commentOnly", JBool true);
   ("directives", JBool true);
   ("labels", JBool true);
   ("optOutput", JBool false)].

(** [Compile.prototype.optOutputRequested]. *)
Definition optOutputRequested (opts : list string) : bool :=
  existsb (String.eqb "-fsave-optimization-record") opts.

(** [Compile.prototype.supportsObjdump]. *)
Definition supportsObjdump (c : Descriptor) : bool := Js.nonempty (objdumper c).

(** [Compile.prototype.isCfgCompiler]. *)
Definition isCfgCompiler (compilerVersion : string) : bool :=
  Js.includes "clang" compilerVersion || Js.starts_with "g++" compilerVersion.

(** [Compile.prototype.optionsForFilter]. *)
Definition optionsForFilter (c : Descriptor) (filters : Filters)
    (outputFilename : string) : list string :=
  let opts := ["-g"; "-o"; outputFilename] in
  let opts :=
    if Js.nonempty (intelAsm c) && Obj.flag "intel" filters &&
       negb (Obj.flag "binary" filters)
    then opts ++ Js.split_on " " (intelAsm c)
    else opts in
  if Obj.flag "binary" filters then
    if negb (Obj.flag "link" filters) then opts ++ ["-c"] else opts
  else opts ++ ["-S"].

(** [Compile.prototype.prepareArguments].  An [optArg] that is [undefined]
    would be concatenated as such and dropped by the [filter(_.identity)]
    that follows the only call; here it is dropped at once. *)
Definition prepareArguments (c : Descriptor) (userOptions : list string)
    (filters : Filters) (backendOptions : jsval)
    (inputFilename outputFilename : string) : list string :=
  let opts := optionsForFilter c filters outputFilename in
  let opts :=
    match options c with
    | Some o => if Js.nonempty o then opts ++ Js.split_on " " o else opts
    | None => opts
    end in
  let opts :=
    if match supportsOptOutput c with Some b => b | None => false end &&
       Obj.truthy (Obj.field "produceOptInfo" backendOptions)
    then opts ++ match optArg c with Some a => [a] | None => [] end
    else opts in
  opts ++ userOptions ++ [inputFilename].

(** [Compile.prototype.checkOptions]. *)
Definition checkOptions {Cache : Type} (E : Env Cache) (userOptions : list string)
  : option string :=
  let error := findBadOptions E userOptions in
  match error with
  | [] => None
  | _ :: _ => Some ("Bad options: " ++ Js.join ", " error)%string
  end.

(** The regular expression of [checkSource]:
    [/^\s*#\s*i(nclude|mport)(_next)?\s+["<"](\/|.*\.\.)/]. *)
Definition include_re : Regex.re :=
  Regex.Seq (Regex.Star Regex.space)
  (Regex.Seq (Regex.chr "#")
  (Regex.Seq (Regex.Star Regex.space)
  (Regex.Seq (Regex.chr "i")
  (Regex.Seq (Regex.Alt (Regex.lit "nclude") (Regex.lit "mport"))
  (Regex.Seq (Regex.opt (Regex.lit "_next"))
  (Regex.Seq (Regex.plus Regex.space)
  (Regex.Seq (Regex.Class (fun a => Ascii.eqb a (ascii_of_nat 34) || Ascii.eqb a "<"))
             (Regex.Alt (Regex.chr "/")
                        (Regex.Seq (Regex.Star Regex.dot) (Regex.lit ".."))))))))))%char.

(** [line.match(re)] is not null. *)
Definition forbidden_include (line : string) : bool :=
  Regex.matches_at_start include_re line.

Definition include_diagnostic (index : nat) : string :=
  ("<stdin>:" ++ Js.show (Z.of_nat index + 1) ++
   ":1: no absolute or relative includes please")%string.

(** The [forEach] of [checkSource]: the diagnostics pushed for the lines
    from [index] on. *)
Fixpoint failed_lines (index : nat) (lines : list string) : list string :=
  match lines with
  | [] => []
  | line :: rest =>
      (if forbidden_include line then [include_diagnostic index] else []) ++
      failed_lines (S index) rest
  end.

(** The indices, counted from [index], of the lines [checkSource] refuses. *)
Fixpoint offending (index : nat) (lines : list string) : list nat :=
  match lines with
  | [] => []
  | line :: rest =>
      (if forbidden_include line then [index] else []) ++ offending (S index) rest
  end.

(** [Compile.prototype.checkSource]. *)
Definition checkSource {Cache : Type} (E : Env Cache) (source : string) : option string :=
  let failed := failed_lines 0 (splitLines E source) in
  match failed with
  | [] => None
  | _ :: _ => Some (Js.join Json.nl failed)
  end.

(** The cache key of [compile]. *)
Definition fingerprint (c : Descriptor) (source : string) (userOptions : list string)
    (backendOptions : jsval) (filters : Filters) : string :=
  match Json.stringify
          (JObj [("compiler", descriptor_object c);
                 ("source", JStr source);
                 ("options", Json.strings userOptions);
                 ("backendOptions", backendOptions);
                 ("filters", JObj filters)]) with
  | Some k => k
  | None => ""
  end.

(** [Compile.prototype.getDefaultExecOptions]; its [maxErrorOutput] is a
    property [execute] never reads. *)
Definition getDefaultExecOptions {Cache : Type} (E : Env Cache) (c : Descriptor)
  : Exec.Options :=
  {| Exec.maxOutput := None;
     Exec.timeoutMs := Some (compileTimeoutMs E);
     Exec.env := getEnv E (needsMulti c);
     Exec.wrapper := compilerWrapper E;
     Exec.input := None;
     Exec.killChild := false |}.

(** [Compile.prototype.exec]: the process runner, its actions recorded. *)
Definition exec (command : string) (args : list string) (o : Exec.Options)
    (evs : list Exec.Event) : Task Exec.Result :=
  let r := Exec.execute command args o evs in (fst r, map Proc (snd r)).

(** The result object once [runCompiler] has parsed its two streams. *)
Definition parsed {Cache : Type} (E : Env Cache) (inputFilename : option string)
    (r : Exec.Result) : Result :=
  {| status := Exec.status r;
     signal := Exec.signal r;
     stdout := parseOutput E (Exec.stdout r) inputFilename;
     stderr := parseOutput E (Exec.stderr r) inputFilename;
     okToCache := Exec.okToCache r;
     dirPath := None; asm := JUndef; output_file_path := None;
     hasOptOutput := None; optPath := None; hasAstOutput := None;
     astOutput := None; optOutput := JUndef; execResult := JUndef;
     supportsCfg := None; cfg := JUndef |}.

(** [Compile.prototype.runCompiler]. *)
Definition runCompiler {Cache : Type} (E : Env Cache) (compiler : string)
    (args : list string) (inputFilename : string) (execOptions : Exec.Options)
    (evs : list Exec.Event) : Task Result :=
  result <- exec compiler args execOptions evs ;;
  ret (parsed E (Some inputFilename) result).

(** [asmResult.signal || asmResult.status !== 0]. *)
Definition failed (r : Result) : bool :=
  match signal r with
  | Some s => Js.nonempty s
  | None => false
  end ||
  match status r with
  | Some z => negb (z =? 0)%Z
  | None => true
  end.

(** [util.format("%d", status)]: [null] prints as a zero. *)
Definition show_status (st : option Z) : string :=
  match st with Some z => Js.show z | None => "0" end.

Definition signal_of (r : Exec.Result) : option string :=
  match Exec.signal r with
  | Some s => if Js.nonempty s then Some s else None
  | None => None
  end.

Definition status_ok (r : Exec.Result) : bool :=
  match Exec.status r with Some z => (z =? 0)%Z | None => false end.

(** The [asm] that [objdump]'s callback stores. *)
Definition objdump_asm (objResult : Exec.Result) : string :=
  match signal_of objResult with
  | Some s => ("<objdump failed due to " ++ s ++ ">")%string
  | None =>
      if status_ok objResult then Exec.stdout objResult
      else ("<objdump exited with status " ++ show_status (Exec.status objResult) ++ ">")%string
  end.

(** [Compile.prototype.objdump]: the promise of the [asm] stored in the
    shared result. *)
Definition objdump (c : Descriptor) (W : World) (outputFilename : string)
    (maxSize : Z) (intelAsm demangle : bool) : Task string :=
  let args := ["-d"; outputFilename; "-l"; "--insn-width=16"] in
  let args := if demangle then args ++ ["-C"] else args in
  let args := if intelAsm then args ++ ["-M"; "intel"] else args in
  objResult <-
    exec (objdumper c) args
      {| Exec.maxOutput := Some maxSize; Exec.timeoutMs := None; Exec.env := JUndef;
         Exec.wrapper := None; Exec.input := None; Exec.killChild := false |}
      (objdump_events W) ;;
  ret (objdump_asm objResult).

(** [Compile.prototype.handlePostProcessResult]: the [asm] it stores. *)
Definition handlePostProcessResult (postResult : Exec.Result) : string :=
  match signal_of postResult with
  | Some s => ("<Error during post processing: " ++ s ++ ">")%string
  | None =>
      if status_ok postResult then Exec.stdout postResult
      else ("<Error during post processing: status " ++
            show_status (Exec.status postResult) ++ ">")%string
  end.

(** The failure object of [execBinary]'s [catch]. *)
Definition exec_failure (e : Rejection) : jsval :=
  JObj [("stdout", JArr []);
        ("stderr", message_of e);
        ("status", JNull);
        ("signal", JNull)].

(** The sandbox's result once [execBinary] has parsed its two streams. *)
Definition exec_success {Cache : Type} (E : Env Cache) (execResult : jsval) : jsval :=
  let parse v :=
    match v with
    | JStr s => parseOutput E s None
    | other => other
    end in
  match execResult with
  | JObj props =>
      JObj (Obj.set "stderr" (parse (Obj.field "stderr" execResult))
             (Obj.set "stdout" (parse (Obj.field "stdout" execResult)) props))
  | other => other
  end.

(** The options [execBinary] passes to the sandbox. *)
Definition sandboxOptions (maxSize : Z) : Exec.Options :=
  {| Exec.maxOutput := Some maxSize; Exec.timeoutMs := Some 60000%Z;
     Exec.env := JUndef; Exec.wrapper := None; Exec.input := None;
     Exec.killChild := false |}.

(** [Compile.prototype.execBinary]: the promise of the [execResult] stored
    in the shared result.  The [catch] turns a rejection of the sandbox into
    a value. *)
Definition execBinary {Cache : Type} (E : Env Cache) (W : World) (executable : string)
    (maxSize : Z) : Task jsval :=
  let r := Sandbox.sandbox (sandbox_world W) executable [] (sandboxOptions maxSize) in
  (match fst r with
   | Resolved execResult => Resolved (exec_success E execResult)
   | Rejected e => Resolved (exec_failure e)
   | Pending => Pending
   end, RunSandbox executable :: map Proc (snd r)).

(** The [asmPromise] of [postProcess] when objdump is not used: stat the
    output, then run the post-processing pipeline or read the file. *)
Definition readOutput {Cache : Type} (E : Env Cache) (W : World)
    (outputFilename : string) (maxSize : Z) (stages : list string) : Task string :=
  match output_stat W with
  | Never => (Pending, [Stat outputFilename])
  | Failed _ => (Resolved "<No output file>", [Stat outputFilename])
  | Done size =>
      if (size >=? maxSize)%Z then
        (Resolved ("<No output: generated assembly was too large (" ++ Js.show size ++
                   " > " ++ Js.show maxSize ++ " bytes)>")%string,
         [Stat outputFilename])
      else
        match stages with
        | _ :: _ =>
            let postCommand :=
              ("cat " ++ Json.dquote ++ outputFilename ++ Json.dquote ++ " | " ++
               Js.join " | " stages)%string in
            _ <- effect (Stat outputFilename) ;;
            postResult <-
              exec "bash" ["-c"; postCommand]
                {| Exec.maxOutput := Some maxSize; Exec.timeoutMs := None;
                   Exec.env := JUndef; Exec.wrapper := None; Exec.input := None;
                   Exec.killChild := false |}
                (post_events W) ;;
            ret (handlePostProcessResult postResult)
        | [] =>
            (of_fs (output_read W), [Stat outputFilename; ReadFile outputFilename])
        end
  end.

(** The condition under which [postProcess] runs the produced binary. *)
Definition wants_execution (c : Descriptor) (filters : Filters) : bool :=
  supportsExecute c && Obj.flag "binary" filters && Obj.flag "link" filters &&
  Obj.flag "execute" filters.

(** [Compile.prototype.postProcess].  The three promises are created in the
    order opt, asm, exec; [asmPromise] and [execPromise] both write into the
    one result object ([asm], [execResult]) and [Promise.all] hands that
    object back as its first item, so the result returned here carries both
    writes; the second component is the opt-record output. *)
Definition postProcessResult {Cache : Type} (E : Env Cache) (c : Descriptor) (W : World)
    (result : Result) (outputFilename : string) (filters : Filters)
  : Task (Result * jsval) :=
  let stages := Js.compact (postProcess c) in
  let maxSize := maxAsmSize E in
  let optPromise : Task jsval :=
    match hasOptOutput result with
    | Some true =>
        (opt_records W,
         [ReadOptRecords (match optPath result with Some p => p | None => "" end)])
    | _ => ret (JStr "")
    end in
  let asmPromise : Task string :=
    if Obj.flag "binary" filters && supportsObjdump c then
      objdump c W outputFilename maxSize (Obj.flag "intel" filters)
        (Obj.flag "demangle" filters)
    else readOutput E W outputFilename maxSize stages in
  let execPromise : Task (option jsval) :=
    if wants_execution c filters then
      execResult <- execBinary E W outputFilename (maxExecutableOutputSize E) ;;
      ret (Some execResult)
    else ret None in
  (match fst asmPromise, fst optPromise, fst execPromise with
   | Resolved a, Resolved o, Resolved x =>
       Resolved (match x with
                 | Some execResult => set_execResult execResult (set_asm (JStr a) result)
                 | None => set_asm (JStr a) result
                 end, o)
   | Rejected e, _, _ => Rejected e
   | _, Rejected e, _ => Rejected e
   | _, _, Rejected e => Rejected e
   | _, _, _ => Pending
   end,
   snd optPromise ++ snd asmPromise ++ snd execPromise).

(** [Compile.prototype.newTempDir]. *)
Definition newTempDir (W : World) : Task string :=
  (match tempDir W with
   | Done dirPath => Resolved dirPath
   | Failed err => Rejected (RejString ("Unable to open temp file: " ++ err)%string)
   | Never => Pending
   end, [MkTemp]).

(** [tempFileAndDirPromise]: the input file name and the directory. *)
Definition tempFileAndDir {Cache : Type} (E : Env Cache) (W : World) (source : string)
  : Task (string * string) :=
  dirPath <- newTempDir W ;;
  let inputFilename := path_join E dirPath (compileFilename E) in
  _ <- (of_fs (written W), [WriteFile inputFilename source]) ;;
  ret (inputFilename, dirPath).

(** The argument vector [compile] hands to [runCompiler]:
    [prepareArguments(...)] then [options.filter(_.identity)]. *)
Definition compilerArguments (c : Descriptor) (userOptions : list string)
    (filters : Filters) (backendOptions : jsval)
    (inputFilename outputFilename : string) : list string :=
  Js.compact
    (prepareArguments c userOptions filters backendOptions inputFilename outputFilename).

(** [Compile.prototype.generateAST]. *)
Definition generateAST {Cache : Type} (E : Env Cache) (c : Descriptor) (W : World)
    (compiler : string) (inputFilename : string) (opts : list string) : Task string :=
  let newOptions := opts ++ ["-Xclang"; "-ast-dump"; "-fsyntax-only"] in
  let d := getDefaultExecOptions E c in
  let execOptions :=
    {| Exec.maxOutput := Some (1024 * 1024 * 1024)%Z;
       Exec.timeoutMs := Exec.timeoutMs d; Exec.env := Exec.env d;
       Exec.wrapper := Exec.wrapper d; Exec.input := Exec.input d;
       Exec.killChild := Exec.killChild d |} in
  output <- runCompiler E compiler newOptions inputFilename execOptions (ast_events W) ;;
  ret (processAstOutput E (stdout output)).

(** [astPromise]: the AST probe when it is asked for and the compiler is a
    recent clang. *)
Definition astProbe {Cache : Type} (E : Env Cache) (c : Descriptor) (W : World)
    (compiler inputFilename : string) (opts : list string) (backendOptions : jsval)
  : Task string :=
  let compilerVersion := match version c with Some v => v | None => "" end in
  if Obj.truthy backendOptions && Obj.truthy (Obj.field "produceAst" backendOptions)
  then
    if couldSupportASTDump E opts compilerVersion
    then generateAST E c W compiler inputFilename opts
    else ret "AST output is only supported in Clang >= 3.3"
  else ret "".

(** The callback on [Promise.all([asmPromise, astPromise])]: the failed
    compile is returned as it is, the successful one goes through
    [postProcess]. *)
Definition onCompiled {Cache : Type} (E : Env Cache) (c : Descriptor) (W : World)
    (filters : Filters) (opts : list string) (dirPath outputFilename : string)
    (results : Result * string) : Task (Result * jsval) :=
  let outputFilebase := "output" in
  let asmResult := set_dirPath (Some dirPath) (fst results) in
  let astResult := snd results in
  if failed asmResult then
    ret (set_asm (JStr "<Compilation failed>") asmResult, JUndef)
  else
    let asmResult := set_output_file_path (Some outputFilename) asmResult in
    let asmResult := set_hasOptOutput (Some false) asmResult in
    let optPath := path_join E dirPath (outputFilebase ++ ".opt.yaml")%string in
    let wantsOpt :=
      match supportsOptOutput c with Some b => b | None => false end &&
      optOutputRequested opts in
    let asmResult :=
      if wantsOpt && opt_exists W
      then set_optPath (Some optPath) (set_hasOptOutput (Some true) asmResult)
      else asmResult in
    let asmResult :=
      if Js.nonempty astResult
      then set_astOutput (Some astResult) (set_hasAstOutput (Some true) asmResult)
      else asmResult in
    _ <- (Resolved tt, if wantsOpt then [ExistsSync optPath] else []) ;;
    postProcessResult E c W asmResult outputFilename filters.

(** [compileToAsmPromise]: the main compile beside the AST probe, then the
    callback above.  [runCompiler] has put the compiler in front of the
    shared [options] array when a wrapper is configured
    ([args.unshift(command)] in [execute]), which the later readers of that
    array see. *)
Definition compileToAsm {Cache : Type} (E : Env Cache) (c : Descriptor) (W : World)
    (userOptions : list string) (backendOptions : jsval) (filters : Filters)
    (info : string * string) : Task (Result * jsval) :=
  let inputFilename := fst info in
  let dirPath := snd info in
  let outputFilename := path_join E dirPath "output" in
  let opts :=
    compilerArguments c userOptions filters backendOptions inputFilename outputFilename in
  match exe c with
  | None => (Rejected (RejError "spawn: the command is null"), [])
  | Some compiler =>
      let execOptions := getDefaultExecOptions E c in
      let asmPromise :=
        runCompiler E compiler opts inputFilename execOptions (main_events W) in
      let opts := Exec.spawned_args compiler opts execOptions in
      let astPromise := astProbe E c W compiler inputFilename opts backendOptions in
      results <- both asmPromise astPromise ;;
      onCompiled E c W filters opts dirPath outputFilename results
  end.

(** The first [then] after [compileToAsmPromise]. *)
Definition tidy {Cache : Type} (E : Env Cache) (filters : Filters)
    (results : Result * jsval) : Task Result :=
  let result := fst results in
  let optOutput := snd results in
  let step1 : Task Result :=
    if okToCache result then ret (set_asm (asmProcess E (asm result) filters) result)
    else
      let result := set_asm (JObj [("text", asm result)]) result in
      match dirPath result with
      | Some d =>
          if Js.nonempty d then (Resolved (set_dirPath None result), [RemoveDir d])
          else ret result
      | None => ret result
      end in
  result <- step1 ;;
  ret (match hasOptOutput result with
       | Some true => set_optOutput optOutput (set_optPath None result)
       | _ => result
       end).

Definition asm_items (v : jsval) : list jsval :=
  match v with JArr items => items | _ => [] end.

(** [_.pluck(result.asm, 'text').join("\n")]. *)
Definition plucked_text (v : jsval) : string :=
  Js.join Json.nl
    (map (fun item => match Obj.field "text" item with
                      | JStr s => s
                      | _ => ""
                      end) (asm_items v)).

(** [result.asm[i].text = lines[i]] for every [i]. *)
Fixpoint splice (items : list jsval) (lines : list string) : list jsval :=
  match items with
  | [] => []
  | item :: rest =>
      let text := match lines with l :: _ => JStr l | [] => JUndef end in
      match item with
      | JObj props => JObj (Obj.set "text" text props)
      | other => other
      end :: splice rest (tl lines)
  end.

(** [Compile.prototype.postProcessAsm]. *)
Definition postProcessAsm {Cache : Type} (E : Env Cache) (c : Descriptor) (W : World)
    (result : Result) : Task Result :=
  if negb (okToCache result) then ret result
  else if negb (Js.nonempty (demangler c)) then ret result
  else
    demangleResult <-
      exec (demangler c) []
        {| Exec.maxOutput := None; Exec.timeoutMs := None; Exec.env := JUndef;
           Exec.wrapper := None; Exec.input := Some (plucked_text (asm result));
           Exec.killChild := false |}
        (demangle_events W) ;;
    let lines := splitLines E (Exec.stdout demangleResult) in
    ret (match asm result with
         | JArr items => set_asm (JArr (splice items lines)) result
         | _ => result
         end).

(** The [then] that adds the control-flow graph. *)
Definition addCfg {Cache : Type} (E : Env Cache) (c : Descriptor) (filters : Filters)
    (result : Result) : Result :=
  let result := set_supportsCfg (Some false) result in
  let compilerVersion := match version c with Some v => v | None => "" end in
  if match status result with Some z => (z =? 0)%Z | None => false end &&
     negb (Obj.flag "binary" filters) && isCfgCompiler compilerVersion
  then set_supportsCfg (Some true)
         (set_cfg (generateCfgStructure E compilerVersion (asm result)) result)
  else result.

(** The filters after [delete filters.binary] for a compiler that does not
    support binaries. *)
Definition effective_filters (c : Descriptor) (filters : Filters) : Filters :=
  if Obj.flag "binary" filters && negb (supportsBinary c)
  then Obj.delete "binary" filters
  else filters.

(** The job [compile] puts on the queue, up to and including the last
    [then], which puts the result into the cache. *)
Definition job {Cache : Type} (E : Env Cache) (c : Descriptor) (W : World)
    (key source : string) (userOptions : list string) (backendOptions : jsval)
    (filters : Filters) : Task Result :=
  info <- tempFileAndDir E W source ;;
  results <- compileToAsm E c W userOptions backendOptions filters info ;;
  result <- tidy E filters results ;;
  result <- (if Obj.flag "demangle" filters then postProcessAsm E c W result
             else ret result) ;;
  let result := addCfg E c filters result in
  if okToCache result
  then (Resolved result, [CachePut key result])
  else ret result.

(** The key [compile] computes, after the binary flag was cleared. *)
Definition cacheKey (c : Descriptor) (source : string) (userOptions : list string)
    (backendOptions : jsval) (filters : Filters) : string :=
  fingerprint c source userOptions backendOptions (effective_filters c filters).

(** The source [compile] writes to the input file: with the configured
    stub when a binary is asked for and the source does not match [stubRe]. *)
Definition stubbed {Cache : Type} (E : Env Cache) (filters : Filters) (source : string)
  : string :=
  if Obj.flag "binary" filters && negb (stubRe_matches E source)
  then (source ++ Json.nl ++ stubText E ++ Json.nl)%string
  else source.

(** [Compile.prototype.compile]: the promise, the effects in order, and the
    cache afterwards. *)
Definition compile {Cache : Type} (E : Env Cache) (c : Descriptor) (W : World)
    (cache : Cache) (source : string) (userOptions : list string)
    (backendOptions : jsval) (filters : Filters)
  : Settle Result * list Effect * Cache :=
  match checkOptions E userOptions with
  | Some optionsError => (Rejected (RejString optionsError), [], cache)
  | None =>
      match checkSource E source with
      | Some sourceError => (Rejected (RejString sourceError), [], cache)
      | None =>
          let filters := effective_filters c filters in
          let key := fingerprint c source userOptions backendOptions filters in
          match cacheGet E cache key with
          | Some cached => (Resolved cached, [CacheGet key], cache)
          | None =>
              let source := stubbed E filters source in
              let queued :=
                job E c W key source userOptions backendOptions filters in
              (fst queued,
               [CacheGet key; Enqueue] ++ snd queued,
               match fst queued with
               | Resolved result =>
                   if okToCache result then cachePut E cache key result else cache
               | _ => cache
               end)
          end
      end
  end.

(** The version [initialise] picks: the match in the first line that has
    a non-empty one. *)
Fixpoint first_version (match0 : string -> option string) (lines : list string)
  : string :=
  match lines with
  | [] => ""
  | line :: rest =>
      match match0 line with
      | Some m => if Js.nonempty m then m else first_version match0 rest
      | None => first_version match0 rest
      end
  end.

(** How a call that may throw ends: with the exception, or with what it
    returns. *)
Inductive Call (A : Type) : Type :=
| Throws (what : string)
| Returns (value : A).

Arguments Throws {A} what.
Arguments Returns {A} value.

(** [s.toLowerCase()] on the code units below 256: the letters A to Z and
    the capital letters of Latin-1 become small. *)
Definition lower_case (a : ascii) : ascii :=
  let n := nat_of_ascii a in
  if ((65 <=? n) && (n <=? 90))%nat ||
     ((192 <=? n) && (n <=? 222) && negb (n =? 215))%nat
  then ascii_of_nat (n + 32) else a.

Fixpoint toLowerCase (s : string) : string :=
  match s with
  | EmptyString => ""
  | String a rest => String (lower_case a) (toLowerCase rest)
  end.

(** The parsers of lib/compilers/argument-parsers, which is not among the
    sources.  A parser is given the compiler and returns a promise of it;
    what it does on the way (the specification has it run the compiler
    with a help flag and read the options off the output) is its own: the
    effects it has, and the [supportedOptions], [optArg],
    [supportsOptOutput] and [options] it may set. *)
Record ArgumentParsers : Type := {
  clang : Descriptor -> Task Descriptor;
  gcc : Descriptor -> Task Descriptor
}.

(** [Compile.prototype.getArgumentParser], for an [exe] that is a string. *)
Definition getArgumentParser (argumentParsers : ArgumentParsers) (exe : string)
  : Descriptor -> Task Descriptor :=
  let exe := toLowerCase exe in
  if Js.includes "clang" exe then clang argumentParsers
  else if Js.includes "g++" exe || Js.includes "gcc" exe then gcc argumentParsers
  else gcc argumentParsers.

(** [this.compiler.versionFlag || '--version']. *)
Definition version_flag (c : Descriptor) : string :=
  match versionFlag c with
  | Some f => if Js.nonempty f then f else "--version"
  | None => "--version"
  end.

(** [this.compiler.versionRe || '.*']. *)
Definition version_pattern (c : Descriptor) : string :=
  match versionRe c with
  | Some p => if Js.nonempty p then p else ".*"
  | None => ".*"
  end.

(** [Compile.prototype.initialise].  It throws before it starts anything
    when [exe] is null ([getArgumentParser] calls [toLowerCase] on it) and
    when [versionRe] is no regular expression; otherwise it returns a
    promise, of [None] (the [null] of a compiler that is dropped) or of the
    compiler.  [regexp pattern] is [new RegExp(pattern)]: [None] when that
    throws a SyntaxError, and else the function that gives
    [line.match(re)[0]] for a line that matches. *)
Definition initialise {Cache : Type} (E : Env Cache)
    (regexp : string -> option (string -> option string))
    (argumentParsers : ArgumentParsers)
    (c : Descriptor) (probe : list Exec.Event) : Call (Task (option Descriptor)) :=
  match getRemote c with
  | Some _ => Returns (ret (Some c))
  | None =>
      match exe c with
      | None => Throws "TypeError"
      | Some compiler =>
          let argumentParser := getArgumentParser argumentParsers compiler in
          match regexp (version_pattern c) with
          | None => Throws "SyntaxError"
          | Some match0 =>
              let probed := exec compiler [version_flag c] Exec.no_options probe in
              Returns
                match fst probed with
                | Pending => (Pending, snd probed)
                | Rejected _ => (Resolved None, snd probed)
                | Resolved result =>
                    match signal_of result with
                    | Some _ => (Resolved None, snd probed)
                    | None =>
                        if negb (status_ok result) then (Resolved None, snd probed)
                        else
                          let v :=
                            first_version match0
                              (splitLines E
                                 (Exec.stdout result ++ Exec.stderr result)%string) in
                          if negb (Js.nonempty v) then (Resolved None, snd probed)
                          else
                            let parsed := argumentParser (set_version v c) in
                            (settle_map
                               (fun parsed_c => Some (delete_supportedOptions parsed_c))
                               (fst parsed),
                             snd probed ++ snd parsed)
                    end
                end
          end
      end
  end.

(** The same world with another sandbox. *)
Definition with_sandbox (sw : Sandbox.World) (W : World) : World :=
  {| tempDir := tempDir W; written := written W; main_events := main_events W;
     ast_events := ast_events W; opt_exists := opt_exists W;
     opt_records := opt_records W; output_stat := output_stat W;
     output_read := output_read W; objdump_events := objdump_events W;
     post_events := post_events W; demangle_events := demangle_events W;
     sandbox_world := sw |}.

(** The same world with another answer of [temp.mkdir]. *)
Definition with_workspace (dir : Fs string) (W : World) : World :=
  {| tempDir := dir; written := written W; main_events := main_events W;
     ast_events := ast_events W; opt_exists := opt_exists W;
     opt_records := opt_records W; output_stat := output_stat W;
     output_read := output_read W; objdump_events := objdump_events W;
     post_events := post_events W; demangle_events := demangle_events W;
     sandbox_world := sandbox_world W |}.

(** A result with its [execResult] left out. *)
Definition without_execResult (r : Result) : Result := set_execResult JUndef r.

(** The effects other than a put into the cache and a call of the sandbox. *)
Definition plain (e : Effect) : bool :=
  match e with
  | CachePut _ _ => false
  | RunSandbox _ => false
  | _ => true
  end.

End Compiler.

(* ===================================================================== *)
(** * lib/compile-handler.js: the request handler, up to the call of
      [compile] *)
(* ===================================================================== *)

Module Handler.

(** [req.body.options] of a JSON request.  A [filters] property that is
    falsy is [None]; one that is truthy is taken to be an object. *)
Record RequestOptions : Type := {
  userArguments : option string;
  compilerOptions : jsval;
  filters : option Compiler.Filters
}.

(** The parts of the request the handler reads.  Query parameters are
    strings or absent. *)
Record Request : Type := {
  is_json : bool;                         (* [req.is('json')] *)
  req_compiler : option string;           (* [req.compiler], from the route *)
  json_compiler : option string;          (* [req.body.compiler] *)
  json_source : option string;            (* [req.body.source] *)
  json_options : option RequestOptions;   (* [req.body.options] *)
  text_body : option string;              (* [req.body] of a text request *)
  query_options : option string;
  query_filters : option string;
  query_addFilters : option string;
  query_removeFilters : option string
}.

(** What the handler needs around it: the compilers by id and
    [shell-quote]'s [parse] followed by the handler's [map] and [filter]. *)
Record Context : Type := {
  compilersById : string -> option Compiler.Descriptor;
  parseArguments : string -> list string
}.

(** How the handler leaves its synchronous part. *)
Inductive Outcome : Type :=
| Next                                   (* [next()]: no such compiler *)
| Throws (what : string)                 (* an exception leaves the handler *)
| Proxied (target : string)              (* [proxy.web] to the peer *)
| BadRequest                             (* [next(new Error("Bad request"))] *)
| Compiles (c : Compiler.Descriptor) (source : string) (userOptions : list string)
           (backendOptions : jsval) (fs : Compiler.Filters).

(** [value || fallback] on an optional string. *)
Definition or_else (value : option string) (fallback : string) : string :=
  match value with
  | Some v => if Js.nonempty v then v else fallback
  | None => fallback
  end.

(** [_.object(_.map(names, function (filter) { return [filter, true]; }))]. *)
Definition object_of (names : list string) : Compiler.Filters :=
  fold_left (fun o f => Obj.set f (JBool true) o) names [].

(** [_.each(names, function (filter) { filters[filter] = true; })]. *)
Definition add_all (names : list string) (o : Compiler.Filters) : Compiler.Filters :=
  fold_left (fun o f => Obj.set f (JBool true) o) names o.

(** [_.each(names, function (filter) { delete filters[filter]; })]. *)
Definition remove_all (names : list string) (o : Compiler.Filters) : Compiler.Filters :=
  fold_left (fun o f => Obj.delete f o) names o.

(** The filters of an API-style request. *)
Definition api_filters (req : Request) : Compiler.Filters :=
  let fs := Compiler.getDefaultFilters in
  let fs :=
    match query_filters req with
    | Some q => if Js.nonempty q then object_of (Js.split_on "," q) else fs
    | None => fs
    end in
  let fs := add_all (Js.split_on "," (or_else (query_addFilters req) "")) fs in
  remove_all (Js.split_on "," (or_else (query_removeFilters req) "")) fs.

(** The tail of the handler, common to both request styles. *)
Definition dispatch (ctx : Context) (c : Compiler.Descriptor) (source : option string)
    (opts : option string) (backendOptions : option jsval) (fs : Compiler.Filters)
  : Outcome :=
  match Compiler.getRemote c with
  | Some remote => Proxied remote
  | None =>
      match source with
      | None => BadRequest
      | Some src =>
          let userOptions := parseArguments ctx (or_else opts "") in
          match backendOptions with
          | None => Throws "ReferenceError: backendOptions is not defined"
          | Some bo => Compiles c src userOptions bo fs
          end
      end
  end.

(** [req.compiler || req.body.compiler]. *)
Definition requested (req : Request) : option string :=
  match req_compiler req with
  | Some k => if Js.nonempty k then Some k else json_compiler req
  | None => json_compiler req
  end.

(** The request names no filter: a JSON request without a truthy
    [options.filters], or an API-style one whose [filters], [addFilters]
    and [removeFilters] queries are absent or empty. *)
Definition names_no_filter (req : Request) : bool :=
  if is_json req then
    match json_options req with
    | Some requestOptions =>
        match filters requestOptions with Some _ => false | None => true end
    | None => true
    end
  else
    negb (Js.nonempty (or_else (query_filters req) "")) &&
    negb (Js.nonempty (or_else (query_addFilters req) "")) &&
    negb (Js.nonempty (or_else (query_removeFilters req) "")).

(** [CompileHandler.handler] until it calls [compile].  [backendOptions] is
    assigned without being declared, so it is a global: [global] is its
    value before the request ([None] while it was never assigned), and the
    second component its value afterwards. *)
Definition handler (ctx : Context) (global : option jsval) (req : Request)
  : Outcome * option jsval :=
  if is_json req then
    match match requested req with Some k => compilersById ctx k | None => None end with
    | None => (Next, global)
    | Some c =>
        match json_options req with
        | None => (Throws "TypeError: requestOptions is undefined", global)
        | Some requestOptions =>
            let global := Some (compilerOptions requestOptions) in
            let fs :=
              match filters requestOptions with
              | Some f => f
              | None => Compiler.getDefaultFilters
              end in
            (dispatch ctx c (json_source req) (userArguments requestOptions) global fs,
             global)
        end
    end
  else
    match match req_compiler req with
          | Some k => compilersById ctx k
          | None => None
          end with
    | None => (Next, global)
    | Some c =>
        (dispatch ctx c (text_body req) (query_options req) global (api_filters req),
         global)
    end.

End Handler.

(* ===================================================================== *)
(** * app.js: fetching the compilers of a peer *)
(* ===================================================================== *)

Module Registry.

(** What the fetch does to the outside. *)
Inductive Effect : Type :=
| HttpGet (hostname : string) (port : option Z) (path : string)
| RequestTimeout (ms : Z)          (* [request.setTimeout] *)
| Wait (ms : Z).                   (* [setTimeout(doit, retryMs)] *)

(** How one HTTP request ends. *)
Inductive Response : Type :=
| Body (str : string)           (* 'end' of the response, with all its data *)
| NetError (e : string)         (* 'error' of the request *)
| TimedOut                      (* 'timeout' of the request *)
| Silent.                       (* none of them ever *)

(** How a promise made by [promiseFunc] ends; [Thrown] is an exception
    raised inside an event callback, which no promise catches. *)
Inductive Attempt (A : Type) : Type :=
| Settled (s : Settle A)
| Thrown (what : string).

Arguments Settled {A} s.
Arguments Thrown {A} what.

(** The configuration and the outside of one fetch: [props] of
    [proxyRetries] and [proxyRetryMs], [awsProps] of [proxyTimeout],
    [JSON.parse] ([None] when it throws), and the answer to each request in
    turn. *)
Record World : Type := {
  proxyRetries : Z;
  proxyRetryMs : Z;
  proxyTimeout : Z;
  json_parse : string -> option jsval;
  responses : nat -> Response
}.

(** The [retryPromise] loop from its [n]-th call of [promiseFunc] on, with
    [fails] failures so far.  [fuel] bounds the calls the model follows; it
    yields [Pending] when it runs out. *)
Fixpoint doit {A : Type} (promiseFunc : nat -> Attempt A * list Effect)
    (maxFails retryMs : Z) (fuel : nat) (fails : Z) (n : nat)
  : Attempt A * list Effect :=
  match fuel with
  | O => (Settled Pending, [])
  | S fuel' =>
      let promise := promiseFunc n in
      match fst promise with
      | Settled (Rejected e) =>
          let fails := (fails + 1)%Z in
          if (fails <? maxFails)%Z then
            let later := doit promiseFunc maxFails retryMs fuel' fails (S n) in
            (fst later, snd promise ++ [Wait retryMs] ++ snd later)
          else (Settled (Rejected e), snd promise)
      | other => (other, snd promise)
      end
  end.

(** [retryPromise(promiseFunc, name, maxFails, retryMs)]: the loop cannot
    make more than [max 1 maxFails] calls. *)
Definition retryPromise {A : Type} (promiseFunc : nat -> Attempt A * list Effect)
    (maxFails retryMs : Z) : Attempt A * list Effect :=
  doit promiseFunc maxFails retryMs (Z.to_nat (Z.max 1 maxFails)) 0 0.

(** The callback on each compiler of the list: [compiler.exe = null],
    [compiler.remote = "http://" + host + ":" + port]. *)
Definition mark_remote (host : string) (port : option Z) (compiler : jsval) : jsval :=
  match compiler with
  | JObj props =>
      JObj (Obj.set "remote" (JStr ("http://" ++ host ++ ":" ++ Js.show_num port)%string)
              (Obj.set "exe" JNull props))
  | other => other
  end.

(** A value that has no properties to set. *)
Definition nullish (v : jsval) : bool :=
  match v with JNull | JUndef => true | _ => false end.

(** One request of [fetchRemote]. *)
Definition request (w : World) (host : string) (port : option Z) (n : nat)
  : Attempt (list jsval) * list Effect :=
  (match responses w n with
   | Body str =>
       match json_parse w str with
       | Some (JArr compilers) =>
           if existsb nullish compilers
           then Thrown "TypeError: Cannot set property 'exe' of null"
           else Settled (Resolved (map (mark_remote host port) compilers))
       | Some _ => Thrown "TypeError: JSON.parse(...).map is not a function"
       | None => Thrown "SyntaxError: JSON.parse"
       end
   | NetError e => Settled (Rejected (RejError e))
   | TimedOut => Settled (Rejected (RejString "timeout"))
   | Silent => Settled Pending
   end,
   [HttpGet host port "/api/compilers"; RequestTimeout (proxyTimeout w)]).

(** [fetchRemote(host, port, props)]: the retried request, a rejection
    turned into the empty list. *)
Definition fetchRemote (w : World) (host : string) (port : option Z)
  : Attempt (list jsval) * list Effect :=
  let r := retryPromise (request w host port) (proxyRetries w) (proxyRetryMs w) in
  (match fst r with
   | Settled (Rejected _) => Settled (Resolved [])
   | other => other
   end, snd r).

(** The host and the port of a seed [host@port]. *)
Definition seed_host (name : string) : string := nth 0 (Js.split_on "@" name) "".
Definition seed_port (name : string) : option Z :=
  Js.parseInt (nth 1 (Js.split_on "@" name) "").

(** [recurseGetCompilers(name, parentProps)]: a seed with an [@] is a peer
    ([fetchCompilersFromRemote] is [true] and never assigned again);
    [other] stands for the rest of the function (groups, [AWS], local
    compilers). *)
Definition recurseGetCompilers (w : World)
    (other : string -> Attempt (list jsval) * list Effect) (name : string)
  : Attempt (list jsval) * list Effect :=
  if Js.includes "@" name
  then fetchRemote w (seed_host name) (seed_port name)
  else other name.

(** [Promise.all(promises).then(_.flatten)] in [findCompilers]: rejected as
    soon as one is, resolved with the lists joined when all are. *)
Fixpoint gather (promises : list (Settle (list jsval))) : Settle (list jsval) :=
  match promises with
  | [] => Resolved []
  | p :: rest =>
      match p, gather rest with
      | Rejected e, _ => Rejected e
      | _, Rejected e => Rejected e
      | Resolved l, Resolved ls => Resolved (l ++ ls)
      | _, _ => Pending
      end
  end.

End Registry.

(* ===================================================================== *)
(** * lib/properties: the property files and their getters *)
(* ===================================================================== *)

Module Props.

(** The names every object has from [Object.prototype]. *)
Definition object_members : list string :=
  ["constructor"; "__defineGetter__"; "__defineSetter__"; "hasOwnProperty";
   "__lookupGetter__"; "__lookupSetter__"; "isPrototypeOf"; "propertyIsEnumerable";
   "toString"; "valueOf"; "__proto__"; "toLocaleString"].

Definition inherited (property : string) : bool :=
  existsb (String.eqb property) object_members.

(** What a getter hands out: a value, or what [Object.prototype] has under
    a name (a function, or for [__proto__] the prototype itself). *)
Inductive Value : Type :=
| Plain (v : jsval)
| Member (name : string).

Definition undefined : Value := Plain JUndef.

(** The own properties of a property map, the object [parseProperties]
    makes of a file. *)
Definition PropertyMap : Type := list (string * jsval).

(** [property in propertyMap]. *)
Definition has (property : string) (propertyMap : PropertyMap) : bool :=
  match Obj.get property propertyMap with
  | Some _ => true
  | None => inherited property
  end.

(** [propertyMap[property]]. *)
Definition read (property : string) (propertyMap : PropertyMap) : Value :=
  match Obj.get property propertyMap with
  | Some v => Plain v
  | None => if inherited property then Member property else undefined
  end.

(** The variables of the module: [properties], a property map for each
    file read, under the name of the file without its extension, and
    [hierarchy]. *)
Record Store : Type := {
  properties : list (string * PropertyMap);
  hierarchy : list string
}.

Fixpoint own (key : string) (o : list (string * PropertyMap)) : option PropertyMap :=
  match o with
  | [] => None
  | (k, v) :: rest => if String.eqb key k then Some v else own key rest
  end.

(** [findProps(base, elem)]: the key has a dot in it, so that nothing but a
    property of [properties] itself is found. *)
Definition findProps (s : Store) (base elem : string) : option PropertyMap :=
  own (base ++ "." ++ elem)%string (properties s).

(** [get(base, property, defaultValue)]. *)
Definition get (s : Store) (base property : string) (defaultValue : Value) : Value :=
  fold_left
    (fun result elem =>
       match findProps s base elem with
       | Some propertyMap =>
           if has property propertyMap then read property propertyMap else result
       | None => result
       end)
    (hierarchy s) defaultValue.

Definition Getter : Type := string -> Value -> Value.

(** [propsFor(base)]. *)
Definition propsFor (s : Store) (base : string) : Getter :=
  fun property defaultValue => get s base property defaultValue.

(** [fakeProps(fake)]. *)
Definition fakeProps (fake : PropertyMap) : Getter :=
  fun prop def =>
    match read prop fake with
    | Plain JUndef => def
    | found => found
    end.

(** ** [parseProperties] *)

(** A line terminator, which [.] does not match. *)
Definition is_break (a : ascii) : bool :=
  (nat_of_ascii a =? 10)%nat || (nat_of_ascii a =? 13)%nat.

(** The string from its first line terminator on. *)
Fixpoint from_break (s : string) : string :=
  match s with
  | EmptyString => ""
  | String a rest => if is_break a then s else from_break rest
  end.

(** The string up to its first line terminator. *)
Fixpoint to_break (s : string) : string :=
  match s with
  | EmptyString => ""
  | String a rest => if is_break a then "" else String a (to_break rest)
  end.

(** [lineOrig.replace(/#.*/, '')]: the first [#] goes, with what follows it
    up to a line terminator. *)
Fixpoint replace_comment (lineOrig : string) : string :=
  match lineOrig with
  | EmptyString => ""
  | String a rest =>
      if Ascii.eqb a "#" then from_break rest else String a (replace_comment rest)
  end.

Fixpoint skip_equals (s : string) : string :=
  match s with
  | String a rest => if Ascii.eqb a "=" then skip_equals rest else s
  | EmptyString => ""
  end.

(** The string cut at its first [=]. *)
Fixpoint cut_at_equals (s : string) : option (string * string) :=
  match s with
  | EmptyString => None
  | String a rest =>
      if Ascii.eqb a "=" then Some ("", rest)
      else match cut_at_equals rest with
           | Some (before, after) => Some (String a before, after)
           | None => None
           end
  end.

(** [line.match] with the pattern of a group of one or more characters
    other than [=], a [=], and a group of any characters: the match starts at the
    first character that is not [=]; the first group runs from there to the
    next [=], which has to be there; the second is what follows up to a
    line terminator. *)
Definition match_setting (line : string) : option (string * string) :=
  match cut_at_equals (skip_equals line) with
  | Some (before, after) => Some (before, to_break after)
  | None => None
  end.

(** [s.endsWith(suffix)]. *)
Definition endsWith (s suffix : string) : bool :=
  (String.length suffix <=? String.length s)%nat &&
  String.eqb (String.substring (String.length s - String.length suffix)
                (String.length suffix) s) suffix.

(** [props[prop] = val] for a value that is a string, a number or a
    boolean: under the name [__proto__] it changes nothing. *)
Definition assign (prop : string) (val : jsval) (props : PropertyMap) : PropertyMap :=
  if String.eqb prop "__proto__" then props else Obj.set prop val props.

Section Parse.

(** [toProperty] of utils, which makes a boolean or a number of the strings
    that read as one. *)
Variable toProperty : string -> jsval.

(** The body of the loop on the line [lineOrig] with the index [index]:
    the properties and the lines [logger.error] has been given. *)
Definition parse_line (name : string) (state : PropertyMap * list string)
    (entry : nat * string) : PropertyMap * list string :=
  let (props, errors) := state in
  let (index, lineOrig) := entry in
  let line := Js.trim (replace_comment lineOrig) in
  if negb (Js.nonempty line) then state
  else
    match match_setting line with
    | None =>
        (props,
         errors ++ [("Bad line: " ++ line ++ " in " ++ name ++ ": " ++
                     Js.show (Z.of_nat index + 1))%string])
    | Some (key, value) =>
        let prop := Js.trim key in
        let val := Js.trim value in
        let val :=
          if negb (endsWith prop ".version") && negb (endsWith prop ".semver")
          then toProperty val else JStr val in
        (assign prop val props, errors)
    end.

(** [blob.split('\n').entries()]. *)
Definition entries (blob : string) : list (nat * string) :=
  let lines := Js.split_on (ascii_of_nat 10) blob in
  combine (seq 0 (length lines)) lines.

(** [parseProperties(blob, name)], with the bad lines it reports. *)
Definition parseProperties (blob name : string) : PropertyMap * list string :=
  fold_left (parse_line name) (entries blob) ([], []).

End Parse.

End Props.

(* ===================================================================== *)
(** * app.js: the configuration of the compilers *)
(* ===================================================================== *)

Module Config.

Import Props.

(** [a != b] on [s[i]] and [sub[i]]: a character each, or undefined past
    the end. *)
Definition differ (a b : option ascii) : bool :=
  match a, b with
  | Some x, Some y => negb (Ascii.eqb x y)
  | None, None => false
  | _, _ => true
  end.

(** The loop of [StringStartsWith] from [i] on, with [turns] turns to go. *)
Fixpoint starts_from (s sub : string) (i turns : nat) : bool :=
  match turns with
  | O => true
  | S turns' =>
      if differ (String.get i s) (String.get i sub) then false
      else starts_from s sub (S i) turns'
  end.

(** [StringStartsWith(s, sub)]. *)
Definition StringStartsWith (s sub : string) : bool :=
  if (String.length s <? String.length sub)%nat then false
  else starts_from s sub 0 (String.length sub).

(** [compilerProps(property, defaultValue)], over the getters of the
    language and of [compiler-explorer]. *)
Definition compilerProps (compilerPropsFunc gccProps : Getter) : Getter :=
  fun property defaultValue =>
    match compilerPropsFunc property undefined with
    | Plain JUndef => gccProps property defaultValue
    | forCompiler => forCompiler
    end.

(** [!!v]. *)
Definition truthy (v : Value) : bool :=
  match v with
  | Plain v => Obj.truthy v
  | Member _ => true
  end.

(** The object [compilerConfigFor] makes. *)
Record CompilerInfo : Type := {
  id : string;
  exe : Value;
  name : Value;
  alias : Value;
  options : Value;
  versionFlag : Value;
  versionRe : Value;
  compilerType : Value;
  demangler : Value;
  objdumper : Value;
  intelAsm : Value;
  needsMulti : bool;
  supportsBinary : bool;
  supportsExecute : bool;
  supportsIntelAsm : bool;
  postProcess : list string
}.

(** How a call ends: with a value, with an exception, or, for the
    recursion, deeper than the model follows it. *)
Inductive Outcome (A : Type) : Type :=
| Returns (a : A)
| Throws (what : string)
| Deeper.

Arguments Returns {A} a.
Arguments Throws {A} what.
Arguments Deeper {A}.

(** [props(name, def)] inside [compilerConfigFor]. *)
Definition compiler_props (parentProps : Getter) (base : string) : Getter :=
  fun name def => parentProps (base ++ "." ++ name)%string (parentProps name def).

(** [compilerConfigFor(name, parentProps)]: [split] is there for a string
    only, and the call of it on anything else is a TypeError. *)
Definition compilerConfigFor (compilerProps : Getter) (name : string)
    (parentProps : Getter) : Outcome CompilerInfo :=
  let base := ("compiler." ++ name)%string in
  let exe := compilerProps (base ++ ".exe")%string (Plain (JStr name)) in
  let props := compiler_props parentProps base in
  let supportsBinary := truthy (props "supportsBinary" (Plain (JBool true))) in
  let supportsExecute :=
    supportsBinary && truthy (props "supportsExecute" (Plain (JBool true))) in
  let supportsIntelAsm := truthy (props "supportsIntelAsm" (Plain (JBool false))) in
  match props "postProcess" (Plain (JStr "")) with
  | Plain (JStr stages) =>
      Returns
        {| id := name;
           exe := exe;
           name := props "name" (Plain (JStr name));
           alias := props "alias" undefined;
           options := props "options" undefined;
           versionFlag := props "versionFlag" undefined;
           versionRe := props "versionRe" undefined;
           compilerType := props "compilerType" (Plain (JStr ""));
           demangler := props "demangler" (Plain (JStr ""));
           objdumper := props "objdumper" (Plain (JStr ""));
           intelAsm := props "intelAsm" (Plain (JStr ""));
           needsMulti := truthy (props "needsMulti" (Plain (JBool true)));
           supportsBinary := supportsBinary;
           supportsExecute := supportsExecute;
           supportsIntelAsm := supportsIntelAsm;
           postProcess := Js.split_on "|" stages |}
  | _ => Throws "TypeError"
  end.

(** [props(name, def)] of the group [groupName] inside
    [recurseGetCompilers]. *)
Definition group_props (compilerProps : Getter) (groupName : string)
    (parentProps : Getter) : Getter :=
  fun name def =>
    if String.eqb name "group" then Plain (JStr groupName)
    else compilerProps ("group." ++ groupName ++ "." ++ name)%string
                       (parentProps name def).

(** The promise [recurseGetCompilers] returns: of a fetch from a peer, of
    the fetch from AWS, of a configuration, or of all the promises of a
    group. *)
Inductive Plan : Type :=
| Remote (host : string) (port : option Z)
| Aws
| Local (info : CompilerInfo)
| All (members : list Plan).

(** [exes.map(...)]: the calls in order, up to the first that does not
    return. *)
Fixpoint map_outcome {A B : Type} (f : A -> Outcome B) (l : list A) : Outcome (list B) :=
  match l with
  | [] => Returns []
  | a :: rest =>
      match f a with
      | Returns b =>
          match map_outcome f rest with
          | Returns bs => Returns (b :: bs)
          | Throws what => Throws what
          | Deeper => Deeper
          end
      | Throws what => Throws what
      | Deeper => Deeper
      end
  end.

(** [name.substr(1)]. *)
Definition substr1 (name : string) : string :=
  match name with
  | String _ rest => rest
  | EmptyString => ""
  end.

(** [recurseGetCompilers(name, parentProps)], down to [depth] calls inside
    one another. *)
Fixpoint recurseGetCompilers (depth : nat) (compilerProps : Getter) (name : string)
    (parentProps : Getter) : Outcome Plan :=
  match depth with
  | O => Deeper
  | S depth' =>
      if Js.includes "@" name then
        Returns (Remote (Registry.seed_host name) (Registry.seed_port name))
      else if Js.starts_with "&" name then
        let groupName := substr1 name in
        let props := group_props compilerProps groupName parentProps in
        match props "compilers" (Plain (JStr "")) with
        | Plain (JStr exes) =>
            match map_outcome
                    (fun compiler => recurseGetCompilers depth' compilerProps compiler props)
                    (Js.split_on ":" exes) with
            | Returns promises => Returns (All promises)
            | Throws what => Throws what
            | Deeper => Deeper
            end
        | _ => Throws "TypeError"
        end
      else if String.eqb name "AWS" then Returns Aws
      else
        match compilerConfigFor compilerProps name parentProps with
        | Returns compilerInfo => Returns (Local compilerInfo)
        | Throws what => Throws what
        | Deeper => Deeper
        end
  end.

End Config.

(* ===================================================================== *)
(** * lib/compilers/swift.js *)
(* ===================================================================== *)

Module Swift.

(** What the handler leaves in [result.asm], or the exception it ends
    with. *)
Inductive Handled : Type :=
| Stored (asm : string)
| Thrown (what : string).

(** [compiler.handlePostProcessResult] of [compileSwift].  The file has no
    [util] in scope: the call of [util.format] is a ReferenceError. *)
Definition handlePostProcessResult (postResult : Exec.Result) : Handled :=
  match Compiler.signal_of postResult with
  | Some s => Stored ("<Error during post processing: " ++ s ++ ">")
  | None =>
      let asm := Exec.stdout postResult in
      if negb (Compiler.status_ok postResult) && negb (Js.nonempty asm)
      then Thrown "ReferenceError: util is not defined"
      else Stored asm
  end.

End Swift.

(* ===================================================================== *)
(** * A small configuration to run the model on *)
(* ===================================================================== *)

Module Samples.

(** A stand-in for [utils.splitLines]: the pieces between line feeds, a
    carriage return before the line feed dropped, and no empty last line. *)
Definition drop_cr (s : string) : string :=
  if String.eqb (String.substring (String.length s - 1) 1 s)
                (String (ascii_of_nat 13) "")
  then String.substring 0 (String.length s - 1) s else s.

Fixpoint drop_last_empty (l : list string) : list string :=
  match l with
  | [] => []
  | [x] => if Js.nonempty x then [x] else []
  | x :: rest => x :: drop_last_empty rest
  end.

Definition splitLines (text : string) : list string :=
  drop_last_empty (map drop_cr (Js.split_on (ascii_of_nat 10) text)).

Definition text_lines (s : string) : jsval :=
  JArr (map (fun l => JObj [("text", JStr l)]) (splitLines s)).

(** A cache that keeps everything, newest first. *)
Definition Cache : Type := list (string * Compiler.Result).

Fixpoint lookup (cache : Cache) (key : string) : option Compiler.Result :=
  match cache with
  | [] => None
  | (k, r) :: rest => if String.eqb key k then Some r else lookup rest key
  end.

Definition env : Compiler.Env Cache :=
  {| Compiler.findBadOptions := filter (String.prefix "-fplugin");
     Compiler.stubRe_matches := Js.includes "main";
     Compiler.stubText := "int main() { return 0; }";
     Compiler.compileFilename := "example.cpp";
     Compiler.compileTimeoutMs := 100%Z;
     Compiler.maxAsmSize := (8 * 1024 * 1024)%Z;
     Compiler.maxExecutableOutputSize := (32 * 1024)%Z;
     Compiler.getEnv := fun _ => JObj [];
     Compiler.compilerWrapper := None;
     Compiler.cacheGet := lookup;
     Compiler.cachePut := fun cache key r => (key, r) :: cache;
     Compiler.splitLines := splitLines;
     Compiler.parseOutput := fun s _ => text_lines s;
     Compiler.asmProcess :=
       fun v _ => match v with JStr s => text_lines s | other => other end;
     Compiler.generateCfgStructure := fun _ _ => JObj [];
     Compiler.path_join := fun a b => (a ++ "/" ++ b)%string;
     Compiler.couldSupportASTDump := fun _ v => Js.includes "clang" v;
     Compiler.processAstOutput := fun _ => "" |}.

Definition gcc : Compiler.Descriptor :=
  {| Compiler.id := "g71"; Compiler.exe := Some "/usr/bin/g++";
     Compiler.name := "g++ 7.1"; Compiler.alias := None;
     Compiler.options := Some "-std=c++14  -Wall";
     Compiler.versionFlag := None; Compiler.versionRe := None;
     Compiler.compilerType := ""; Compiler.demangler := "";
     Compiler.objdumper := "objdump"; Compiler.intelAsm := "-masm=intel";
     Compiler.needsMulti := true; Compiler.supportsBinary := true;
     Compiler.supportsExecute := true; Compiler.supportsIntelAsm := true;
     Compiler.postProcess := [""];
     Compiler.version := Some "g++ (GCC) 7.1.0";
     Compiler.supportedOptions := JUndef;
     Compiler.optArg := Some "-fsave-optimization-record";
     Compiler.supportsOptOutput := Some true;
     Compiler.remote := None |}.

(** A sandbox whose [docker run] fails after printing a container id. *)
Definition broken_docker : Sandbox.World :=
  {| Sandbox.sandboxType := "docker";
     Sandbox.dirname := fun _ => "/tmp/x";
     Sandbox.basename := fun _ => "output";
     Sandbox.direct := [];
     Sandbox.docker_run :=
       [Exec.EvData Exec.SOut "4f2a"; Exec.EvExit (Some 125%Z);
        Exec.EvClose (Some 125%Z) None];
     Sandbox.docker_wait :=
       [Exec.EvExit (Some 1%Z); Exec.EvClose (Some 1%Z) None];
     Sandbox.docker_logs := [] |}.

(** A world in which the compiler exits with [code] after writing [err] to
    its standard error, and every file operation succeeds. *)
Definition world (code : Z) (err : string) : Compiler.World :=
  {| Compiler.tempDir := Compiler.Done "/tmp/ce1";
     Compiler.written := Compiler.Done tt;
     Compiler.main_events :=
       [Exec.EvData Exec.SErr err; Exec.EvExit (Some code);
        Exec.EvClose (Some code) None];
     Compiler.ast_events := [];
     Compiler.opt_exists := false;
     Compiler.opt_records := Resolved (JArr []);
     Compiler.output_stat := Compiler.Done 20%Z;
     Compiler.output_read := Compiler.Done "f():";
     Compiler.objdump_events :=
       [Exec.EvData Exec.SOut "0000 <main>:"; Exec.EvExit (Some 0%Z);
        Exec.EvClose (Some 0%Z) None];
     Compiler.post_events := [];
     Compiler.demangle_events := [];
     Compiler.sandbox_world := broken_docker |}.

(** A world in which the compiler is killed by the timer. *)
Definition slow_world : Compiler.World :=
  {| Compiler.tempDir := Compiler.Done "/tmp/ce2";
     Compiler.written := Compiler.Done tt;
     Compiler.main_events :=
       [Exec.EvData Exec.SErr "warning"; Exec.EvTimer; Exec.EvExit None;
        Exec.EvClose None (Some "SIGTERM")];
     Compiler.ast_events := [];
     Compiler.opt_exists := false;
     Compiler.opt_records := Resolved (JArr []);
     Compiler.output_stat := Compiler.Failed "ENOENT";
     Compiler.output_read := Compiler.Failed "ENOENT";
     Compiler.objdump_events := [];
     Compiler.post_events := [];
     Compiler.demangle_events := [];
     Compiler.sandbox_world := broken_docker |}.

(** Some result to put into a cache. *)
Definition cached_result : Compiler.Result :=
  {| Compiler.status := Some 0%Z; Compiler.signal := None;
     Compiler.stdout := JArr []; Compiler.stderr := JArr [];
     Compiler.okToCache := true; Compiler.dirPath := Some "/tmp/ce0";
     Compiler.asm := JArr [JObj [("text", JStr "f():")]];
     Compiler.output_file_path := Some "/tmp/ce0/output";
     Compiler.hasOptOutput := Some false; Compiler.optPath := None;
     Compiler.hasAstOutput := None; Compiler.astOutput := None;
     Compiler.optOutput := JUndef; Compiler.execResult := JUndef;
     Compiler.supportsCfg := Some false; Compiler.cfg := JUndef |}.

Definition binary_filters : Compiler.Filters :=
  [("binary", JBool true); ("link", JBool true); ("execute", JBool true);
   ("intel", JBool true)].

(** The list a peer serves, and a peer that answers the requests made of
    it with [answers] in turn and refuses the connection afterwards. *)
Definition peer_list : jsval :=
  JArr [JObj [("id", JStr "g71"); ("exe", JStr "/usr/bin/g++"); ("name", JStr "g++ 7.1")]].

Definition peer_body : string :=
  match Json.stringify peer_list with Some text => text | None => "" end.

Definition peer (retries : Z) (answers : list Registry.Response) : Registry.World :=
  {| Registry.proxyRetries := retries;
     Registry.proxyRetryMs := 500%Z;
     Registry.proxyTimeout := 1000%Z;
     Registry.json_parse :=
       fun str => if String.eqb str peer_body then Some peer_list else None;
     Registry.responses := fun n => nth n answers (Registry.NetError "ECONNREFUSED") |}.

(** The seeds that are not peers, left out. *)
Definition no_other (name : string) : Registry.Attempt (list jsval) * list Registry.Effect :=
  (Registry.Settled (Resolved []), []).

(** A sandbox whose container prints a line, exits with 3 and is waited
    for; [wait] gives the events of [docker wait]. *)
Definition docker (wait : list Exec.Event) : Sandbox.World :=
  {| Sandbox.sandboxType := "docker";
     Sandbox.dirname := fun _ => "/tmp/x";
     Sandbox.basename := fun _ => "output";
     Sandbox.direct := [];
     Sandbox.docker_run :=
       [Exec.EvData Exec.SOut ("4f2a" ++ Json.nl)%string; Exec.EvExit (Some 0%Z);
        Exec.EvClose (Some 0%Z) None];
     Sandbox.docker_wait := wait;
     Sandbox.docker_logs :=
       [Exec.EvData Exec.SOut "hello"; Exec.EvExit (Some 0%Z);
        Exec.EvClose (Some 0%Z) None] |}.

Definition waited_for : list Exec.Event :=
  [Exec.EvData Exec.SOut "3"; Exec.EvExit (Some 0%Z); Exec.EvClose (Some 0%Z) None].

(** [docker wait] of a container that runs until the timer kills it. *)
Definition waited_too_long : list Exec.Event :=
  [Exec.EvTimer; Exec.EvData Exec.SOut "137"; Exec.EvExit (Some 0%Z);
   Exec.EvClose (Some 0%Z) None].

(** [docker wait] of a container that is gone. *)
Definition lost_container : list Exec.Event :=
  [Exec.EvData Exec.SErr "Error: No such container: 4f2a"; Exec.EvExit (Some 1%Z);
   Exec.EvClose (Some 1%Z) None].

(** A machine without docker: [docker run] cannot be spawned. *)
Definition missing_docker : Sandbox.World :=
  {| Sandbox.sandboxType := "docker";
     Sandbox.dirname := fun _ => "/tmp/x";
     Sandbox.basename := fun _ => "output";
     Sandbox.direct := [];
     Sandbox.docker_run := [Exec.EvError "spawn docker ENOENT"];
     Sandbox.docker_wait := [];
     Sandbox.docker_logs := [] |}.

(** A [docker run] that fails without printing a container id. *)
Definition no_container : Sandbox.World :=
  {| Sandbox.sandboxType := "docker";
     Sandbox.dirname := fun _ => "/tmp/x";
     Sandbox.basename := fun _ => "output";
     Sandbox.direct := [];
     Sandbox.docker_run :=
       [Exec.EvData Exec.SErr "docker: daemon not running"; Exec.EvExit (Some 125%Z);
        Exec.EvClose (Some 125%Z) None];
     Sandbox.docker_wait := [Exec.EvExit (Some 1%Z); Exec.EvClose (Some 1%Z) None];
     Sandbox.docker_logs := [] |}.

(** The handler's surroundings: one compiler, arguments split at spaces. *)
Definition context : Handler.Context :=
  {| Handler.compilersById :=
       fun id => if String.eqb id "g71" then Some gcc else None;
     Handler.parseArguments := fun s => Js.compact (Js.split_on " " s) |}.

(** [POST /api/compiler/g71/compile] with the source as the body and the
    given [addFilters] query. *)
Definition api_request (addFilters : option string) : Handler.Request :=
  {| Handler.is_json := false;
     Handler.req_compiler := Some "g71";
     Handler.json_compiler := None;
     Handler.json_source := None;
     Handler.json_options := None;
     Handler.text_body := Some "int main() {}";
     Handler.query_options := Some "-O2";
     Handler.query_filters := None;
     Handler.query_addFilters := addFilters;
     Handler.query_removeFilters := None |}.

(** A stand-in for [new RegExp]: the pattern [.*], which matches a whole
    line, and patterns that stand for themselves; a bracket that is never
    closed is no pattern. *)
Definition regexp (pattern : string) : option (string -> option string) :=
  if String.eqb pattern "(" then None
  else if String.eqb pattern ".*" then Some (fun line => Some line)
  else Some (fun line => if Js.includes pattern line then Some pattern else None).

(** Argument parsers that run the compiler with a help flag and leave it
    as it is. *)
Definition help_probe (flag : string) (c : Compiler.Descriptor)
  : Compiler.Task Compiler.Descriptor :=
  (Resolved c,
   [Compiler.Proc
      (Exec.Spawn (match Compiler.exe c with Some e => e | None => "" end) [flag])]).

Definition parsers : Compiler.ArgumentParsers :=
  {| Compiler.clang := help_probe "--help"; Compiler.gcc := help_probe "--target-help" |}.

(** The same compiler at a peer. *)
Definition gcc_at_peer : Compiler.Descriptor :=
  {| Compiler.id := "g71"; Compiler.exe := None;
     Compiler.name := "g++ 7.1"; Compiler.alias := None;
     Compiler.options := Some "-std=c++14  -Wall";
     Compiler.versionFlag := None; Compiler.versionRe := None;
     Compiler.compilerType := ""; Compiler.demangler := "";
     Compiler.objdumper := "objdump"; Compiler.intelAsm := "-masm=intel";
     Compiler.needsMulti := true; Compiler.supportsBinary := true;
     Compiler.supportsExecute := true; Compiler.supportsIntelAsm := true;
     Compiler.postProcess := [""];
     Compiler.version := Some "g++ (GCC) 7.1.0";
     Compiler.supportedOptions := JUndef;
     Compiler.optArg := Some "-fsave-optimization-record";
     Compiler.supportsOptOutput := Some true;
     Compiler.remote := Some "http://peer:10240" |}.

(** A handler that knows the compiler of the peer as [g71r]. *)
Definition context_with_peer : Handler.Context :=
  {| Handler.compilersById :=
       fun id => if String.eqb id "g71" then Some Samples.gcc
                 else if String.eqb id "g71r" then Some gcc_at_peer else None;
     Handler.parseArguments := fun s => Js.compact (Js.split_on " " s) |}.

(** A JSON request that asks for optimisation records. *)
Definition json_request : Handler.Request :=
  {| Handler.is_json := true;
     Handler.req_compiler := None;
     Handler.json_compiler := Some "g71";
     Handler.json_source := Some "int f();";
     Handler.json_options :=
       Some {| Handler.userArguments := Some "-O1";
               Handler.compilerOptions := JObj [("produceOptInfo", JBool true)];
               Handler.filters := None |};
     Handler.text_body := None;
     Handler.query_options := None;
     Handler.query_filters := None;
     Handler.query_addFilters := None;
     Handler.query_removeFilters := None |}.

(** An API-style request with the three filter queries. *)
Definition filter_request (compiler : string) (filters addFilters removeFilters : option string)
  : Handler.Request :=
  {| Handler.is_json := false;
     Handler.req_compiler := Some compiler;
     Handler.json_compiler := None;
     Handler.json_source := None;
     Handler.json_options := None;
     Handler.text_body := Some "int main() {}";
     Handler.query_options := Some "-O2";
     Handler.query_filters := filters;
     Handler.query_addFilters := addFilters;
     Handler.query_removeFilters := removeFilters |}.

(** Three property files and the hierarchy they are read with. *)
Definition store : Props.Store :=
  {| Props.properties :=
       [("compiler-explorer.defaults",
         [("compilers", JStr "/usr/bin/g++"); ("options", JStr "-O1");
          ("proxyRetries", JNum 5)]);
        ("compiler-explorer.local", [("proxyRetries", JNum 2)]);
        ("c++.defaults",
         [("compilers", JStr "&gcc"); ("group.gcc.compilers", JStr "g71");
          ("group.gcc.options", JStr "-std=c++14");
          ("compiler.g71.exe", JStr "/opt/gcc-7.1/bin/g++");
          ("compiler.g71.name", JStr "g++ 7.1")]);
        ("c++.local", [("compiler.g71.options", JStr "-Wall")])];
     Props.hierarchy := ["defaults"; "amazon"; "local"] |}.

(** The compilers are a group of which the files say nothing else. *)
Definition no_group : Props.Store :=
  {| Props.properties := [("c++.defaults", [("compilers", JStr "&clang")])];
     Props.hierarchy := ["defaults"] |}.

(** A stand-in for [toProperty] of utils: the booleans, and the integers
    written in digits. *)
Definition toProperty (prop : string) : jsval :=
  if String.eqb prop "true" || String.eqb prop "yes" then JBool true
  else if String.eqb prop "false" || String.eqb prop "no" then JBool false
  else
    match Js.parseInt prop with
    | Some n => if String.eqb (Js.show n) prop then JNum n else JStr prop
    | None => JStr prop
    end.

End Samples.

(* ===================================================================== *)
(** * Properties *)
(* ===================================================================== *)

Unset Implicit Arguments.

(** ** Strings *)

Module Text.

Lemma length_append (s t : string) :
  String.length (s ++ t) = String.length s + String.length t.
Proof. induction s as [|a s IH]; simpl; [reflexivity | now rewrite IH]. Qed.

Lemma len_append (s t : string) : Js.len (s ++ t) = (Js.len s + Js.len t)%Z.
Proof. unfold Js.len. rewrite length_append. lia. Qed.

Lemma len_nonneg (s : string) : (0 <= Js.len s)%Z.
Proof. unfold Js.len. lia. Qed.

Lemma append_assoc (s t u : string) : ((s ++ t) ++ u = s ++ (t ++ u))%string.
Proof. induction s as [|a s IH]; simpl; [reflexivity | now rewrite IH]. Qed.

Lemma append_nil_r (s : string) : (s ++ "" = s)%string.
Proof. induction s as [|a s IH]; simpl; [reflexivity | now rewrite IH]. Qed.

Lemma append_inv_head (p s t : string) : (p ++ s = p ++ t)%string -> s = t.
Proof.
  induction p as [|a p IH]; simpl; intros H; [exact H|].
  injection H as H. now apply IH.
Qed.

Lemma append_inv_tail (s t u : string) : (s ++ u = t ++ u)%string -> s = t.
Proof.
  revert t. induction s as [|a s IH]; intros [|b t] H; simpl in H.
  - reflexivity.
  - apply (f_equal String.length) in H. simpl in H. rewrite length_append in H. lia.
  - apply (f_equal String.length) in H. simpl in H. rewrite length_append in H. lia.
  - injection H as -> H. f_equal. now apply IH.
Qed.

(** What [join] puts after a first item. *)
Definition tail_join (sep : string) (l : list string) : string :=
  match l with [] => "" | _ :: _ => (sep ++ Js.join sep l)%string end.

Lemma join_cons sep x l : Js.join sep (x :: l) = (x ++ tail_join sep l)%string.
Proof. destruct l; simpl; [now rewrite append_nil_r | reflexivity]. Qed.

Lemma join_app sep l1 l2 :
  l1 <> [] -> Js.join sep (l1 ++ l2) = (Js.join sep l1 ++ tail_join sep l2)%string.
Proof.
  induction l1 as [|x l1 IH]; intros Hne; [congruence|].
  destruct l1 as [|y l1].
  - simpl app. rewrite join_cons. reflexivity.
  - change ((x :: y :: l1) ++ l2) with (x :: (y :: l1) ++ l2).
    rewrite !join_cons.
    change (tail_join sep ((y :: l1) ++ l2))
      with (sep ++ Js.join sep ((y :: l1) ++ l2))%string.
    rewrite IH by discriminate.
    change (tail_join sep (y :: l1)) with (sep ++ Js.join sep (y :: l1))%string.
    now rewrite !append_assoc.
Qed.

Lemma unescape_escape (s : string) : Json.unescape (Json.escape s) = s.
Proof.
  induction s as [|a s IH]; [reflexivity|].
  destruct a as [[] [] [] [] [] [] [] []]; simpl; rewrite IH; reflexivity.
Qed.

Lemma escape_inj (s t : string) : Json.escape s = Json.escape t -> s = t.
Proof.
  intros H. apply (f_equal Json.unescape) in H. now rewrite !unescape_escape in H.
Qed.

End Text.

(** ** The process runner *)

Module ExecFacts.

Import Exec.

Lemma kill_streams o st : st_streams (kill o st) = st_streams st.
Proof. unfold kill, act. destruct (killChild o), (st_running st); reflexivity. Qed.

Lemma kill_okToCache o st : st_okToCache (kill o st) = st_okToCache st.
Proof. unfold kill, act. destruct (killChild o), (st_running st); reflexivity. Qed.

Lemma kill_timeout o st : st_timeout (kill o st) = st_timeout st.
Proof. unfold kill, act. destruct (killChild o), (st_running st); reflexivity. Qed.

Lemma kill_running o st : st_running (kill o st) = st_running st.
Proof.
  unfold kill, act. destruct (killChild o); [reflexivity|].
  destruct (st_running st) eqn:E; simpl; congruence.
Qed.

Lemma on_data_okToCache o name data st :
  st_okToCache (on_data o name data st) = st_okToCache st.
Proof.
  unfold on_data. destruct (s_truncated _); [reflexivity|].
  destruct (_ >? _)%Z; [now rewrite kill_okToCache | reflexivity].
Qed.

Lemma on_data_timeout o name data st :
  st_timeout (on_data o name data st) = st_timeout st.
Proof.
  unfold on_data. destruct (s_truncated _); [reflexivity|].
  destruct (_ >? _)%Z; [now rewrite kill_timeout | reflexivity].
Qed.

Lemma on_data_running o name data st :
  st_running (on_data o name data st) = st_running st.
Proof.
  unfold on_data. destruct (s_truncated _); [reflexivity|].
  destruct (_ >? _)%Z; [now rewrite kill_running | reflexivity].
Qed.

(** The flag of the result, read off the state and the events to come. *)
Lemma run_okToCache o evs : forall st r st',
  run o evs st = (Resolved r, st') ->
  okToCache r =
    match st_timeout st with
    | Armed => st_okToCache st && negb (fires evs)
    | _ => st_okToCache st
    end.
Proof.
  induction evs as [|ev evs IH]; intros st r st' H; simpl in H; [discriminate|].
  destruct ev as [name data| |code|code sig|e|e].
  - apply IH in H. rewrite on_data_timeout, on_data_okToCache in H. exact H.
  - apply IH in H. simpl. unfold on_timer in H.
    destruct (st_timeout st) eqn:Ht; try exact H.
    + rewrite Ht in H. exact H.
    + simpl in H. rewrite kill_timeout, kill_okToCache in H. simpl in H.
      rewrite H. now rewrite andb_false_r.
    + rewrite Ht in H. exact H.
    + rewrite Ht in H. exact H.
  - apply IH in H. simpl in H. simpl.
    destruct (st_timeout st); simpl in H; rewrite H; try reflexivity.
    now rewrite andb_true_r.
  - injection H as <- _. simpl. destruct (st_timeout st); try reflexivity.
    now rewrite andb_true_r.
  - discriminate.
  - apply IH in H. exact H.
Qed.

Lemma execute_okToCache command args o evs r acts :
  execute command args o evs = (Resolved r, acts) ->
  okToCache r = negb (timed_out o evs).
Proof.
  unfold execute. destruct (run o evs (start command args o)) as [p st'] eqn:Hrun.
  intros H. injection H as -> _.
  apply run_okToCache in Hrun. rewrite Hrun. unfold timed_out, start. simpl.
  destruct (timeoutMs_of o =? 0)%Z; reflexivity.
Qed.

(** Every callback leaves what [stderr] holds in place and may add to it. *)
Lemma on_data_stderr o name data st :
  exists b, s_stderr (st_streams (on_data o name data st)) =
            (s_stderr (st_streams st) ++ b)%string.
Proof.
  unfold on_data. destruct (s_truncated _).
  - exists "". now rewrite Text.append_nil_r.
  - destruct (_ >? _)%Z.
    + rewrite kill_streams. destruct name; simpl.
      * exists "". now rewrite Text.append_nil_r.
      * now exists truncated_marker.
    + destruct name; simpl.
      * exists "". now rewrite Text.append_nil_r.
      * now exists data.
Qed.

Lemma on_timer_stderr o st :
  exists b, s_stderr (st_streams (on_timer o st)) =
            (s_stderr (st_streams st) ++ b)%string.
Proof.
  unfold on_timer. destruct (st_timeout st);
    try (exists ""; now rewrite Text.append_nil_r).
  simpl. rewrite kill_streams. simpl. now exists timeout_message.
Qed.

Lemma run_stderr_grows o evs : forall st r st',
  run o evs st = (Resolved r, st') ->
  exists b, stderr r = (s_stderr (st_streams st) ++ b)%string.
Proof.
  induction evs as [|ev evs IH]; intros st r st' H; simpl in H; [discriminate|].
  destruct ev as [name data| |code|code sig|e|e].
  - apply IH in H. destruct H as [b Hb].
    destruct (on_data_stderr o name data st) as [x Hx].
    rewrite Hx, Text.append_assoc in Hb. eauto.
  - apply IH in H. destruct H as [b Hb].
    destruct (on_timer_stderr o st) as [x Hx].
    rewrite Hx, Text.append_assoc in Hb. eauto.
  - apply IH in H. exact H.
  - injection H as <- _. simpl. exists "". now rewrite Text.append_nil_r.
  - discriminate.
  - apply IH in H. exact H.
Qed.

(** When the timer gets to run, its message is in the [stderr] of the
    result, after what was captured before and before what came later. *)
Lemma run_timeout_message o evs : forall st r st',
  st_timeout st = Armed ->
  fires evs = true ->
  run o evs st = (Resolved r, st') ->
  exists a b, stderr r = (a ++ timeout_message ++ b)%string.
Proof.
  induction evs as [|ev evs IH]; intros st r st' Harmed Hf H; simpl in H;
    [discriminate|].
  destruct ev as [name data| |code|code sig|e|e]; simpl in Hf; try discriminate.
  - eapply IH; [| exact Hf | exact H]. now rewrite on_data_timeout.
  - apply run_stderr_grows in H. destruct H as [b Hb].
    unfold on_timer in Hb. rewrite Harmed in Hb. simpl in Hb.
    rewrite kill_streams in Hb. simpl in Hb.
    rewrite Text.append_assoc in Hb. eauto.
  - eapply IH; eauto.
Qed.

Lemma run_actions_grow o evs : forall st p st',
  run o evs st = (p, st') ->
  exists more, st_actions st' = st_actions st ++ more.
Proof.
  assert (Hkill : forall st, exists more,
             st_actions (kill o st) = st_actions st ++ more).
  { intros st. unfold kill, act. destruct (killChild o); simpl; [eauto|].
    destruct (st_running st); simpl; [eauto|].
    exists []. now rewrite app_nil_r. }
  induction evs as [|ev evs IH]; intros st p st' H; simpl in H.
  - injection H as _ <-. exists []. now rewrite app_nil_r.
  - destruct ev as [name data| |code|code sig|e|e].
    + apply IH in H. destruct H as [m Hm]. rewrite Hm.
      unfold on_data. destruct (s_truncated _); [eauto|].
      destruct (_ >? _)%Z; simpl; [|eauto].
      destruct (Hkill (with_streams
                         (set_truncated (append name truncated_marker (st_streams st)))
                         st)) as [k Hk].
      rewrite Hk. simpl. rewrite <- app_assoc. eauto.
    + apply IH in H. destruct H as [m Hm]. rewrite Hm.
      unfold on_timer. destruct (st_timeout st); eauto.
      simpl.
      match goal with |- context [kill o ?x] => destruct (Hkill x) as [k Hk] end.
      rewrite Hk. simpl. rewrite <- app_assoc. eauto.
    + apply IH in H. exact H.
    + injection H as _ <-. exists []. now rewrite app_nil_r.
    + injection H as _ <-. exists []. now rewrite app_nil_r.
    + apply IH in H. exact H.
Qed.

(** When the timer gets to run on a running child, [kill()] acts. *)
Lemma run_timer_kills o evs : forall st p st',
  st_timeout st = Armed ->
  st_running st = true ->
  fires evs = true ->
  run o evs st = (p, st') ->
  In (kill_action o) (st_actions st').
Proof.
  induction evs as [|ev evs IH]; intros st p st' Harmed Hrun Hf H; simpl in Hf;
    [discriminate|].
  destruct ev as [name data| |code|code sig|e|e]; simpl in H; try discriminate.
  - eapply IH; [| | exact Hf | exact H].
    + now rewrite on_data_timeout.
    + now rewrite on_data_running.
  - apply run_actions_grow in H. destruct H as [m Hm]. rewrite Hm.
    apply in_or_app. left.
    unfold on_timer. rewrite Harmed. simpl.
    unfold kill, kill_action, act. simpl. rewrite Hrun.
    destruct (killChild o); simpl; apply in_or_app; right; now left.
  - eapply IH; eauto.
Qed.

(** A 'close' that comes before any 'error' resolves the promise. *)
Lemma run_closes o evs : forall st,
  closes evs = true -> exists r st', run o evs st = (Resolved r, st').
Proof.
  induction evs as [|ev evs IH]; intros st H; simpl in H; [discriminate|].
  destruct ev as [name data| |code|code sig|e|e]; simpl; try discriminate;
    try (now apply IH).
  eauto.
Qed.

(** The child is spawned, with the wrapper in front when there is one. *)
Lemma execute_spawns command args o evs :
  In (Spawn (spawned_command command o) (spawned_args command args o))
     (snd (execute command args o evs)).
Proof.
  unfold execute.
  destruct (run o evs (start command args o)) as [p st'] eqn:Hrun.
  apply run_actions_grow in Hrun. destruct Hrun as [more Hm].
  simpl. rewrite Hm. apply in_or_app. left. unfold start. simpl. now left.
Qed.

(** ** The output cap *)

(** The invariant behind the bound: [limit] is the cap plus the length of
    the longest chunk; the marker and the timeout message come on top. *)
Definition within (o : Options) (limit : Z) (st : State) : Prop :=
  let extra := if s_truncated (st_streams st) then Js.len truncated_marker else 0%Z in
  (Js.len (s_stdout (st_streams st)) <= limit + extra)%Z /\
  (Js.len (s_stderr (st_streams st)) <=
   limit + extra +
   match st_timeout st with Fired => Js.len timeout_message | _ => 0 end)%Z.

Lemma on_data_within o chunk name data st :
  (0 <= chunk)%Z ->
  (Js.len data <= chunk)%Z ->
  within o (Z.max 0 (maxOutput_of o) + chunk) st ->
  within o (Z.max 0 (maxOutput_of o) + chunk) (on_data o name data st).
Proof.
  intros Hc Hd [Hout Herr]. unfold within, on_data in *.
  destruct (s_truncated (st_streams st)) eqn:Htr.
  - rewrite Htr. split; assumption.
  - destruct (Js.len (stream name (st_streams st)) >? maxOutput_of o)%Z eqn:Hcap.
    + rewrite kill_streams, kill_timeout. simpl.
      pose proof (Text.len_nonneg truncated_marker).
      destruct name; simpl in *; rewrite ?Text.len_append;
        destruct (st_timeout st); lia.
    + rewrite Z.gtb_ltb in Hcap. apply Z.ltb_ge in Hcap.
      pose proof (Text.len_nonneg timeout_message).
      destruct name; simpl in *; rewrite ?Htr, ?Text.len_append;
        destruct (st_timeout st); split; lia.
Qed.

Lemma on_timer_within o limit st :
  within o limit st -> within o limit (on_timer o st).
Proof.
  intros [Hout Herr]. unfold within, on_timer in *.
  destruct (st_timeout st) eqn:Ht; try (rewrite Ht; split; assumption).
  simpl. rewrite kill_streams, kill_timeout. simpl.
  rewrite Text.len_append. split; lia.
Qed.

Lemma run_within o chunk evs : forall st r st',
  (max_chunk evs <= chunk)%Z ->
  (0 <= chunk)%Z ->
  within o (Z.max 0 (maxOutput_of o) + chunk) st ->
  run o evs st = (Resolved r, st') ->
  (Js.len (stdout r) <=
   Z.max 0 (maxOutput_of o) + chunk + Js.len truncated_marker)%Z /\
  (Js.len (stderr r) <=
   Z.max 0 (maxOutput_of o) + chunk + Js.len truncated_marker +
   Js.len timeout_message)%Z.
Proof.
  induction evs as [|ev evs IH]; intros st r st' Hmax Hc Hin H; simpl in H;
    [discriminate|].
  destruct ev as [name data| |code|code sig|e|e]; simpl in Hmax.
  - eapply IH; [| exact Hc | | exact H]; [lia|].
    apply on_data_within; [exact Hc | lia | exact Hin].
  - eapply IH; [exact Hmax | exact Hc | | exact H]. now apply on_timer_within.
  - eapply IH; [exact Hmax | exact Hc | | exact H].
    destruct Hin as [Hout Herr]. unfold within, on_exit. simpl.
    split; [exact Hout|]. destruct (st_timeout st); simpl in *; lia.
  - injection H as <- _. destruct Hin as [Hout Herr]. simpl.
    pose proof (Text.len_nonneg truncated_marker).
    pose proof (Text.len_nonneg timeout_message).
    destruct (s_truncated (st_streams st)), (st_timeout st); lia.
  - discriminate.
  - eapply IH; eauto.
Qed.

Lemma max_chunk_nonneg evs : (0 <= max_chunk evs)%Z.
Proof. induction evs as [|[]]; simpl; lia. Qed.

(** Once the streams are truncated no marker is appended any more. *)
Lemma markers_truncated o evs : forall st,
  s_truncated (st_streams st) = true -> markers o evs st = 0.
Proof.
  induction evs as [|ev evs IH]; intros st Htr; simpl; [reflexivity|].
  destruct ev as [name data| |code|code sig|e|e]; try reflexivity.
  - rewrite Htr. simpl. apply IH. unfold on_data. now rewrite Htr.
  - apply IH. unfold on_timer. destruct (st_timeout st); try exact Htr.
    simpl. rewrite kill_streams. exact Htr.
  - apply IH. exact Htr.
  - apply IH. exact Htr.
Qed.

Lemma markers_at_most_one o evs : forall st, markers o evs st <= 1.
Proof.
  induction evs as [|ev evs IH]; intros st; simpl; [lia|].
  destruct ev as [name data| |code|code sig|e|e]; try apply IH; try lia.
  destruct (s_truncated (st_streams st)) eqn:Htr; simpl.
  - apply IH.
  - destruct (_ >? _)%Z eqn:Hcap; simpl; [|apply IH].
    rewrite markers_truncated; [lia|].
    unfold on_data. rewrite Htr, Hcap, kill_streams. reflexivity.
Qed.

(** C2, as the runner implements it.  For every process execution that
    resolves: a chunk of data is accumulated only while its stream holds at
    most [maxOutput] characters, so a captured stream holds at most the cap
    plus the longest chunk, plus the marker (and, for stderr, plus the
    timeout message); a 'data' callback that finds its stream over the cap
    appends the marker, sets [streams.truncated] and calls [kill()]; this
    happens at most once in an execution, since every later 'data' callback
    returns at once; and the object the promise is resolved with has no
    [truncated] property. *)
Theorem output_cap_as_implemented :
  forall command args o evs r acts,
    execute command args o evs = (Resolved r, acts) ->
    (Js.len (stdout r) <=
     Z.max 0 (maxOutput_of o) + max_chunk evs + Js.len truncated_marker)%Z /\
    (Js.len (stderr r) <=
     Z.max 0 (maxOutput_of o) + max_chunk evs + Js.len truncated_marker +
     Js.len timeout_message)%Z /\
    markers o evs (start command args o) <= 1 /\
    (forall name data st,
        s_truncated (st_streams st) = false ->
        (Js.len (stream name (st_streams st)) <= maxOutput_of o)%Z ->
        on_data o name data st = with_streams (append name data (st_streams st)) st) /\
    (forall name data st,
        s_truncated (st_streams st) = false ->
        (maxOutput_of o < Js.len (stream name (st_streams st)))%Z ->
        on_data o name data st =
        kill o (with_streams
                  (set_truncated (append name truncated_marker (st_streams st))) st)) /\
    (forall name data st,
        s_truncated (st_streams st) = true -> on_data o name data st = st) /\
    Obj.field "truncated" (result_object r) = JUndef.
Proof.
  intros command args o evs r acts H.
  unfold execute in H.
  destruct (run o evs (start command args o)) as [p st'] eqn:Hrun.
  injection H as -> _.
  assert (Hstart : within o (Z.max 0 (maxOutput_of o) + max_chunk evs)
                     (start command args o)).
  { pose proof (max_chunk_nonneg evs). unfold within, start. simpl.
    destruct (timeoutMs_of o =? 0)%Z; simpl; unfold Js.len; simpl; lia. }
  destruct (run_within o _ evs _ r st' (Z.le_refl _) (max_chunk_nonneg evs)
              Hstart Hrun) as [Hout Herr].
  repeat split.
  - exact Hout.
  - exact Herr.
  - apply markers_at_most_one.
  - intros name data st Htr Hcap. unfold on_data. rewrite Htr.
    rewrite Z.gtb_ltb. apply Z.ltb_ge in Hcap. now rewrite Hcap.
  - intros name data st Htr Hcap. unfold on_data. rewrite Htr.
    rewrite Z.gtb_ltb. apply Z.ltb_lt in Hcap. now rewrite Hcap.
  - intros name data st Htr. unfold on_data. now rewrite Htr.
Qed.

(** The options of the runs below: a cap of four characters. *)
Definition cap4 : Options :=
  {| maxOutput := Some 4%Z; timeoutMs := None; env := JUndef; wrapper := None;
     input := None; killChild := false |}.

(** C2 as stated fails: with a cap of 4 a single chunk of 11 characters is
    captured whole; the stream ends over the cap with no marker, no kill and
    no [truncated] in the result.  When more data follows, the marker comes
    on top of the 11 characters. *)
Lemma output_cap_exceeded :
  execute "prog" [] cap4
    [EvData SOut "hello world"; EvExit (Some 0%Z); EvClose (Some 0%Z) None] =
  (Resolved {| status := Some 0%Z; signal := None; stdout := "hello world";
               stderr := ""; okToCache := true |},
   [Spawn "prog" []]) /\
  (maxOutput_of cap4 < Js.len "hello world")%Z /\
  Obj.field "truncated"
    (result_object {| status := Some 0%Z; signal := None; stdout := "hello world";
                      stderr := ""; okToCache := true |}) = JUndef /\
  (exists r acts,
      execute "prog" [] cap4
        [EvData SOut "hello world"; EvData SOut "!"; EvExit None;
         EvClose None (Some "SIGTERM")] = (Resolved r, acts) /\
      stdout r = ("hello world" ++ truncated_marker)%string /\
      (maxOutput_of cap4 < Js.len (stdout r))%Z).
Proof.
  split; [reflexivity|]. split; [reflexivity|]. split; [reflexivity|].
  eexists. eexists. split; [reflexivity|]. split; reflexivity.
Qed.

(** The theorem at work on the second run above. *)
Lemma output_cap_witness :
  (Js.len ("hello world" ++ truncated_marker) <=
   Z.max 0 (maxOutput_of cap4) +
   max_chunk [EvData SOut "hello world"; EvData SOut "!"; EvExit None;
              EvClose None (Some "SIGTERM")] +
   Js.len truncated_marker)%Z.
Proof.
  exact (proj1 (output_cap_as_implemented "prog" [] cap4
                  [EvData SOut "hello world"; EvData SOut "!"; EvExit None;
                   EvClose None (Some "SIGTERM")] _ _ eq_refl)).
Defined.

End ExecFacts.

(** ** The compiler driver *)

Module CompilerFacts.

Import Compiler.

(** *** Tasks *)

Lemma bind_fst {A B : Type} (m : Task A) (k : A -> Task B) :
  fst (bind m k) =
  match fst m with
  | Resolved a => fst (k a)
  | Rejected e => Rejected e
  | Pending => Pending
  end.
Proof. unfold bind. destruct (fst m); reflexivity. Qed.

Lemma bind_snd {A B : Type} (m : Task A) (k : A -> Task B) :
  snd (bind m k) =
  snd m ++ match fst m with Resolved a => snd (k a) | _ => [] end.
Proof. unfold bind. destruct (fst m); simpl; now rewrite ?app_nil_r. Qed.

Lemma exec_fst command args o evs :
  fst (exec command args o evs) = fst (Exec.execute command args o evs).
Proof. reflexivity. Qed.

Lemma exec_snd command args o evs :
  snd (exec command args o evs) = map Proc (snd (Exec.execute command args o evs)).
Proof. reflexivity. Qed.

(** The runner's promise does not depend on the command line. *)
Lemma execute_fst_any command args command' args' o evs :
  fst (Exec.execute command args o evs) = fst (Exec.execute command' args' o evs).
Proof.
  unfold Exec.execute.
  assert (H : forall st1 st2,
             Exec.st_streams st1 = Exec.st_streams st2 ->
             Exec.st_okToCache st1 = Exec.st_okToCache st2 ->
             Exec.st_timeout st1 = Exec.st_timeout st2 ->
             fst (Exec.run o evs st1) = fst (Exec.run o evs st2)).
  { induction evs as [|ev evs IH]; intros st1 st2 Hs Hk Ht; simpl; [reflexivity|].
    destruct ev as [name data| |code|code sig|e|e]; simpl.
    - apply IH.
      + unfold Exec.on_data. rewrite Hs.
        destruct (Exec.s_truncated _); [exact Hs|].
        destruct (_ >? _)%Z; rewrite ?ExecFacts.kill_streams; simpl; now rewrite ?Hs.
      + now rewrite !ExecFacts.on_data_okToCache.
      + now rewrite !ExecFacts.on_data_timeout.
    - apply IH; unfold Exec.on_timer; rewrite Ht;
        destruct (Exec.st_timeout st2) eqn:Ht2; simpl; rewrite ?ExecFacts.kill_streams, ?ExecFacts.kill_okToCache,
                 ?ExecFacts.kill_timeout; simpl; congruence.
    - apply IH; simpl; congruence.
    - unfold Exec.on_close. now rewrite Hs, Hk.
    - reflexivity.
    - now apply IH. }
  specialize (H (Exec.start command args o) (Exec.start command' args' o)
                eq_refl eq_refl eq_refl).
  destruct (Exec.run o evs (Exec.start command args o)),
           (Exec.run o evs (Exec.start command' args' o)).
  exact H.
Qed.

Lemma runCompiler_fst {Cache : Type} (E : Env Cache) compiler args input o evs :
  fst (runCompiler E compiler args input o evs) =
  match fst (Exec.execute compiler args o evs) with
  | Resolved x => Resolved (parsed E (Some input) x)
  | Rejected e => Rejected e
  | Pending => Pending
  end.
Proof.
  unfold runCompiler. rewrite bind_fst, exec_fst.
  destruct (fst (Exec.execute compiler args o evs)); reflexivity.
Qed.

(** *** The flag [okToCache] from the runner to the cache *)

(** [okToCache] of the main compile: the timer of the compiler did not run. *)
Definition main_okToCache {Cache : Type} (E : Env Cache) (c : Descriptor) (W : World)
  : bool :=
  negb (Exec.timed_out (getDefaultExecOptions E c) (main_events W)).

Lemma postProcessResult_shape {Cache : Type} (E : Env Cache) c W result out filters r o :
  fst (postProcessResult E c W result out filters) = Resolved (r, o) ->
  exists a, r = set_asm (JStr a) result \/
            exists x, r = set_execResult x (set_asm (JStr a) result).
Proof.
  unfold postProcessResult. cbv zeta. simpl fst.
  repeat match goal with
         | |- context [match ?x with
                       | Resolved _ => _
                       | Rejected _ => _
                       | Pending => _
                       end] => destruct x
         end; intros H; try discriminate.
  injection H as <- _.
  match goal with |- context [match ?x with Some _ => _ | None => _ end] =>
    destruct x end; eauto.
Qed.

Lemma postProcessResult_okToCache {Cache : Type} (E : Env Cache) c W result out filters
    r o :
  fst (postProcessResult E c W result out filters) = Resolved (r, o) ->
  okToCache r = okToCache result.
Proof.
  intros H. apply postProcessResult_shape in H.
  destruct H as [a [-> | [x ->]]]; reflexivity.
Qed.

Lemma both_fst {A B : Type} (a : Task A) (b : Task B) r :
  fst (both a b) = Resolved r ->
  fst a = Resolved (fst r) /\ fst b = Resolved (snd r).
Proof.
  unfold both. simpl. destruct (fst a), (fst b); intros H; try discriminate.
  injection H as <-. split; reflexivity.
Qed.

Lemma onCompiled_okToCache {Cache : Type} (E : Env Cache) c W filters opts dir out
    results r o :
  fst (onCompiled E c W filters opts dir out results) = Resolved (r, o) ->
  okToCache r = okToCache (fst results).
Proof.
  unfold onCompiled. cbv zeta.
  destruct (failed _).
  - intros H. injection H as <- _. reflexivity.
  - rewrite bind_fst. simpl fst at 1. cbv beta iota.
    intros H. apply postProcessResult_okToCache in H. rewrite H.
    repeat match goal with
           | |- context [if ?b then _ else _] => destruct b
           end; reflexivity.
Qed.

Lemma compileToAsm_okToCache {Cache : Type} (E : Env Cache) c W userOptions bo filters
    info r o :
  fst (compileToAsm E c W userOptions bo filters info) = Resolved (r, o) ->
  okToCache r = main_okToCache E c W.
Proof.
  unfold compileToAsm. cbv zeta.
  destruct (exe c) as [compiler|]; [|discriminate].
  rewrite bind_fst.
  destruct (fst (both _ _)) as [results| |] eqn:Hboth; try discriminate.
  apply both_fst in Hboth. destruct Hboth as [Hasm _].
  rewrite runCompiler_fst in Hasm.
  destruct (Exec.execute compiler _ (getDefaultExecOptions E c) (main_events W))
    as [p acts] eqn:Hmain.
  simpl fst in Hasm. destruct p as [x| |]; try discriminate.
  apply ExecFacts.execute_okToCache in Hmain.
  intros H. apply onCompiled_okToCache in H. rewrite H.
  injection Hasm as <-. exact Hmain.
Qed.

Lemma tidy_fst {Cache : Type} (E : Env Cache) filters results :
  exists r, fst (tidy E filters results) = Resolved r /\
            okToCache r = okToCache (fst results) /\
            status r = status (fst results) /\
            execResult r = execResult (fst results).
Proof.
  unfold tidy. cbv zeta. rewrite bind_fst.
  destruct (okToCache (fst results)) eqn:Hok.
  - simpl. eexists. split; [reflexivity|].
    destruct (hasOptOutput (fst results)) as [[|]|]; simpl; auto.
  - destruct (dirPath _) as [d|] eqn:Hd; simpl dirPath; rewrite ?Hd.
    + destruct (Js.nonempty d); simpl; eexists; (split; [reflexivity|]);
        destruct (hasOptOutput (fst results)) as [[|]|]; simpl; auto.
    + simpl. eexists. split; [reflexivity|].
      destruct (hasOptOutput (fst results)) as [[|]|]; simpl; auto.
Qed.

Lemma postProcessAsm_okToCache {Cache : Type} (E : Env Cache) c W result r :
  fst (postProcessAsm E c W result) = Resolved r ->
  okToCache r = okToCache result /\ status r = status result /\
  execResult r = execResult result.
Proof.
  unfold postProcessAsm.
  destruct (okToCache result) eqn:Hok; simpl negb; cbv iota.
  2:{ intros H. injection H as <-. auto. }
  destruct (Js.nonempty (demangler c)); simpl negb; cbv iota.
  2:{ intros H. injection H as <-. auto. }
  rewrite bind_fst. destruct (fst (exec _ _ _ _)); try discriminate.
  simpl. intros H. injection H as <-.
  destruct (asm result); simpl; auto.
Qed.

Lemma addCfg_okToCache {Cache : Type} (E : Env Cache) c filters result :
  okToCache (addCfg E c filters result) = okToCache result.
Proof.
  unfold addCfg. cbv zeta.
  match goal with |- context [if ?b then _ else _] => destruct b end; reflexivity.
Qed.

Lemma addCfg_execResult {Cache : Type} (E : Env Cache) c filters result :
  execResult (addCfg E c filters result) = execResult result.
Proof.
  unfold addCfg. cbv zeta.
  match goal with |- context [if ?b then _ else _] => destruct b end; reflexivity.
Qed.

(** The result of the job carries the flag of the main compile. *)
Lemma job_okToCache {Cache : Type} (E : Env Cache) c W key source userOptions bo filters
    r :
  fst (job E c W key source userOptions bo filters) = Resolved r ->
  okToCache r = main_okToCache E c W.
Proof.
  unfold job. rewrite bind_fst.
  destruct (fst (tempFileAndDir E W source)) as [info| |]; try discriminate.
  rewrite bind_fst.
  destruct (fst (compileToAsm E c W userOptions bo filters info)) as [[r1 o1]| |]
    eqn:Hasm; try discriminate.
  apply compileToAsm_okToCache in Hasm.
  rewrite bind_fst.
  destruct (tidy_fst E filters (r1, o1)) as [r2 [Ht [Hok2 _]]]. rewrite Ht.
  simpl fst in Hok2.
  rewrite bind_fst.
  destruct (Obj.flag "demangle" filters).
  - destruct (fst (postProcessAsm E c W r2)) as [r3| |] eqn:Hd; try discriminate.
    apply postProcessAsm_okToCache in Hd. destruct Hd as [Hok3 _].
    destruct (okToCache (addCfg E c filters r3)) eqn:Hok4; simpl;
      intros H; injection H as <-; rewrite addCfg_okToCache; congruence.
  - simpl fst at 1. cbv iota beta.
    destruct (okToCache (addCfg E c filters r2)) eqn:Hok4; simpl;
      intros H; injection H as <-; rewrite addCfg_okToCache; congruence.
Qed.

(** *** Which effects a stage can have *)

(** Every effect is plain, or a call of the sandbox where [b] allows one. *)
Definition tame (b : bool) (effs : list Effect) : Prop :=
  Forall (fun e => plain e = true \/ (b = true /\ exists x, e = RunSandbox x)) effs.

Lemma tame_nil b : tame b [].
Proof. constructor. Qed.

Lemma tame_app b l1 l2 : tame b l1 -> tame b l2 -> tame b (l1 ++ l2).
Proof. unfold tame. intros. apply Forall_app. now split. Qed.

Lemma tame_weaken b l : tame false l -> tame b l.
Proof.
  unfold tame. intros H. eapply Forall_impl; [|exact H].
  intros e [He | [Hf _]]; [now left | discriminate].
Qed.

Lemma tame_proc b acts : tame b (map Proc acts).
Proof.
  unfold tame. apply Forall_forall. intros e He.
  apply in_map_iff in He. destruct He as [a [<- _]]. now left.
Qed.

Lemma tame_bind {A B : Type} b (m : Task A) (k : A -> Task B) :
  tame b (snd m) -> (forall a, tame b (snd (k a))) -> tame b (snd (bind m k)).
Proof.
  intros Hm Hk. rewrite bind_snd. apply tame_app; [exact Hm|].
  destruct (fst m); [apply Hk | apply tame_nil | apply tame_nil].
Qed.

Lemma tame_exec b command args o evs : tame b (snd (exec command args o evs)).
Proof. rewrite exec_snd. apply tame_proc. Qed.

Lemma tame_cons b e l : plain e = true -> tame b l -> tame b (e :: l).
Proof. intros He Hl. constructor; [now left | exact Hl]. Qed.

Lemma tame_runCompiler {Cache : Type} (E : Env Cache) b compiler args input o evs :
  tame b (snd (runCompiler E compiler args input o evs)).
Proof.
  unfold runCompiler. apply tame_bind; [apply tame_exec | intros; apply tame_nil].
Qed.

Lemma tame_tempFileAndDir {Cache : Type} (E : Env Cache) b W source :
  tame b (snd (tempFileAndDir E W source)).
Proof.
  unfold tempFileAndDir. apply tame_bind.
  - apply tame_cons; [reflexivity | apply tame_nil].
  - intros d. apply tame_bind.
    + apply tame_cons; [reflexivity | apply tame_nil].
    + intros; apply tame_nil.
Qed.

Lemma tame_astProbe {Cache : Type} (E : Env Cache) b c W compiler input opts bo :
  tame b (snd (astProbe E c W compiler input opts bo)).
Proof.
  unfold astProbe. cbv zeta.
  destruct (_ && _); [|apply tame_nil].
  destruct (couldSupportASTDump _ _ _); [|apply tame_nil].
  unfold generateAST. cbv zeta. apply tame_bind;
    [apply tame_runCompiler | intros; apply tame_nil].
Qed.

Lemma tame_readOutput {Cache : Type} (E : Env Cache) b W out maxSize stages :
  tame b (snd (readOutput E W out maxSize stages)).
Proof.
  unfold readOutput.
  destruct (output_stat W) as [size| |];
    try (apply tame_cons; [reflexivity | apply tame_nil]).
  destruct (size >=? maxSize)%Z;
    [apply tame_cons; [reflexivity | apply tame_nil]|].
  destruct stages.
  - apply tame_cons; [reflexivity|]. apply tame_cons; [reflexivity | apply tame_nil].
  - apply tame_bind; [apply tame_cons; [reflexivity | apply tame_nil]|].
    intros _. apply tame_bind; [apply tame_exec | intros; apply tame_nil].
Qed.

Lemma tame_postProcessResult {Cache : Type} (E : Env Cache) c W result out filters :
  tame (wants_execution c filters) (snd (postProcessResult E c W result out filters)).
Proof.
  unfold postProcessResult. cbv zeta. simpl snd.
  apply tame_app; [|apply tame_app].
  - destruct (hasOptOutput result) as [[|]|]; try apply tame_nil.
    apply tame_cons; [reflexivity | apply tame_nil].
  - destruct (_ && _).
    + unfold objdump. apply tame_bind; [apply tame_exec | intros; apply tame_nil].
    + apply tame_readOutput.
  - destruct (wants_execution c filters) eqn:Hw; [|apply tame_nil].
    apply tame_bind; [|intros; apply tame_nil].
    unfold execBinary. simpl snd. constructor.
    + right. split; [reflexivity | eauto].
    + apply tame_proc.
Qed.

Lemma tame_compileToAsm {Cache : Type} (E : Env Cache) c W userOptions bo filters info :
  tame (wants_execution c filters)
       (snd (compileToAsm E c W userOptions bo filters info)).
Proof.
  unfold compileToAsm. cbv zeta. destruct (exe c) as [compiler|]; [|apply tame_nil].
  apply tame_bind.
  - unfold both. simpl snd. apply tame_app;
      [apply tame_runCompiler | apply tame_astProbe].
  - intros results. unfold onCompiled. cbv zeta.
    destruct (failed _); [apply tame_nil|].
    apply tame_bind.
    + simpl snd. destruct (_ && _); [|apply tame_nil].
      apply tame_cons; [reflexivity | apply tame_nil].
    + intros _. apply tame_postProcessResult.
Qed.

Lemma tame_tidy {Cache : Type} (E : Env Cache) b filters results :
  tame b (snd (tidy E filters results)).
Proof.
  unfold tidy. cbv zeta. apply tame_bind; [|intros; apply tame_nil].
  destruct (okToCache _); [apply tame_nil|].
  destruct (dirPath _) as [d|]; [|apply tame_nil].
  destruct (Js.nonempty d); [|apply tame_nil].
  apply tame_cons; [reflexivity | apply tame_nil].
Qed.

Lemma tame_postProcessAsm {Cache : Type} (E : Env Cache) b c W result :
  tame b (snd (postProcessAsm E c W result)).
Proof.
  unfold postProcessAsm.
  destruct (negb (okToCache result)); [apply tame_nil|].
  destruct (negb _); [apply tame_nil|].
  apply tame_bind; [apply tame_exec | intros; apply tame_nil].
Qed.

(** The effects of the job: tame ones, and at the very end the put into the
    cache of a result that is [okToCache]. *)
Lemma job_effects {Cache : Type} (E : Env Cache) c W key source userOptions bo filters :
  exists before,
    tame (wants_execution c filters) before /\
    snd (job E c W key source userOptions bo filters) =
    before ++
    match fst (job E c W key source userOptions bo filters) with
    | Resolved r => if okToCache r then [CachePut key r] else []
    | _ => []
    end.
Proof.
  unfold job.
  set (b := wants_execution c filters).
  rewrite bind_snd, bind_fst.
  destruct (fst (tempFileAndDir E W source)) as [info| |] eqn:Hinfo.
  2,3: (eexists; split;
        [apply (tame_tempFileAndDir E b W source) | now rewrite !app_nil_r]).
  rewrite bind_snd, bind_fst.
  destruct (fst (compileToAsm E c W userOptions bo filters info)) as [results| |]
    eqn:Hasm.
  2,3: (eexists; split;
        [apply tame_app;
         [apply (tame_tempFileAndDir E b W source)
         | apply (tame_compileToAsm E c W userOptions bo filters info)]
        | now rewrite !app_nil_r]).
  rewrite bind_snd, bind_fst.
  destruct (tidy_fst E filters results) as [r2 [Ht _]]. rewrite Ht.
  rewrite bind_snd, bind_fst.
  set (dem := if Obj.flag "demangle" filters then postProcessAsm E c W r2 else ret r2).
  assert (Hdem : tame b (snd dem)).
  { unfold dem. destruct (Obj.flag "demangle" filters);
      [apply tame_postProcessAsm | apply tame_nil]. }
  destruct (fst dem) as [r3| |] eqn:Hd.
  2,3: (exists (snd (tempFileAndDir E W source) ++
                snd (compileToAsm E c W userOptions bo filters info) ++
                snd (tidy E filters results) ++ snd dem); split;
        [repeat apply tame_app;
         [apply tame_tempFileAndDir | apply tame_compileToAsm | apply tame_tidy
         | exact Hdem]
        | now rewrite !app_nil_r]).
  exists (snd (tempFileAndDir E W source) ++
          snd (compileToAsm E c W userOptions bo filters info) ++
          snd (tidy E filters results) ++ snd dem).
  split.
  - repeat apply tame_app;
      [apply tame_tempFileAndDir | apply tame_compileToAsm | apply tame_tidy
      | exact Hdem].
  - destruct (okToCache (addCfg E c filters r3)) eqn:Hok; simpl;
      rewrite ?Hok, <- ?app_assoc; simpl; rewrite ?app_nil_r; reflexivity.
Qed.

Lemma tame_no_put b effs key r : tame b effs -> ~ In (CachePut key r) effs.
Proof.
  unfold tame. intros H Hin. rewrite Forall_forall in H.
  destruct (H _ Hin) as [Hp | [_ [x Hx]]]; discriminate.
Qed.

Lemma tame_sandbox b effs x : tame b effs -> In (RunSandbox x) effs -> b = true.
Proof.
  unfold tame. intros H Hin. rewrite Forall_forall in H.
  destruct (H _ Hin) as [Hp | [Hb _]]; [discriminate | exact Hb].
Qed.

(** *** [compile] around the job *)

Lemma triple_eta {A B C : Type} (x : A * B * C) : x = (fst (fst x), snd (fst x), snd x).
Proof. destruct x as [[a b] d]. reflexivity. Defined.

Lemma compile_miss {Cache : Type} (E : Env Cache) c W cache source userOptions bo
    filters :
  checkOptions E userOptions = None ->
  checkSource E source = None ->
  cacheGet E cache (cacheKey c source userOptions bo filters) = None ->
  compile E c W cache source userOptions bo filters =
  (let queued :=
     job E c W (cacheKey c source userOptions bo filters)
       (stubbed E (effective_filters c filters) source) userOptions bo
       (effective_filters c filters) in
   (fst queued,
    [CacheGet (cacheKey c source userOptions bo filters); Enqueue] ++ snd queued,
    match fst queued with
    | Resolved result =>
        if okToCache result
        then cachePut E cache (cacheKey c source userOptions bo filters) result
        else cache
    | _ => cache
    end)).
Proof.
  intros Ho Hs Hk. unfold compile, cacheKey in *. rewrite Ho, Hs. cbv zeta.
  rewrite Hk. reflexivity.
Qed.

(** What a compile that misses the cache does to it, by its outcome. *)
Lemma compile_miss_cache {Cache : Type} (E : Env Cache) c W cache source userOptions bo
    filters p effs cache' :
  checkOptions E userOptions = None ->
  checkSource E source = None ->
  cacheGet E cache (cacheKey c source userOptions bo filters) = None ->
  compile E c W cache source userOptions bo filters = (p, effs, cache') ->
  match p with
  | Resolved r =>
      okToCache r = main_okToCache E c W /\
      (okToCache r = true ->
       cache' = cachePut E cache (cacheKey c source userOptions bo filters) r /\
       In (CachePut (cacheKey c source userOptions bo filters) r) effs) /\
      (okToCache r = false ->
       cache' = cache /\ forall k x, ~ In (CachePut k x) effs)
  | _ => cache' = cache /\ forall k x, ~ In (CachePut k x) effs
  end.
Proof.
  intros Ho Hs Hk H. rewrite (compile_miss E c W cache source userOptions bo filters Ho Hs Hk) in H.
  cbv zeta in H. injection H as <- <- <-.
  set (key := cacheKey c source userOptions bo filters).
  set (src := stubbed E (effective_filters c filters) source).
  set (fs := effective_filters c filters).
  destruct (job_effects E c W key src userOptions bo fs) as [before [Htame Heffs]].
  assert (Hquiet : forall k x, ~ In (CachePut k x) ([CacheGet key; Enqueue] ++ before)).
  { intros k x Hin. simpl in Hin.
    destruct Hin as [Hin | [Hin | Hin]]; try discriminate.
    exact (tame_no_put _ _ k x Htame Hin). }
  destruct (fst (job E c W key src userOptions bo fs)) as [r| |] eqn:Hjob.
  - split; [exact (job_okToCache E c W key src userOptions bo fs r Hjob)|].
    rewrite Heffs. split; intros Hok; rewrite Hok.
    + split; [reflexivity|]. simpl. right. right. apply in_or_app. right. now left.
    + split; [reflexivity|]. rewrite app_nil_r. exact Hquiet.
  - rewrite Heffs, app_nil_r. split; [reflexivity | exact Hquiet].
  - rewrite Heffs, app_nil_r. split; [reflexivity | exact Hquiet].
Qed.

(** C1, as the driver implements it.  For every compile request that
    passes the screens and misses the cache: when the promise is resolved,
    the result is put into the cache if and only if its [okToCache] is true,
    and this flag is the runner's for the main compile, true exactly when
    the compile timer did not run; the exit status and the signal are not
    consulted.  When the promise is rejected or never settles the cache is
    left as it was. *)
Theorem cache_insertion_follows_okToCache :
  forall (Cache : Type) (E : Env Cache) c W cache source userOptions bo filters
         p effs cache',
    checkOptions E userOptions = None ->
    checkSource E source = None ->
    cacheGet E cache (cacheKey c source userOptions bo filters) = None ->
    compile E c W cache source userOptions bo filters = (p, effs, cache') ->
    match p with
    | Resolved r =>
        okToCache r =
          negb (Exec.timed_out (getDefaultExecOptions E c) (main_events W)) /\
        (okToCache r = true ->
         cache' = cachePut E cache (cacheKey c source userOptions bo filters) r /\
         In (CachePut (cacheKey c source userOptions bo filters) r) effs) /\
        (okToCache r = false ->
         cache' = cache /\ forall k x, ~ In (CachePut k x) effs)
    | _ => cache' = cache /\ forall k x, ~ In (CachePut k x) effs
    end.
Proof.
  intros Cache E c W cache source userOptions bo filters p effs cache' Ho Hs Hk H.
  exact (compile_miss_cache E c W cache source userOptions bo filters p effs cache'
           Ho Hs Hk H).
Qed.

(** C1 as stated fails: a compile that exits with status 1, not killed by
    its timer, resolves with this status and is found in the cache
    afterwards. *)
Lemma failed_compile_is_cached :
  exists r effs cache',
    compile Samples.env Samples.gcc (Samples.world 1 "error: expected ')'") []
      "int f(" ["-O2"] JUndef getDefaultFilters = (Resolved r, effs, cache') /\
    status r = Some 1%Z /\
    okToCache r = true /\
    In (CachePut (cacheKey Samples.gcc "int f(" ["-O2"] JUndef getDefaultFilters) r)
       effs /\
    cacheGet Samples.env cache'
      (cacheKey Samples.gcc "int f(" ["-O2"] JUndef getDefaultFilters) = Some r.
Proof.
  eexists. eexists. eexists. split; [vm_compute; reflexivity|].
  split; [reflexivity|]. split; [reflexivity|].
  split; [vm_compute; tauto | vm_compute; reflexivity].
Qed.

(** The theorem at work on a compile that succeeds: its result is in the
    cache afterwards. *)
Lemma cache_insertion_witness :
  exists r,
    fst (fst (compile Samples.env Samples.gcc (Samples.world 0 "") []
                "int f();" ["-O2"] JUndef getDefaultFilters)) = Resolved r /\
    snd (compile Samples.env Samples.gcc (Samples.world 0 "") []
           "int f();" ["-O2"] JUndef getDefaultFilters) =
    cachePut Samples.env []
      (cacheKey Samples.gcc "int f();" ["-O2"] JUndef getDefaultFilters) r.
Proof.
  generalize (cache_insertion_follows_okToCache Samples.Cache Samples.env Samples.gcc
                (Samples.world 0 "") [] "int f();" ["-O2"] JUndef getDefaultFilters
                _ _ _
                (@eq_refl (option string) None
                   <: checkOptions Samples.env ["-O2"] = None)
                (@eq_refl (option string) None
                   <: checkSource Samples.env "int f();" = None)
                (@eq_refl (option Result) None
                   <: cacheGet Samples.env []
                        (cacheKey Samples.gcc "int f();" ["-O2"] JUndef
                           getDefaultFilters) = None)
                (triple_eta _)).
  vm_compute. intros [_ [H _]]. destruct (H eq_refl) as [Hput _].
  eexists. split; [reflexivity | exact Hput].
Defined.

(** C3, as the runner implements it.  For every process execution with
    [timeoutMs > 0] whose timer callback gets to run (the child has not
    ended when the time is up) and whose child then closes: [kill()] acts,
    which is [treeKill] on the child unless the caller passed a [killChild]
    of its own, which is called in its place; the string [timeout_message]
    is appended to what stderr held and stays in the stderr of the result;
    the result has [okToCache = false].  And for every compile that passes
    the screens, misses the cache and runs into the timer of its main
    compile: the cache is left as it was, so the key is still absent when
    compile returns, whatever the outcome. *)
Theorem timeout_kills_and_is_not_cached :
  (forall command args o evs,
      (0 < Exec.timeoutMs_of o)%Z ->
      Exec.fires evs = true ->
      Exec.closes evs = true ->
      exists r acts,
        Exec.execute command args o evs = (Resolved r, acts) /\
        In (Exec.kill_action o) acts /\
        (Exec.killChild o = false -> In Exec.TreeKill acts) /\
        (exists a b, Exec.stderr r = (a ++ Exec.timeout_message ++ b)%string) /\
        Exec.okToCache r = false) /\
  (forall (Cache : Type) (E : Env Cache) c W cache source userOptions bo filters
          p effs cache',
      checkOptions E userOptions = None ->
      checkSource E source = None ->
      cacheGet E cache (cacheKey c source userOptions bo filters) = None ->
      (0 < compileTimeoutMs E)%Z ->
      Exec.fires (main_events W) = true ->
      compile E c W cache source userOptions bo filters = (p, effs, cache') ->
      cache' = cache /\
      cacheGet E cache' (cacheKey c source userOptions bo filters) = None /\
      (forall k x, ~ In (CachePut k x) effs) /\
      (forall r, p = Resolved r -> okToCache r = false)).
Proof.
  split.
  - intros command args o evs Hpos Hfires Hcloses.
    unfold Exec.execute.
    destruct (ExecFacts.run_closes o evs (Exec.start command args o) Hcloses)
      as [r [st' Hrun]].
    rewrite Hrun. exists r, (Exec.st_actions st'). split; [reflexivity|].
    assert (Harmed : Exec.st_timeout (Exec.start command args o) = Exec.Armed).
    { unfold Exec.start. simpl.
      destruct (Exec.timeoutMs_of o =? 0)%Z eqn:Hz; [|reflexivity].
      apply Z.eqb_eq in Hz. lia. }
    assert (Hkill : In (Exec.kill_action o) (Exec.st_actions st')).
    { exact (ExecFacts.run_timer_kills o evs _ _ _ Harmed eq_refl Hfires Hrun). }
    split; [exact Hkill|]. split.
    + intros Hk. unfold Exec.kill_action in Hkill. now rewrite Hk in Hkill.
    + split.
      * exact (ExecFacts.run_timeout_message o evs _ _ _ Harmed Hfires Hrun).
      * rewrite (ExecFacts.run_okToCache o evs _ _ _ Hrun), Harmed, Hfires.
        reflexivity.
  - intros Cache E c W cache source userOptions bo filters p effs cache'
           Ho Hs Hk Hpos Hfires H.
    pose proof (compile_miss_cache E c W cache source userOptions bo filters
                  p effs cache' Ho Hs Hk H) as Hc.
    assert (Hto : main_okToCache E c W = false).
    { unfold main_okToCache, Exec.timed_out. rewrite Hfires.
      unfold Exec.timeoutMs_of, getDefaultExecOptions. simpl.
      destruct (compileTimeoutMs E =? 0)%Z eqn:Hz; [|reflexivity].
      apply Z.eqb_eq in Hz. lia. }
    destruct p as [r| |].
    + destruct Hc as [Hok [_ Hno]]. rewrite Hto in Hok.
      destruct (Hno Hok) as [-> Hq].
      repeat split; try assumption. intros r' Hr. injection Hr as <-. exact Hok.
    + destruct Hc as [-> Hq]. repeat split; try assumption. discriminate.
    + destruct Hc as [-> Hq]. repeat split; try assumption. discriminate.
Qed.

(** C3 as stated fails: an execution that was given a [killChild], as the
    sandbox gives its [docker wait], calls it when the time is up; the tree
    of the child is not killed. *)
Lemma timeout_with_killChild :
  Exec.execute "docker" ["wait"; "4f2a"]
    {| Exec.maxOutput := None; Exec.timeoutMs := Some 60000%Z; Exec.env := JUndef;
       Exec.wrapper := None; Exec.input := None; Exec.killChild := true |}
    [Exec.EvTimer; Exec.EvData Exec.SOut "137"; Exec.EvExit (Some 0%Z);
     Exec.EvClose (Some 0%Z) None] =
  (Resolved
     {| Exec.status := Some 0%Z; Exec.signal := None; Exec.stdout := "137";
        Exec.stderr := Exec.timeout_message; Exec.okToCache := false |},
   [Exec.Spawn "docker" ["wait"; "4f2a"]; Exec.SetTimeout 60000; Exec.KillChild]).
Proof. reflexivity. Qed.

(** The theorem at work: the compile of [Samples.slow_world] is killed by
    its timer and leaves the empty cache empty. *)
Lemma timeout_witness :
  cacheGet Samples.env
    (snd (compile Samples.env Samples.gcc Samples.slow_world []
            "int main() { for (;;); }" ["-O2"] JUndef getDefaultFilters))
    (cacheKey Samples.gcc "int main() { for (;;); }" ["-O2"] JUndef getDefaultFilters)
  = None.
Proof.
  generalize (proj2 timeout_kills_and_is_not_cached
                Samples.Cache Samples.env Samples.gcc Samples.slow_world []
                "int main() { for (;;); }" ["-O2"] JUndef getDefaultFilters _ _ _
                (@eq_refl (option string) None
                   <: checkOptions Samples.env ["-O2"] = None)
                (@eq_refl (option string) None
                   <: checkSource Samples.env "int main() { for (;;); }" = None)
                (@eq_refl (option Result) None
                   <: cacheGet Samples.env []
                        (cacheKey Samples.gcc "int main() { for (;;); }" ["-O2"]
                           JUndef getDefaultFilters) = None)
                (@eq_refl comparison Lt <: (0 < compileTimeoutMs Samples.env)%Z)
                (@eq_refl bool true
                   <: Exec.fires (main_events Samples.slow_world) = true)
                (triple_eta _)).
  intros [_ [H _]]. exact H.
Defined.

(** *** The cache key *)

Lemma stringify_obj props :
  Json.stringify (JObj props) =
  Some ("{" ++ Js.join "," (Json.members props) ++ "}")%string.
Proof. reflexivity. Qed.

Lemma members_app a b : Json.members (a ++ b) = Json.members a ++ Json.members b.
Proof. unfold Json.members. apply flat_map_app. Qed.

Lemma members_cons_str k v l :
  Json.members ((k, JStr v) :: l) =
  (Json.quote k ++ ":" ++ Json.quote v)%string :: Json.members l.
Proof. reflexivity. Qed.

Lemma members_cons_obj k props l :
  Json.members ((k, JObj props) :: l) =
  (Json.quote k ++ ":" ++ ("{" ++ Js.join "," (Json.members props) ++ "}"))%string
  :: Json.members l.
Proof. reflexivity. Qed.

(** The properties of the descriptor before and after [version]. *)
Definition before_version (c : Descriptor) : list (string * jsval) :=
  [("id", JStr (id c));
   ("exe", Json.str_or_null (exe c));
   ("name", JStr (name c));
   ("alias", Json.opt_str (alias c));
   ("options", Json.opt_str (options c));
   ("versionFlag", Json.opt_str (versionFlag c));
   ("versionRe", Json.opt_str (versionRe c));
   ("compilerType", JStr (compilerType c));
   ("demangler", JStr (demangler c));
   ("objdumper", JStr (objdumper c));
   ("intelAsm", JStr (intelAsm c));
   ("needsMulti", JBool (needsMulti c));
   ("supportsBinary", JBool (supportsBinary c));
   ("supportsExecute", JBool (supportsExecute c));
   ("supportsIntelAsm", JBool (supportsIntelAsm c));
   ("postProcess", Json.strings (postProcess c))].

Definition after_version (c : Descriptor) : list (string * jsval) :=
  [("supportedOptions", supportedOptions c);
   ("optArg", Json.opt_str (optArg c));
   ("supportsOptOutput", opt_bool (supportsOptOutput c));
   ("remote", Json.opt_str (remote c))].

Lemma descriptor_object_split v c :
  descriptor_object (set_version v c) =
  JObj (before_version c ++ ("version", JStr v) :: after_version c).
Proof. reflexivity. Qed.

(** The key as a text around the quoted version. *)
Lemma fingerprint_version v c source userOptions bo filters :
  fingerprint (set_version v c) source userOptions bo filters =
  ("{" ++
   ((Json.quote "compiler" ++ ":" ++
     ("{" ++
      (Js.join "," (Json.members (before_version c)) ++
       Text.tail_join ","
         ((Json.quote "version" ++ ":" ++ Json.quote v)%string
          :: Json.members (after_version c))) ++
      "}")) ++
    Text.tail_join ","
      (Json.members [("source", JStr source);
                     ("options", Json.strings userOptions);
                     ("backendOptions", bo);
                     ("filters", JObj filters)])) ++
   "}")%string.
Proof.
  unfold fingerprint. rewrite stringify_obj. cbv iota beta.
  rewrite descriptor_object_split, members_cons_obj, Text.join_cons.
  rewrite members_app, members_cons_str.
  rewrite Text.join_app; [reflexivity|].
  unfold before_version. rewrite members_cons_str. discriminate.
Qed.

Lemma tail_join_cons sep x l :
  Text.tail_join sep (x :: l) = (sep ++ x ++ Text.tail_join sep l)%string.
Proof. unfold Text.tail_join at 1. now rewrite Text.join_cons. Qed.

(** The quoted version stands in the key between two texts that do not
    depend on it. *)
Lemma fingerprint_around_version c source userOptions bo filters :
  exists before after : string,
    forall v,
      fingerprint (set_version v c) source userOptions bo filters =
      (before ++ Json.quote v ++ after)%string.
Proof.
  exists ("{" ++ Json.quote "compiler" ++ ":" ++ "{" ++
          Js.join "," (Json.members (before_version c)) ++ "," ++
          Json.quote "version" ++ ":")%string.
  exists (Text.tail_join "," (Json.members (after_version c)) ++ "}" ++
          Text.tail_join ","
            (Json.members [("source", JStr source);
                           ("options", Json.strings userOptions);
                           ("backendOptions", bo);
                           ("filters", JObj filters)]) ++ "}")%string.
  intros v. rewrite fingerprint_version, tail_join_cons.
  rewrite !Text.append_assoc. reflexivity.
Qed.

(** Two keys that agree were made with the same discovered version. *)
Lemma fingerprint_version_inj v1 v2 c source userOptions bo filters :
  fingerprint (set_version v1 c) source userOptions bo filters =
  fingerprint (set_version v2 c) source userOptions bo filters ->
  v1 = v2.
Proof.
  destruct (fingerprint_around_version c source userOptions bo filters)
    as [before [after Hkey]].
  rewrite !Hkey. intros H.
  apply Text.append_inv_head in H.
  apply Text.append_inv_tail in H.
  unfold Json.quote in H.
  apply Text.append_inv_head in H.
  apply Text.append_inv_tail in H.
  now apply Text.escape_inj.
Qed.

Lemma initialise_resolved {Cache : Type} (E : Env Cache) regexp argumentParsers c probe
    t c' :
  getRemote c = None ->
  initialise E regexp argumentParsers c probe = Returns t ->
  fst t = Resolved (Some c') ->
  supportedOptions c' = JUndef /\
  exists compiler v parsed_c,
    exe c = Some compiler /\
    Js.nonempty v = true /\
    fst (getArgumentParser argumentParsers compiler (set_version v c)) =
    Resolved parsed_c /\
    c' = delete_supportedOptions parsed_c.
Proof.
  intros Hr. unfold initialise. rewrite Hr.
  destruct (exe c) as [compiler|]; [|discriminate].
  destruct (regexp (version_pattern c)) as [match0|]; [|discriminate].
  cbv zeta. rewrite exec_fst, exec_snd.
  destruct (fst (Exec.execute compiler [version_flag c] Exec.no_options probe))
    as [result| |]; try (intros H; injection H as <-; discriminate).
  destruct (signal_of result); [intros H; injection H as <-; discriminate|].
  destruct (negb (status_ok result)); [intros H; injection H as <-; discriminate|].
  match goal with |- context [first_version ?m ?l] => set (v := first_version m l) end.
  destruct (Js.nonempty v) eqn:Hv; simpl negb; cbv iota;
    [|intros H; injection H as <-; discriminate].
  intros H. injection H as <-. cbn [fst].
  destruct (fst (getArgumentParser argumentParsers compiler (set_version v c)))
    as [parsed_c| |] eqn:Hp; try discriminate.
  intros H. injection H as <-. split; [reflexivity|].
  exists compiler, v, parsed_c. auto.
Qed.

Lemma compile_hit {Cache : Type} (E : Env Cache) c W cache source userOptions bo filters
    cached :
  checkOptions E userOptions = None ->
  checkSource E source = None ->
  cacheGet E cache (cacheKey c source userOptions bo filters) = Some cached ->
  compile E c W cache source userOptions bo filters =
  (Resolved cached, [CacheGet (cacheKey c source userOptions bo filters)], cache).
Proof.
  intros Ho Hs Hk. unfold compile, cacheKey in *. rewrite Ho, Hs. cbv zeta.
  now rewrite Hk.
Qed.

(** *** The argument vector *)

Lemma compact_app l1 l2 : Js.compact (l1 ++ l2) = Js.compact l1 ++ Js.compact l2.
Proof. unfold Js.compact. apply filter_app. Qed.

Lemma arguments_in_order c userOptions filters bo input output :
  compilerArguments c userOptions filters bo input output =
  ["-g"; "-o"] ++ Js.compact [output] ++
  (if Js.nonempty (intelAsm c) && Obj.flag "intel" filters &&
      negb (Obj.flag "binary" filters)
   then Js.compact (Js.split_on " " (intelAsm c)) else []) ++
  (if Obj.flag "binary" filters
   then if Obj.flag "link" filters then [] else ["-c"]
   else ["-S"]) ++
  match options c with
  | Some o => Js.compact (Js.split_on " " o)
  | None => []
  end ++
  (if match supportsOptOutput c with Some b => b | None => false end &&
      Obj.truthy (Obj.field "produceOptInfo" bo)
   then Js.compact match optArg c with Some a => [a] | None => [] end
   else []) ++
  Js.compact userOptions ++ Js.compact [input].
Proof.
  unfold compilerArguments, prepareArguments, optionsForFilter. cbv zeta.
  rewrite !compact_app.
  assert (Hdefaults :
            forall l, Js.compact
                        match options c with
                        | Some o => if Js.nonempty o then l ++ Js.split_on " " o else l
                        | None => l
                        end =
                      Js.compact l ++
                      match options c with
                      | Some o => Js.compact (Js.split_on " " o)
                      | None => []
                      end).
  { intros l. destruct (options c) as [o|]; [|now rewrite app_nil_r].
    destruct o as [|a o]; [simpl; now rewrite app_nil_r|].
    simpl Js.nonempty. cbv iota. apply compact_app. }
  destruct (match supportsOptOutput c with Some b => b | None => false end &&
            Obj.truthy (Obj.field "produceOptInfo" bo));
    rewrite ?compact_app, Hdefaults;
    destruct (Js.nonempty (intelAsm c) && Obj.flag "intel" filters &&
              negb (Obj.flag "binary" filters));
    destruct (Obj.flag "binary" filters); simpl negb; cbv iota;
    try destruct (Obj.flag "link" filters); simpl negb; cbv iota;
    rewrite ?compact_app, <- ?app_assoc, ?app_nil_r; reflexivity.
Qed.

Lemma tempFileAndDir_done {Cache : Type} (E : Env Cache) W source dir :
  tempDir W = Done dir ->
  written W = Done tt ->
  tempFileAndDir E W source =
  (Resolved (path_join E dir (compileFilename E), dir),
   [MkTemp; WriteFile (path_join E dir (compileFilename E)) source]).
Proof.
  intros Hd Hw. unfold tempFileAndDir, newTempDir, bind. rewrite Hd. simpl.
  rewrite Hw. reflexivity.
Qed.

(** The compiler is spawned with the argument vector. *)
Lemma compile_spawns_compiler {Cache : Type} (E : Env Cache) c W cache source
    userOptions bo filters dir compiler :
  checkOptions E userOptions = None ->
  checkSource E source = None ->
  cacheGet E cache (cacheKey c source userOptions bo filters) = None ->
  tempDir W = Done dir ->
  written W = Done tt ->
  exe c = Some compiler ->
  In (Proc (Exec.Spawn
              (Exec.spawned_command compiler (getDefaultExecOptions E c))
              (Exec.spawned_args compiler
                 (compilerArguments c userOptions (effective_filters c filters) bo
                    (path_join E dir (compileFilename E)) (path_join E dir "output"))
                 (getDefaultExecOptions E c))))
     (snd (fst (compile E c W cache source userOptions bo filters))).
Proof.
  intros Ho Hs Hk Hd Hw He.
  rewrite (compile_miss E c W cache source userOptions bo filters Ho Hs Hk).
  cbv zeta. simpl snd. simpl fst. right. right.
  unfold job. rewrite bind_snd. apply in_or_app. right.
  rewrite (tempFileAndDir_done E W _ dir Hd Hw). simpl fst. cbv iota beta.
  rewrite bind_snd. apply in_or_app. left.
  unfold compileToAsm. cbv zeta. rewrite He. simpl fst. simpl snd.
  rewrite bind_snd. apply in_or_app. left.
  unfold both. simpl snd. apply in_or_app. left.
  unfold runCompiler. rewrite bind_snd. apply in_or_app. left.
  rewrite exec_snd. apply in_map. apply ExecFacts.execute_spawns.
Qed.

(** C5, as the driver implements it.  The argument vector handed to the
    compiler is, in this order: [-g -o <outputPath>]; the words of the
    intel-asm flag if [filters.intel], not [filters.binary] and the
    descriptor defines one; [-c] if [filters.binary] without [filters.link],
    [-S] if not [filters.binary]; the words of the descriptor's default
    options; the opt-record flag if [backendOptions.produceOptInfo] and the
    descriptor supports opt records; the user options; the input file name.
    Empty strings are dropped throughout.  The compile of a request that
    passes the screens and misses the cache spawns the compiler (behind the
    wrapper, when one is configured) with this vector. *)
Theorem argument_order :
  (forall c userOptions filters bo input output,
      compilerArguments c userOptions filters bo input output =
      ["-g"; "-o"] ++ Js.compact [output] ++
      (if Js.nonempty (intelAsm c) && Obj.flag "intel" filters &&
          negb (Obj.flag "binary" filters)
       then Js.compact (Js.split_on " " (intelAsm c)) else []) ++
      (if Obj.flag "binary" filters
       then if Obj.flag "link" filters then [] else ["-c"]
       else ["-S"]) ++
      match options c with
      | Some o => Js.compact (Js.split_on " " o)
      | None => []
      end ++
      (if match supportsOptOutput c with Some b => b | None => false end &&
          Obj.truthy (Obj.field "produceOptInfo" bo)
       then Js.compact match optArg c with Some a => [a] | None => [] end
       else []) ++
      Js.compact userOptions ++ Js.compact [input]) /\
  (forall (Cache : Type) (E : Env Cache) c W cache source userOptions bo filters
          dir compiler,
      checkOptions E userOptions = None ->
      checkSource E source = None ->
      cacheGet E cache (cacheKey c source userOptions bo filters) = None ->
      tempDir W = Done dir ->
      written W = Done tt ->
      exe c = Some compiler ->
      In (Proc (Exec.Spawn
                  (Exec.spawned_command compiler (getDefaultExecOptions E c))
                  (Exec.spawned_args compiler
                     (compilerArguments c userOptions (effective_filters c filters) bo
                        (path_join E dir (compileFilename E))
                        (path_join E dir "output"))
                     (getDefaultExecOptions E c))))
         (snd (fst (compile E c W cache source userOptions bo filters)))).
Proof.
  split.
  - exact arguments_in_order.
  - intros Cache E. exact (compile_spawns_compiler E).
Qed.

(** C5 as stated fails: the opt-record flag is put before the user
    options, not after them. *)
Lemma opt_record_flag_precedes_user_options :
  compilerArguments Samples.gcc ["-O2"; "-DNDEBUG"] getDefaultFilters
    (JObj [("produceOptInfo", JBool true)]) "/tmp/ce1/example.cpp" "/tmp/ce1/output" =
  ["-g"; "-o"; "/tmp/ce1/output"; "-masm=intel"; "-S"; "-std=c++14"; "-Wall";
   "-fsave-optimization-record"; "-O2"; "-DNDEBUG"; "/tmp/ce1/example.cpp"].
Proof. reflexivity. Qed.

(** The theorem at work: the spawn of the compiler in a compile of the
    sample configuration. *)
Lemma argument_order_witness :
  In (Proc (Exec.Spawn
              (Exec.spawned_command "/usr/bin/g++"
                 (getDefaultExecOptions Samples.env Samples.gcc))
              (Exec.spawned_args "/usr/bin/g++"
                 (compilerArguments Samples.gcc ["-O2"]
                    (effective_filters Samples.gcc getDefaultFilters) JUndef
                    (path_join Samples.env "/tmp/ce1" (compileFilename Samples.env))
                    (path_join Samples.env "/tmp/ce1" "output"))
                 (getDefaultExecOptions Samples.env Samples.gcc))))
     (snd (fst (compile Samples.env Samples.gcc (Samples.world 0 "") []
                  "int f();" ["-O2"] JUndef getDefaultFilters))).
Proof.
  exact (proj2 argument_order Samples.Cache Samples.env Samples.gcc
           (Samples.world 0 "") [] "int f();" ["-O2"] JUndef getDefaultFilters
           "/tmp/ce1" "/usr/bin/g++"
           (@eq_refl (option string) None
              <: checkOptions Samples.env ["-O2"] = None)
           (@eq_refl (option string) None
              <: checkSource Samples.env "int f();" = None)
           (@eq_refl (option Result) None
              <: cacheGet Samples.env []
                   (cacheKey Samples.gcc "int f();" ["-O2"] JUndef
                      getDefaultFilters) = None)
           eq_refl eq_refl eq_refl).
Defined.

(** *** The source screen *)

Lemma failed_lines_offending lines : forall index,
  failed_lines index lines = map include_diagnostic (offending index lines).
Proof.
  induction lines as [|line lines IH]; intros index; simpl; [reflexivity|].
  rewrite map_app, IH. destruct (forbidden_include line); reflexivity.
Qed.

(** [offending] lists the positions of the refused lines. *)
Lemma offending_spec lines : forall index i,
  In i (offending index lines) <->
  exists line, nth_error lines (i - index) = Some line /\
               index <= i /\ forbidden_include line = true.
Proof.
  induction lines as [|line lines IH]; intros index i; simpl.
  - split; [tauto|]. intros [l [H _]]. destruct (i - index); discriminate.
  - rewrite in_app_iff, IH. split.
    + intros [H | [l [Hn [Hle Hf]]]].
      * destruct (forbidden_include line) eqn:Hf; [|destruct H].
        destruct H as [<- | []]. exists line. rewrite Nat.sub_diag. simpl. auto.
      * exists l. replace (i - index) with (S (i - S index)) by lia.
        simpl. repeat split; [exact Hn | lia | exact Hf].
    + intros [l [Hn [Hle Hf]]].
      destruct (i - index) as [|k] eqn:Hk; simpl in Hn.
      * injection Hn as ->. rewrite Hf. left. left. lia.
      * right. exists l. replace (i - S index) with k by lia. split; [exact Hn|].
        split; [lia | exact Hf].
Qed.

Lemma offending_none lines : forall index,
  offending index lines = [] <-> existsb forbidden_include lines = false.
Proof.
  induction lines as [|line lines IH]; intros index; simpl; [tauto|].
  destruct (forbidden_include line); simpl.
  - split; discriminate.
  - apply IH.
Qed.

Lemma checkSource_refuses {Cache : Type} (E : Env Cache) source :
  existsb forbidden_include (splitLines E source) = true ->
  checkSource E source =
  Some (Js.join Json.nl (map include_diagnostic (offending 0 (splitLines E source)))).
Proof.
  intros H. unfold checkSource. rewrite failed_lines_offending.
  destruct (offending 0 (splitLines E source)) eqn:Hoff; [|reflexivity].
  apply offending_none in Hoff. congruence.
Qed.

Lemma checkSource_accepts {Cache : Type} (E : Env Cache) source :
  existsb forbidden_include (splitLines E source) = false ->
  checkSource E source = None.
Proof.
  intros H. unfold checkSource. rewrite failed_lines_offending.
  apply (offending_none _ 0) in H. now rewrite H.
Qed.

(** C6, as the driver implements it.  A request whose options fail the
    bad-option screen is rejected with the bad-options message, whatever its
    source.  A request whose options pass is rejected before anything else
    happens if and only if some source line matches the inclusion pattern;
    the rejection is then the diagnostics
    [<stdin>:<line>:1: no absolute or relative includes please], one for
    each matching line in order, numbered from 1 and joined by line feeds.
    Both rejections come with no effect at all: the cache has not been
    consulted, nothing is queued or spawned. *)
Theorem include_screen :
  forall (Cache : Type) (E : Env Cache) c W cache source userOptions bo filters,
    (forall message,
        checkOptions E userOptions = Some message ->
        compile E c W cache source userOptions bo filters =
        (Rejected (RejString message), [], cache)) /\
    (checkOptions E userOptions = None ->
     ((exists e, compile E c W cache source userOptions bo filters =
                 (Rejected e, [], cache)) <->
      existsb forbidden_include (splitLines E source) = true) /\
     (existsb forbidden_include (splitLines E source) = true ->
      compile E c W cache source userOptions bo filters =
      (Rejected
         (RejString
            (Js.join Json.nl
               (map include_diagnostic (offending 0 (splitLines E source))))),
       [], cache))) /\
    (forall i,
        In i (offending 0 (splitLines E source)) <->
        exists line,
          nth_error (splitLines E source) i = Some line /\
          forbidden_include line = true).
Proof.
  intros Cache E c W cache source userOptions bo filters. split; [|split].
  - intros message Ho. unfold compile. now rewrite Ho.
  - intros Ho.
    assert (Hrej : existsb forbidden_include (splitLines E source) = true ->
                   compile E c W cache source userOptions bo filters =
                   (Rejected
                      (RejString
                         (Js.join Json.nl
                            (map include_diagnostic
                               (offending 0 (splitLines E source))))),
                    [], cache)).
    { intros H. unfold compile. rewrite Ho, (checkSource_refuses E source H).
      reflexivity. }
    split; [|exact Hrej]. split.
    + intros [e He].
      destruct (existsb forbidden_include (splitLines E source)) eqn:Hex;
        [reflexivity|].
      apply checkSource_accepts in Hex. unfold compile in He. rewrite Ho, Hex in He.
      cbv zeta in He.
      destruct (cacheGet E cache _); discriminate.
    + intros H. eexists. exact (Hrej H).
  - intros i. rewrite offending_spec. rewrite Nat.sub_0_r.
    split; intros [line [Hn H]]; exists line; [tauto|].
    split; [exact Hn|]. split; [lia | exact H].
Qed.

(** C6 as stated fails: a request with a forbidden option is rejected
    though no line of its source matches the inclusion pattern. *)
Lemma rejected_without_include :
  compile Samples.env Samples.gcc (Samples.world 0 "") [] "int f();"
    ["-fplugin=evil.so"] JUndef getDefaultFilters =
  (Rejected (RejString "Bad options: -fplugin=evil.so"), [], []) /\
  existsb forbidden_include (splitLines Samples.env "int f();") = false.
Proof. split; reflexivity. Qed.

(** The theorem at work on the scenario of the specification: the source
    starts with an include of [/etc/passwd]. *)
Lemma include_screen_witness :
  compile Samples.env Samples.gcc (Samples.world 0 "") []
    ("#include " ++ Json.dquote ++ "/etc/passwd" ++ Json.dquote ++ Json.nl ++
     "int main() {}")%string
    ["-O2"] JUndef getDefaultFilters =
  (Rejected (RejString "<stdin>:1:1: no absolute or relative includes please"),
   [], []).
Proof.
  generalize (proj2 (proj1 (proj2 (include_screen Samples.Cache Samples.env Samples.gcc
                (Samples.world 0 "") []
                ("#include " ++ Json.dquote ++ "/etc/passwd" ++ Json.dquote ++
                 Json.nl ++ "int main() {}")%string
                ["-O2"] JUndef getDefaultFilters))
                (@eq_refl (option string) None
                   <: checkOptions Samples.env ["-O2"] = None))
                (@eq_refl bool true
                   <: existsb forbidden_include
                        (splitLines Samples.env
                           ("#include " ++ Json.dquote ++ "/etc/passwd" ++
                            Json.dquote ++ Json.nl ++ "int main() {}")%string) =
                      true)).
  vm_compute. intros H. exact H.
Defined.

(** *** The filter set *)

Lemma get_delete_other k k' o : k <> k' -> Obj.get k (Obj.delete k' o) = Obj.get k o.
Proof.
  intros Hne. induction o as [|[k0 v] o IH]; simpl; [reflexivity|].
  destruct (String.eqb k' k0) eqn:H1.
  - apply String.eqb_eq in H1. subst k0.
    destruct (String.eqb k k') eqn:H2; [|exact IH].
    apply String.eqb_eq in H2. congruence.
  - simpl. now rewrite IH.
Qed.

Lemma get_delete_same k o : Obj.get k (Obj.delete k o) = None.
Proof.
  induction o as [|[k0 v] o IH]; simpl; [reflexivity|].
  destruct (String.eqb k k0) eqn:H1; [exact IH|]. simpl. now rewrite H1.
Qed.


Lemma flag_delete_same k o : Obj.flag k (Obj.delete k o) = false.
Proof. unfold Obj.flag. now rewrite get_delete_same. Qed.


Lemma effective_filters_binary c filters :
  Obj.flag "binary" (effective_filters c filters) = true -> supportsBinary c = true.
Proof.
  unfold effective_filters.
  destruct (Obj.flag "binary" filters) eqn:Hb; simpl.
  - destruct (supportsBinary c); simpl; [reflexivity|].
    rewrite flag_delete_same. discriminate.
  - congruence.
Qed.

Lemma effective_filters_idem c filters :
  effective_filters c (effective_filters c filters) = effective_filters c filters.
Proof.
  unfold effective_filters at 1.
  destruct (Obj.flag "binary" (effective_filters c filters)) eqn:Hb; [|reflexivity].
  apply effective_filters_binary in Hb. now rewrite Hb.
Qed.





(** *** The sandbox *)

Lemma execBinary_rejected {Cache : Type} (E : Env Cache) W executable maxSize e :
  fst (Sandbox.sandbox (sandbox_world W) executable [] (sandboxOptions maxSize)) =
  Rejected e ->
  fst (execBinary E W executable maxSize) = Resolved (exec_failure e).
Proof. intros H. unfold execBinary. cbv zeta. simpl fst. now rewrite H. Qed.

Lemma execBinary_resolved {Cache : Type} (E : Env Cache) W executable maxSize x :
  fst (Sandbox.sandbox (sandbox_world W) executable [] (sandboxOptions maxSize)) =
  Resolved x ->
  fst (execBinary E W executable maxSize) = Resolved (exec_success E x).
Proof. intros H. unfold execBinary. cbv zeta. simpl fst. now rewrite H. Qed.

(** The three promises of [postProcess], one by one. *)
Lemma postProcessResult_exec {Cache : Type} (E : Env Cache) c W result out filters r o v :
  wants_execution c filters = true ->
  fst (execBinary E W out (maxExecutableOutputSize E)) = Resolved v ->
  fst (postProcessResult E c W result out filters) = Resolved (r, o) ->
  exists a, r = set_execResult v (set_asm (JStr a) result).
Proof.
  intros Hw Hx. unfold postProcessResult. cbv zeta. rewrite Hw. simpl fst.
  rewrite bind_fst, Hx. simpl fst.
  repeat match goal with
         | |- context [match ?x with
                       | Resolved _ => _
                       | Rejected _ => _
                       | Pending => _
                       end] => destruct x
         end; intros H; try discriminate.
  injection H as <- _. eauto.
Qed.

(** Two worlds that differ in their sandbox only, one rejecting and one
    resolving, give [postProcess] the same fate and the same result but for
    [execResult]. *)
Lemma postProcessResult_sandbox {Cache : Type} (E : Env Cache) c W sw result out filters
    e x :
  fst (execBinary E W out (maxExecutableOutputSize E)) = Resolved e ->
  fst (execBinary E (with_sandbox sw W) out (maxExecutableOutputSize E)) = Resolved x ->
  settle_map (fun ro => (without_execResult (fst ro), snd ro))
    (fst (postProcessResult E c W result out filters)) =
  settle_map (fun ro => (without_execResult (fst ro), snd ro))
    (fst (postProcessResult E c (with_sandbox sw W) result out filters)).
Proof.
  intros He Hx. unfold postProcessResult. cbv zeta. simpl fst.
  change (opt_records (with_sandbox sw W)) with (opt_records W).
  change (objdump c (with_sandbox sw W)) with (objdump c W).
  change (readOutput E (with_sandbox sw W)) with (readOutput E W).
  destruct (wants_execution c filters).
  - rewrite !bind_fst, He, Hx. simpl fst.
    repeat match goal with
           | |- context [match ?y with
                         | Resolved _ => _
                         | Rejected _ => _
                         | Pending => _
                         end] => destruct y
           end; reflexivity.
  - reflexivity.
Qed.

Lemma onCompiled_sandbox {Cache : Type} (E : Env Cache) c W sw filters opts dir out
    results e x :
  fst (execBinary E W out (maxExecutableOutputSize E)) = Resolved e ->
  fst (execBinary E (with_sandbox sw W) out (maxExecutableOutputSize E)) = Resolved x ->
  settle_map (fun ro => (without_execResult (fst ro), snd ro))
    (fst (onCompiled E c W filters opts dir out results)) =
  settle_map (fun ro => (without_execResult (fst ro), snd ro))
    (fst (onCompiled E c (with_sandbox sw W) filters opts dir out results)).
Proof.
  intros He Hx. unfold onCompiled. cbv zeta.
  destruct (failed _); [reflexivity|].
  rewrite !bind_fst. simpl fst. cbv iota beta.
  change (opt_exists (with_sandbox sw W)) with (opt_exists W).
  now apply postProcessResult_sandbox with (e := e) (x := x).
Qed.

Lemma compileToAsm_sandbox {Cache : Type} (E : Env Cache) c W sw userOptions bo filters
    info e x :
  (forall out, fst (execBinary E W out (maxExecutableOutputSize E)) = Resolved e) ->
  (forall out, fst (execBinary E (with_sandbox sw W) out (maxExecutableOutputSize E)) =
               Resolved x) ->
  settle_map (fun ro => (without_execResult (fst ro), snd ro))
    (fst (compileToAsm E c W userOptions bo filters info)) =
  settle_map (fun ro => (without_execResult (fst ro), snd ro))
    (fst (compileToAsm E c (with_sandbox sw W) userOptions bo filters info)).
Proof.
  intros He Hx. unfold compileToAsm. cbv zeta.
  destruct (exe c) as [compiler|]; [|reflexivity].
  rewrite !bind_fst.
  change (main_events (with_sandbox sw W)) with (main_events W).
  change (astProbe E c (with_sandbox sw W)) with (astProbe E c W).
  destruct (fst (both _ _)) as [results| |]; try reflexivity.
  now apply onCompiled_sandbox with (e := e) (x := x).
Qed.

(** The stages after the compile do not look at [execResult]. *)
Lemma tidy_execResult {Cache : Type} (E : Env Cache) filters v r o :
  fst (tidy E filters (set_execResult v r, o)) =
  settle_map (set_execResult v) (fst (tidy E filters (r, o))).
Proof.
  unfold tidy. cbv zeta. rewrite !bind_fst. destruct r. simpl.
  destruct okToCache0; simpl.
  - destruct hasOptOutput0 as [[|]|]; reflexivity.
  - destruct dirPath0 as [d|]; simpl.
    + destruct (Js.nonempty d); simpl; destruct hasOptOutput0 as [[|]|]; reflexivity.
    + destruct hasOptOutput0 as [[|]|]; reflexivity.
Qed.

Lemma postProcessAsm_execResult {Cache : Type} (E : Env Cache) c W v r :
  fst (postProcessAsm E c W (set_execResult v r)) =
  settle_map (set_execResult v) (fst (postProcessAsm E c W r)).
Proof.
  unfold postProcessAsm.
  change (okToCache (set_execResult v r)) with (okToCache r).
  change (asm (set_execResult v r)) with (asm r).
  destruct (okToCache r); simpl negb; cbv iota; [|reflexivity].
  destruct (Js.nonempty (demangler c)); simpl negb; cbv iota; [|reflexivity].
  rewrite !bind_fst. destruct (fst (exec _ _ _ _)); try reflexivity.
  simpl. destruct (asm r); reflexivity.
Qed.

Lemma addCfg_set_execResult {Cache : Type} (E : Env Cache) c filters v r :
  addCfg E c filters (set_execResult v r) = set_execResult v (addCfg E c filters r).
Proof.
  unfold addCfg. cbv zeta. destruct r. simpl.
  match goal with |- context [if ?b then _ else _] => destruct b end; reflexivity.
Qed.

(** A stage that commutes with the write of [execResult] sends results that
    agree but for [execResult] to results that do. *)
Lemma without_stage (f : Result -> Settle Result) :
  (forall v r, f (set_execResult v r) = settle_map (set_execResult v) (f r)) ->
  forall r1 r2, without_execResult r1 = without_execResult r2 ->
                settle_map without_execResult (f r1) =
                settle_map without_execResult (f r2).
Proof.
  intros H r1 r2 Heq. unfold without_execResult in *.
  now rewrite <- !H, Heq.
Qed.

Lemma resolved_inj {A : Type} (a b : A) : Resolved a = Resolved b -> a = b.
Proof. intros H. now injection H. Qed.

Lemma job_sandbox {Cache : Type} (E : Env Cache) c W sw key source userOptions bo
    filters e x :
  (forall out, fst (execBinary E W out (maxExecutableOutputSize E)) = Resolved e) ->
  (forall out, fst (execBinary E (with_sandbox sw W) out (maxExecutableOutputSize E)) =
               Resolved x) ->
  settle_map without_execResult (fst (job E c W key source userOptions bo filters)) =
  settle_map without_execResult
    (fst (job E c (with_sandbox sw W) key source userOptions bo filters)).
Proof.
  intros He Hx. unfold job. rewrite !bind_fst.
  change (tempFileAndDir E (with_sandbox sw W) source) with (tempFileAndDir E W source).
  destruct (fst (tempFileAndDir E W source)) as [info| |]; try reflexivity.
  rewrite !bind_fst.
  pose proof (compileToAsm_sandbox E c W sw userOptions bo filters info e x He Hx) as Hc.
  destruct (fst (compileToAsm E c W userOptions bo filters info)) as [[r1 o1]| |],
    (fst (compileToAsm E c (with_sandbox sw W) userOptions bo filters info))
      as [[r2 o2]| |]; cbn [settle_map fst snd] in Hc; try discriminate;
    try (cbn; congruence).
  apply resolved_inj, pair_equal_spec in Hc. destruct Hc as [Hr <-].
  rewrite !bind_fst.
  pose proof (without_stage (fun r => fst (tidy E filters (r, o1)))
                (fun v r => tidy_execResult E filters v r o1) r1 r2 Hr) as Ht.
  cbv beta in Ht.
  destruct (fst (tidy E filters (r1, o1))) as [r3| |],
    (fst (tidy E filters (r2, o1))) as [r4| |]; cbn [settle_map] in Ht;
    try discriminate; try (cbn; congruence).
  apply resolved_inj in Ht.
  rewrite !bind_fst.
  change (postProcessAsm E c (with_sandbox sw W)) with (postProcessAsm E c W).
  assert (Hcfg : forall r5 r6,
             without_execResult r5 = without_execResult r6 ->
             without_execResult (addCfg E c filters r5) =
             without_execResult (addCfg E c filters r6)).
  { intros r5 r6 Hd. unfold without_execResult in *.
    now rewrite <- !addCfg_set_execResult, Hd. }
  destruct (Obj.flag "demangle" filters).
  - pose proof (without_stage (fun r => fst (postProcessAsm E c W r))
                  (fun v r => postProcessAsm_execResult E c W v r) r3 r4 Ht) as Hd.
    cbv beta in Hd.
    destruct (fst (postProcessAsm E c W r3)) as [r5| |],
      (fst (postProcessAsm E c W r4)) as [r6| |]; cbn [settle_map] in Hd;
      try discriminate; try (cbn; congruence).
    apply resolved_inj, Hcfg in Hd.
    destruct (okToCache (addCfg E c filters r5)), (okToCache (addCfg E c filters r6));
      unfold ret; cbn [settle_map fst]; now rewrite Hd.
  - apply Hcfg in Ht. unfold ret at 1 3. cbn [fst].
    destruct (okToCache (addCfg E c filters r3)), (okToCache (addCfg E c filters r4));
      unfold ret; cbn [settle_map fst]; now rewrite Ht.
Qed.

(** The result of the job carries the [execResult] of the compile stage. *)
Lemma job_execResult {Cache : Type} (E : Env Cache) c W key source userOptions bo filters
    r :
  fst (job E c W key source userOptions bo filters) = Resolved r ->
  exists info r1 o1,
    fst (tempFileAndDir E W source) = Resolved info /\
    fst (compileToAsm E c W userOptions bo filters info) = Resolved (r1, o1) /\
    execResult r = execResult r1.
Proof.
  unfold job. rewrite bind_fst.
  destruct (fst (tempFileAndDir E W source)) as [info| |]; try discriminate.
  rewrite bind_fst.
  destruct (fst (compileToAsm E c W userOptions bo filters info)) as [[r1 o1]| |]
    eqn:Hasm; try discriminate.
  rewrite bind_fst.
  destruct (tidy_fst E filters (r1, o1)) as [r2 [Ht [_ [_ Hx2]]]]. rewrite Ht.
  simpl fst in Hx2.
  rewrite bind_fst. intros H.
  exists info, r1, o1. split; [reflexivity|]. split; [exact Hasm|].
  destruct (Obj.flag "demangle" filters).
  - destruct (fst (postProcessAsm E c W r2)) as [r3| |] eqn:Hd; try discriminate.
    apply postProcessAsm_okToCache in Hd. destruct Hd as [_ [_ Hx3]].
    destruct (okToCache (addCfg E c filters r3)); simpl in H;
      injection H as <-; rewrite addCfg_execResult; congruence.
  - simpl fst in H at 1. cbv iota beta in H.
    destruct (okToCache (addCfg E c filters r2)); simpl in H;
      injection H as <-; rewrite addCfg_execResult; congruence.
Qed.

(** A call of the sandbox among the effects of the job is one of the
    compile stage. *)
Lemma job_sandbox_effect {Cache : Type} (E : Env Cache) c W key source userOptions bo
    filters x :
  In (RunSandbox x) (snd (job E c W key source userOptions bo filters)) ->
  exists info,
    fst (tempFileAndDir E W source) = Resolved info /\
    In (RunSandbox x) (snd (compileToAsm E c W userOptions bo filters info)).
Proof.
  unfold job. rewrite bind_snd. intros H. apply in_app_or in H. destruct H as [H | H].
  { pose proof (tame_sandbox _ _ x (tame_tempFileAndDir E false W source) H).
    discriminate. }
  destruct (fst (tempFileAndDir E W source)) as [info| |]; try destruct H.
  exists info. split; [reflexivity|].
  rewrite bind_snd in H. apply in_app_or in H. destruct H as [H | H]; [exact H|].
  exfalso.
  destruct (fst (compileToAsm E c W userOptions bo filters info)) as [results| |];
    try destruct H.
  rewrite bind_snd in H. apply in_app_or in H. destruct H as [H | H].
  { pose proof (tame_sandbox _ _ x (tame_tidy E false filters results) H).
    discriminate. }
  destruct (fst (tidy E filters results)) as [r2| |]; try destruct H.
  rewrite bind_snd in H. apply in_app_or in H.
  destruct (Obj.flag "demangle" filters).
  - destruct H as [H | H].
    { pose proof (tame_sandbox _ _ x (tame_postProcessAsm E false c W r2) H).
      discriminate. }
    destruct (fst (postProcessAsm E c W r2)) as [r3| |]; try destruct H.
    destruct (okToCache (addCfg E c filters r3)); simpl in H.
    + destruct H as [H | []]. discriminate.
    + destruct H.
  - destruct H as [[] | H]. simpl fst in H. cbv iota in H.
    destruct (okToCache (addCfg E c filters r2)); simpl in H.
    + destruct H as [H | []]. discriminate.
    + destruct H.
Qed.

Lemma compileToAsm_execResult {Cache : Type} (E : Env Cache) c W userOptions bo filters
    info r o v x :
  (forall out, fst (execBinary E W out (maxExecutableOutputSize E)) = Resolved v) ->
  fst (compileToAsm E c W userOptions bo filters info) = Resolved (r, o) ->
  In (RunSandbox x) (snd (compileToAsm E c W userOptions bo filters info)) ->
  execResult r = v.
Proof.
  intros Hv. unfold compileToAsm. cbv zeta.
  destruct (exe c) as [compiler|]; [|discriminate].
  rewrite bind_fst, bind_snd.
  match goal with
  | |- context [fst (both ?a ?b)] =>
      assert (Hb : tame false (snd (both a b)));
      [unfold both; simpl snd; apply tame_app;
       [apply tame_runCompiler | apply tame_astProbe]
      | destruct (fst (both a b)) as [results| |]; try discriminate]
  end.
  intros Hres Hin. apply in_app_or in Hin. destruct Hin as [Hin | Hin].
  { pose proof (tame_sandbox _ _ x Hb Hin). discriminate. }
  unfold onCompiled in Hres, Hin. cbv zeta in Hres, Hin.
  destruct (failed _); [destruct Hin|].
  rewrite bind_fst in Hres. rewrite bind_snd in Hin. simpl fst in Hres, Hin.
  cbv iota beta in Hres, Hin.
  apply in_app_or in Hin. destruct Hin as [Hin | Hin].
  { simpl snd in Hin. destruct (_ && _) in Hin; [|destruct Hin].
    destruct Hin as [Hin | []]. discriminate. }
  match type of Hin with
  | In _ (snd (postProcessResult E c W ?res ?out filters)) =>
      pose proof (tame_sandbox _ _ x (tame_postProcessResult E c W res out filters) Hin)
        as Hw;
      destruct (postProcessResult_exec E c W res out filters r o v Hw (Hv out) Hres)
        as [a ->]
  end.
  reflexivity.
Qed.

(** What becomes of a rejection of the sandbox.  When the sandbox rejects,
    whatever executable it is given, with [e]: the promise of [execBinary]
    is resolved, not rejected, with the
    object [{stdout: [], stderr: e.message, status: null, signal: null}];
    a compile that called the sandbox and is resolved carries this object
    as its [execResult]; and the promise of the compile settles as it does
    in the same world with a sandbox that resolves, with the same result
    but for [execResult]: the rejection of the sandbox does not become an
    error of the compile. *)
Theorem sandbox_rejection_becomes_execResult :
  forall (Cache : Type) (E : Env Cache) c W cache source userOptions bo filters e,
    (forall executable,
        fst (Sandbox.sandbox (sandbox_world W) executable []
               (sandboxOptions (maxExecutableOutputSize E))) = Rejected e) ->
    (forall executable,
        fst (execBinary E W executable (maxExecutableOutputSize E)) =
        Resolved (JObj [("stdout", JArr []); ("stderr", message_of e);
                        ("status", JNull); ("signal", JNull)])) /\
    (forall r x,
        fst (fst (compile E c W cache source userOptions bo filters)) = Resolved r ->
        In (RunSandbox x) (snd (fst (compile E c W cache source userOptions bo filters))) ->
        execResult r = JObj [("stdout", JArr []); ("stderr", message_of e);
                             ("status", JNull); ("signal", JNull)]) /\
    (forall sw y,
        (forall executable,
            fst (Sandbox.sandbox sw executable []
                   (sandboxOptions (maxExecutableOutputSize E))) = Resolved y) ->
        settle_map without_execResult
          (fst (fst (compile E c W cache source userOptions bo filters))) =
        settle_map without_execResult
          (fst (fst (compile E c (with_sandbox sw W) cache source userOptions bo
                       filters)))).
Proof.
  intros Cache E c W cache source userOptions bo filters e Hrej.
  assert (He : forall out, fst (execBinary E W out (maxExecutableOutputSize E)) =
                           Resolved (exec_failure e)).
  { intros out. apply execBinary_rejected, Hrej. }
  split; [exact He|]. split.
  - intros r x. unfold compile.
    destruct (checkOptions E userOptions); [discriminate|].
    destruct (checkSource E source); [discriminate|].
    cbv zeta. destruct (cacheGet E cache _).
    + simpl. intros _ [H | []]. discriminate.
    + simpl fst. simpl snd. intros Hr [H | [H | H]]; try discriminate.
      apply job_sandbox_effect in H. destruct H as [info [Hinfo Hin]].
      apply job_execResult in Hr. destruct Hr as [info' [r1 [o1 [Hinfo' [Hasm Hx]]]]].
      assert (info' = info) by congruence. subst info'.
      rewrite Hx.
      exact (compileToAsm_execResult E c W userOptions bo _ info r1 o1 _ x He Hasm Hin).
  - intros sw y Hres. unfold compile.
    destruct (checkOptions E userOptions); [reflexivity|].
    destruct (checkSource E source); [reflexivity|].
    cbv zeta. destruct (cacheGet E cache _); [reflexivity|].
    simpl fst.
    apply job_sandbox with (e := exec_failure e) (x := exec_success E y).
    + exact He.
    + intros out. apply execBinary_resolved. exact (Hres out).
Qed.

(** The theorem at work: the sample compile runs the binary in a sandbox
    whose [docker run] fails; the rejection is a result object, which has no
    [message], and the compile is resolved with the failure object. *)
Lemma sandbox_rejection_witness :
  exists r,
    fst (fst (compile Samples.env Samples.gcc (Samples.world 0 "") [] "int main() {}"
                ["-O2"] JUndef Samples.binary_filters)) = Resolved r /\
    execResult r =
    JObj [("stdout", JArr []); ("stderr", JUndef); ("status", JNull); ("signal", JNull)].
Proof.
  eexists. split; [vm_compute; reflexivity|].
  refine (proj1 (proj2 (sandbox_rejection_becomes_execResult
                          Samples.Cache Samples.env Samples.gcc (Samples.world 0 "") []
                          "int main() {}" ["-O2"] JUndef Samples.binary_filters
                          (RejValue
                             (JObj [("status", JNum 125); ("signal", JNull);
                                    ("stdout", JArr []); ("stderr", JArr []);
                                    ("okToCache", JBool true)])) _))
            _ "/tmp/ce1/output" _ _).
  - intros executable. vm_compute. reflexivity.
  - vm_compute. reflexivity.
  - vm_compute. tauto.
Defined.

(** C9, where the sandbox rejects with the result of a docker command.  The
    container of the sample compile is gone when [docker wait] asks for it:
    [docker wait] ends with status 1, and the sandbox rejects with that
    result, an object that has [stderr] and no [message].  The compile is
    resolved, and its [execResult] has the empty [stdout] and null [status]
    and [signal], but its [stderr] is [undefined]: the message of the
    failure is not in it.  Where docker cannot be run at all the sandbox
    rejects with an [Error], and [stderr] is its message. *)
Lemma sandbox_failure_message_is_lost :
  fst (Sandbox.sandbox (Samples.docker Samples.lost_container) "/tmp/ce1/output" []
         (sandboxOptions (maxExecutableOutputSize Samples.env))) =
  Rejected
    (RejValue
       (JObj [("status", JNum 1); ("signal", JNull); ("stdout", JStr "");
              ("stderr", JStr "Error: No such container: 4f2a");
              ("okToCache", JBool true)])) /\
  (exists r,
      fst (fst (compile Samples.env Samples.gcc
                  (with_sandbox (Samples.docker Samples.lost_container)
                     (Samples.world 0 ""))
                  [] "int main() {}" ["-O2"] JUndef Samples.binary_filters)) =
      Resolved r /\
      execResult r =
      JObj [("stdout", JArr []); ("stderr", JUndef); ("status", JNull);
            ("signal", JNull)]) /\
  fst (Sandbox.sandbox Samples.missing_docker "/tmp/ce1/output" []
         (sandboxOptions (maxExecutableOutputSize Samples.env))) =
  Rejected (RejError "spawn docker ENOENT") /\
  (exists r,
      fst (fst (compile Samples.env Samples.gcc
                  (with_sandbox Samples.missing_docker (Samples.world 0 ""))
                  [] "int main() {}" ["-O2"] JUndef Samples.binary_filters)) =
      Resolved r /\
      execResult r =
      JObj [("stdout", JArr []); ("stderr", JStr "spawn docker ENOENT");
            ("status", JNull); ("signal", JNull)]).
Proof.
  split; [vm_compute; reflexivity|].
  split; [eexists; split; vm_compute; reflexivity|].
  split; [vm_compute; reflexivity|].
  eexists; split; vm_compute; reflexivity.
Qed.

End CompilerFacts.

(* ===================================================================== *)
(** ** The request handler *)
(* ===================================================================== *)

Module HandlerFacts.

Import Handler.

Lemma nonempty_false (s : string) : Js.nonempty s = false -> s = "".
Proof. destruct s; [reflexivity | discriminate]. Qed.

(** An API-style request that names no filter gets the defaults: the empty
    name that [split] makes of the empty string is added and removed
    again. *)
Lemma api_filters_default (req : Request) :
  is_json req = false ->
  names_no_filter req = true ->
  api_filters req = Compiler.getDefaultFilters.
Proof.
  intros Hj H. unfold names_no_filter in H. rewrite Hj in H.
  apply andb_prop in H. destruct H as [H Hr].
  apply andb_prop in H. destruct H as [Hf Ha].
  apply negb_true_iff, nonempty_false in Hf, Ha, Hr.
  unfold api_filters. cbv zeta. rewrite Ha, Hr.
  destruct (query_filters req) as [q|]; [|reflexivity].
  unfold or_else in Hf.
  destruct (Js.nonempty q) eqn:Hq; [|reflexivity].
  subst q. discriminate.
Qed.

(** The defaults ask for no binary, so [compile] leaves them as they are. *)
Lemma effective_default_filters (c : Compiler.Descriptor) :
  Compiler.effective_filters c Compiler.getDefaultFilters = Compiler.getDefaultFilters.
Proof. reflexivity. Qed.

Lemma dispatch_compiles ctx c source opts bo fs c' src userOptions bo' fs' :
  dispatch ctx c source opts bo fs = Compiles c' src userOptions bo' fs' ->
  fs' = fs.
Proof.
  unfold dispatch. destruct (Compiler.getRemote c); [discriminate|].
  destruct source; [|discriminate]. destruct bo; [|discriminate].
  intros H. now injection H.
Qed.

(** C10, as the handler implements it.  A request that names no filter
    and gets as far as [compile] is compiled with the default filter set,
    which [compile] does not change; a JSON request without
    [options.filters], and an API-style request without [filters],
    [addFilters] and [removeFilters] made once [backendOptions] has a
    value, do get that far when the compiler is known and local and the
    source is there. *)
Theorem default_filters_when_none_named :
  (forall ctx global req c source userOptions bo fs global',
      names_no_filter req = true ->
      handler ctx global req = (Compiles c source userOptions bo fs, global') ->
      fs = [("intel", JBool true); ("commentOnly", JBool true);
            ("directives", JBool true); ("labels", JBool true);
            ("optOutput", JBool false)] /\
      fs = Compiler.getDefaultFilters /\
      Compiler.effective_filters c fs = fs) /\
  (forall ctx global req k c requestOptions source,
      is_json req = true ->
      requested req = Some k ->
      compilersById ctx k = Some c ->
      Compiler.getRemote c = None ->
      json_options req = Some requestOptions ->
      filters requestOptions = None ->
      json_source req = Some source ->
      handler ctx global req =
      (Compiles c source
         (parseArguments ctx (or_else (userArguments requestOptions) ""))
         (compilerOptions requestOptions) Compiler.getDefaultFilters,
       Some (compilerOptions requestOptions))) /\
  (forall ctx bo req k c source,
      is_json req = false ->
      req_compiler req = Some k ->
      compilersById ctx k = Some c ->
      Compiler.getRemote c = None ->
      text_body req = Some source ->
      names_no_filter req = true ->
      handler ctx (Some bo) req =
      (Compiles c source (parseArguments ctx (or_else (query_options req) "")) bo
         Compiler.getDefaultFilters,
       Some bo)).
Proof.
  split; [|split].
  - intros ctx global req c source userOptions bo fs global' Hn H.
    assert (Hfs : fs = Compiler.getDefaultFilters).
    { unfold handler in H. destruct (is_json req) eqn:Hj.
      - destruct (match requested req with
                  | Some k => compilersById ctx k
                  | None => None
                  end); [|discriminate].
        unfold names_no_filter in Hn. rewrite Hj in Hn.
        destruct (json_options req) as [ro|]; [|discriminate].
        destruct (filters ro); [discriminate|].
        cbv zeta in H. injection H as H _.
        exact (dispatch_compiles _ _ _ _ _ _ _ _ _ _ _ H).
      - destruct (match req_compiler req with
                  | Some k => compilersById ctx k
                  | None => None
                  end); [|discriminate].
        injection H as H _.
        apply dispatch_compiles in H. rewrite H.
        now apply api_filters_default. }
    subst fs. repeat split; reflexivity.
  - intros ctx global req k c ro source Hj Hk Hc Hr Ho Hf Hs.
    unfold handler. rewrite Hj, Hk, Hc, Ho. cbv zeta. rewrite Hf.
    unfold dispatch. now rewrite Hr, Hs.
  - intros ctx bo req k c source Hj Hk Hc Hr Hs Hn.
    unfold handler. rewrite Hj, Hk, Hc.
    unfold dispatch. rewrite Hr, Hs.
    now rewrite (api_filters_default req Hj Hn).
Qed.

(** C10 as the specification words it is not what the handler does: an
    API-style request without a [filters] query but with [addFilters=binary]
    is compiled with the defaults and [binary]. *)
Lemma default_filters_with_addFilters :
  query_filters (Samples.api_request (Some "binary")) = None /\
  handler Samples.context (Some JUndef) (Samples.api_request (Some "binary")) =
  (Compiles Samples.gcc "int main() {}" ["-O2"] JUndef
     [("intel", JBool true); ("commentOnly", JBool true); ("directives", JBool true);
      ("labels", JBool true); ("optOutput", JBool false); ("binary", JBool true)],
   Some JUndef) /\
  Obj.flag "binary" Compiler.getDefaultFilters = false.
Proof. vm_compute. repeat split; reflexivity. Qed.

(** The theorem at work: the same request without [addFilters]. *)
Lemma default_filters_witness :
  handler Samples.context (Some JUndef) (Samples.api_request None) =
  (Compiles Samples.gcc "int main() {}" ["-O2"] JUndef
     [("intel", JBool true); ("commentOnly", JBool true); ("directives", JBool true);
      ("labels", JBool true); ("optOutput", JBool false)],
   Some JUndef).
Proof.
  exact (proj2 (proj2 default_filters_when_none_named) Samples.context JUndef
           (Samples.api_request None) "g71" Samples.gcc "int main() {}"
           eq_refl eq_refl eq_refl eq_refl eq_refl eq_refl).
Defined.

End HandlerFacts.

(* ===================================================================== *)
(** ** The registry: peers *)
(* ===================================================================== *)

Module RegistryFacts.

Import Registry.

(** [k] blocks of effects with a wait of [ms] between them. *)
Fixpoint spaced (block : list Effect) (ms : Z) (k : nat) : list Effect :=
  match k with
  | O => []
  | S k' =>
      match k' with
      | O => block
      | S _ => block ++ [Wait ms] ++ spaced block ms k'
      end
  end.

(** The number of calls of [promiseFunc] the loop makes. *)
Fixpoint tries {A : Type} (promiseFunc : nat -> Attempt A * list Effect)
    (maxFails : Z) (fuel : nat) (fails : Z) (n : nat) : nat :=
  match fuel with
  | O => O
  | S fuel' =>
      match fst (promiseFunc n) with
      | Settled (Rejected _) =>
          if (fails + 1 <? maxFails)%Z
          then S (tries promiseFunc maxFails fuel' (fails + 1)%Z (S n))
          else 1
      | _ => 1
      end
  end.

(** The requests [fetchRemote] makes of a peer. *)
Definition attempts (w : World) (host : string) (port : option Z) : nat :=
  tries (request w host port) (proxyRetries w)
        (Z.to_nat (Z.max 1 (proxyRetries w))) 0 0.

(** A request that ends in an error or a timeout. *)
Definition refused (r : Response) : bool :=
  match r with NetError _ | TimedOut => true | _ => false end.

Lemma get_set_same k v o : Obj.get k (Obj.set k v o) = Some v.
Proof.
  induction o as [|[k' v'] o IH]; simpl.
  - now rewrite String.eqb_refl.
  - destruct (String.eqb k k') eqn:Hk; simpl; rewrite Hk; [reflexivity | exact IH].
Qed.

Lemma get_set_other k k' v o : k <> k' -> Obj.get k (Obj.set k' v o) = Obj.get k o.
Proof.
  intros Hne. induction o as [|[k1 v1] o IH]; simpl.
  - destruct (String.eqb k k') eqn:Hk; [|reflexivity].
    apply String.eqb_eq in Hk. contradiction.
  - destruct (String.eqb k' k1) eqn:Hk1; simpl.
    + apply String.eqb_eq in Hk1. subst k1.
      destruct (String.eqb k k') eqn:Hk; [|reflexivity].
      apply String.eqb_eq in Hk. contradiction.
    + now rewrite IH.
Qed.

(** What the callback leaves in a descriptor. *)
Lemma mark_remote_object host port v props :
  mark_remote host port v = JObj props ->
  Obj.get "exe" props = Some JNull /\
  Obj.get "remote" props =
  Some (JStr ("http://" ++ host ++ ":" ++ Js.show_num port)%string).
Proof.
  destruct v; simpl; try discriminate. intros H. injection H as <-. split.
  - rewrite get_set_other by discriminate. apply get_set_same.
  - apply get_set_same.
Qed.

Section Retry.

Context {A : Type}.
Variable promiseFunc : nat -> Attempt A * list Effect.
Variable block : list Effect.
Variables maxFails retryMs : Z.
Hypothesis effects_of_a_call : forall n, snd (promiseFunc n) = block.

(** With fuel for every failure that is retried, the loop makes between one
    call and [max 1 (maxFails - fails)] calls, a wait before each but the
    first. *)
Lemma doit_effects fuel :
  forall fails n,
    (Z.max 1 (maxFails - fails) <= Z.of_nat fuel)%Z ->
    snd (doit promiseFunc maxFails retryMs fuel fails n) =
    spaced block retryMs (tries promiseFunc maxFails fuel fails n) /\
    1 <= tries promiseFunc maxFails fuel fails n /\
    (Z.of_nat (tries promiseFunc maxFails fuel fails n) <= Z.max 1 (maxFails - fails))%Z.
Proof.
  induction fuel as [|fuel IH]; intros fails n Hfuel; [lia|].
  cbn [doit tries]. cbv zeta.
  destruct (fst (promiseFunc n)) as [[a|e|]|what];
    try (simpl; rewrite effects_of_a_call; repeat split; lia).
  destruct (fails + 1 <? maxFails)%Z eqn:Hlt.
  - apply Z.ltb_lt in Hlt.
    destruct (IH (fails + 1)%Z (S n)) as [Heffs [Hone Hmax]]; [lia|].
    cbn [fst snd]. rewrite effects_of_a_call, Heffs.
    split; [|lia].
    destruct (tries promiseFunc maxFails fuel (fails + 1) (S n)); [lia | reflexivity].
  - simpl. rewrite effects_of_a_call. repeat split; lia.
Qed.

(** The loop resolves with what one of the calls resolved with. *)
Lemma doit_resolved fuel :
  forall fails n a,
    fst (doit promiseFunc maxFails retryMs fuel fails n) = Settled (Resolved a) ->
    exists m, fst (promiseFunc m) = Settled (Resolved a).
Proof.
  induction fuel as [|fuel IH]; intros fails n a; [discriminate|].
  cbn [doit]. cbv zeta.
  destruct (fst (promiseFunc n)) as [[a'|e|]|what] eqn:Hn; cbn [fst];
    try discriminate.
  - intros H. exists n. congruence.
  - destruct (fails + 1 <? maxFails)%Z; cbn [fst]; [apply IH | discriminate].
Qed.

(** When every call is rejected the loop uses up its calls and is
    rejected. *)
Lemma doit_rejected fuel :
  (forall n, exists e, fst (promiseFunc n) = Settled (Rejected e)) ->
  forall fails n,
    (Z.max 1 (maxFails - fails) <= Z.of_nat fuel)%Z ->
    (exists e, fst (doit promiseFunc maxFails retryMs fuel fails n) =
               Settled (Rejected e)) /\
    Z.of_nat (tries promiseFunc maxFails fuel fails n) = Z.max 1 (maxFails - fails).
Proof.
  intros Hall. induction fuel as [|fuel IH]; intros fails n Hfuel; [lia|].
  cbn [doit tries]. cbv zeta.
  destruct (Hall n) as [e ->].
  destruct (fails + 1 <? maxFails)%Z eqn:Hlt.
  - apply Z.ltb_lt in Hlt.
    destruct (IH (fails + 1)%Z (S n)) as [Hrej Htries]; [lia|].
    cbn [fst]. split; [exact Hrej | lia].
  - apply Z.ltb_ge in Hlt. cbn [fst]. split; [eauto | lia].
Qed.

(** An exception leaves the loop only when it leaves a call. *)
Lemma doit_thrown fuel :
  forall fails n what,
    fst (doit promiseFunc maxFails retryMs fuel fails n) = Thrown what ->
    exists m, fst (promiseFunc m) = Thrown what.
Proof.
  induction fuel as [|fuel IH]; intros fails n what; [discriminate|].
  cbn [doit]. cbv zeta.
  destruct (fst (promiseFunc n)) as [[a'|e|]|what'] eqn:Hn; cbn [fst];
    try discriminate.
  - destruct (fails + 1 <? maxFails)%Z; cbn [fst]; [apply IH | discriminate].
  - intros H. exists n. congruence.
Qed.

End Retry.

Lemma request_effects w host port n :
  snd (request w host port n) =
  [HttpGet host port "/api/compilers"; RequestTimeout (proxyTimeout w)].
Proof. reflexivity. Qed.

Lemma request_resolved w host port n l :
  fst (request w host port n) = Settled (Resolved l) ->
  exists compilers, l = map (mark_remote host port) compilers.
Proof.
  unfold request. cbn [fst].
  destruct (responses w n); try discriminate.
  destruct (json_parse w str) as [[]|]; try discriminate.
  destruct (existsb nullish items); [discriminate|].
  intros H. injection H as <-. eauto.
Qed.

Lemma request_refused w host port n :
  refused (responses w n) = true ->
  exists e, fst (request w host port n) = Settled (Rejected e).
Proof.
  unfold request. cbn [fst]. destruct (responses w n); try discriminate; eauto.
Qed.

(** An empty list among the lists of the seeds changes nothing. *)
Lemma gather_empty ps1 ps2 : gather (ps1 ++ Resolved [] :: ps2) = gather (ps1 ++ ps2).
Proof.
  induction ps1 as [|p ps1 IH]; simpl.
  - destruct (gather ps2); reflexivity.
  - now rewrite IH.
Qed.

(** C8, as the registry implements it.  For a seed with an [@], split at
    it into a host and a port: the requests are [GET /api/compilers] of that
    host and port, each with the timeout [proxyTimeout], a wait of
    [proxyRetryMs] before each but the first, at least one of them and at
    most [max 1 proxyRetries]; every object of a list fetched this way has
    [exe] null and [remote] ["http://" + host + ":" + port]; the fetch is
    never rejected; and when every request ends in an error or a timeout,
    all [max 1 proxyRetries] requests are made and the seed gives the empty
    list, which leaves the lists of the other seeds as they are. *)
Theorem peer_fetch :
  forall w other name,
    Js.includes "@" name = true ->
    snd (recurseGetCompilers w other name) =
    spaced [HttpGet (seed_host name) (seed_port name) "/api/compilers";
            RequestTimeout (proxyTimeout w)]
           (proxyRetryMs w) (attempts w (seed_host name) (seed_port name)) /\
    1 <= attempts w (seed_host name) (seed_port name) /\
    (Z.of_nat (attempts w (seed_host name) (seed_port name)) <=
     Z.max 1 (proxyRetries w))%Z /\
    (forall l props,
        fst (recurseGetCompilers w other name) = Settled (Resolved l) ->
        In (JObj props) l ->
        Obj.get "exe" props = Some JNull /\
        Obj.get "remote" props =
        Some (JStr ("http://" ++ seed_host name ++ ":" ++
                    Js.show_num (seed_port name))%string)) /\
    (forall e, fst (recurseGetCompilers w other name) <> Settled (Rejected e)) /\
    ((forall n, refused (responses w n) = true) ->
     fst (recurseGetCompilers w other name) = Settled (Resolved []) /\
     Z.of_nat (attempts w (seed_host name) (seed_port name)) =
     Z.max 1 (proxyRetries w) /\
     forall ps1 ps2, gather (ps1 ++ Resolved [] :: ps2) = gather (ps1 ++ ps2)).
Proof.
  intros w other name Hat. unfold recurseGetCompilers. rewrite Hat.
  set (host := seed_host name). set (port := seed_port name).
  unfold fetchRemote, retryPromise, attempts. cbv zeta. cbn [fst snd].
  set (fuel := Z.to_nat (Z.max 1 (proxyRetries w))).
  assert (Hfuel : (Z.max 1 (proxyRetries w - 0) <= Z.of_nat fuel)%Z) by (unfold fuel; lia).
  destruct (doit_effects (request w host port) _ (proxyRetries w) (proxyRetryMs w)
              (request_effects w host port) fuel 0%Z 0 Hfuel) as [Heffs [Hone Hmax]].
  split; [exact Heffs|]. split; [exact Hone|]. split; [lia|].
  split; [|split].
  - intros l props Hres Hin.
    destruct (fst (doit (request w host port) (proxyRetries w) (proxyRetryMs w) fuel 0 0))
      as [[a|e|]|what] eqn:Hd; try discriminate.
    + injection Hres as ->.
      apply doit_resolved in Hd. destruct Hd as [m Hm].
      apply request_resolved in Hm. destruct Hm as [compilers ->].
      apply in_map_iff in Hin. destruct Hin as [v [Hv _]].
      exact (mark_remote_object host port v props Hv).
    + injection Hres as <-. destruct Hin.
  - intros e.
    destruct (fst (doit (request w host port) (proxyRetries w) (proxyRetryMs w) fuel 0 0))
      as [[a|e'|]|what]; discriminate.
  - intros Hall.
    destruct (doit_rejected (request w host port) (proxyRetries w) (proxyRetryMs w) fuel
                (fun n => request_refused w host port n (Hall n)) 0%Z 0 Hfuel)
      as [[e He] Htries].
    rewrite He. split; [reflexivity|]. split; [lia|]. exact gather_empty.
Qed.

(** C8 as the specification words it is not what the registry does: with
    [proxyRetries] 0 one request is made all the same. *)
Lemma one_request_without_retries :
  proxyRetries (Samples.peer 0 []) = 0%Z /\
  recurseGetCompilers (Samples.peer 0 []) Samples.no_other "peer@10240" =
  (Settled (Resolved []),
   [HttpGet "peer" (Some 10240%Z) "/api/compilers"; RequestTimeout 1000]).
Proof. vm_compute. repeat split; reflexivity. Qed.

(** A body that is not JSON is another matter: [JSON.parse] throws inside
    the callback of the response, where no promise is at hand. *)
Example body_that_is_not_json :
  recurseGetCompilers (Samples.peer 5 [Body "<html>"]) Samples.no_other "peer@10240" =
  (Thrown "SyntaxError: JSON.parse",
   [HttpGet "peer" (Some 10240%Z) "/api/compilers"; RequestTimeout 1000]).
Proof. vm_compute. reflexivity. Qed.

(** The theorem at work: a peer that resets the first connection and
    serves its list at the second try. *)
Lemma peer_fetch_witness :
  snd (recurseGetCompilers
         (Samples.peer 5 [NetError "ECONNRESET"; Body Samples.peer_body])
         Samples.no_other "peer@10240") =
  [HttpGet "peer" (Some 10240%Z) "/api/compilers"; RequestTimeout 1000; Wait 500;
   HttpGet "peer" (Some 10240%Z) "/api/compilers"; RequestTimeout 1000].
Proof.
  generalize (proj1 (peer_fetch
                       (Samples.peer 5 [NetError "ECONNRESET"; Body Samples.peer_body])
                       Samples.no_other "peer@10240" eq_refl)).
  vm_compute. intros H. exact H.
Defined.

End RegistryFacts.

(* ===================================================================== *)
(** ** The process runner and the sandbox, further *)
(* ===================================================================== *)

Module RunnerFacts.

Import Exec.

(** How often [treeKill] was called. *)
Definition tree_kills (acts : list Action) : nat :=
  length (filter (fun a => match a with TreeKill => true | _ => false end) acts).

(** The promise settles: a 'close' or an 'error' of the child comes. *)
Fixpoint ends (evs : list Event) : bool :=
  match evs with
  | [] => false
  | EvClose _ _ :: _ => true
  | EvError _ :: _ => true
  | _ :: rest => ends rest
  end.

Lemma tree_kills_app a b : tree_kills (a ++ b) = tree_kills a + tree_kills b.
Proof. unfold tree_kills. now rewrite filter_app, length_app. Qed.

(** The events after the settling one are not looked at. *)
Lemma run_app o evs1 : forall rest st,
  run o (evs1 ++ rest) st =
  match fst (run o evs1 st) with
  | Pending => run o rest (snd (run o evs1 st))
  | _ => run o evs1 st
  end.
Proof.
  induction evs1 as [|ev evs1 IH]; intros rest st; [reflexivity|].
  destruct ev; simpl; try apply IH; reflexivity.
Qed.

Lemma kill_stopped o st :
  st_running st = false -> tree_kills (st_actions (kill o st)) = tree_kills (st_actions st).
Proof.
  intros Hr. unfold kill. rewrite Hr. destruct (killChild o); [|reflexivity].
  unfold act. cbn [st_actions]. rewrite tree_kills_app. cbn. lia.
Qed.

Lemma on_data_stopped o name data st :
  st_running st = false ->
  tree_kills (st_actions (on_data o name data st)) = tree_kills (st_actions st).
Proof.
  intros Hr. unfold on_data. destruct (s_truncated (st_streams st)); [reflexivity|].
  destruct (_ >? _)%Z; [|reflexivity]. now rewrite kill_stopped.
Qed.

Lemma on_timer_stopped o st :
  st_running st = false ->
  tree_kills (st_actions (on_timer o st)) = tree_kills (st_actions st).
Proof.
  intros Hr. unfold on_timer. destruct (st_timeout st); try reflexivity.
  cbv zeta. simpl st_actions. now rewrite kill_stopped.
Qed.

Lemma on_timer_running o st : st_running (on_timer o st) = st_running st.
Proof.
  unfold on_timer. destruct (st_timeout st); try reflexivity.
  cbv zeta. simpl. now rewrite ExecFacts.kill_running.
Qed.

Lemma run_stopped o evs : forall st,
  st_running st = false ->
  tree_kills (st_actions (snd (run o evs st))) = tree_kills (st_actions st).
Proof.
  induction evs as [|ev evs IH]; intros st Hr; [reflexivity|].
  destruct ev; simpl; try reflexivity.
  - rewrite IH by (now rewrite ExecFacts.on_data_running).
    now apply on_data_stopped.
  - rewrite IH by (now rewrite on_timer_running). now apply on_timer_stopped.
  - now rewrite IH.
  - now apply IH.
Qed.

Lemma execute_snd command args o evs :
  snd (execute command args o evs) = st_actions (snd (run o evs (start command args o))).
Proof. unfold execute. now destruct (run o evs (start command args o)). Qed.

Lemma execute_fst command args o evs :
  fst (execute command args o evs) = fst (run o evs (start command args o)).
Proof. unfold execute. now destruct (run o evs (start command args o)). Qed.

(** Once the 'exit' of the child has been delivered, [treeKill] is not
    called any more, whatever comes after it (data over the cap, the
    timer): the calls made are those made before the exit. *)
Theorem no_tree_kill_after_exit :
  forall command args o evs1 code evs2,
    tree_kills (snd (execute command args o (evs1 ++ EvExit code :: evs2))) =
    tree_kills (snd (execute command args o evs1)).
Proof.
  intros command args o evs1 code evs2. rewrite !execute_snd, run_app.
  destruct (fst (run o evs1 (start command args o))); try reflexivity.
  simpl run. now rewrite run_stopped.
Qed.

Lemma run_ends o evs : forall st,
  ends evs = true -> fst (run o evs st) <> Pending.
Proof.
  induction evs as [|ev evs IH]; intros st H; [discriminate|].
  destruct ev; simpl in *; try (apply IH; exact H); discriminate.
Qed.

Lemma run_fst_any o o' evs : forall st st',
  match fst (run o evs st), fst (run o' evs st') with
  | Resolved _, Resolved _ => True
  | Rejected e, Rejected e' => e = e'
  | Pending, Pending => True
  | _, _ => False
  end.
Proof.
  induction evs as [|ev evs IH]; intros st st'; simpl; [exact I|].
  destruct ev; simpl; try apply IH; auto.
Qed.

(** The callbacks start no process. *)
Lemma run_no_spawn o evs c a : forall st,
  In (Spawn c a) (st_actions (snd (run o evs st))) -> In (Spawn c a) (st_actions st).
Proof.
  assert (Hkill : forall st, In (Spawn c a) (st_actions (kill o st)) ->
                             In (Spawn c a) (st_actions st)).
  { intros st. unfold kill.
    destruct (killChild o); [|destruct (st_running st)]; simpl; try tauto.
    - intros H. apply in_app_or in H. destruct H as [H | [H | []]];
        [exact H | discriminate].
    - intros H. apply in_app_or in H. destruct H as [H | [H | []]];
        [exact H | discriminate]. }
  induction evs as [|ev evs IH]; intros st H; [exact H|].
  destruct ev; simpl in H; try exact H.
  - apply IH in H. unfold on_data in H.
    destruct (s_truncated (st_streams st)); [exact H|].
    destruct (_ >? _)%Z; [|exact H]. apply Hkill in H. exact H.
  - apply IH in H. unfold on_timer in H.
    destruct (st_timeout st); try exact H.
    cbv zeta in H. simpl st_actions in H. apply Hkill in H. exact H.
  - apply IH in H. exact H.
  - apply IH in H. exact H.
Qed.

(** One call of [execute] starts one process. *)
Lemma execute_one_spawn command args o evs c a :
  In (Spawn c a) (snd (execute command args o evs)) ->
  c = spawned_command command o /\ a = spawned_args command args o.
Proof.
  rewrite execute_snd. intros H. apply run_no_spawn in H.
  unfold start in H. cbn [st_actions] in H.
  assert (Hs : Spawn (spawned_command command o) (spawned_args command args o) =
               Spawn c a).
  { destruct (timeoutMs_of o =? 0)%Z; destruct (input o) as [i|];
      try destruct (Js.nonempty i); simpl in H;
      repeat (destruct H as [H | H]; [try discriminate; try exact H|]);
      destruct H. }
  injection Hs as <- <-. auto.
Qed.

(** The promise of [execute] is rejected with an [Error] only. *)
Lemma execute_rejected command args o evs e :
  fst (execute command args o evs) = Rejected e -> exists m, e = RejError m.
Proof.
  rewrite execute_fst. generalize (start command args o).
  induction evs as [|ev evs IH]; intros st; simpl; [discriminate|].
  destruct ev; simpl; try apply IH; try discriminate.
  intros H. injection H as <-. eauto.
Qed.

(** What the child wrote to a stream before its 'close'. *)
Fixpoint heard (name : StreamName) (evs : list Event) : string :=
  match evs with
  | [] => ""
  | EvData n data :: rest =>
      match n, name with
      | SOut, SOut | SErr, SErr => data ++ heard name rest
      | _, _ => heard name rest
      end
  | EvClose _ _ :: _ => ""
  | EvError _ :: _ => ""
  | _ :: rest => heard name rest
  end.

Lemma run_whole o evs : forall st r st',
  run o evs st = (Resolved r, st') ->
  s_truncated (st_streams st) = false ->
  (Js.len (s_stdout (st_streams st)) + Js.len (heard SOut evs) <= maxOutput_of o)%Z ->
  (Js.len (s_stderr (st_streams st)) + Js.len (heard SErr evs) +
   match st_timeout st with Armed => Js.len timeout_message | _ => 0 end
   <= maxOutput_of o)%Z ->
  stdout r = (s_stdout (st_streams st) ++ heard SOut evs)%string /\
  (okToCache r = true ->
   stderr r = (s_stderr (st_streams st) ++ heard SErr evs)%string /\
   st_actions st' = st_actions st).
Proof.
  induction evs as [|ev evs IH]; intros st r st' H Ht Hout Herr; simpl in H;
    [discriminate|].
  destruct ev as [name data| |code|code sig|e|e].
  - unfold on_data in H. rewrite Ht in H.
    destruct name; cbn [stream heard] in *.
    + rewrite Text.len_append in Hout.
      pose proof (Text.len_nonneg (heard SOut evs)).
      pose proof (Text.len_nonneg data).
      destruct (_ >? _)%Z eqn:Hc; [rewrite Z.gtb_ltb in Hc; apply Z.ltb_lt in Hc; lia|].
      apply IH in H; cbn; try assumption.
      * rewrite <- Text.append_assoc. exact H.
      * rewrite Text.len_append. lia.
    + rewrite Text.len_append in Herr.
      pose proof (Text.len_nonneg (heard SErr evs)).
      pose proof (Text.len_nonneg data).
      assert (0 <= match st_timeout st with Armed => Js.len timeout_message | _ => 0 end)%Z
        by (destruct (st_timeout st); try lia; apply Text.len_nonneg).
      destruct (_ >? _)%Z eqn:Hc; [rewrite Z.gtb_ltb in Hc; apply Z.ltb_lt in Hc; lia|].
      apply IH in H; cbn [with_streams st_streams st_timeout append s_stderr s_stdout
                           s_truncated]; try assumption.
      * rewrite <- Text.append_assoc. exact H.
      * rewrite Text.len_append. destruct (st_timeout st); lia.
  - unfold on_timer in H. cbn [heard] in *.
    destruct (st_timeout st) eqn:Hto; try (apply IH in H; try assumption; rewrite ?Hto; assumption).
    cbv zeta in H.
    pose proof (ExecFacts.run_okToCache _ _ _ _ _ H) as Hk.
    cbn in Hk. rewrite ExecFacts.kill_timeout, ExecFacts.kill_okToCache in Hk.
    cbn in Hk.
    apply IH in H.
    + cbn [with_streams st_streams append s_stdout] in H.
      rewrite ExecFacts.kill_streams in H. cbn [st_streams] in H.
      destruct H as [H _]. split; [exact H|]. rewrite Hk. discriminate.
    + cbn [with_streams st_streams append s_truncated].
      rewrite ExecFacts.kill_streams. exact Ht.
    + cbn [with_streams st_streams append s_stdout].
      rewrite ExecFacts.kill_streams. exact Hout.
    + cbn [with_streams st_streams st_timeout append s_stderr].
      rewrite ExecFacts.kill_streams, ExecFacts.kill_timeout.
      cbn [st_streams st_timeout]. rewrite Text.len_append. lia.
  - cbn [heard] in *. apply IH in H; cbn; try assumption.
    assert (0 <= Js.len timeout_message)%Z by apply Text.len_nonneg.
    destruct (st_timeout st); cbn; lia.
  - injection H as <- <-. cbn. rewrite !Text.append_nil_r. auto.
  - discriminate.
  - cbn [heard] in *. apply IH in H; assumption.
Qed.

(** Output that stays within the cap is captured whole: when what the
    child writes to its standard output, and what it writes to its standard
    error with room left for the timeout message, is not longer than
    [maxOutput], the result holds the standard output chunk after chunk as
    it came; and unless the timer ran it holds the standard error likewise,
    and nothing was killed: the runner did to the outside only what it
    does when it starts. *)
Theorem output_within_cap_is_whole :
  forall command args o evs r,
    fst (execute command args o evs) = Resolved r ->
    (Js.len (heard SOut evs) <= maxOutput_of o)%Z ->
    (Js.len (heard SErr evs) + Js.len timeout_message <= maxOutput_of o)%Z ->
    stdout r = heard SOut evs /\
    (okToCache r = true ->
     stderr r = heard SErr evs /\
     snd (execute command args o evs) = st_actions (start command args o)).
Proof.
  intros command args o evs r H Hout Herr.
  rewrite execute_fst in H. rewrite execute_snd.
  destruct (run o evs (start command args o)) as [p st'] eqn:Hrun.
  simpl in H. subst p.
  apply run_whole in Hrun; [exact Hrun | reflexivity | exact Hout |].
  cbn [start st_streams s_stderr st_timeout]. change (Js.len "") with 0%Z.
  pose proof (Text.len_nonneg timeout_message).
  destruct (timeoutMs_of o =? 0)%Z; lia.
Qed.

(** The theorem at work on a child that prints a line and ends. *)
Lemma output_whole_witness :
  exists r,
    fst (execute "docker" ["ps"] no_options
           [EvData SOut "4f"; EvData SErr "warning"; EvData SOut "2a"; EvExit (Some 0%Z);
            EvClose (Some 0%Z) None]) = Resolved r /\
    stdout r = "4f2a" /\ stderr r = "warning".
Proof.
  eexists. split; [vm_compute; reflexivity|].
  refine ((fun H => conj (proj1 H) (proj1 (proj2 H eq_refl)))
            (output_within_cap_is_whole "docker" ["ps"] no_options
               [EvData SOut "4f"; EvData SErr "warning"; EvData SOut "2a";
                EvExit (Some 0%Z); EvClose (Some 0%Z) None] _ eq_refl _ _));
    vm_compute; discriminate.
Defined.

End RunnerFacts.

Module SandboxFacts.

Import Sandbox.

(** The options of the [docker wait] run. *)
Definition wait_options (timeoutMs : Z) : Exec.Options :=
  {| Exec.maxOutput := None; Exec.timeoutMs := Some timeoutMs;
     Exec.env := JUndef; Exec.wrapper := None; Exec.input := None;
     Exec.killChild := true |}.

(** The three runs of [docker] a sandboxed execution waits for. *)
Definition run_of (w : World) (command : string) (args : list string) :=
  Exec.execute "docker" (run_args w command args) Exec.no_options (docker_run w).

Definition wait_of (w : World) (containerId : string) (o : Exec.Options) :=
  Exec.execute "docker" ["wait"; containerId] (wait_options (Exec.timeoutMs_of o))
    (docker_wait w).

Definition logs_of (w : World) (containerId : string) (o : Exec.Options) :=
  Exec.execute "docker" ["logs"; containerId] o (docker_logs w).

Lemma pair_eta {A B : Type} (p : A * B) : p = (fst p, snd p).
Proof. now destruct p. Qed.

(** [sandbox] with docker, in terms of the three runs. *)
Lemma sandbox_docker w command args o :
  String.eqb (sandboxType w) "none" = false ->
  sandbox w command args o =
  match fst (run_of w command args) with
  | Pending => (Pending, snd (run_of w command args))
  | Rejected e => (Rejected e, snd (run_of w command args))
  | Resolved started =>
      let containerId := Js.trim (Exec.stdout started) in
      let early :=
        if failed started && Js.nonempty containerId
        then Some (RejValue (start_failure started)) else None in
      let a_run := snd (run_of w command args) in
      let a_wait := wait_actions containerId (snd (wait_of w containerId o)) in
      let a_logs := snd (logs_of w containerId o) in
      let rm := removeContainer containerId in
      match fst (wait_of w containerId o) with
      | Pending => (first_of early Pending, a_run ++ a_wait)
      | Rejected e => (first_of early (Rejected e), a_run ++ a_wait ++ rm)
      | Resolved waited =>
          if failed waited then
            (first_of early (Rejected (RejValue (Exec.result_object waited))),
             a_run ++ a_wait ++ rm ++ rm)
          else
            match fst (logs_of w containerId o) with
            | Pending => (first_of early Pending, a_run ++ a_wait ++ a_logs)
            | Rejected e => (first_of early (Rejected e), a_run ++ a_wait ++ a_logs ++ rm)
            | Resolved logged =>
                if failed logged then
                  (first_of early (Rejected (RejValue (Exec.result_object logged))),
                   a_run ++ a_wait ++ a_logs ++ rm ++ rm)
                else
                  (first_of early
                     (Resolved
                        (log_result logged (Js.parseInt (Exec.stdout waited))
                           (killed (snd (wait_of w containerId o)))
                           (Exec.timeoutMs_of o))),
                   a_run ++ a_wait ++ a_logs ++ rm)
            end
      end
  end.
Proof.
  intros Ht. unfold sandbox. rewrite Ht. unfold run_of, wait_of, logs_of, wait_options.
  destruct (Exec.execute "docker" (run_args w command args) Exec.no_options (docker_run w))
    as [[started|e|] a_run]; try reflexivity.
  cbv zeta. cbn [fst snd].
  destruct (Exec.execute "docker" ["wait"; Js.trim (Exec.stdout started)] _ (docker_wait w))
    as [[waited|e|] a_wait0]; try reflexivity.
  cbn [fst snd]. destruct (failed waited); [reflexivity|].
  destruct (Exec.execute "docker" ["logs"; Js.trim (Exec.stdout started)] o (docker_logs w))
    as [[logged|e|] a_logs]; reflexivity.
Qed.

(** A sandboxed execution that is resolved: [docker run], [docker wait]
    and [docker logs] have all been resolved, the last two with status 0 and
    no signal, and [docker run] too unless it printed no container id; the
    result is that of [docker logs] with, as its status, the number
    [docker wait] printed (the exit code of the container, NaN when it is
    no number), and its standard output possibly followed by a note. *)
Theorem sandbox_result :
  forall w command args o v,
    String.eqb (sandboxType w) "none" = false ->
    fst (sandbox w command args o) = Resolved v ->
    exists started waited logged,
      fst (run_of w command args) = Resolved started /\
      fst (wait_of w (Js.trim (Exec.stdout started)) o) = Resolved waited /\
      fst (logs_of w (Js.trim (Exec.stdout started)) o) = Resolved logged /\
      failed waited = false /\
      failed logged = false /\
      (failed started = true -> Js.trim (Exec.stdout started) = "") /\
      Obj.field "status" v = Json.num_or_nan (Js.parseInt (Exec.stdout waited)) /\
      Obj.field "signal" v = Json.str_or_null (Exec.signal logged) /\
      Obj.field "stderr" v = JStr (Exec.stderr logged) /\
      (exists note, Obj.field "stdout" v = JStr (Exec.stdout logged ++ note)).
Proof.
  intros w command args o v Ht. rewrite (sandbox_docker w command args o Ht).
  destruct (fst (run_of w command args)) as [started|e|]; try discriminate.
  cbv zeta.
  destruct (fst (wait_of w (Js.trim (Exec.stdout started)) o)) as [waited|e|] eqn:Hw.
  2:{ cbn [fst]. destruct (failed started && _); discriminate. }
  2:{ cbn [fst]. destruct (failed started && _); discriminate. }
  destruct (failed waited) eqn:Hfw.
  { cbn [fst]. destruct (failed started && _); discriminate. }
  destruct (fst (logs_of w (Js.trim (Exec.stdout started)) o)) as [logged|e|] eqn:Hl.
  2:{ cbn [fst]. destruct (failed started && _); discriminate. }
  2:{ cbn [fst]. destruct (failed started && _); discriminate. }
  destruct (failed logged) eqn:Hfl.
  { cbn [fst]. destruct (failed started && _); discriminate. }
  cbn [fst].
  destruct (failed started && Js.nonempty (Js.trim (Exec.stdout started))) eqn:He;
    [discriminate|].
  cbn [first_of]. intros H. injection H as <-.
  exists started, waited, logged.
  split; [reflexivity|]. split; [exact Hw|]. split; [exact Hl|].
  split; [exact Hfw|]. split; [exact Hfl|].
  split; [|do 3 (split; [reflexivity|])].
  - intros Hfs. rewrite Hfs in He. simpl in He.
    destruct (Js.trim (Exec.stdout started)); [reflexivity | discriminate].
  - unfold log_result. cbn [Obj.field Obj.get String.eqb Ascii.eqb Bool.eqb].
    destruct (killed _); eexists; [reflexivity|].
    now rewrite Text.append_nil_r.
Qed.

(** The theorem at work: the status of the result is the 3 the container
    exited with, not the 0 of [docker logs]. *)
Lemma sandbox_result_witness :
  fst (sandbox (Samples.docker Samples.waited_for) "/tmp/x/output" []
         (Compiler.sandboxOptions 32768)) =
  Resolved (JObj [("status", JNum 3); ("signal", JNull); ("stdout", JStr "hello");
                  ("stderr", JStr ""); ("okToCache", JBool true)]).
Proof.
  destruct (sandbox_result (Samples.docker Samples.waited_for) "/tmp/x/output" []
              (Compiler.sandboxOptions 32768) _ eq_refl eq_refl)
    as [started _].
  reflexivity.
Defined.

(** The container is removed at the end: when [docker run] gave a
    container id and [docker wait] and [docker logs] come to an end, the
    promise of the sandbox is settled and the last process started is
    [docker rm] of that container. *)
Theorem container_removed :
  forall w command args o started,
    String.eqb (sandboxType w) "none" = false ->
    fst (run_of w command args) = Resolved started ->
    Js.nonempty (Js.trim (Exec.stdout started)) = true ->
    RunnerFacts.ends (docker_wait w) = true ->
    RunnerFacts.ends (docker_logs w) = true ->
    fst (sandbox w command args o) <> Pending /\
    exists before,
      snd (sandbox w command args o) =
      before ++ [Exec.Spawn "docker" ["rm"; Js.trim (Exec.stdout started)]].
Proof.
  intros w command args o started Ht Hrun Hid Hwait Hlogs.
  rewrite (sandbox_docker w command args o Ht), Hrun. cbv zeta.
  set (id := Js.trim (Exec.stdout started)) in *.
  unfold removeContainer. rewrite Hid.
  assert (Hw : fst (wait_of w id o) <> Pending).
  { unfold wait_of. rewrite RunnerFacts.execute_fst. now apply RunnerFacts.run_ends. }
  assert (Hl : fst (logs_of w id o) <> Pending).
  { unfold logs_of. rewrite RunnerFacts.execute_fst. now apply RunnerFacts.run_ends. }
  assert (Hfirst : forall (p : Settle jsval), p <> Pending ->
            first_of (if failed started && true
                      then Some (RejValue (start_failure started)) else None) p <>
            Pending).
  { intros p Hp. destruct (failed started && true); [discriminate | exact Hp]. }
  destruct (fst (wait_of w id o)) as [waited|e|]; [|split|congruence].
  - destruct (failed waited).
    + split; [apply Hfirst; discriminate|].
      eexists. cbn [snd]. rewrite !app_assoc. reflexivity.
    + destruct (fst (logs_of w id o)) as [logged|e|]; [|split|congruence].
      * destruct (failed logged); (split; [apply Hfirst; discriminate|]);
          eexists; cbn [snd]; rewrite !app_assoc; reflexivity.
      * apply Hfirst. discriminate.
      * eexists. cbn [snd]. rewrite !app_assoc. reflexivity.
  - apply Hfirst. discriminate.
  - eexists. cbn [snd]. rewrite !app_assoc. reflexivity.
Qed.

(** The theorem at work: the sample container is removed after its logs
    were read. *)
Lemma container_removed_witness :
  exists before,
    snd (sandbox (Samples.docker Samples.waited_for) "/tmp/x/output" []
           (Compiler.sandboxOptions 32768)) =
    before ++ [Exec.Spawn "docker" ["rm"; "4f2a"]].
Proof.
  exact (proj2 (container_removed (Samples.docker Samples.waited_for) "/tmp/x/output"
                  [] (Compiler.sandboxOptions 32768) _ eq_refl eq_refl eq_refl eq_refl
                  eq_refl)).
Defined.

Lemma wait_actions_spawn containerId acts c a :
  In (Exec.Spawn c a) (wait_actions containerId acts) ->
  In (Exec.Spawn c a) acts \/ (c = "docker" /\ a = ["kill"; containerId]).
Proof.
  unfold wait_actions. intros H. apply in_flat_map in H.
  destruct H as [x [Hx H]].
  destruct x; simpl in H; destruct H as [H | []]; try discriminate.
  - left. now rewrite <- H.
  - right. injection H as <- <-. auto.
Qed.

(** A [docker run] that fails and prints no container id does not reject
    the sandbox at once: [docker wait] is still started, with the empty
    string for the container, the promise is not rejected with the result
    of [docker run], and no [docker rm] is ever started. *)
Theorem run_failure_without_container :
  forall w command args o started,
    String.eqb (sandboxType w) "none" = false ->
    fst (run_of w command args) = Resolved started ->
    failed started = true ->
    Js.trim (Exec.stdout started) = "" ->
    In (Exec.Spawn "docker" ["wait"; ""]) (snd (sandbox w command args o)) /\
    fst (sandbox w command args o) <> Rejected (RejValue (start_failure started)) /\
    forall containerId,
      ~ In (Exec.Spawn "docker" ["rm"; containerId]) (snd (sandbox w command args o)).
Proof.
  intros w command args o started Ht Hrun Hf Hid.
  rewrite (sandbox_docker w command args o Ht), Hrun. cbv zeta. rewrite Hid.
  rewrite andb_false_r. cbn [first_of removeContainer Js.nonempty]. rewrite !app_nil_r.
  assert (Hwait : In (Exec.Spawn "docker" ["wait"; ""])
                     (wait_actions "" (snd (wait_of w "" o)))).
  { unfold wait_actions. apply in_flat_map.
    exists (Exec.Spawn "docker" ["wait"; ""]). split; [|now left].
    unfold wait_of.
    exact (ExecFacts.execute_spawns "docker" ["wait"; ""]
             (wait_options (Exec.timeoutMs_of o)) (docker_wait w)). }
  assert (Hrm_run : forall id, ~ In (Exec.Spawn "docker" ["rm"; id])
                                    (snd (run_of w command args))).
  { intros id H. apply RunnerFacts.execute_one_spawn in H.
    destruct H as [_ H]. discriminate. }
  assert (Hrm_wait : forall id, ~ In (Exec.Spawn "docker" ["rm"; id])
                                     (wait_actions "" (snd (wait_of w "" o)))).
  { intros id H. apply wait_actions_spawn in H. destruct H as [H | [_ H]];
      [|discriminate].
    apply RunnerFacts.execute_one_spawn in H. destruct H as [_ H]. discriminate. }
  assert (Hrm_logs : forall id, ~ In (Exec.Spawn "docker" ["rm"; id])
                                     (snd (logs_of w "" o))).
  { intros id H. apply RunnerFacts.execute_one_spawn in H.
    destruct H as [_ H]. unfold Exec.spawned_args in H.
    destruct (Exec.has_wrapper o); discriminate. }
  assert (Hin2 : forall id, ~ In (Exec.Spawn "docker" ["rm"; id])
                                 (snd (run_of w command args) ++
                                  wait_actions "" (snd (wait_of w "" o)))).
  { intros id H. apply in_app_or in H. destruct H as [H | H];
      [exact (Hrm_run id H) | exact (Hrm_wait id H)]. }
  assert (Hin3 : forall id, ~ In (Exec.Spawn "docker" ["rm"; id])
                                 (snd (run_of w command args) ++
                                  wait_actions "" (snd (wait_of w "" o)) ++
                                  snd (logs_of w "" o))).
  { intros id H. apply in_app_or in H. destruct H as [H | H];
      [exact (Hrm_run id H)|].
    apply in_app_or in H. destruct H as [H | H];
      [exact (Hrm_wait id H) | exact (Hrm_logs id H)]. }
  assert (Hhas2 : In (Exec.Spawn "docker" ["wait"; ""])
                     (snd (run_of w command args) ++
                      wait_actions "" (snd (wait_of w "" o)))).
  { apply in_or_app. now right. }
  assert (Hhas3 : In (Exec.Spawn "docker" ["wait"; ""])
                     (snd (run_of w command args) ++
                      wait_actions "" (snd (wait_of w "" o)) ++ snd (logs_of w "" o))).
  { apply in_or_app. right. apply in_or_app. now left. }
  destruct (fst (wait_of w "" o)) as [waited|e|] eqn:Hw; cbn [fst snd].
  - destruct (failed waited); cbn [fst snd].
    + split; [exact Hhas2|]. split; [|exact Hin2].
      intros H. injection H as H. discriminate.
    + destruct (fst (logs_of w "" o)) as [logged|e|] eqn:Hl; cbn [fst snd].
      * destruct (failed logged); cbn [fst snd];
          (split; [exact Hhas3|]); (split; [|exact Hin3]); discriminate.
      * split; [exact Hhas3|]. split; [|exact Hin3].
        apply RunnerFacts.execute_rejected in Hl. destruct Hl as [m ->]. discriminate.
      * split; [exact Hhas3|]. split; [discriminate | exact Hin3].
  - split; [exact Hhas2|]. split; [|exact Hin2].
    apply RunnerFacts.execute_rejected in Hw. destruct Hw as [m ->]. discriminate.
  - split; [exact Hhas2|]. split; [discriminate | exact Hin2].
Qed.

(** The theorem at work: the daemon is down, [docker wait] of nothing
    fails in its turn, and its result is what the sandbox is rejected
    with. *)
Lemma run_failure_witness :
  In (Exec.Spawn "docker" ["wait"; ""])
     (snd (sandbox Samples.no_container "/tmp/x/output" []
             (Compiler.sandboxOptions 32768))).
Proof.
  exact (proj1 (run_failure_without_container Samples.no_container "/tmp/x/output" []
                  (Compiler.sandboxOptions 32768) _ eq_refl eq_refl eq_refl eq_refl)).
Defined.

(** When the timer of [docker wait] runs, the container is killed, and a
    sandboxed execution that is resolved all the same says so at the end of
    its standard output. *)
Theorem killed_after_timeout :
  forall w command args o started waited logged,
    String.eqb (sandboxType w) "none" = false ->
    fst (run_of w command args) = Resolved started ->
    failed started = false ->
    fst (wait_of w (Js.trim (Exec.stdout started)) o) = Resolved waited ->
    failed waited = false ->
    fst (logs_of w (Js.trim (Exec.stdout started)) o) = Resolved logged ->
    failed logged = false ->
    (0 < Exec.timeoutMs_of o)%Z ->
    Exec.fires (docker_wait w) = true ->
    In (Exec.Spawn "docker" ["kill"; Js.trim (Exec.stdout started)])
       (snd (sandbox w command args o)) /\
    exists v,
      fst (sandbox w command args o) = Resolved v /\
      Obj.field "stdout" v =
      JStr (Exec.stdout logged ++ Json.nl ++ "### Killed after " ++
            Js.show (Exec.timeoutMs_of o) ++ "ms")%string.
Proof.
  intros w command args o started waited logged Ht Hrun Hfs Hw Hfw Hl Hfl Hpos Hfires.
  rewrite (sandbox_docker w command args o Ht), Hrun. cbv zeta.
  rewrite Hw, Hfw, Hl, Hfl, Hfs. cbn [andb first_of fst snd].
  set (id := Js.trim (Exec.stdout started)) in *.
  assert (Hkill : In Exec.KillChild (snd (wait_of w id o))).
  { unfold wait_of. rewrite RunnerFacts.execute_snd.
    apply (ExecFacts.run_timer_kills (wait_options (Exec.timeoutMs_of o)) (docker_wait w)
             (Exec.start "docker" ["wait"; id] (wait_options (Exec.timeoutMs_of o)))
             (fst (Exec.run (wait_options (Exec.timeoutMs_of o)) (docker_wait w)
                     (Exec.start "docker" ["wait"; id]
                        (wait_options (Exec.timeoutMs_of o)))))).
    - unfold Exec.start. cbn [Exec.st_timeout].
      change (Exec.timeoutMs_of (wait_options (Exec.timeoutMs_of o)))
        with (Exec.timeoutMs_of o).
      destruct (Exec.timeoutMs_of o =? 0)%Z eqn:Hz; [|reflexivity].
      apply Z.eqb_eq in Hz. lia.
    - reflexivity.
    - exact Hfires.
    - apply pair_eta. }
  split.
  - apply in_or_app. right. apply in_or_app. left.
    unfold wait_actions. apply in_flat_map. exists Exec.KillChild.
    split; [exact Hkill | now left].
  - eexists. split; [reflexivity|].
    assert (Hk : killed (snd (wait_of w id o)) = true).
    { unfold killed. apply existsb_exists. exists Exec.KillChild. auto. }
    rewrite Hk. reflexivity.
Qed.

(** The theorem at work: the sample container is killed after a minute. *)
Lemma killed_after_timeout_witness :
  In (Exec.Spawn "docker" ["kill"; "4f2a"])
     (snd (sandbox (Samples.docker Samples.waited_too_long) "/tmp/x/output" []
             (Compiler.sandboxOptions 32768))).
Proof.
  refine (proj1 (killed_after_timeout (Samples.docker Samples.waited_too_long)
                   "/tmp/x/output" [] (Compiler.sandboxOptions 32768) _ _ _
                   eq_refl eq_refl eq_refl eq_refl eq_refl eq_refl eq_refl eq_refl
                   eq_refl)).
Defined.

(** The command lines of [docker] a sandboxed execution can start. *)
Definition docker_command (w : World) (command : string) (args a : list string) : Prop :=
  a = run_args w command args \/
  exists containerId,
    a = ["wait"; containerId] \/ a = ["kill"; containerId] \/
    a = ["logs"; containerId] \/ a = ["rm"; containerId].

Lemma removeContainer_spawn containerId c a :
  In (Exec.Spawn c a) (removeContainer containerId) ->
  c = "docker" /\ a = ["rm"; containerId].
Proof.
  unfold removeContainer. destruct (Js.nonempty containerId); [|intros []].
  intros [H | []]. injection H as <- <-. auto.
Qed.

(** With the sandbox on, the program is not started on the host: every
    process a sandboxed execution starts is [docker], with one of the
    command lines [run], [wait], [kill], [logs] and [rm] ([docker logs]
    under the wrapper of the options, when they name one), and the first of
    them is the [docker run] that has the program and its arguments at the
    end of its command line. *)
Theorem only_docker_is_started :
  forall w command args o,
    String.eqb (sandboxType w) "none" = false ->
    (exists rest,
        snd (sandbox w command args o) =
        Exec.Spawn "docker" (run_args w command args) :: rest) /\
    forall c a,
      In (Exec.Spawn c a) (snd (sandbox w command args o)) ->
      (c = "docker" /\ docker_command w command args a) \/
      (exists wrapper containerId,
          Exec.has_wrapper o = Some wrapper /\ c = wrapper /\
          a = ["docker"; "logs"; containerId]).
Proof.
  intros w command args o Ht.
  assert (Hrun : forall c a, In (Exec.Spawn c a) (snd (run_of w command args)) ->
                 c = "docker" /\ docker_command w command args a).
  { intros c a H. apply RunnerFacts.execute_one_spawn in H. destruct H as [-> ->].
    split; [reflexivity | now left]. }
  assert (Hwait : forall id c a,
             In (Exec.Spawn c a)
                (wait_actions id (snd (wait_of w id o))) ->
             c = "docker" /\ docker_command w command args a).
  { intros id c a H. apply wait_actions_spawn in H.
    destruct H as [H | [-> ->]].
    - apply RunnerFacts.execute_one_spawn in H. destruct H as [-> ->].
      split; [reflexivity | right; exists id; auto].
    - split; [reflexivity | right; exists id; auto]. }
  assert (Hlogs : forall id c a,
             In (Exec.Spawn c a) (snd (logs_of w id o)) ->
             (c = "docker" /\ docker_command w command args a) \/
             (exists wrapper containerId,
                 Exec.has_wrapper o = Some wrapper /\ c = wrapper /\
                 a = ["docker"; "logs"; containerId])).
  { intros id c a H. apply RunnerFacts.execute_one_spawn in H. destruct H as [-> ->].
    unfold Exec.spawned_command, Exec.spawned_args.
    destruct (Exec.has_wrapper o) as [wrapper|].
    - right. exists wrapper, id. auto.
    - left. split; [reflexivity | right; exists id; auto]. }
  assert (Hrm : forall id c a,
             In (Exec.Spawn c a) (removeContainer id) ->
             c = "docker" /\ docker_command w command args a).
  { intros id c a H. apply removeContainer_spawn in H. destruct H as [-> ->].
    split; [reflexivity | right; exists id; auto]. }
  split.
  - rewrite (sandbox_docker w command args o Ht).
    assert (Hhead : exists rest, snd (run_of w command args) =
                      Exec.Spawn "docker" (run_args w command args) :: rest).
    { unfold run_of. rewrite RunnerFacts.execute_snd.
      destruct (ExecFacts.run_actions_grow Exec.no_options (docker_run w)
                  (Exec.start "docker" (run_args w command args) Exec.no_options)
                  _ _ (pair_eta _))
        as [more Hmore].
      rewrite Hmore. cbn. eauto. }
    destruct Hhead as [rest Hhead].
    destruct (fst (run_of w command args)) as [started|e|];
      try (cbn [snd]; eauto).
    cbv zeta.
    destruct (fst (wait_of w _ o)) as [waited|e|];
      [destruct (failed waited);
       [|destruct (fst (logs_of w _ o)) as [logged|e|];
         [destruct (failed logged)| |]]| |];
      cbn [snd]; rewrite Hhead; cbn [app]; eauto.
  - intros c a H.
    rewrite (sandbox_docker w command args o Ht) in H.
    destruct (fst (run_of w command args)) as [started|e|];
      try (left; apply Hrun; exact H).
    cbv zeta in H.
    destruct (fst (wait_of w _ o)) as [waited|e|];
      [destruct (failed waited);
       [|destruct (fst (logs_of w _ o)) as [logged|e|];
         [destruct (failed logged)| |]]| |];
      cbn [snd] in H;
      repeat (apply in_app_or in H; destruct H as [H | H]);
      try (left; apply Hrun; exact H);
      try (left; eapply Hwait; exact H);
      try (eapply Hlogs; exact H);
      try (left; eapply Hrm; exact H).
Qed.

(** The theorem at work: the run of the sample starts with [docker run]. *)
Lemma only_docker_witness :
  exists rest,
    snd (sandbox (Samples.docker Samples.waited_for) "/tmp/x/output" [] Exec.no_options) =
    Exec.Spawn "docker" (run_args (Samples.docker Samples.waited_for) "/tmp/x/output" [])
    :: rest.
Proof.
  exact (proj1 (only_docker_is_started (Samples.docker Samples.waited_for)
                  "/tmp/x/output" [] Exec.no_options eq_refl)).
Defined.

End SandboxFacts.

(* ===================================================================== *)
(** ** The compiler driver, further *)
(* ===================================================================== *)

Module KeyFacts.

Import Compiler.

(** Reading a quoted string back from the head of a text: the string and
    what follows its closing quote. *)
Definition prepend (a : ascii) (r : option (string * string)) : option (string * string) :=
  match r with Some (s, rest) => Some (String a s, rest) | None => None end.

Fixpoint read_body (s : string) : option (string * string) :=
  match s with
  | EmptyString => None
  | String a rest =>
      if (nat_of_ascii a =? 34)%nat then Some ("", rest)
      else if (nat_of_ascii a =? 92)%nat then
        match rest with
        | String x rest1 =>
            if (nat_of_ascii x =? 117)%nat then
              match rest1 with
              | String _ (String _ (String h (String l rest2))) =>
                  prepend (ascii_of_nat (16 * Json.hex_nat h + Json.hex_nat l))
                          (read_body rest2)
              | _ => None
              end
            else prepend (Json.unescape_letter x) (read_body rest1)
        | EmptyString => None
        end
      else prepend a (read_body rest)
  end.

Lemma read_body_escape (s r : string) :
  read_body (Json.escape s ++ String (ascii_of_nat 34) r) = Some (s, r).
Proof.
  induction s as [|a s IH]; [reflexivity|].
  simpl in IH.
  destruct a as [[] [] [] [] [] [] [] []]; simpl; rewrite IH; reflexivity.
Qed.

(** A quoted string is followed by anything without ambiguity. *)
Lemma quote_prefix_free (s s' r r' : string) :
  (Json.quote s ++ r = Json.quote s' ++ r')%string -> s = s' /\ r = r'.
Proof.
  unfold Json.quote. rewrite !Text.append_assoc. intros H.
  apply Text.append_inv_head in H.
  change (Json.dquote ++ r)%string with (String (ascii_of_nat 34) r) in H.
  change (Json.dquote ++ r')%string with (String (ascii_of_nat 34) r') in H.
  apply (f_equal read_body) in H. rewrite !read_body_escape in H.
  injection H as -> ->. auto.
Qed.

Lemma strings_items (l : list string) :
  map (fun x => match Json.stringify x with Some s => s | None => "null" end)
      (map JStr l) = map Json.quote l.
Proof. rewrite map_map. reflexivity. Qed.

Lemma quote_head (s r : string) :
  exists t, (Json.quote s ++ r)%string = String (ascii_of_nat 34) t.
Proof. unfold Json.quote, Json.dquote. simpl. eauto. Qed.

(** The items of an array of strings can be read back. *)
Lemma quoted_items_inj (l : list string) :
  forall l' r r',
    (Js.join "," (map Json.quote l) ++ "]" ++ r =
     Js.join "," (map Json.quote l') ++ "]" ++ r')%string ->
    l = l' /\ r = r'.
Proof.
  induction l as [|x l IH]; intros [|y l'] r r' H.
  - simpl in H. injection H as ->. auto.
  - exfalso. cbn [map] in H. rewrite Text.join_cons, Text.append_assoc in H.
    destruct (quote_head y (Text.tail_join "," (map Json.quote l') ++ "]" ++ r'))
      as [t Ht].
    rewrite Ht in H. discriminate.
  - exfalso. cbn [map] in H. rewrite Text.join_cons, Text.append_assoc in H.
    destruct (quote_head x (Text.tail_join "," (map Json.quote l) ++ "]" ++ r))
      as [t Ht].
    rewrite Ht in H. discriminate.
  - cbn [map] in H. rewrite !Text.join_cons, !Text.append_assoc in H.
    apply quote_prefix_free in H. destruct H as [-> H].
    destruct l as [|x2 l], l' as [|y2 l'].
    + simpl in H. injection H as ->. auto.
    + exfalso. simpl in H. discriminate.
    + exfalso. simpl in H. discriminate.
    + change (Text.tail_join "," (map Json.quote (x2 :: l)))
        with ("," ++ Js.join "," (map Json.quote (x2 :: l)))%string in H.
      change (Text.tail_join "," (map Json.quote (y2 :: l')))
        with ("," ++ Js.join "," (map Json.quote (y2 :: l')))%string in H.
      rewrite !Text.append_assoc in H. apply Text.append_inv_head in H.
      apply IH in H. destruct H as [H ->]. rewrite H. auto.
Qed.

Lemma members_cons k v l :
  Json.members ((k, v) :: l) =
  match Json.stringify v with
  | Some s => [(Json.quote k ++ ":" ++ s)%string]
  | None => []
  end ++ Json.members l.
Proof. reflexivity. Qed.

(** The key as a text around the quoted source and the quoted options;
    what comes before them is the same for all requests to one compiler. *)
Lemma fingerprint_around_source c :
  exists before : string,
    forall source userOptions bo filters,
    exists after : string,
      fingerprint c source userOptions bo filters =
      (before ++ Json.quote source ++
       ("," ++ Json.quote "options" ++ ":" ++ "[") ++
       Js.join "," (map Json.quote userOptions) ++ "]" ++ after)%string.
Proof.
  exists ("{" ++ Json.quote "compiler" ++ ":" ++
          match Json.stringify (descriptor_object c) with Some d => d | None => "" end ++
          "," ++ Json.quote "source" ++ ":")%string.
  intros source userOptions bo filters.
  exists (Text.tail_join ","
            (Json.members [("backendOptions", bo); ("filters", JObj filters)]) ++
          "}")%string.
  unfold fingerprint. rewrite CompilerFacts.stringify_obj. cbv iota beta.
  rewrite (members_cons "compiler").
  destruct (Json.stringify (descriptor_object c)) as [d|] eqn:Hd; [|discriminate].
  cbn [app].
  rewrite Text.join_cons, (CompilerFacts.members_cons_str "source" source),
    CompilerFacts.tail_join_cons.
  rewrite (members_cons "options"). cbn [Json.strings Json.stringify app].
  rewrite CompilerFacts.tail_join_cons, strings_items.
  rewrite !Text.append_assoc. reflexivity.
Qed.

(** The key tells requests to one compiler apart: two of them with the
    same key have the same source and the same options. *)
Theorem key_tells_source_and_options :
  forall c source userOptions bo filters source' userOptions' bo' filters',
    fingerprint c source userOptions bo filters =
    fingerprint c source' userOptions' bo' filters' ->
    source = source' /\ userOptions = userOptions'.
Proof.
  intros c source userOptions bo filters source' userOptions' bo' filters' H.
  destruct (fingerprint_around_source c) as [before Hkey].
  destruct (Hkey source userOptions bo filters) as [after Hk].
  destruct (Hkey source' userOptions' bo' filters') as [after' Hk'].
  rewrite Hk, Hk' in H.
  apply Text.append_inv_head in H.
  apply quote_prefix_free in H. destruct H as [-> H]. split; [reflexivity|].
  apply Text.append_inv_head in H.
  apply quoted_items_inj in H. exact (proj1 H).
Qed.

(** The theorem at work on two requests of one key. *)
Lemma key_tells_witness : "int f();" = "int f();" /\ ["-O2"] = ["-O2"].
Proof.
  exact (key_tells_source_and_options Samples.gcc "int f();" ["-O2"] JUndef
           getDefaultFilters "int f();" ["-O2"] JUndef getDefaultFilters eq_refl).
Defined.

(** *** Reading a value back *)

Local Open Scope string_scope.

(** The characters that end a value inside a JSON text. *)
Definition is_stop (a : ascii) : bool :=
  Ascii.eqb a "," || Ascii.eqb a "]" || Ascii.eqb a "}".

(** A text that is over, or goes on after a value. *)
Definition stops (r : string) : bool :=
  match r with EmptyString => true | String a _ => is_stop a end.

(** A text that begins as a value does. *)
Definition starts (s : string) : bool :=
  match s with EmptyString => false | String a _ => negb (is_stop a) end.

(** The characters of [null], [true], [false] and of numbers. *)
Definition is_plain (a : ascii) : bool :=
  negb (is_stop a) &&
  negb (Ascii.eqb a (ascii_of_nat 34) || Ascii.eqb a "[" || Ascii.eqb a "{").

Fixpoint plain (s : string) : bool :=
  match s with
  | EmptyString => true
  | String a rest => is_plain a && plain rest
  end.

(** The text of an array item. *)
Definition item_text (x : jsval) : string :=
  match Json.stringify x with Some s => s | None => "null" end.

Section jsval_induction.

Variable P : jsval -> Prop.
Hypothesis HUndef : P JUndef.
Hypothesis HNull : P JNull.
Hypothesis HBool : forall b, P (JBool b).
Hypothesis HNum : forall z, P (JNum z).
Hypothesis HNaN : P JNaN.
Hypothesis HStr : forall s, P (JStr s).
Hypothesis HArr : forall items, Forall P items -> P (JArr items).
Hypothesis HObj : forall props, Forall (fun p => P (snd p)) props -> P (JObj props).

Fixpoint jsval_nested_ind (v : jsval) : P v :=
  match v with
  | JUndef => HUndef
  | JNull => HNull
  | JBool b => HBool b
  | JNum z => HNum z
  | JNaN => HNaN
  | JStr s => HStr s
  | JArr items =>
      HArr items
        ((fix all (l : list jsval) : Forall P l :=
            match l with
            | [] => Forall_nil P
            | x :: rest => Forall_cons x (jsval_nested_ind x) (all rest)
            end) items)
  | JObj props =>
      HObj props
        ((fix all (l : list (string * jsval)) : Forall (fun p => P (snd p)) l :=
            match l with
            | [] => Forall_nil _
            | (k, x) :: rest =>
                Forall_cons (P := fun p => P (snd p)) (k, x) (jsval_nested_ind x)
                            (all rest)
            end) props)
  end.

End jsval_induction.

Lemma plain_uint (d : Decimal.uint) : plain (NilEmpty.string_of_uint d) = true.
Proof. induction d; simpl; auto. Qed.

Lemma show_plain (z : Z) : plain (Js.show z) = true.
Proof.
  unfold Js.show. destruct (Z.to_int z); simpl; apply plain_uint.
Qed.

Lemma uint_nonempty (d : Decimal.uint) :
  d <> Decimal.Nil -> NilEmpty.string_of_uint d <> "".
Proof. destruct d; simpl; congruence. Qed.

Lemma show_nonempty (z : Z) : Js.show z <> "".
Proof.
  unfold Js.show. destruct z as [|p|p]; simpl; try discriminate.
  apply uint_nonempty, Unsigned.to_uint_nonnil.
Qed.

(** A plain text ends where the first stop is. *)
Lemma plain_prefix_free (s : string) :
  forall s' r r',
    plain s = true -> plain s' = true -> stops r = true -> stops r' = true ->
    s ++ r = s' ++ r' -> s = s' /\ r = r'.
Proof.
  induction s as [|a s IH]; intros [|b s'] r r' Hs Hs' Hr Hr' H; simpl in *.
  - auto.
  - subst r. simpl in Hr. apply andb_prop in Hs'. destruct Hs' as [Hb _].
    unfold is_plain in Hb. rewrite Hr in Hb. discriminate.
  - subst r'. simpl in Hr'. apply andb_prop in Hs. destruct Hs as [Ha _].
    unfold is_plain in Ha. rewrite Hr' in Ha. discriminate.
  - injection H as -> H. apply andb_prop in Hs, Hs'.
    destruct (IH s' r r' (proj2 Hs) (proj2 Hs') Hr Hr' H) as [-> ->]. auto.
Qed.

(** How the text of a value begins. *)
Inductive Shape : Type := Atom | Quoted | Bracket | Brace.

Definition shape (v : jsval) : Shape :=
  match v with
  | JStr _ => Quoted
  | JArr _ => Bracket
  | JObj _ => Brace
  | _ => Atom
  end.

Definition has_shape (k : Shape) (s : string) : Prop :=
  match k with
  | Atom => plain s = true /\ s <> ""
  | Quoted => exists t, s = String (ascii_of_nat 34) t
  | Bracket => exists t, s = String "[" t
  | Brace => exists t, s = String "{" t
  end.

Lemma stringify_shape (v : jsval) (s : string) :
  Json.stringify v = Some s -> has_shape (shape v) s.
Proof.
  destruct v as [| |b|z| |x|items|props]; simpl; intros H;
    try discriminate; try (injection H as <-).
  - split; [reflexivity | discriminate].
  - destruct b; injection H as <-; (split; [reflexivity | discriminate]).
  - split; [apply show_plain | apply show_nonempty].
  - split; [reflexivity | discriminate].
  - unfold Json.quote, Json.dquote. simpl. eauto.
  - simpl. eauto.
  - simpl. eauto.
Qed.

Lemma shape_starts (k : Shape) (s : string) : has_shape k s -> starts s = true.
Proof.
  destruct k; simpl.
  - intros [Hp Hne]. destruct s as [|a s]; [congruence|]. simpl in *.
    apply andb_prop in Hp. destruct Hp as [Hp _]. unfold is_plain in Hp.
    apply andb_prop in Hp. exact (proj1 Hp).
  - intros [t ->]. reflexivity.
  - intros [t ->]. reflexivity.
  - intros [t ->]. reflexivity.
Qed.

Lemma stringify_starts (v : jsval) (s : string) :
  Json.stringify v = Some s -> starts s = true.
Proof. intros H. exact (shape_starts _ _ (stringify_shape _ _ H)). Qed.

(** Texts of two shapes differ in their first character. *)
Lemma shapes_agree (k k' : Shape) (s s' r r' : string) :
  has_shape k s -> has_shape k' s' -> s ++ r = s' ++ r' -> k = k'.
Proof.
  intros K K' E.
  pose proof (shape_starts _ _ K) as S.
  pose proof (shape_starts _ _ K') as S'.
  destruct s as [|a s]; [discriminate|].
  destruct s' as [|a' s']; [discriminate|].
  simpl in E. injection E as <- _.
  destruct k, k'; simpl in K, K'; try reflexivity; exfalso;
    repeat match goal with
           | H : exists _, _ |- _ => destruct H as [? H]
           | H : _ /\ _ |- _ => destruct H as [H _]
           end;
    try congruence;
    match goal with
    | H : String a _ = String _ _ |- _ => injection H as -> _
    end; discriminate.
Qed.

(** Items between commas up to a closing character: the items can be read
    back when each of them can. *)
Lemma join_prefix_free (R : string -> Prop) (close : ascii) :
  is_stop close = true ->
  close <> ","%char ->
  (forall e, R e -> starts e = true) ->
  forall l,
    Forall (fun e =>
              R e /\
              forall e' r r',
                R e' -> stops r = true -> stops r' = true ->
                e ++ r = e' ++ r' -> e = e' /\ r = r') l ->
    forall l' r r',
      Forall R l' ->
      Js.join "," l ++ String close r = Js.join "," l' ++ String close r' ->
      l = l' /\ r = r'.
Proof.
  intros Hclose Hcomma Hstart l Hl.
  induction Hl as [|x l [Hx Hread] Hl IH]; intros [|y l'] r r' Hl' H.
  - simpl in H. injection H as ->. auto.
  - exfalso. rewrite Text.join_cons, Text.append_assoc in H.
    apply Forall_inv in Hl'. apply Hstart in Hl'.
    destruct y as [|a y]; [discriminate|]. simpl in H, Hl'.
    injection H as <- _. rewrite Hclose in Hl'. discriminate.
  - exfalso. rewrite Text.join_cons, Text.append_assoc in H.
    apply Hstart in Hx.
    destruct x as [|a x]; [discriminate|]. simpl in H, Hx.
    injection H as -> _. rewrite Hclose in Hx. discriminate.
  - rewrite !Text.join_cons, !Text.append_assoc in H.
    assert (Hs : forall t u, stops (Text.tail_join "," t ++ String close u) = true).
    { intros [|t0 t] u; simpl; [exact Hclose | reflexivity]. }
    destruct (Hread y _ _ (Forall_inv Hl') (Hs l r) (Hs l' r') H) as [-> H'].
    destruct l as [|x2 l], l' as [|y2 l'].
    + simpl in H'. injection H' as ->. auto.
    + exfalso. simpl in H'. injection H' as E _. auto.
    + exfalso. simpl in H'. injection H' as E _. auto.
    + change (Text.tail_join "," (x2 :: l)) with ("," ++ Js.join "," (x2 :: l)) in H'.
      change (Text.tail_join "," (y2 :: l')) with ("," ++ Js.join "," (y2 :: l')) in H'.
      rewrite !Text.append_assoc in H'. apply Text.append_inv_head in H'.
      destruct (IH (y2 :: l') r r' (Forall_inv_tail Hl') H') as [-> ->]. auto.
Qed.

(** The text of a value can be read back from a text that goes on. *)
Definition readable (v : jsval) : Prop :=
  forall s, Json.stringify v = Some s ->
  forall v' s' r r',
    Json.stringify v' = Some s' -> stops r = true -> stops r' = true ->
    s ++ r = s' ++ r' -> s = s' /\ r = r'.

(** What [stringify] writes for a value or for a member. *)
Definition is_text (e : string) : Prop := exists v, Json.stringify v = Some e.

Definition is_member (e : string) : Prop :=
  exists k v s, Json.stringify v = Some s /\ e = Json.quote k ++ ":" ++ s.

Lemma item_is_text (x : jsval) : is_text (item_text x).
Proof.
  unfold is_text, item_text. destruct (Json.stringify x) as [s|] eqn:H.
  - now exists x.
  - now exists JNull.
Qed.

Lemma members_are_members (props : list (string * jsval)) :
  Forall is_member (Json.members props).
Proof.
  induction props as [|[k v] props IH]; [constructor|].
  rewrite members_cons.
  destruct (Json.stringify v) as [s|] eqn:H; simpl; [|exact IH].
  constructor; [|exact IH]. now exists k, v, s.
Qed.

Lemma member_starts (e : string) : is_member e -> starts e = true.
Proof. intros (k & v & s & _ & ->). reflexivity. Qed.

Lemma atom_readable (v : jsval) : shape v = Atom -> readable v.
Proof.
  intros Hv s Hs v' s' r r' Hs' Hr Hr' H.
  pose proof (stringify_shape _ _ Hs) as K.
  pose proof (stringify_shape _ _ Hs') as K'.
  pose proof (shapes_agree _ _ _ _ _ _ K K' H) as E.
  rewrite <- E, Hv in K'. rewrite Hv in K.
  exact (plain_prefix_free s s' r r' (proj1 K) (proj1 K') Hr Hr' H).
Qed.

Lemma member_readable (k : string) (v : jsval) (s : string) :
  readable v -> Json.stringify v = Some s ->
  forall e' r r',
    is_member e' -> stops r = true -> stops r' = true ->
    (Json.quote k ++ ":" ++ s) ++ r = e' ++ r' ->
    Json.quote k ++ ":" ++ s = e' /\ r = r'.
Proof.
  intros Hv Hs e' r r' (k' & v' & s' & Hs' & ->) Hr Hr' H.
  rewrite !Text.append_assoc in H.
  apply quote_prefix_free in H. destruct H as [-> H].
  apply (Text.append_inv_head ":") in H.
  destruct (Hv s Hs v' s' r r' Hs' Hr Hr' H) as [-> ->]. auto.
Qed.

Lemma items_readable (items : list jsval) :
  Forall readable items ->
  Forall (fun e =>
            is_text e /\
            forall e' r r',
              is_text e' -> stops r = true -> stops r' = true ->
              e ++ r = e' ++ r' -> e = e' /\ r = r')
         (map item_text items).
Proof.
  intros H. induction H as [|x items Hx _ IH]; [constructor|].
  cbn [map]. constructor; [|exact IH].
  split; [apply item_is_text|].
  intros e' r r' [v' Hv'] Hr Hr' H.
  unfold item_text in *. destruct (Json.stringify x) as [s|] eqn:Hs.
  - exact (Hx s Hs v' e' r r' Hv' Hr Hr' H).
  - exact (atom_readable JNull eq_refl "null" eq_refl v' e' r r' Hv' Hr Hr' H).
Qed.

Lemma members_readable (props : list (string * jsval)) :
  Forall (fun p => readable (snd p)) props ->
  Forall (fun e =>
            is_member e /\
            forall e' r r',
              is_member e' -> stops r = true -> stops r' = true ->
              e ++ r = e' ++ r' -> e = e' /\ r = r')
         (Json.members props).
Proof.
  intros H. induction H as [|[k v] props Hv _ IH]; [constructor|].
  rewrite members_cons. simpl in Hv.
  destruct (Json.stringify v) as [s|] eqn:Hs; simpl; [|exact IH].
  constructor; [|exact IH].
  split; [now exists k, v, s|].
  intros e' r r'. exact (member_readable k v s Hv Hs e' r r').
Qed.

Lemma stringify_arr (items : list jsval) :
  Json.stringify (JArr items) = Some ("[" ++ Js.join "," (map item_text items) ++ "]").
Proof. reflexivity. Qed.

Theorem values_readable (v : jsval) : readable v.
Proof.
  induction v as [| |b|z| |x|items IH|props IH] using jsval_nested_ind;
    try (apply atom_readable; reflexivity).
  - intros s Hs v' s' r r' Hs' Hr Hr' H.
    pose proof (shapes_agree _ _ _ _ _ _ (stringify_shape _ _ Hs)
                  (stringify_shape _ _ Hs') H) as E.
    destruct v'; try discriminate E. simpl in Hs, Hs'.
    injection Hs as <-. injection Hs' as <-.
    apply quote_prefix_free in H. destruct H as [-> ->]. auto.
  - intros s Hs v' s' r r' Hs' Hr Hr' H.
    pose proof (shapes_agree _ _ _ _ _ _ (stringify_shape _ _ Hs)
                  (stringify_shape _ _ Hs') H) as E.
    destruct v' as [| | | | | |items'|]; try discriminate E.
    rewrite stringify_arr in Hs, Hs'. injection Hs as <-. injection Hs' as <-.
    simpl in H. injection H as H. rewrite !Text.append_assoc in H.
    change ("]" ++ r) with (String "]" r) in H.
    change ("]" ++ r') with (String "]" r') in H.
    destruct (join_prefix_free is_text "]" eq_refl ltac:(discriminate)
                (fun e He => match He with ex_intro _ w Hw => stringify_starts w e Hw end)
                (map item_text items) (items_readable items IH)
                (map item_text items') r r') as [E' ->].
    + apply Forall_forall. intros e He. apply in_map_iff in He.
      destruct He as (x & <- & _). apply item_is_text.
    + exact H.
    + rewrite E'. auto.
  - intros s Hs v' s' r r' Hs' Hr Hr' H.
    pose proof (shapes_agree _ _ _ _ _ _ (stringify_shape _ _ Hs)
                  (stringify_shape _ _ Hs') H) as E.
    destruct v' as [| | | | | | |props']; try discriminate E.
    rewrite CompilerFacts.stringify_obj in Hs, Hs'.
    injection Hs as <-. injection Hs' as <-.
    simpl in H. injection H as H. rewrite !Text.append_assoc in H.
    change ("}" ++ r) with (String "}" r) in H.
    change ("}" ++ r') with (String "}" r') in H.
    destruct (join_prefix_free is_member "}" eq_refl ltac:(discriminate)
                member_starts
                (Json.members props) (members_readable props IH)
                (Json.members props') r r' (members_are_members props') H)
      as [E' ->].
    rewrite E'. auto.
Qed.

(** *** The key of a request *)

Lemma cons_eq {A : Type} (x y : A) (l l' : list A) :
  x :: l = y :: l' -> x = y /\ l = l'.
Proof. intros H. injection H as -> ->. auto. Qed.

(** The members of the object [compile] makes its key of. *)
Lemma key_members c source userOptions bo filters d f :
  Json.stringify (descriptor_object c) = Some d ->
  Json.stringify (JObj filters) = Some f ->
  Json.members [("compiler", descriptor_object c);
                ("source", JStr source);
                ("options", Json.strings userOptions);
                ("backendOptions", bo);
                ("filters", JObj filters)] =
  app [Json.quote "compiler" ++ ":" ++ d;
       Json.quote "source" ++ ":" ++ Json.quote source;
       Json.quote "options" ++ ":" ++
       "[" ++ Js.join "," (map Json.quote userOptions) ++ "]"]
      (app match Json.stringify bo with
           | Some b => [Json.quote "backendOptions" ++ ":" ++ b]
           | None => []
           end
           [Json.quote "filters" ++ ":" ++ f]).
Proof.
  intros Hd Hf.
  rewrite (members_cons "compiler"), Hd.
  rewrite (members_cons "source").
  rewrite (members_cons "options").
  rewrite (members_cons "backendOptions").
  rewrite (members_cons "filters"), Hf.
  unfold Json.strings. rewrite stringify_arr.
  change (map item_text (map JStr userOptions))
    with (map (fun x => match Json.stringify x with Some s => s | None => "null" end)
              (map JStr userOptions)).
  rewrite strings_items.
  cbn [Json.stringify Json.members flat_map app].
  destruct (Json.stringify bo); reflexivity.
Qed.

Lemma descriptor_text c : exists d, Json.stringify (descriptor_object c) = Some d.
Proof. unfold descriptor_object. eexists. apply CompilerFacts.stringify_obj. Qed.

(** Two requests have one key exactly when the texts of their compilers,
    of their backend options and of their filters agree, and their sources
    and options are the same. *)
Lemma fingerprint_inj c source userOptions bo filters c' source' userOptions' bo' filters' :
  fingerprint c source userOptions bo filters =
  fingerprint c' source' userOptions' bo' filters' <->
  Json.stringify (descriptor_object c) = Json.stringify (descriptor_object c') /\
  source = source' /\
  userOptions = userOptions' /\
  Json.stringify bo = Json.stringify bo' /\
  Json.stringify (JObj filters) = Json.stringify (JObj filters').
Proof.
  unfold fingerprint.
  rewrite (CompilerFacts.stringify_obj
             [("compiler", descriptor_object c); ("source", JStr source);
              ("options", Json.strings userOptions); ("backendOptions", bo);
              ("filters", JObj filters)]),
    (CompilerFacts.stringify_obj
       [("compiler", descriptor_object c'); ("source", JStr source');
        ("options", Json.strings userOptions'); ("backendOptions", bo');
        ("filters", JObj filters')]).
  cbv iota beta.
  destruct (descriptor_text c) as [d Hd], (descriptor_text c') as [d' Hd'].
  pose proof (CompilerFacts.stringify_obj filters) as Hf.
  pose proof (CompilerFacts.stringify_obj filters') as Hf'.
  pose proof (key_members c source userOptions bo filters _ _ Hd Hf) as M.
  pose proof (key_members c' source' userOptions' bo' filters' _ _ Hd' Hf') as M'.
  split.
  - intros H. apply Text.append_inv_head in H.
    assert (R : Forall (fun p : string * jsval => readable (snd p))
                  [("compiler", descriptor_object c);
                   ("source", JStr source);
                   ("options", Json.strings userOptions);
                   ("backendOptions", bo);
                   ("filters", JObj filters)]).
    { repeat (apply Forall_cons; [apply values_readable|]). apply Forall_nil. }
    change "}" with (String "}" "") in H.
    destruct (join_prefix_free is_member "}" eq_refl ltac:(discriminate)
                member_starts _ (members_readable _ R) _ "" ""
                (members_are_members _) H) as [E _].
    rewrite M, M' in E. rewrite Hd, Hd', Hf, Hf'.
    cbn [app] in E.
    apply cons_eq in E. destruct E as [E1 E].
    apply cons_eq in E. destruct E as [E2 E].
    apply cons_eq in E. destruct E as [E3 E4].
    apply Text.append_inv_head in E1, E2, E3.
    apply (Text.append_inv_head ":") in E1, E2, E3.
    rewrite <- (Text.append_nil_r (Json.quote source)),
      <- (Text.append_nil_r (Json.quote source')) in E2.
    apply quote_prefix_free in E2. destruct E2 as [E2 _].
    apply (Text.append_inv_head "[") in E3.
    change "]" with ("]" ++ "") in E3.
    apply quoted_items_inj in E3. destruct E3 as [E3 _].
    destruct (Json.stringify bo) as [b|], (Json.stringify bo') as [b'|];
      cbn [app] in E4.
    + apply cons_eq in E4. destruct E4 as [E4 E5].
      apply cons_eq in E5. destruct E5 as [E5 _].
      apply Text.append_inv_head in E4, E5.
      apply (Text.append_inv_head ":") in E4, E5.
      repeat split; congruence.
    + exfalso. apply cons_eq in E4. destruct E4 as [_ E5]. discriminate.
    + exfalso. apply cons_eq in E4. destruct E4 as [_ E5]. discriminate.
    + apply cons_eq in E4. destruct E4 as [E4 _].
      apply Text.append_inv_head in E4.
      apply (Text.append_inv_head ":") in E4.
      repeat split; congruence.
  - intros (E1 & -> & -> & E4 & E5).
    rewrite M, M'. rewrite Hd in E1. rewrite Hf in E5. rewrite <- E4.
    rewrite <- E1 in Hd'. rewrite <- E5 in Hf'.
    injection Hd' as <-. injection Hf' as <-. reflexivity.
Qed.

(** C4, as the driver implements it.  The cache key is [JSON.stringify] of
    the object of the compiler descriptor as it stands, the source, the
    options, the backend options and the filters (as they are after the
    binary flag was cleared for a compiler without binaries), and of
    nothing else: two requests have one key exactly when their sources and
    options are the same and the descriptors, the backend options and the
    filters are written the same by [JSON.stringify].  The descriptor
    includes the discovered version: two keys that agree were made with the
    same version.  What [initialise] removes from the descriptor is
    [supportedOptions]: a local compiler that initialises is the argument
    parser's descriptor for the compiler with its version set, less
    [supportedOptions].  On a cache hit, compile resolves with the cached
    result; its only effect is the lookup: no job is put on the queue, no
    process is spawned, the cache is unchanged. *)
Theorem cache_key_and_hit :
  (forall c source userOptions bo filters,
      cacheKey c source userOptions bo filters =
      fingerprint c source userOptions bo (effective_filters c filters) /\
      Json.stringify
        (JObj [("compiler", descriptor_object c);
               ("source", JStr source);
               ("options", Json.strings userOptions);
               ("backendOptions", bo);
               ("filters", JObj filters)]) =
      Some (fingerprint c source userOptions bo filters)) /\
  (forall c source userOptions bo filters c' source' userOptions' bo' filters',
      fingerprint c source userOptions bo filters =
      fingerprint c' source' userOptions' bo' filters' <->
      Json.stringify (descriptor_object c) = Json.stringify (descriptor_object c') /\
      source = source' /\
      userOptions = userOptions' /\
      Json.stringify bo = Json.stringify bo' /\
      Json.stringify (JObj filters) = Json.stringify (JObj filters')) /\
  (forall c v1 v2 source userOptions bo filters,
      fingerprint (set_version v1 c) source userOptions bo filters =
      fingerprint (set_version v2 c) source userOptions bo filters ->
      v1 = v2) /\
  (forall (Cache : Type) (E : Env Cache) regexp argumentParsers c probe t c',
      getRemote c = None ->
      initialise E regexp argumentParsers c probe = Returns t ->
      fst t = Resolved (Some c') ->
      supportedOptions c' = JUndef /\
      exists compiler v parsed_c,
        exe c = Some compiler /\
        Js.nonempty v = true /\
        fst (getArgumentParser argumentParsers compiler (set_version v c)) =
        Resolved parsed_c /\
        c' = delete_supportedOptions parsed_c) /\
  (forall (Cache : Type) (E : Env Cache) c W cache source userOptions bo filters cached,
      checkOptions E userOptions = None ->
      checkSource E source = None ->
      cacheGet E cache (cacheKey c source userOptions bo filters) = Some cached ->
      compile E c W cache source userOptions bo filters =
      (Resolved cached, [CacheGet (cacheKey c source userOptions bo filters)], cache)).
Proof.
  split; [|split; [|split; [|split]]].
  - intros c source userOptions bo filters. split; [reflexivity|].
    unfold fingerprint. now rewrite CompilerFacts.stringify_obj.
  - intros c source userOptions bo filters c' source' userOptions' bo' filters'.
    apply fingerprint_inj.
  - intros c v1 v2 source userOptions bo filters.
    apply CompilerFacts.fingerprint_version_inj.
  - intros Cache E regexp argumentParsers c probe t c'.
    apply CompilerFacts.initialise_resolved.
  - intros Cache E c W cache source userOptions bo filters cached.
    apply CompilerFacts.compile_hit.
Qed.

(** C4 as stated fails: the key holds the discovered version, and two
    descriptors that differ in nothing else have different keys. *)
Lemma version_is_in_the_key :
  Js.includes (Json.quote "version" ++ ":" ++ Json.quote "g++ (GCC) 7.1.0")%string
    (fingerprint Samples.gcc "int f();" ["-O2"] JUndef getDefaultFilters) = true /\
  String.eqb
    (fingerprint (set_version "g++ (GCC) 7.1.0" Samples.gcc) "int f();" ["-O2"] JUndef
       getDefaultFilters)
    (fingerprint (set_version "g++ (GCC) 7.2.0" Samples.gcc) "int f();" ["-O2"] JUndef
       getDefaultFilters) = false.
Proof. split; vm_compute; reflexivity. Qed.

(** The theorem at work: with the key in the cache, compile answers from
    the cache, whatever the world would do. *)
Lemma cache_hit_witness :
  compile Samples.env Samples.gcc Samples.slow_world
    [(cacheKey Samples.gcc "int f();" ["-O2"] JUndef getDefaultFilters,
      Samples.cached_result)]
    "int f();" ["-O2"] JUndef getDefaultFilters =
  (Resolved Samples.cached_result,
   [CacheGet (cacheKey Samples.gcc "int f();" ["-O2"] JUndef getDefaultFilters)],
   [(cacheKey Samples.gcc "int f();" ["-O2"] JUndef getDefaultFilters,
     Samples.cached_result)]).
Proof.
  exact (proj2 (proj2 (proj2 (proj2 cache_key_and_hit))) Samples.Cache Samples.env
           Samples.gcc Samples.slow_world
           [(cacheKey Samples.gcc "int f();" ["-O2"] JUndef getDefaultFilters,
             Samples.cached_result)]
           "int f();" ["-O2"] JUndef getDefaultFilters Samples.cached_result
           (@eq_refl (option string) None
              <: checkOptions Samples.env ["-O2"] = None)
           (@eq_refl (option string) None
              <: checkSource Samples.env "int f();" = None)
           (@eq_refl (option Result) (Some Samples.cached_result)
              <: cacheGet Samples.env
                   [(cacheKey Samples.gcc "int f();" ["-O2"] JUndef getDefaultFilters,
                     Samples.cached_result)]
                   (cacheKey Samples.gcc "int f();" ["-O2"] JUndef getDefaultFilters) =
                 Some Samples.cached_result)).
Defined.

End KeyFacts.

Module PipelineFacts.

Import Compiler.

(** The effects of [postProcess]: looking at the output file, at the
    optimisation records, and running the binary. *)
Definition post_processing (e : Effect) : bool :=
  match e with
  | Stat _ | ReadFile _ | ReadOptRecords _ | RunSandbox _ | ExistsSync _ => true
  | _ => false
  end.

(** The promise of the run of the compiler itself. *)
Definition main_run {Cache : Type} (E : Env Cache) (c : Descriptor) (W : World)
  : Settle Exec.Result :=
  fst (Exec.execute "" [] (getDefaultExecOptions E c) (main_events W)).

(** [signal || status !== 0] on the result of a run. *)
Definition exited_badly (r : Exec.Result) : bool :=
  match signal_of r with Some _ => true | None => false end || negb (status_ok r).

Lemma exited_badly_failed {Cache : Type} (E : Env Cache) input d r :
  failed (set_dirPath d (parsed E input r)) = exited_badly r.
Proof.
  unfold failed, exited_badly, signal_of, status_ok. simpl.
  destruct (Exec.signal r) as [s|]; [destruct (Js.nonempty s)|];
    destruct (Exec.status r) as [z|]; simpl; try reflexivity;
    destruct (z =? 0)%Z; reflexivity.
Qed.

Section Kinds.

(** Effects of a kind no stage but [tidy] and the last one has. *)
Variable P : Effect -> bool.

Definition all_of (effs : list Effect) : Prop := Forall (fun e => P e = true) effs.

Lemma all_of_nil : all_of [].
Proof. constructor. Qed.

Lemma all_of_app l1 l2 : all_of l1 -> all_of l2 -> all_of (l1 ++ l2).
Proof. unfold all_of. intros H1 H2. apply Forall_app. auto. Qed.

Lemma all_of_cons e l : P e = true -> all_of l -> all_of (e :: l).
Proof. intros He Hl. constructor; assumption. Qed.

Lemma all_of_bind {A B : Type} (m : Task A) (k : A -> Task B) :
  all_of (snd m) -> (forall a, fst m = Resolved a -> all_of (snd (k a))) ->
  all_of (snd (bind m k)).
Proof.
  intros Hm Hk. rewrite CompilerFacts.bind_snd. apply all_of_app; [exact Hm|].
  destruct (fst m); try apply all_of_nil. now apply Hk.
Qed.

Hypothesis processes : forall a, P (Proc a) = true.

Lemma all_of_exec command args o evs : all_of (snd (exec command args o evs)).
Proof.
  unfold exec. simpl snd. unfold all_of. apply Forall_forall.
  intros e He. apply in_map_iff in He. destruct He as [a [<- _]]. apply processes.
Qed.

Lemma all_of_runCompiler {Cache : Type} (E : Env Cache) compiler args input o evs :
  all_of (snd (runCompiler E compiler args input o evs)).
Proof.
  unfold runCompiler. apply all_of_bind; [apply all_of_exec | intros; apply all_of_nil].
Qed.

Lemma all_of_astProbe {Cache : Type} (E : Env Cache) c W compiler input opts bo :
  all_of (snd (astProbe E c W compiler input opts bo)).
Proof.
  unfold astProbe. cbv zeta.
  destruct (_ && _); [|apply all_of_nil].
  destruct (couldSupportASTDump _ _ _); [|apply all_of_nil].
  unfold generateAST. cbv zeta. apply all_of_bind;
    [apply all_of_runCompiler | intros; apply all_of_nil].
Qed.

Lemma all_of_postProcessAsm {Cache : Type} (E : Env Cache) c W result :
  all_of (snd (postProcessAsm E c W result)).
Proof.
  unfold postProcessAsm.
  destruct (negb (okToCache result)); [apply all_of_nil|].
  destruct (negb _); [apply all_of_nil|].
  apply all_of_bind; [apply all_of_exec | intros; apply all_of_nil].
Qed.

Hypothesis files : P MkTemp = true /\ forall path data, P (WriteFile path data) = true.

Lemma all_of_tempFileAndDir {Cache : Type} (E : Env Cache) W source :
  all_of (snd (tempFileAndDir E W source)).
Proof.
  unfold tempFileAndDir. apply all_of_bind.
  - apply all_of_cons; [apply files | apply all_of_nil].
  - intros d _. apply all_of_bind.
    + apply all_of_cons; [apply files | apply all_of_nil].
    + intros; apply all_of_nil.
Qed.

Hypothesis post : forall e, post_processing e = true -> P e = true.

Lemma all_of_readOutput {Cache : Type} (E : Env Cache) W out maxSize stages :
  all_of (snd (readOutput E W out maxSize stages)).
Proof.
  unfold readOutput.
  destruct (output_stat W) as [size| |];
    try (apply all_of_cons; [now apply post | apply all_of_nil]).
  destruct (size >=? maxSize)%Z;
    [apply all_of_cons; [now apply post | apply all_of_nil]|].
  destruct stages.
  - apply all_of_cons; [now apply post|].
    apply all_of_cons; [now apply post | apply all_of_nil].
  - apply all_of_bind; [apply all_of_cons; [now apply post | apply all_of_nil]|].
    intros _ _. apply all_of_bind; [apply all_of_exec | intros; apply all_of_nil].
Qed.

Lemma all_of_postProcessResult {Cache : Type} (E : Env Cache) c W result out filters :
  all_of (snd (postProcessResult E c W result out filters)).
Proof.
  unfold postProcessResult. cbv zeta. simpl snd.
  apply all_of_app; [|apply all_of_app].
  - destruct (hasOptOutput result) as [[|]|]; try apply all_of_nil.
    apply all_of_cons; [now apply post | apply all_of_nil].
  - destruct (_ && _).
    + unfold objdump. apply all_of_bind; [apply all_of_exec | intros; apply all_of_nil].
    + apply all_of_readOutput.
  - destruct (wants_execution c filters); [|apply all_of_nil].
    apply all_of_bind; [|intros; apply all_of_nil].
    unfold execBinary. simpl snd. apply all_of_cons; [now apply post|].
    unfold all_of. apply Forall_forall.
    intros e He. apply in_map_iff in He. destruct He as [a [<- _]]. apply processes.
Qed.

Lemma all_of_compileToAsm {Cache : Type} (E : Env Cache) c W userOptions bo filters info :
  all_of (snd (compileToAsm E c W userOptions bo filters info)).
Proof.
  unfold compileToAsm. cbv zeta. destruct (exe c) as [compiler|]; [|apply all_of_nil].
  apply all_of_bind.
  - unfold both. simpl snd. apply all_of_app;
      [apply all_of_runCompiler | apply all_of_astProbe].
  - intros results _. unfold onCompiled. cbv zeta.
    destruct (failed _); [apply all_of_nil|].
    apply all_of_bind.
    + simpl snd. destruct (_ && _); [|apply all_of_nil].
      apply all_of_cons; [now apply post | apply all_of_nil].
    + intros _ _. apply all_of_postProcessResult.
Qed.

End Kinds.

(** The promise of the main run does not depend on the command line. *)
Lemma main_run_any {Cache : Type} (E : Env Cache) c W compiler args :
  fst (Exec.execute compiler args (getDefaultExecOptions E c) (main_events W)) =
  main_run E c W.
Proof. apply CompilerFacts.execute_fst_any. Qed.

(** The compile stage of a compiler that exits badly. *)
Lemma compileToAsm_failed {Cache : Type} (E : Env Cache) c W userOptions bo filters info
    r0 :
  main_run E c W = Resolved r0 ->
  exited_badly r0 = true ->
  all_of (fun e => negb (post_processing e))
         (snd (compileToAsm E c W userOptions bo filters info)) /\
  forall r o,
    fst (compileToAsm E c W userOptions bo filters info) = Resolved (r, o) ->
    r = set_asm (JStr "<Compilation failed>")
          (set_dirPath (Some (snd info)) (parsed E (Some (fst info)) r0)).
Proof.
  intros Hmain Hbad. unfold compileToAsm. cbv zeta.
  destruct (exe c) as [compiler|]; [|split; [apply all_of_nil | discriminate]].
  split.
  - apply all_of_bind.
    + unfold both. simpl snd. apply all_of_app;
        [apply all_of_runCompiler | apply all_of_astProbe]; reflexivity.
    + intros results Hboth. apply CompilerFacts.both_fst in Hboth.
      destruct Hboth as [Hasm _].
      rewrite CompilerFacts.runCompiler_fst, main_run_any, Hmain in Hasm.
      injection Hasm as Hasm.
      unfold onCompiled. cbv zeta. rewrite <- Hasm, exited_badly_failed, Hbad.
      apply all_of_nil.
  - intros r o. rewrite CompilerFacts.bind_fst.
    destruct (fst (both _ _)) as [results| |] eqn:Hboth; try discriminate.
    apply CompilerFacts.both_fst in Hboth. destruct Hboth as [Hasm _].
    rewrite CompilerFacts.runCompiler_fst, main_run_any, Hmain in Hasm.
    injection Hasm as Hasm.
    unfold onCompiled. cbv zeta. rewrite <- Hasm, exited_badly_failed, Hbad.
    intros H. injection H as <- _. reflexivity.
Qed.

Lemma tidy_effects {Cache : Type} (E : Env Cache) filters results :
  snd (tidy E filters results) =
  match okToCache (fst results), dirPath (fst results) with
  | false, Some d => if Js.nonempty d then [RemoveDir d] else []
  | _, _ => []
  end.
Proof.
  unfold tidy. cbv zeta. rewrite CompilerFacts.bind_snd.
  destruct (okToCache (fst results)); [reflexivity|].
  simpl dirPath. destruct (dirPath (fst results)) as [d|]; [|reflexivity].
  destruct (Js.nonempty d); reflexivity.
Qed.

(** The effects of the job, stage by stage. *)
Lemma job_stages {Cache : Type} (E : Env Cache) c W key source userOptions bo filters :
  snd (job E c W key source userOptions bo filters) =
  snd (tempFileAndDir E W source) ++
  match fst (tempFileAndDir E W source) with
  | Resolved info =>
      snd (compileToAsm E c W userOptions bo filters info) ++
      match fst (compileToAsm E c W userOptions bo filters info) with
      | Resolved results =>
          snd (tidy E filters results) ++
          match fst (tidy E filters results) with
          | Resolved r2 =>
              snd (if Obj.flag "demangle" filters then postProcessAsm E c W r2
                   else ret r2) ++
              match fst (if Obj.flag "demangle" filters then postProcessAsm E c W r2
                         else ret r2) with
              | Resolved r3 =>
                  if okToCache (addCfg E c filters r3)
                  then [CachePut key (addCfg E c filters r3)] else []
              | _ => []
              end
          | _ => []
          end
      | _ => []
      end
  | _ => []
  end.
Proof.
  unfold job. rewrite CompilerFacts.bind_snd.
  destruct (fst (tempFileAndDir E W source)) as [info| |]; try reflexivity.
  rewrite CompilerFacts.bind_snd.
  destruct (fst (compileToAsm E c W userOptions bo filters info)) as [results| |];
    try reflexivity.
  rewrite CompilerFacts.bind_snd.
  destruct (fst (tidy E filters results)) as [r2| |]; try reflexivity.
  rewrite CompilerFacts.bind_snd.
  destruct (Obj.flag "demangle" filters).
  - destruct (fst (postProcessAsm E c W r2)) as [r3| |]; try reflexivity.
    destruct (okToCache (addCfg E c filters r3)); reflexivity.
  - simpl fst. cbv iota. destruct (okToCache (addCfg E c filters r2)); reflexivity.
Qed.

Lemma addCfg_status {Cache : Type} (E : Env Cache) c filters result :
  status (addCfg E c filters result) = status result.
Proof.
  unfold addCfg. cbv zeta.
  match goal with |- context [if ?b then _ else _] => destruct b end; reflexivity.
Qed.

(** What the job resolves with, seen from the compile stage. *)
Lemma job_resolved {Cache : Type} (E : Env Cache) c W key source userOptions bo filters
    r :
  fst (job E c W key source userOptions bo filters) = Resolved r ->
  exists info r1 o1,
    fst (tempFileAndDir E W source) = Resolved info /\
    fst (compileToAsm E c W userOptions bo filters info) = Resolved (r1, o1) /\
    execResult r = execResult r1 /\ status r = status r1 /\
    okToCache r = okToCache r1.
Proof.
  unfold job. rewrite CompilerFacts.bind_fst.
  destruct (fst (tempFileAndDir E W source)) as [info| |]; try discriminate.
  rewrite CompilerFacts.bind_fst.
  destruct (fst (compileToAsm E c W userOptions bo filters info)) as [[r1 o1]| |]
    eqn:Hasm; try discriminate.
  rewrite CompilerFacts.bind_fst.
  destruct (CompilerFacts.tidy_fst E filters (r1, o1)) as [r2 [Ht [Hk2 [Hs2 Hx2]]]].
  rewrite Ht. simpl fst in Hk2, Hs2, Hx2.
  rewrite CompilerFacts.bind_fst. intros H.
  exists info, r1, o1. split; [reflexivity|]. split; [exact Hasm|].
  destruct (Obj.flag "demangle" filters).
  - destruct (fst (postProcessAsm E c W r2)) as [r3| |] eqn:Hd; try discriminate.
    apply CompilerFacts.postProcessAsm_okToCache in Hd. destruct Hd as [Hk3 [Hs3 Hx3]].
    destruct (okToCache (addCfg E c filters r3)); simpl in H;
      injection H as <-;
      rewrite CompilerFacts.addCfg_execResult, addCfg_status,
        CompilerFacts.addCfg_okToCache;
      repeat split; congruence.
  - simpl fst in H at 1. cbv iota beta in H.
    destruct (okToCache (addCfg E c filters r2)); simpl in H;
      injection H as <-;
      rewrite CompilerFacts.addCfg_execResult, addCfg_status,
        CompilerFacts.addCfg_okToCache;
      repeat split; congruence.
Qed.

Lemma compile_effects {Cache : Type} (E : Env Cache) c W cache source userOptions bo
    filters e :
  In e (snd (fst (compile E c W cache source userOptions bo filters))) ->
  e = CacheGet (cacheKey c source userOptions bo filters) \/ e = Enqueue \/
  In e (snd (job E c W (cacheKey c source userOptions bo filters)
               (stubbed E (effective_filters c filters) source) userOptions bo
               (effective_filters c filters))).
Proof.
  unfold compile, cacheKey.
  destruct (checkOptions E userOptions); [intros []|].
  destruct (checkSource E source); [intros []|].
  cbv zeta. destruct (cacheGet E cache _).
  - simpl. intros [H | []]. now left.
  - simpl. intros [H | [H | H]]; auto.
Qed.

(** A compile whose compiler ends with a signal or a status other than 0
    is not post-processed: the output file is not looked at, no
    optimisation record is read, nothing is run in the sandbox.  When it is
    resolved, the result has the status of the compiler and no
    [execResult]. *)
Theorem failed_compile_is_not_processed :
  forall (Cache : Type) (E : Env Cache) c W cache source userOptions bo filters r0,
    main_run E c W = Resolved r0 ->
    exited_badly r0 = true ->
    (forall e,
        In e (snd (fst (compile E c W cache source userOptions bo filters))) ->
        post_processing e = false) /\
    (forall r,
        cacheGet E cache (cacheKey c source userOptions bo filters) = None ->
        fst (fst (compile E c W cache source userOptions bo filters)) = Resolved r ->
        status r = Exec.status r0 /\ execResult r = JUndef).
Proof.
  intros Cache E c W cache source userOptions bo filters r0 Hmain Hbad. split.
  - intros e He. apply compile_effects in He.
    destruct He as [-> | [-> | He]]; try reflexivity.
    rewrite job_stages in He.
    set (Q := fun e => negb (post_processing e)).
    assert (HQ : forall l, all_of Q l -> In e l -> post_processing e = false).
    { intros l Hl Hin. unfold all_of in Hl. rewrite Forall_forall in Hl.
      specialize (Hl e Hin). unfold Q in Hl. now destruct (post_processing e). }
    apply in_app_or in He. destruct He as [He | He].
    { apply (HQ _ (all_of_tempFileAndDir Q (conj eq_refl (fun _ _ => eq_refl)) E W _) He). }
    destruct (fst (tempFileAndDir E W _)) as [info| |]; try destruct He.
    apply in_app_or in He. destruct He as [He | He].
    { exact (HQ _ (proj1 (compileToAsm_failed E c W userOptions bo _ info r0 Hmain Hbad))
                He). }
    destruct (fst (compileToAsm E c W userOptions bo _ info)) as [results| |];
      try destruct He.
    apply in_app_or in He. destruct He as [He | He].
    { rewrite tidy_effects in He.
      destruct (okToCache (fst results)); [destruct He|].
      destruct (dirPath (fst results)) as [d|]; [|destruct He].
      destruct (Js.nonempty d); [|destruct He].
      destruct He as [<- | []]. reflexivity. }
    destruct (fst (tidy E _ results)) as [r2| |]; try destruct He.
    apply in_app_or in He. destruct He as [He | He].
    { destruct (Obj.flag "demangle" _); [|destruct He].
      exact (HQ _ (all_of_postProcessAsm Q (fun _ => eq_refl) E c W r2) He). }
    destruct (fst (if Obj.flag "demangle" _ then _ else _)) as [r3| |]; try destruct He.
    destruct (okToCache _); [|destruct He]. destruct He as [<- | []]. reflexivity.
  - intros r Hmiss. unfold compile, cacheKey in *.
    destruct (checkOptions E userOptions); [discriminate|].
    destruct (checkSource E source); [discriminate|].
    cbv zeta. rewrite Hmiss. simpl fst. intros Hjob.
    apply job_resolved in Hjob.
    destruct Hjob as [info [r1 [o1 [_ [Hasm [Hx [Hs _]]]]]]].
    apply (proj2 (compileToAsm_failed E c W userOptions bo _ info r0 Hmain Hbad)) in Hasm.
    rewrite Hx, Hs, Hasm. split; reflexivity.
Qed.

(** The theorem at work: the sample compiler exits with status 1, and the
    binary that was asked for is not run. *)
Lemma failed_compile_witness :
  exists r,
    fst (fst (compile Samples.env Samples.gcc (Samples.world 1 "error: x") []
                "int f() { return x; }" ["-O2"] JUndef Samples.binary_filters)) =
    Resolved r /\
    status r = Some 1%Z /\ execResult r = JUndef.
Proof.
  eexists. split; [vm_compute; reflexivity|].
  refine (proj2 (failed_compile_is_not_processed Samples.Cache Samples.env Samples.gcc
                   (Samples.world 1 "error: x") [] "int f() { return x; }" ["-O2"]
                   JUndef Samples.binary_filters
                   {| Exec.status := Some 1%Z; Exec.signal := None; Exec.stdout := "";
                      Exec.stderr := "error: x"; Exec.okToCache := true |}
                   eq_refl eq_refl) _ eq_refl _).
  vm_compute. reflexivity.
Defined.

(** *** The temporary directory *)

Definition is_remove (e : Effect) : bool :=
  match e with RemoveDir _ => true | _ => false end.

Lemma tempFileAndDir_resolved {Cache : Type} (E : Env Cache) W source info :
  fst (tempFileAndDir E W source) = Resolved info -> tempDir W = Done (snd info).
Proof.
  unfold tempFileAndDir, newTempDir, bind.
  destruct (tempDir W) as [d| |]; simpl; try discriminate.
  destruct (written W) as [[]| |]; simpl; try discriminate.
  intros H. injection H as <-. reflexivity.
Qed.

Lemma compileToAsm_dirPath {Cache : Type} (E : Env Cache) c W userOptions bo filters info
    r o :
  fst (compileToAsm E c W userOptions bo filters info) = Resolved (r, o) ->
  dirPath r = Some (snd info).
Proof.
  unfold compileToAsm. cbv zeta.
  destruct (exe c) as [compiler|]; [|discriminate].
  rewrite CompilerFacts.bind_fst.
  destruct (fst (both _ _)) as [results| |]; try discriminate.
  unfold onCompiled. cbv zeta.
  destruct (failed _).
  - intros H. injection H as <- _. reflexivity.
  - rewrite CompilerFacts.bind_fst. simpl fst at 1. cbv beta iota.
    intros H. apply CompilerFacts.postProcessResult_shape in H.
    destruct H as [a [-> | [x ->]]]; simpl;
      repeat match goal with
             | |- context [if ?b then _ else _] => destruct b
             end; reflexivity.
Qed.

Lemma not_removed (l : list Effect) d :
  all_of (fun e => negb (is_remove e)) l -> ~ In (RemoveDir d) l.
Proof.
  unfold all_of. rewrite Forall_forall. intros H Hin.
  specialize (H _ Hin). discriminate.
Qed.

(** A call of [RemoveDir] among the effects of the job is the one of
    [tidy]. *)
Lemma job_removes {Cache : Type} (E : Env Cache) c W key source userOptions bo filters d :
  In (RemoveDir d) (snd (job E c W key source userOptions bo filters)) <->
  exists info results,
    fst (tempFileAndDir E W source) = Resolved info /\
    fst (compileToAsm E c W userOptions bo filters info) = Resolved results /\
    In (RemoveDir d) (snd (tidy E filters results)).
Proof.
  set (Q := fun e => negb (is_remove e)).
  assert (Hfiles : Q MkTemp = true /\ forall path data, Q (WriteFile path data) = true)
    by (split; reflexivity).
  assert (Hproc : forall a, Q (Proc a) = true) by reflexivity.
  assert (Hpost : forall e, post_processing e = true -> Q e = true)
    by (intros []; simpl; intros; try discriminate; reflexivity).
  rewrite job_stages. split.
  - intros H. apply in_app_or in H. destruct H as [H | H].
    { exfalso. exact (not_removed _ d (all_of_tempFileAndDir Q Hfiles E W source) H). }
    destruct (fst (tempFileAndDir E W source)) as [info| |]; try destruct H.
    apply in_app_or in H. destruct H as [H | H].
    { exfalso.
      exact (not_removed _ d
               (all_of_compileToAsm Q Hproc Hpost E c W userOptions bo filters info) H). }
    destruct (fst (compileToAsm E c W userOptions bo filters info)) as [results| |]
      eqn:Hr; try destruct H.
    apply in_app_or in H. destruct H as [H | H].
    { exists info, results. auto. }
    exfalso.
    destruct (fst (tidy E filters results)) as [r2| |]; try destruct H.
    apply in_app_or in H. destruct H as [H | H].
    { destruct (Obj.flag "demangle" filters); [|destruct H].
      exact (not_removed _ d (all_of_postProcessAsm Q Hproc E c W r2) H). }
    destruct (fst (if Obj.flag "demangle" filters then _ else _)) as [r3| |];
      try destruct H.
    destruct (okToCache _); [|destruct H]. destruct H as [H | []]. discriminate.
  - intros [info [results [Hi [Hr H]]]]. rewrite Hi, Hr.
    apply in_or_app. right. apply in_or_app. right. apply in_or_app. now left.
Qed.

(** The temporary directory is removed by a compile whose compiler was
    killed by the timer, and by no other: among the effects of a compile
    there is a removal of [d] only if the timer ran and [d] is the
    directory made for this compile; and a compile that the timer killed
    and that is resolved has removed its directory. *)
Theorem directory_removed_on_timeout_only :
  forall (Cache : Type) (E : Env Cache) c W cache source userOptions bo filters d,
    (In (RemoveDir d) (snd (fst (compile E c W cache source userOptions bo filters))) ->
     tempDir W = Done d /\ CompilerFacts.main_okToCache E c W = false) /\
    (forall r,
        cacheGet E cache (cacheKey c source userOptions bo filters) = None ->
        fst (fst (compile E c W cache source userOptions bo filters)) = Resolved r ->
        tempDir W = Done d ->
        Js.nonempty d = true ->
        CompilerFacts.main_okToCache E c W = false ->
        In (RemoveDir d) (snd (fst (compile E c W cache source userOptions bo filters)))).
Proof.
  intros Cache E c W cache source userOptions bo filters d. split.
  - intros H. apply compile_effects in H.
    destruct H as [H | [H | H]]; try discriminate.
    apply job_removes in H. destruct H as [info [[r1 o1] [Hi [Hr H]]]].
    rewrite tidy_effects in H. simpl fst in H.
    rewrite (compileToAsm_dirPath E c W userOptions bo _ info r1 o1 Hr) in H.
    rewrite (CompilerFacts.compileToAsm_okToCache E c W userOptions bo _ info r1 o1 Hr)
      in H.
    destruct (CompilerFacts.main_okToCache E c W); [destruct H|].
    destruct (Js.nonempty (snd info)); [|destruct H].
    destruct H as [H | []]. injection H as <-.
    split; [|reflexivity].
    exact (tempFileAndDir_resolved E W _ info Hi).
  - intros r Hmiss Hres Hd Hne Hto.
    unfold compile, cacheKey in *.
    destruct (checkOptions E userOptions); [discriminate|].
    destruct (checkSource E source); [discriminate|].
    cbv zeta in *. rewrite Hmiss in *. simpl fst in *. simpl snd.
    right. right. apply job_removes.
    apply job_resolved in Hres.
    destruct Hres as [info [r1 [o1 [Hi [Hr _]]]]].
    exists info, (r1, o1). split; [exact Hi|]. split; [exact Hr|].
    rewrite tidy_effects. simpl fst.
    rewrite (compileToAsm_dirPath E c W userOptions bo _ info r1 o1 Hr).
    rewrite (CompilerFacts.compileToAsm_okToCache E c W userOptions bo _ info r1 o1 Hr).
    rewrite Hto.
    pose proof (tempFileAndDir_resolved E W _ info Hi) as Hd'.
    rewrite Hd in Hd'. injection Hd' as <-. rewrite Hne. now left.
Qed.

(** The theorem at work: the compile of [Samples.slow_world], killed by
    the timer, removes its directory. *)
Lemma directory_removed_witness :
  In (RemoveDir "/tmp/ce2")
     (snd (fst (compile Samples.env Samples.gcc Samples.slow_world []
                  "int main() { for (;;); }" ["-O2"] JUndef getDefaultFilters))).
Proof.
  refine (proj2 (directory_removed_on_timeout_only Samples.Cache Samples.env Samples.gcc
                   Samples.slow_world [] "int main() { for (;;); }" ["-O2"] JUndef
                   getDefaultFilters "/tmp/ce2") _ eq_refl _ eq_refl eq_refl eq_refl).
  vm_compute. reflexivity.
Defined.

(** *** The workspace *)

(** When the temporary directory cannot be made, or the source cannot be
    written into it, the compile is rejected with that failure after the
    look into the cache; no process is started, nothing is put into the
    cache, and a directory that was made is left where it is. *)
Theorem workspace_failure :
  forall (Cache : Type) (E : Env Cache) c W cache source userOptions bo filters err,
    checkOptions E userOptions = None ->
    checkSource E source = None ->
    cacheGet E cache (cacheKey c source userOptions bo filters) = None ->
    (tempDir W = Failed err ->
     compile E c W cache source userOptions bo filters =
     (Rejected (RejString ("Unable to open temp file: " ++ err)),
      [CacheGet (cacheKey c source userOptions bo filters); Enqueue; MkTemp],
      cache)) /\
    (forall dir,
        tempDir W = Done dir ->
        written W = Failed err ->
        compile E c W cache source userOptions bo filters =
        (Rejected (RejError err),
         [CacheGet (cacheKey c source userOptions bo filters); Enqueue; MkTemp;
          WriteFile (path_join E dir (compileFilename E))
                    (stubbed E (effective_filters c filters) source)],
         cache)).
Proof.
  intros Cache E c W cache source userOptions bo filters err Ho Hs Hk.
  rewrite (CompilerFacts.compile_miss E c W cache source userOptions bo filters Ho Hs Hk).
  cbv zeta. unfold job, tempFileAndDir, newTempDir, bind. split.
  - intros Hd. rewrite Hd. reflexivity.
  - intros dir Hd Hw. rewrite Hd. simpl. rewrite Hw. reflexivity.
Qed.

(** The theorem at work: no directory, no compile. *)
Lemma workspace_failure_witness :
  compile Samples.env Samples.gcc
    (with_workspace (Failed "ENOSPC") (Samples.world 0 "")) []
    "int f();" ["-O2"] JUndef getDefaultFilters =
  (Rejected (RejString "Unable to open temp file: ENOSPC"),
   [CacheGet (cacheKey Samples.gcc "int f();" ["-O2"] JUndef getDefaultFilters);
    Enqueue; MkTemp],
   []).
Proof.
  exact (proj1 (workspace_failure Samples.Cache Samples.env Samples.gcc
                  (with_workspace (Failed "ENOSPC") (Samples.world 0 "")) []
                  "int f();" ["-O2"] JUndef getDefaultFilters "ENOSPC"
                  eq_refl eq_refl eq_refl) eq_refl).
Defined.

(** *** Initialisation *)

(** A compiler of a peer is not probed.  For a local compiler
    [initialise] throws, before it starts anything, when the descriptor has
    no [exe] to put in lower case or when [versionRe] is no regular
    expression.  Otherwise the compiler is first run with the
    version flag and nothing else, and it is dropped, not failed, when that
    probe goes wrong: the promise is resolved with null if and only if the
    probe cannot be started, or ends with a signal or a status other than
    0, or prints no line the version pattern matches, and then the probe is
    all that was run (the argument parser is not called).  When the probe
    gives a version, the argument parser is called on the compiler with
    that version: what it does follows the probe, and the promise settles
    as the parser's does, with the compiler the parser gives, less
    [supportedOptions]: it is rejected only when the parser is. *)
Theorem probe_failure_drops_compiler :
  forall (Cache : Type) (E : Env Cache) regexp argumentParsers c probe,
    (forall r, getRemote c = Some r ->
               initialise E regexp argumentParsers c probe =
               Returns (Resolved (Some c), [])) /\
    (getRemote c = None ->
     exe c = None ->
     initialise E regexp argumentParsers c probe = Throws "TypeError") /\
    (forall compiler,
        getRemote c = None ->
        exe c = Some compiler ->
        regexp (version_pattern c) = None ->
        initialise E regexp argumentParsers c probe = Throws "SyntaxError") /\
    (forall compiler match0,
        getRemote c = None ->
        exe c = Some compiler ->
        regexp (version_pattern c) = Some match0 ->
        exists t,
          initialise E regexp argumentParsers c probe = Returns t /\
          (fst t = Resolved None <->
           (exists e, fst (Exec.execute compiler [version_flag c] Exec.no_options probe) =
                      Rejected e) \/
           (exists result,
               fst (Exec.execute compiler [version_flag c] Exec.no_options probe) =
               Resolved result /\
               (exited_badly result = true \/
                first_version match0
                  (splitLines E (Exec.stdout result ++ Exec.stderr result)%string) =
                ""))) /\
          (fst t = Resolved None ->
           snd t =
           map Proc (snd (Exec.execute compiler [version_flag c] Exec.no_options probe))) /\
          (forall result,
              fst (Exec.execute compiler [version_flag c] Exec.no_options probe) =
              Resolved result ->
              exited_badly result = false ->
              Js.nonempty
                (first_version match0
                   (splitLines E (Exec.stdout result ++ Exec.stderr result)%string)) =
              true ->
              let parsed :=
                getArgumentParser argumentParsers compiler
                  (set_version
                     (first_version match0
                        (splitLines E (Exec.stdout result ++ Exec.stderr result)%string))
                     c) in
              t =
              (settle_map (fun parsed_c => Some (delete_supportedOptions parsed_c))
                 (fst parsed),
               map Proc (snd (Exec.execute compiler [version_flag c] Exec.no_options
                                probe)) ++
               snd parsed))).
Proof.
  intros Cache E regexp argumentParsers c probe. split; [|split; [|split]].
  - intros r Hr. unfold initialise. now rewrite Hr.
  - intros Hr He. unfold initialise. now rewrite Hr, He.
  - intros compiler Hr He Hre. unfold initialise. now rewrite Hr, He, Hre.
  - intros compiler match0 Hr He Hre. unfold initialise. rewrite Hr, He, Hre.
    cbv zeta. rewrite CompilerFacts.exec_fst, CompilerFacts.exec_snd.
    eexists. split; [reflexivity|].
    destruct (fst (Exec.execute compiler [version_flag c] Exec.no_options probe))
      as [result|e|].
    2:{ cbn [fst snd]. split; [split; [eauto | reflexivity]|].
        split; [reflexivity | discriminate]. }
    2:{ cbn [fst snd]. split; [split; [discriminate|]|].
        - intros [[e H] | [result [H _]]]; discriminate.
        - split; [discriminate | discriminate]. }
    destruct (signal_of result) as [sig|] eqn:Hsig.
    { cbn [fst snd]. split; [split; [|reflexivity]|].
      - intros _. right. exists result. split; [reflexivity | left].
        unfold exited_badly. now rewrite Hsig.
      - split; [reflexivity|]. intros result' H Hbad. injection H as <-.
        unfold exited_badly in Hbad. rewrite Hsig in Hbad. discriminate. }
    destruct (status_ok result) eqn:Hst; cbn [negb].
    2:{ cbn [fst snd]. split; [split; [|reflexivity]|].
        - intros _. right. exists result. split; [reflexivity | left].
          unfold exited_badly. now rewrite Hsig, Hst.
        - split; [reflexivity|]. intros result' H Hbad. injection H as <-.
          unfold exited_badly in Hbad. rewrite Hsig, Hst in Hbad. discriminate. }
    destruct (first_version match0 _) as [|a v] eqn:Hv; cbn [Js.nonempty negb].
    { cbn [fst snd]. split; [split; [|reflexivity]|].
      - intros _. right. exists result. split; [reflexivity | right; exact Hv].
      - split; [reflexivity|]. intros result' H _. injection H as <-.
        rewrite Hv. discriminate. }
    cbn [fst snd]. split; [split|].
    + destruct (fst (getArgumentParser _ _ _)); discriminate.
    + intros [[e H] | [result' [H [H' | H']]]]; try discriminate.
      * injection H as <-. unfold exited_badly in H'.
        rewrite Hsig, Hst in H'. discriminate.
      * injection H as <-. rewrite Hv in H'. discriminate.
    + split.
      * destruct (fst (getArgumentParser _ _ _)); discriminate.
      * intros result' H _ _. injection H as <-. rewrite Hv. reflexivity.
Qed.

(** The theorem at work: a compiler whose binary is not there is dropped,
    and was not run a second time. *)
Lemma probe_failure_witness :
  exists t,
    initialise Samples.env Samples.regexp Samples.parsers Samples.gcc
      [Exec.EvError "ENOENT"] = Returns t /\
    fst t = Resolved None /\
    snd t = [Proc (Exec.Spawn "/usr/bin/g++" ["--version"])].
Proof.
  destruct (proj2 (proj2 (proj2 (probe_failure_drops_compiler Samples.Cache Samples.env
                                   Samples.regexp Samples.parsers Samples.gcc
                                   [Exec.EvError "ENOENT"])))
              "/usr/bin/g++" (fun line => Some line) eq_refl eq_refl eq_refl)
    as [t [Ht [Hnone [Hsnd _]]]].
  exists t. split; [exact Ht|].
  assert (H : fst t = Resolved None).
  { apply Hnone. left. eexists. vm_compute. reflexivity. }
  split; [exact H|]. rewrite (Hsnd H). vm_compute. reflexivity.
Defined.

(** The output file is there and smaller than [max-asm-size]. *)
Definition small_enough {Cache : Type} (E : Env Cache) (W : World) : bool :=
  match output_stat W with
  | Done size => (size <? maxAsmSize E)%Z
  | _ => false
  end.

(** No file is read, unless the output is small enough. *)
Definition guarded {Cache : Type} (E : Env Cache) (W : World) (e : Effect) : bool :=
  match e with
  | ReadFile _ => small_enough E W
  | _ => true
  end.

Lemma guarded_readOutput {Cache : Type} (E : Env Cache) W out stages :
  all_of (guarded E W) (snd (readOutput E W out (maxAsmSize E) stages)).
Proof.
  unfold readOutput, small_enough.
  destruct (output_stat W) as [size| |] eqn:Hstat;
    try (apply all_of_cons; [reflexivity | apply all_of_nil]).
  destruct (size >=? maxAsmSize E)%Z eqn:Hsize;
    [apply all_of_cons; [reflexivity | apply all_of_nil]|].
  destruct stages.
  - apply all_of_cons; [reflexivity|].
    apply all_of_cons; [|apply all_of_nil].
    cbn [guarded]. unfold small_enough. rewrite Hstat.
    rewrite Z.geb_leb in Hsize. apply Z.leb_gt in Hsize. now apply Z.ltb_lt.
  - apply all_of_bind;
      [apply all_of_cons; [reflexivity | apply all_of_nil]|].
    intros _ _. apply all_of_bind;
      [apply all_of_exec; reflexivity | intros; apply all_of_nil].
Qed.

Lemma guarded_postProcessResult {Cache : Type} (E : Env Cache) c W result out filters :
  all_of (guarded E W) (snd (postProcessResult E c W result out filters)).
Proof.
  unfold postProcessResult. cbv zeta. simpl snd.
  apply all_of_app; [|apply all_of_app].
  - destruct (hasOptOutput result) as [[|]|]; try apply all_of_nil.
    apply all_of_cons; [reflexivity | apply all_of_nil].
  - destruct (_ && _).
    + unfold objdump. apply all_of_bind;
        [apply all_of_exec; reflexivity
        | intros; apply all_of_nil].
    + apply guarded_readOutput.
  - destruct (wants_execution c filters); [|apply all_of_nil].
    apply all_of_bind; [|intros; apply all_of_nil].
    unfold execBinary. simpl snd.
    apply all_of_cons; [reflexivity|].
    unfold all_of. apply Forall_forall.
    intros e He. apply in_map_iff in He. destruct He as [a [<- _]]. reflexivity.
Qed.

Lemma guarded_compileToAsm {Cache : Type} (E : Env Cache) c W userOptions bo filters info :
  all_of (guarded E W) (snd (compileToAsm E c W userOptions bo filters info)).
Proof.
  unfold compileToAsm. cbv zeta.
  destruct (exe c) as [compiler|]; [|apply all_of_nil].
  apply all_of_bind.
  - unfold both. simpl snd. apply all_of_app;
      [apply all_of_runCompiler | apply all_of_astProbe];
      reflexivity.
  - intros results _. unfold onCompiled. cbv zeta.
    destruct (failed _); [apply all_of_nil|].
    apply all_of_bind.
    + simpl snd. destruct (_ && _); [|apply all_of_nil].
      apply all_of_cons; [reflexivity | apply all_of_nil].
    + intros _ _. apply guarded_postProcessResult.
Qed.

(** The output of the compiler is read only when it is smaller than
    [max-asm-size]: a compile reads a file only when [stat] shows the
    output file to be there, with a size below the limit. *)
Theorem output_is_read_only_when_small :
  forall (Cache : Type) (E : Env Cache) c W cache source userOptions bo filters path,
    In (ReadFile path) (snd (fst (compile E c W cache source userOptions bo filters))) ->
    exists size,
      output_stat W = Done size /\ (size < maxAsmSize E)%Z.
Proof.
  intros Cache E c W cache source userOptions bo filters path He.
  assert (Hsmall : small_enough E W = true).
  { apply compile_effects in He.
    destruct He as [He | [He | He]]; try discriminate.
    rewrite job_stages in He.
    assert (HQ : forall l, all_of (guarded E W) l -> In (ReadFile path) l ->
                           small_enough E W = true).
    { intros l Hl Hin. unfold all_of in Hl. rewrite Forall_forall in Hl.
      exact (Hl _ Hin). }
    apply in_app_or in He. destruct He as [He | He].
    { exact (HQ _ (all_of_tempFileAndDir (guarded E W)
                     (conj eq_refl (fun _ _ => eq_refl)) E W _) He). }
    destruct (fst (tempFileAndDir E W _)) as [info| |]; try destruct He.
    apply in_app_or in He. destruct He as [He | He].
    { exact (HQ _ (guarded_compileToAsm E c W _ _ _ info) He). }
    destruct (fst (compileToAsm E c W _ _ _ info)) as [results| |]; try destruct He.
    apply in_app_or in He. destruct He as [He | He].
    { rewrite tidy_effects in He.
      destruct (okToCache (fst results)); [destruct He|].
      destruct (dirPath (fst results)) as [d|]; [|destruct He].
      destruct (Js.nonempty d); [|destruct He].
      destruct He as [He | []]. discriminate. }
    destruct (fst (tidy E _ results)) as [r2| |]; try destruct He.
    apply in_app_or in He. destruct He as [He | He].
    { destruct (Obj.flag "demangle" _); [|destruct He].
      exact (HQ _ (all_of_postProcessAsm (guarded E W)
                     (fun _ => eq_refl) E c W r2) He). }
    destruct (fst (if Obj.flag "demangle" _ then _ else _)) as [r3| |]; try destruct He.
    destruct (okToCache _); [|destruct He].
    destruct He as [He | []]. discriminate. }
  unfold small_enough in Hsmall.
  destruct (output_stat W) as [size| |]; try discriminate.
  exists size. split; [reflexivity | now apply Z.ltb_lt].
Qed.

(** The theorem at work: the sample compile reads its output of 20
    bytes. *)
Lemma output_is_read_witness :
  exists size,
    output_stat (Samples.world 0 "") = Done size /\ (size < maxAsmSize Samples.env)%Z.
Proof.
  refine (output_is_read_only_when_small Samples.Cache Samples.env Samples.gcc
            (Samples.world 0 "") [] "int f();" ["-O2"] JUndef getDefaultFilters
            "/tmp/ce1/output" _).
  vm_compute. tauto.
Defined.

Lemma addCfg_asm {Cache : Type} (E : Env Cache) c filters result :
  asm (addCfg E c filters result) = asm result /\
  dirPath (addCfg E c filters result) = dirPath result.
Proof.
  unfold addCfg. cbv zeta.
  match goal with |- context [if ?b then _ else _] => destruct b end; split; reflexivity.
Qed.

Lemma tidy_timed_out {Cache : Type} (E : Env Cache) filters r1 o1 r2 :
  okToCache r1 = false ->
  fst (tidy E filters (r1, o1)) = Resolved r2 ->
  asm r2 = JObj [("text", asm r1)] /\ okToCache r2 = false /\
  match dirPath r2 with Some d => d = "" | None => True end.
Proof.
  intros Hok. unfold tidy. cbv zeta. cbn [fst snd]. rewrite Hok.
  rewrite CompilerFacts.bind_fst. cbn [dirPath set_asm].
  assert (Hend : forall a : Result,
             asm a = JObj [("text", asm r1)] -> okToCache a = false ->
             match dirPath a with Some d => d = "" | None => True end ->
             fst (ret match hasOptOutput a with
                      | Some true => set_optOutput o1 (set_optPath None a)
                      | _ => a
                      end) = Resolved r2 ->
             asm r2 = JObj [("text", asm r1)] /\ okToCache r2 = false /\
             match dirPath r2 with Some d => d = "" | None => True end).
  { intros a Ha Hk Hp H. cbn [fst ret] in H.
    destruct (hasOptOutput a) as [[|]|]; injection H as <-; cbn; auto. }
  destruct (dirPath r1) as [d|] eqn:Hd.
  - destruct (Js.nonempty d) eqn:Hne; cbn [fst ret]; apply Hend; cbn; rewrite ?Hd; auto.
    now destruct d.
  - cbn [fst ret]. apply Hend; cbn; rewrite ?Hd; auto.
Qed.

(** The result of a compile that its timer ended is not parsed: when such
    a compile is resolved, [asm] is no list of lines but an object with the
    one property [text], the result is marked as not to be cached, and
    its [dirPath] is gone (or was the empty string all along). *)
Theorem timed_out_compile_is_not_parsed :
  forall (Cache : Type) (E : Env Cache) c W cache source userOptions bo filters r,
    cacheGet E cache (cacheKey c source userOptions bo filters) = None ->
    fst (fst (compile E c W cache source userOptions bo filters)) = Resolved r ->
    CompilerFacts.main_okToCache E c W = false ->
    (exists text, asm r = JObj [("text", text)]) /\
    okToCache r = false /\
    match dirPath r with Some d => d = "" | None => True end.
Proof.
  intros Cache E c W cache source userOptions bo filters r Hmiss Hres Hto.
  unfold compile, cacheKey in *.
  destruct (checkOptions E userOptions); [discriminate|].
  destruct (checkSource E source); [discriminate|].
  cbv zeta in *. rewrite Hmiss in *. simpl fst in *.
  unfold job in Hres. rewrite CompilerFacts.bind_fst in Hres.
  destruct (fst (tempFileAndDir E W _)) as [info| |]; try discriminate.
  rewrite CompilerFacts.bind_fst in Hres.
  destruct (fst (compileToAsm E c W userOptions bo _ info)) as [[r1 o1]| |] eqn:Hasm;
    try discriminate.
  pose proof (CompilerFacts.compileToAsm_okToCache E c W userOptions bo _ info r1 o1 Hasm)
    as Hok1.
  rewrite Hto in Hok1.
  rewrite CompilerFacts.bind_fst in Hres.
  destruct (fst (tidy E _ (r1, o1))) as [r2| |] eqn:Htidy; try discriminate.
  destruct (tidy_timed_out E _ r1 o1 r2 Hok1 Htidy) as [Hasm2 [Hok2 Hdir2]].
  rewrite CompilerFacts.bind_fst in Hres.
  destruct (addCfg_asm E c (effective_filters c filters) r2) as [Ha Hd].
  assert (Hlast : fst (let result := addCfg E c (effective_filters c filters) r2 in
                       if okToCache result
                       then (Resolved result,
                             [CachePut (fingerprint c source userOptions bo
                                          (effective_filters c filters)) result])
                       else ret result) = Resolved r ->
                  (exists text, asm r = JObj [("text", text)]) /\
                  okToCache r = false /\
                  match dirPath r with Some d => d = "" | None => True end).
  { cbv zeta. rewrite CompilerFacts.addCfg_okToCache, Hok2. cbn [fst ret].
    intros H. injection H as <-.
    rewrite Ha, Hd, CompilerFacts.addCfg_okToCache, Hasm2. eauto. }
  destruct (Obj.flag "demangle" (effective_filters c filters)).
  - unfold postProcessAsm in Hres. rewrite Hok2 in Hres. cbn [negb fst ret] in Hres.
    exact (Hlast Hres).
  - cbn [fst ret] in Hres. exact (Hlast Hres).
Qed.

(** The theorem at work on the compile of [Samples.slow_world]. *)
Lemma timed_out_compile_witness :
  exists r,
    fst (fst (compile Samples.env Samples.gcc Samples.slow_world []
                "int main() { for (;;); }" ["-O2"] JUndef getDefaultFilters)) =
    Resolved r /\
    (exists text, asm r = JObj [("text", text)]) /\ okToCache r = false.
Proof.
  eexists. split; [vm_compute; reflexivity|].
  refine ((fun H => conj (proj1 H) (proj1 (proj2 H)))
            (timed_out_compile_is_not_parsed Samples.Cache Samples.env Samples.gcc
               Samples.slow_world [] "int main() { for (;;); }" ["-O2"] JUndef
               getDefaultFilters _ eq_refl _ eq_refl)).
  vm_compute. reflexivity.
Defined.

(** *** The filters of a binary *)





End PipelineFacts.

(* ===================================================================== *)
(** ** The retry loop *)
(* ===================================================================== *)

Module RetryFacts.

Import Registry.

(** What the calls [n] to [n + k] of [promiseFunc] do to the outside, with
    the wait before each but the first. *)
Fixpoint calls {A : Type} (promiseFunc : nat -> Attempt A * list Effect) (retryMs : Z)
    (n k : nat) : list Effect :=
  match k with
  | O => snd (promiseFunc n)
  | S k' => snd (promiseFunc n) ++ [Wait retryMs] ++ calls promiseFunc retryMs (S n) k'
  end.

(** The promise of a call is rejected. *)
Definition rejected {A : Type} (a : Attempt A) : bool :=
  match a with Settled (Rejected _) => true | _ => false end.

Lemma doit_outcome {A : Type} (promiseFunc : nat -> Attempt A * list Effect)
    (maxFails retryMs : Z) (fuel : nat) :
  forall fails n,
    (Z.max 1 (maxFails - fails) <= Z.of_nat fuel)%Z ->
    exists k,
      (Z.of_nat k < Z.max 1 (maxFails - fails))%Z /\
      (forall j, j < k -> rejected (fst (promiseFunc (n + j))) = true) /\
      (rejected (fst (promiseFunc (n + k))) = false \/
       Z.of_nat k = (Z.max 1 (maxFails - fails) - 1)%Z) /\
      doit promiseFunc maxFails retryMs fuel fails n =
      (fst (promiseFunc (n + k)), calls promiseFunc retryMs n k).
Proof.
  induction fuel as [|fuel IH]; intros fails n Hfuel; [lia|].
  cbn [doit]. cbv zeta.
  assert (Hstop : forall a, fst (promiseFunc n) = a ->
            (rejected a = false \/ (fails + 1 <? maxFails)%Z = false) ->
            exists k,
              (Z.of_nat k < Z.max 1 (maxFails - fails))%Z /\
              (forall j, j < k -> rejected (fst (promiseFunc (n + j))) = true) /\
              (rejected (fst (promiseFunc (n + k))) = false \/
               Z.of_nat k = (Z.max 1 (maxFails - fails) - 1)%Z) /\
              (a, snd (promiseFunc n)) =
              (fst (promiseFunc (n + k)), calls promiseFunc retryMs n k)).
  { intros a Ha Hwhy. exists 0. rewrite Nat.add_0_r, Ha.
    split; [lia|]. split; [lia|]. split; [|reflexivity].
    destruct Hwhy as [Hr | Hlt]; [now left | right].
    apply Z.ltb_ge in Hlt. lia. }
  destruct (fst (promiseFunc n)) as [[a|e|]|what] eqn:Hn;
    try (apply Hstop; [reflexivity | now left]).
  destruct (fails + 1 <? maxFails)%Z eqn:Hlt;
    [|apply Hstop; [reflexivity | now right]].
  apply Z.ltb_lt in Hlt.
  destruct (IH (fails + 1)%Z (S n)) as [k [Hk [Hbefore [Hlast Hd]]]]; [lia|].
  exists (S k). rewrite Hd. cbn [fst snd calls].
  replace (n + S k) with (S n + k) by lia.
  split; [lia|]. split; [|split; [|reflexivity]].
  - intros [|j] Hj.
    + rewrite Nat.add_0_r, Hn. reflexivity.
    + replace (n + S j) with (S n + j) by lia. apply Hbefore. lia.
  - destruct Hlast as [Hl | Hl]; [now left | right; lia].
Qed.

(** [retryPromise] settles as the first call of [promiseFunc] that is not
    rejected does, or, when the first [max 1 maxFails] calls are all
    rejected, as the last of these: there is a call [k], among the first
    [max 1 maxFails], before which every call was rejected, which is either
    not rejected or the last one allowed, and whose outcome is the outcome
    of [retryPromise]; the calls up to [k] are all that was done, a wait of
    [retryMs] before each but the first. *)
Theorem retry_settles_as_first_success_or_last_try :
  forall (A : Type) (promiseFunc : nat -> Attempt A * list Effect) (maxFails retryMs : Z),
  exists k,
    (Z.of_nat k < Z.max 1 maxFails)%Z /\
    (forall j, j < k -> rejected (fst (promiseFunc j)) = true) /\
    (rejected (fst (promiseFunc k)) = false \/ Z.of_nat k = (Z.max 1 maxFails - 1)%Z) /\
    retryPromise promiseFunc maxFails retryMs =
    (fst (promiseFunc k), calls promiseFunc retryMs 0 k).
Proof.
  intros A promiseFunc maxFails retryMs. unfold retryPromise.
  destruct (doit_outcome promiseFunc maxFails retryMs
              (Z.to_nat (Z.max 1 maxFails)) 0%Z 0) as [k H]; [lia|].
  rewrite Z.sub_0_r in H. exists k. exact H.
Qed.

End RetryFacts.

(* ===================================================================== *)
(** ** The request handler, further *)
(* ===================================================================== *)

Module RequestFacts.

Import Handler.

Lemma get_add_all names : forall o n,
  Obj.get n (add_all names o) =
  if existsb (String.eqb n) names then Some (JBool true) else Obj.get n o.
Proof.
  unfold add_all. induction names as [|f names IH]; intros o n; [reflexivity|].
  cbn [fold_left existsb]. rewrite IH.
  destruct (existsb (String.eqb n) names); [now rewrite orb_true_r|].
  rewrite orb_false_r. destruct (String.eqb n f) eqn:Hn.
  - apply String.eqb_eq in Hn. subst f. apply RegistryFacts.get_set_same.
  - apply String.eqb_neq in Hn. now apply RegistryFacts.get_set_other.
Qed.

Lemma get_object_of names n :
  Obj.get n (object_of names) =
  if existsb (String.eqb n) names then Some (JBool true) else None.
Proof. exact (get_add_all names [] n). Qed.

Lemma get_remove_all names : forall o n,
  Obj.get n (remove_all names o) =
  if existsb (String.eqb n) names then None else Obj.get n o.
Proof.
  unfold remove_all. induction names as [|f names IH]; intros o n; [reflexivity|].
  cbn [fold_left existsb]. rewrite IH.
  destruct (existsb (String.eqb n) names); [now rewrite orb_true_r|].
  rewrite orb_false_r. destruct (String.eqb n f) eqn:Hn.
  - apply String.eqb_eq in Hn. subst f. apply CompilerFacts.get_delete_same.
  - apply String.eqb_neq in Hn. now apply CompilerFacts.get_delete_other.
Qed.

(** The names of a comma-separated query, none when it is absent. *)
Definition named (query : option string) : list string :=
  Js.split_on "," (or_else query "").

(** The query is there and not empty. *)
Definition given (query : option string) : bool := Js.nonempty (or_else query "").

(** The filters of an API-style request, name by name (the name
    [__proto__], which names no property of its own, apart): a name in
    [removeFilters] is off, whatever the other queries say; any other name
    in [addFilters] is on; any other name still is on if it is in
    [filters], when that query is given, and is as in the default set when
    it is not: with [filters] given, the defaults are dropped. *)
Theorem filter_queries :
  forall req n,
    n <> "__proto__" ->
    Obj.get n (api_filters req) =
    if existsb (String.eqb n) (named (query_removeFilters req)) then None
    else if existsb (String.eqb n) (named (query_addFilters req)) then Some (JBool true)
    else if given (query_filters req) then
      if existsb (String.eqb n) (named (query_filters req)) then Some (JBool true) else None
    else Obj.get n Compiler.getDefaultFilters.
Proof.
  intros req n _. unfold api_filters, named, given. cbv zeta.
  rewrite get_remove_all, get_add_all.
  destruct (existsb _ (Js.split_on "," (or_else (query_removeFilters req) "")));
    [reflexivity|].
  destruct (existsb _ (Js.split_on "," (or_else (query_addFilters req) "")));
    [reflexivity|].
  unfold or_else. destruct (query_filters req) as [q|]; [|reflexivity].
  destruct (Js.nonempty q) eqn:Hq; [rewrite Hq; apply get_object_of | reflexivity].
Qed.

(** The theorem at work: [?filters=binary,intel&addFilters=labels,intel&removeFilters=intel]
    leaves [intel] off and drops the default [directives]. *)
Lemma filter_queries_witness :
  Obj.get "intel"
    (api_filters (Samples.filter_request "g71" (Some "binary,intel") (Some "labels,intel")
                    (Some "intel"))) = None /\
  Obj.get "directives"
    (api_filters (Samples.filter_request "g71" (Some "binary,intel") (Some "labels,intel")
                    (Some "intel"))) = None.
Proof.
  split.
  - exact (filter_queries
             (Samples.filter_request "g71" (Some "binary,intel") (Some "labels,intel")
                (Some "intel"))
             "intel" ltac:(discriminate)).
  - exact (filter_queries
             (Samples.filter_request "g71" (Some "binary,intel") (Some "labels,intel")
                (Some "intel"))
             "directives" ltac:(discriminate)).
Defined.

(** A request for the compiler of a peer is handed to the peer: the handler
    compiles for local compilers only, and an API-style request for a
    compiler of a peer is proxied whatever it holds, body or none, with
    [backendOptions] left as it was; a JSON request is proxied as soon as
    it has [options], whose [compilerOptions] it leaves in
    [backendOptions]. *)
Theorem remote_requests_are_proxied :
  (forall ctx global req c source userOptions bo fs global',
      handler ctx global req = (Compiles c source userOptions bo fs, global') ->
      Compiler.getRemote c = None) /\
  (forall ctx global req k c target,
      is_json req = false ->
      req_compiler req = Some k ->
      compilersById ctx k = Some c ->
      Compiler.getRemote c = Some target ->
      handler ctx global req = (Proxied target, global)) /\
  (forall ctx global req k c target requestOptions,
      is_json req = true ->
      requested req = Some k ->
      compilersById ctx k = Some c ->
      Compiler.getRemote c = Some target ->
      json_options req = Some requestOptions ->
      handler ctx global req = (Proxied target, Some (compilerOptions requestOptions))).
Proof.
  split; [|split].
  - intros ctx global req c source userOptions bo fs global' H.
    assert (Hd : forall c0 s o b f,
               dispatch ctx c0 s o b f = Compiles c source userOptions bo fs ->
               Compiler.getRemote c = None).
    { intros c0 s o b f Hd. unfold dispatch in Hd.
      destruct (Compiler.getRemote c0) eqn:Hr; [discriminate|].
      destruct s; [|discriminate]. destruct b; [|discriminate].
      injection Hd as <- _ _ _ _. exact Hr. }
    unfold handler in H. destruct (is_json req).
    + destruct (match requested req with
                | Some k => compilersById ctx k
                | None => None
                end); [|discriminate].
      destruct (json_options req); [|discriminate].
      cbv zeta in H. injection H as H _. exact (Hd _ _ _ _ _ H).
    + destruct (match req_compiler req with
                | Some k => compilersById ctx k
                | None => None
                end); [|discriminate].
      injection H as H _. exact (Hd _ _ _ _ _ H).
  - intros ctx global req k c target Hj Hk Hc Hr.
    unfold handler, dispatch. now rewrite Hj, Hk, Hc, Hr.
  - intros ctx global req k c target ro Hj Hk Hc Hr Ho.
    unfold handler, dispatch. rewrite Hj, Hk, Hc, Ho. cbv zeta. now rewrite Hr.
Qed.

(** The theorem at work: a request without a body for the compiler of the
    peer. *)
Lemma remote_requests_witness :
  handler Samples.context_with_peer None
    {| is_json := false; req_compiler := Some "g71r"; json_compiler := None;
       json_source := None; json_options := None; text_body := None;
       query_options := None; query_filters := None; query_addFilters := None;
       query_removeFilters := None |} =
  (Proxied "http://peer:10240", None).
Proof.
  exact (proj1 (proj2 remote_requests_are_proxied) Samples.context_with_peer None
           {| is_json := false; req_compiler := Some "g71r"; json_compiler := None;
              json_source := None; json_options := None; text_body := None;
              query_options := None; query_filters := None; query_addFilters := None;
              query_removeFilters := None |}
           "g71r" Samples.gcc_at_peer "http://peer:10240"
           eq_refl eq_refl eq_refl eq_refl).
Defined.

(** [backendOptions] outlives the request that set it: an API-style
    request, which names no backend options, is compiled with the
    [compilerOptions] of the JSON request handled before it (whether that
    one was compiled, proxied or refused for want of a source); before any
    JSON request it cannot be compiled at all. *)
Theorem backend_options_outlive_the_request :
  forall ctx req k c source,
    is_json req = false ->
    req_compiler req = Some k ->
    compilersById ctx k = Some c ->
    Compiler.getRemote c = None ->
    text_body req = Some source ->
    handler ctx None req =
    (Throws "ReferenceError: backendOptions is not defined", None) /\
    forall global before k0 c0 requestOptions,
      is_json before = true ->
      requested before = Some k0 ->
      compilersById ctx k0 = Some c0 ->
      json_options before = Some requestOptions ->
      handler ctx (snd (handler ctx global before)) req =
      (Compiles c source (parseArguments ctx (or_else (query_options req) ""))
         (compilerOptions requestOptions) (api_filters req),
       Some (compilerOptions requestOptions)).
Proof.
  intros ctx req k c source Hj Hk Hc Hr Hs. split.
  - unfold handler, dispatch. now rewrite Hj, Hk, Hc, Hr, Hs.
  - intros global before k0 c0 ro Hj0 Hk0 Hc0 Ho0.
    assert (Hg : snd (handler ctx global before) = Some (compilerOptions ro)).
    { unfold handler. now rewrite Hj0, Hk0, Hc0, Ho0. }
    rewrite Hg. unfold handler, dispatch. now rewrite Hj, Hk, Hc, Hr, Hs.
Qed.

(** The theorem at work: the optimisation records one request asked for
    are made for the next one, which did not. *)
Lemma backend_options_witness :
  handler Samples.context
    (snd (handler Samples.context None Samples.json_request))
    (Samples.api_request None) =
  (Compiles Samples.gcc "int main() {}" ["-O2"] (JObj [("produceOptInfo", JBool true)])
     (api_filters (Samples.api_request None)),
   Some (JObj [("produceOptInfo", JBool true)])).
Proof.
  exact (proj2 (backend_options_outlive_the_request Samples.context
                  (Samples.api_request None) "g71" Samples.gcc "int main() {}"
                  eq_refl eq_refl eq_refl eq_refl eq_refl)
           None Samples.json_request "g71" Samples.gcc
           {| userArguments := Some "-O1";
              compilerOptions := JObj [("produceOptInfo", JBool true)];
              filters := None |}
           eq_refl eq_refl eq_refl eq_refl).
Defined.

End RequestFacts.

(* ===================================================================== *)
(** ** Strings, further *)
(* ===================================================================== *)

Module Lines.

Lemma includes_char_cons c a s :
  Js.includes (String c "") (String a s) = Ascii.eqb c a || Js.includes (String c "") s.
Proof.
  cbn [Js.includes String.prefix].
  destruct (Ascii.eqb_spec c a) as [->|Hne].
  - destruct (ascii_dec a a) as [_|H]; [|contradiction].
    now destruct s.
  - destruct (ascii_dec c a) as [H|_]; [contradiction | reflexivity].
Qed.

Lemma split_without c s :
  Js.includes (String c "") s = false -> Js.split_on c s = [s].
Proof.
  induction s as [|a s IH]; intros H; [reflexivity|].
  rewrite includes_char_cons in H. apply orb_false_elim in H. destruct H as [Ha Hs].
  cbn [Js.split_on]. rewrite Ascii.eqb_sym, Ha, (IH Hs). reflexivity.
Qed.

Lemma split_not_nil c s : Js.split_on c s <> [].
Proof.
  destruct s as [|a s]; [discriminate|]. cbn [Js.split_on].
  destruct (Ascii.eqb a c); [discriminate|].
  destruct (Js.split_on c s); discriminate.
Qed.

End Lines.

(* ===================================================================== *)
(** ** The property getters *)
(* ===================================================================== *)

Module PropsFacts.

Import Props.

(** The element of the hierarchy has a property map with the property in
    it. *)
Definition defines (s : Store) (base property elem : string) : bool :=
  match findProps s base elem with
  | Some propertyMap => has property propertyMap
  | None => false
  end.

(** What the last of the elements that has the property has for it. *)
Fixpoint found_in (s : Store) (base property : string) (elems : list string)
  : option Value :=
  match elems with
  | [] => None
  | elem :: rest =>
      match found_in s base property rest with
      | Some v => Some v
      | None =>
          match findProps s base elem with
          | Some propertyMap =>
              if has property propertyMap then Some (read property propertyMap) else None
          | None => None
          end
      end
  end.

Definition found (s : Store) (base property : string) : option Value :=
  found_in s base property (hierarchy s).

Lemma fold_found s base property elems : forall result,
  fold_left
    (fun result elem =>
       match findProps s base elem with
       | Some propertyMap =>
           if has property propertyMap then read property propertyMap else result
       | None => result
       end) elems result =
  match found_in s base property elems with Some v => v | None => result end.
Proof.
  induction elems as [|elem rest IH]; intros result; [reflexivity|].
  cbn [fold_left found_in]. rewrite IH.
  destruct (found_in s base property rest); [reflexivity|].
  destruct (findProps s base elem) as [propertyMap|]; [|reflexivity].
  destruct (has property propertyMap); reflexivity.
Qed.

Lemma get_found s base property defaultValue :
  get s base property defaultValue =
  match found s base property with Some v => v | None => defaultValue end.
Proof. apply fold_found. Qed.

Lemma found_in_none s base property elems :
  (forall elem, In elem elems -> defines s base property elem = false) ->
  found_in s base property elems = None.
Proof.
  induction elems as [|elem rest IH]; intros H; [reflexivity|].
  cbn [found_in]. rewrite IH by (intros e He; apply H; now right).
  specialize (H elem (or_introl eq_refl)). unfold defines in H.
  destruct (findProps s base elem); [now rewrite H | reflexivity].
Qed.

Lemma found_in_last s base property before elem after propertyMap :
  findProps s base elem = Some propertyMap ->
  has property propertyMap = true ->
  (forall e, In e after -> defines s base property e = false) ->
  found_in s base property (before ++ elem :: after) = Some (read property propertyMap).
Proof.
  intros Hf Hh Hafter. induction before as [|b before IH].
  - cbn [app found_in]. now rewrite (found_in_none _ _ _ _ Hafter), Hf, Hh.
  - cbn [app found_in]. now rewrite IH.
Qed.

(** The later elements of the hierarchy override the earlier ones: [get]
    gives what the last element that has the property has for it (its own
    value, or what every object inherits under that name), whatever the
    elements before it and the default say; and it gives the default when
    no element has the property. *)
Theorem get_last_defining_element :
  forall s base property defaultValue,
    (forall before elem after propertyMap,
        hierarchy s = before ++ elem :: after ->
        findProps s base elem = Some propertyMap ->
        has property propertyMap = true ->
        (forall e, In e after -> defines s base property e = false) ->
        get s base property defaultValue = read property propertyMap) /\
    ((forall elem, In elem (hierarchy s) -> defines s base property elem = false) ->
     get s base property defaultValue = defaultValue).
Proof.
  intros s base property defaultValue. split.
  - intros before elem after propertyMap Hh Hf Hhas Hafter.
    rewrite get_found. unfold found. rewrite Hh.
    now rewrite (found_in_last s base property before elem after propertyMap Hf Hhas Hafter).
  - intros Hnone. rewrite get_found. unfold found.
    now rewrite (found_in_none _ _ _ _ Hnone).
Qed.

(** The theorem at work: [local] overrides [defaults]. *)
Lemma get_last_witness :
  get Samples.store "compiler-explorer" "proxyRetries" (Plain (JNum 9)) = Plain (JNum 2).
Proof.
  refine (proj1 (get_last_defining_element Samples.store "compiler-explorer"
                   "proxyRetries" (Plain (JNum 9)))
            ["defaults"; "amazon"] "local" [] [("proxyRetries", JNum 2)]
            eq_refl eq_refl eq_refl _).
  intros e [].
Defined.

(** A name that every object inherits is a property of every property
    map: asked for it, [get] never gives the default once the base has a
    file for an element of the hierarchy, but the member of
    [Object.prototype], unless the last such file has a value of its own
    for the name. *)
Theorem inherited_names_are_found :
  forall s base property defaultValue before elem after propertyMap,
    inherited property = true ->
    hierarchy s = before ++ elem :: after ->
    findProps s base elem = Some propertyMap ->
    (forall e, In e after -> findProps s base e = None) ->
    get s base property defaultValue =
    match Obj.get property propertyMap with
    | Some v => Plain v
    | None => Member property
    end.
Proof.
  intros s base property defaultValue before elem after propertyMap Hi Hh Hf Hafter.
  rewrite get_found. unfold found. rewrite Hh.
  rewrite (found_in_last s base property before elem after propertyMap Hf).
  - unfold read. now rewrite Hi.
  - unfold has. rewrite Hi. now destruct (Obj.get property propertyMap).
  - intros e He. unfold defines. now rewrite (Hafter e He).
Qed.

(** The theorem at work: the property [constructor], with a default. *)
Lemma inherited_names_witness :
  get Samples.store "compiler-explorer" "constructor" (Plain (JStr "none")) =
  Member "constructor".
Proof.
  refine (inherited_names_are_found Samples.store "compiler-explorer" "constructor"
            (Plain (JStr "none")) ["defaults"; "amazon"] "local" []
            [("proxyRetries", JNum 2)] eq_refl eq_refl eq_refl _).
  intros e [].
Defined.

(** The getter of [fakeProps] is the getter of a store with the one
    property map, under whatever name: the two give the same for every
    property that the map does not hold as undefined (such a property is
    undefined for [get] and the default for [fakeProps]). *)
Theorem fakeProps_is_a_store_of_one_file :
  forall fake base elem prop def,
    Obj.get prop fake <> Some JUndef ->
    fakeProps fake prop def =
    propsFor {| properties := [((base ++ "." ++ elem)%string, fake)];
                hierarchy := [elem] |} base prop def.
Proof.
  intros fake base elem prop def Hown.
  unfold fakeProps, propsFor, get, findProps. cbn [properties hierarchy fold_left own].
  rewrite String.eqb_refl. unfold has, read.
  destruct (Obj.get prop fake) as [v|].
  - destruct v; try reflexivity. now contradiction Hown.
  - destruct (inherited prop); reflexivity.
Qed.

(** The theorem at work on the properties of a test. *)
Lemma fakeProps_witness :
  fakeProps [("compilers", JStr "&gcc")] "compilers" (Plain (JStr "")) =
  propsFor {| properties := [("c++.test", [("compilers", JStr "&gcc")])];
              hierarchy := ["test"] |} "c++" "compilers" (Plain (JStr "")).
Proof.
  exact (fakeProps_is_a_store_of_one_file [("compilers", JStr "&gcc")] "c++" "test"
           "compilers" (Plain (JStr "")) ltac:(discriminate)).
Defined.

End PropsFacts.

(* ===================================================================== *)
(** ** The configuration of the compilers *)
(* ===================================================================== *)

Module ConfigFacts.

Import Props Config.

(** What the property files say about a property: the files of the
    language and, when they do not have it or have it undefined, those of
    [compiler-explorer]; in each, the last element of the hierarchy that
    has it. *)
Definition setting (s : Store) (language property : string) : option Value :=
  match PropsFacts.found s language property with
  | Some (Plain JUndef) | None => PropsFacts.found s "compiler-explorer" property
  | Some v => Some v
  end.

(** The first of the properties that is set, or the default. *)
Fixpoint first_set (s : Store) (language : string) (names : list string) (def : Value)
  : Value :=
  match names with
  | [] => def
  | property :: rest =>
      match setting s language property with
      | Some v => v
      | None => first_set s language rest def
      end
  end.

(** [compilerProps] over a store, for the language whose files have the
    base [language] (the name of the language in lower case). *)
Definition stored (s : Store) (language : string) : Getter :=
  compilerProps (propsFor s language) (propsFor s "compiler-explorer").

Lemma stored_setting s language property def :
  stored s language property def =
  match setting s language property with Some v => v | None => def end.
Proof.
  unfold stored, compilerProps, propsFor, setting.
  rewrite !PropsFacts.get_found.
  destruct (PropsFacts.found s language property) as [[[]|]|]; reflexivity.
Qed.

(** The names under which a property [n] of the compiler is looked for
    when it belongs to a group, the most specific first. *)
Definition in_group (groupName compiler n : string) : list string :=
  [("group." ++ groupName ++ ".compiler." ++ compiler ++ "." ++ n)%string;
   ("compiler." ++ compiler ++ "." ++ n)%string;
   ("group." ++ groupName ++ "." ++ n)%string;
   n].

Lemma compiler_props_in_group s language groupName compiler n def :
  String.eqb n "group" = false ->
  compiler_props (group_props (stored s language) groupName (stored s language))
    ("compiler." ++ compiler)%string n def =
  first_set s language (in_group groupName compiler n) def.
Proof.
  intros Hn. unfold compiler_props, group_props. rewrite Hn.
  change (String.eqb ("compiler." ++ compiler ++ "." ++ n) "group") with false.
  cbv iota. unfold in_group, first_set. rewrite !stored_setting.
  change ("group." ++ groupName ++ "." ++ "compiler." ++ compiler ++ "." ++ n)%string
    with ("group." ++ groupName ++ ".compiler." ++ compiler ++ "." ++ n)%string.
  reflexivity.
Qed.

(** The settings of a compiler that belongs to a group.  When the
    property files give the group [groupName] the one compiler [compiler],
    the seed [&groupName] gives the configuration of that compiler, each
    property of which is the first that is set of: the property of the
    compiler in the group, the property of the compiler, the property of
    the group, the property by its bare name; and the default if none is.
    The executable alone is looked for under the name of the compiler
    only.  A [postProcess] that is set to something that is no string
    makes the configuration throw. *)
Theorem settings_of_a_compiler_in_a_group :
  forall s language depth groupName compiler,
    Js.includes "@" groupName = false ->
    setting s language ("group." ++ groupName ++ ".compilers") =
    Some (Plain (JStr compiler)) ->
    Js.includes ":" compiler = false ->
    Js.includes "@" compiler = false ->
    Js.starts_with "&" compiler = false ->
    String.eqb compiler "AWS" = false ->
    let chain n def := first_set s language (in_group groupName compiler n) def in
    recurseGetCompilers (S (S depth)) (stored s language) ("&" ++ groupName)
      (stored s language) =
    match chain "postProcess" (Plain (JStr "")) with
    | Plain (JStr stages) =>
        Returns
          (All
             [Local
                {| id := compiler;
                   exe := first_set s language [("compiler." ++ compiler ++ ".exe")%string]
                            (Plain (JStr compiler));
                   name := chain "name" (Plain (JStr compiler));
                   alias := chain "alias" undefined;
                   options := chain "options" undefined;
                   versionFlag := chain "versionFlag" undefined;
                   versionRe := chain "versionRe" undefined;
                   compilerType := chain "compilerType" (Plain (JStr ""));
                   demangler := chain "demangler" (Plain (JStr ""));
                   objdumper := chain "objdumper" (Plain (JStr ""));
                   intelAsm := chain "intelAsm" (Plain (JStr ""));
                   needsMulti := truthy (chain "needsMulti" (Plain (JBool true)));
                   supportsBinary := truthy (chain "supportsBinary" (Plain (JBool true)));
                   supportsExecute :=
                     truthy (chain "supportsBinary" (Plain (JBool true))) &&
                     truthy (chain "supportsExecute" (Plain (JBool true)));
                   supportsIntelAsm :=
                     truthy (chain "supportsIntelAsm" (Plain (JBool false)));
                   postProcess := Js.split_on "|" stages |}])
    | _ => Throws "TypeError"
    end.
Proof.
  intros s language depth groupName compiler Hg Hlist Hcolon Hat Hamp Haws chain.
  cbn [recurseGetCompilers].
  change ("&" ++ groupName)%string with (String "&" groupName).
  rewrite Lines.includes_char_cons. change (Ascii.eqb "@" "&") with false.
  cbn [orb]. rewrite Hg.
  change (Js.starts_with "&" (String "&" groupName)) with (String.prefix "" groupName).
  assert (Hp : String.prefix "" groupName = true) by now destruct groupName.
  rewrite Hp. cbv zeta. cbn [substr1].
  unfold group_props at 1. cbn [String.eqb Ascii.eqb Bool.eqb].
  rewrite (stored_setting s language ("group." ++ groupName ++ "." ++ "compilers")).
  change ("group." ++ groupName ++ "." ++ "compilers")%string
    with ("group." ++ groupName ++ ".compilers")%string.
  rewrite Hlist, (Lines.split_without ":" compiler Hcolon).
  cbn [map_outcome]. rewrite Hat, Hamp, Haws.
  unfold compilerConfigFor. cbv zeta.
  rewrite !compiler_props_in_group by reflexivity.
  fold (chain "postProcess" (Plain (JStr ""))).
  destruct (chain "postProcess" (Plain (JStr ""))) as [[]|]; try reflexivity.
  unfold first_set at 1. rewrite stored_setting. reflexivity.
Qed.

(** The theorem at work: the options of the compiler beat those of its
    group. *)
Lemma settings_in_a_group_witness :
  recurseGetCompilers 2 (stored Samples.store "c++") "&gcc" (stored Samples.store "c++") =
  Returns
    (All
       [Local
          {| id := "g71";
             exe := Plain (JStr "/opt/gcc-7.1/bin/g++");
             name := Plain (JStr "g++ 7.1");
             alias := undefined;
             options := Plain (JStr "-Wall");
             versionFlag := undefined;
             versionRe := undefined;
             compilerType := Plain (JStr "");
             demangler := Plain (JStr "");
             objdumper := Plain (JStr "");
             intelAsm := Plain (JStr "");
             needsMulti := true;
             supportsBinary := true;
             supportsExecute := true;
             supportsIntelAsm := false;
             postProcess := [""] |}]).
Proof.
  exact (settings_of_a_compiler_in_a_group Samples.store "c++" 0 "gcc" "g71"
           eq_refl eq_refl eq_refl eq_refl eq_refl eq_refl).
Defined.

(** A group that has no [compilers] of its own takes those of the list it
    was named in, so that it finds itself there: when [&groupName] comes
    first in the list the parent has, the recursion does not end, however
    deep it is followed. *)
Theorem group_without_compilers_recurses :
  forall s language groupName compilers,
    Js.includes "@" groupName = false ->
    setting s language ("group." ++ groupName ++ ".compilers") = None ->
    hd "" (Js.split_on ":" compilers) = ("&" ++ groupName)%string ->
    forall depth parentProps,
      parentProps "compilers" (Plain (JStr "")) = Plain (JStr compilers) ->
      recurseGetCompilers depth (stored s language) ("&" ++ groupName) parentProps =
      Deeper.
Proof.
  intros s language groupName compilers Hg Hnone Hfirst.
  induction depth as [|depth IH]; intros parentProps Hparent; [reflexivity|].
  cbn [recurseGetCompilers].
  change ("&" ++ groupName)%string with (String "&" groupName).
  rewrite Lines.includes_char_cons. change (Ascii.eqb "@" "&") with false.
  cbn [orb]. rewrite Hg.
  change (Js.starts_with "&" (String "&" groupName)) with (String.prefix "" groupName).
  assert (Hp : String.prefix "" groupName = true) by now destruct groupName.
  rewrite Hp. cbv zeta. cbn [substr1].
  assert (Hprops : group_props (stored s language) groupName parentProps "compilers"
                     (Plain (JStr "")) = Plain (JStr compilers)).
  { unfold group_props. cbn [String.eqb Ascii.eqb Bool.eqb].
    rewrite (stored_setting s language ("group." ++ groupName ++ "." ++ "compilers")).
    change ("group." ++ groupName ++ "." ++ "compilers")%string
      with ("group." ++ groupName ++ ".compilers")%string.
    now rewrite Hnone, Hparent. }
  rewrite Hprops.
  destruct (Js.split_on ":" compilers) as [|first rest] eqn:Hsplit;
    [now apply Lines.split_not_nil in Hsplit|].
  cbn [hd] in Hfirst. subst first. cbn [map_outcome].
  change (String "&" groupName) with ("&" ++ groupName)%string.
  now rewrite (IH _ Hprops).
Qed.

(** The theorem at work: the compilers are [&clang], and nothing is said
    of the group. *)
Lemma group_without_compilers_witness :
  recurseGetCompilers 50 (stored Samples.no_group "c++") "&clang"
    (stored Samples.no_group "c++") = Deeper.
Proof.
  exact (group_without_compilers_recurses Samples.no_group "c++" "clang" "&clang"
           eq_refl eq_refl eq_refl 50 (stored Samples.no_group "c++") eq_refl).
Defined.

End ConfigFacts.

(* ===================================================================== *)
(** ** The property files *)
(* ===================================================================== *)

Module ParseFacts.

Import Props.

Definition LF : ascii := ascii_of_nat 10.
Definition CR : ascii := ascii_of_nat 13.

(** The character does not occur in the string. *)
Definition without (c : ascii) (s : string) : bool :=
  negb (Js.includes (String c "") s).

Lemma without_cons c a s :
  without c (String a s) = negb (Ascii.eqb c a) && without c s.
Proof. unfold without. rewrite Lines.includes_char_cons. apply negb_orb. Qed.

Lemma without_app c s t : without c (s ++ t) = without c s && without c t.
Proof.
  induction s as [|a s IH]; [reflexivity|].
  cbn [append]. rewrite !without_cons, IH. apply andb_assoc.
Qed.

(** ** Lines *)

Lemma split_on_app c a b :
  Js.split_on c (a ++ String c b) = Js.split_on c a ++ Js.split_on c b.
Proof.
  induction a as [|x a IH]; cbn [append Js.split_on].
  - now rewrite Ascii.eqb_refl.
  - destruct (Ascii.eqb x c); [now rewrite IH|].
    rewrite IH. destruct (Js.split_on c a) as [|p ps] eqn:Ha; [|reflexivity].
    now apply Lines.split_not_nil in Ha.
Qed.

Lemma split_join lines :
  lines <> [] ->
  forallb (without LF) lines = true ->
  Js.split_on LF (Js.join Json.nl lines) = lines.
Proof.
  induction lines as [|l lines IH]; intros Hne Hall; [contradiction|].
  cbn [forallb] in Hall. apply andb_prop in Hall. destruct Hall as [Hl Hall].
  unfold without in Hl. apply negb_true_iff in Hl.
  destruct lines as [|l2 rest].
  - cbn [Js.join]. now apply Lines.split_without.
  - change (Js.join Json.nl (l :: l2 :: rest))
      with (l ++ String LF (Js.join Json.nl (l2 :: rest)))%string.
    rewrite split_on_app, (Lines.split_without LF l Hl), IH; [reflexivity | discriminate | exact Hall].
Qed.

(** ** White space *)

Lemma length_trim_end s : String.length (Js.trim_end s) <= String.length s.
Proof.
  induction s as [|a s IH]; [reflexivity|]. cbn [Js.trim_end].
  destruct (Js.trim_end s) as [|b r].
  - destruct (Js.is_space a); cbn; lia.
  - cbn [String.length] in *. lia.
Qed.

Lemma trim_start_fixed s :
  Js.trim_start s = s \/ String.length (Js.trim_start s) < String.length s.
Proof.
  induction s as [|a s IH]; [now left|]. cbn [Js.trim_start].
  destruct (Js.is_space a); [right | now left].
  cbn [String.length]. destruct IH as [-> | H]; lia.
Qed.

Lemma trim_fixed s : Js.trim s = s -> Js.trim_start s = s /\ Js.trim_end s = s.
Proof.
  unfold Js.trim. intros H.
  destruct (trim_start_fixed s) as [Hs | Hs].
  - rewrite Hs in H. now split.
  - pose proof (length_trim_end (Js.trim_start s)) as Hl. rewrite H in Hl. lia.
Qed.

Lemma trim_start_head a s t :
  Js.trim_start (String a s) = String a s -> Js.trim_start (String a s ++ t) = (String a s ++ t)%string.
Proof.
  cbn [append Js.trim_start]. destruct (Js.is_space a); [|reflexivity].
  intros H. destruct (trim_start_fixed s) as [Hs | Hs].
  - rewrite Hs in H. exfalso. apply (f_equal String.length) in H. cbn in H. lia.
  - rewrite H in Hs. cbn in Hs. lia.
Qed.

Lemma trim_end_tail s t :
  Js.trim_end t <> "" -> Js.trim_end (s ++ t) = (s ++ Js.trim_end t)%string.
Proof.
  intros Ht. induction s as [|a s IH]; [reflexivity|].
  cbn [append Js.trim_end]. rewrite IH.
  destruct (s ++ Js.trim_end t)%string as [|b r] eqn:Hs; [|reflexivity].
  destruct s; [contradiction | discriminate].
Qed.

Lemma trim_end_equals v :
  Js.trim_end v = v -> Js.trim_end (String "=" v) = String "=" v.
Proof.
  intros Hv. cbn [Js.trim_end]. rewrite Hv. now destruct v.
Qed.

(** A setting written without white space around it is a line [trim]
    leaves as it is. *)
Lemma trim_setting key value :
  Js.nonempty key = true -> Js.trim key = key -> Js.trim value = value ->
  Js.trim (key ++ "=" ++ value) = (key ++ "=" ++ value)%string.
Proof.
  intros Hne Hk Hv. apply trim_fixed in Hk, Hv.
  destruct Hk as [Hks _]. destruct Hv as [_ Hve].
  destruct key as [|a key]; [discriminate|].
  unfold Js.trim. rewrite (trim_start_head _ _ _ Hks).
  change ("=" ++ value)%string with (String "=" value).
  rewrite trim_end_tail; rewrite (trim_end_equals _ Hve); [reflexivity | discriminate].
Qed.

(** ** The comment and the pattern *)

Lemma replace_comment_without s : without "#" s = true -> replace_comment s = s.
Proof.
  induction s as [|a s IH]; intros H; [reflexivity|].
  rewrite without_cons in H. apply andb_prop in H. destruct H as [Ha Hs].
  cbn [replace_comment]. rewrite Ascii.eqb_sym. apply negb_true_iff in Ha.
  now rewrite Ha, IH.
Qed.

Lemma to_break_without s : without LF s = true -> without CR s = true -> to_break s = s.
Proof.
  induction s as [|a s IH]; intros Hl Hc; [reflexivity|].
  rewrite without_cons in Hl, Hc.
  apply andb_prop in Hl. destruct Hl as [Hla Hls].
  apply andb_prop in Hc. destruct Hc as [Hca Hcs].
  cbn [to_break]. unfold is_break.
  apply negb_true_iff in Hla, Hca.
  rewrite Ascii.eqb_sym in Hla, Hca.
  assert (H10 : (nat_of_ascii a =? 10)%nat = false).
  { apply Nat.eqb_neq. intros H. apply Ascii.eqb_neq in Hla. apply Hla.
    rewrite <- (ascii_nat_embedding a), H. reflexivity. }
  assert (H13 : (nat_of_ascii a =? 13)%nat = false).
  { apply Nat.eqb_neq. intros H. apply Ascii.eqb_neq in Hca. apply Hca.
    rewrite <- (ascii_nat_embedding a), H. reflexivity. }
  now rewrite H10, H13, IH.
Qed.

Lemma cut_at_equals_first key rest :
  without "=" key = true -> cut_at_equals (key ++ String "=" rest) = Some (key, rest).
Proof.
  induction key as [|a key IH]; intros H; [reflexivity|].
  rewrite without_cons in H. apply andb_prop in H. destruct H as [Ha Hk].
  apply negb_true_iff in Ha. rewrite Ascii.eqb_sym in Ha.
  cbn [append cut_at_equals]. now rewrite Ha, IH.
Qed.

Lemma match_setting_first key rest :
  Js.nonempty key = true -> without "=" key = true ->
  match_setting (key ++ String "=" rest) = Some (key, to_break rest).
Proof.
  intros Hne H. unfold match_setting.
  destruct key as [|a key]; [discriminate|].
  pose proof H as H'. rewrite without_cons in H'. apply andb_prop in H'.
  destruct H' as [Ha _]. apply negb_true_iff in Ha. rewrite Ascii.eqb_sym in Ha.
  cbn [append skip_equals]. rewrite Ha.
  change (String a (key ++ String "=" rest)) with (String a key ++ String "=" rest)%string.
  now rewrite cut_at_equals_first.
Qed.

(** ** What is written and what is read *)

(** The value of a property, as [parseProperties] stores it. *)
Definition stored_value (toProperty : string -> jsval) (prop val : string) : jsval :=
  if negb (endsWith prop ".version") && negb (endsWith prop ".semver")
  then toProperty val else JStr val.

(** The settings, one after the other, as assignments. *)
Definition assigned (toProperty : string -> jsval) (settings : list (string * string))
    (props : PropertyMap) : PropertyMap :=
  fold_left
    (fun props setting =>
       assign (fst setting) (stored_value toProperty (fst setting) (snd setting)) props)
    settings props.

(** The settings as the lines of a file. *)
Definition line_of (setting : string * string) : string :=
  (fst setting ++ "=" ++ snd setting)%string.

Definition render (settings : list (string * string)) : string :=
  Js.join Json.nl (map line_of settings).

(** A setting written plainly: a name that is not empty, without white
    space around it and without [=], [#] and line feed in it, and a value
    without white space around it and without [#] and line terminators in
    it. *)
Definition plainly (setting : string * string) : bool :=
  Js.nonempty (fst setting) &&
  String.eqb (Js.trim (fst setting)) (fst setting) &&
  without "=" (fst setting) && without "#" (fst setting) && without LF (fst setting) &&
  String.eqb (Js.trim (snd setting)) (snd setting) &&
  without "#" (snd setting) && without LF (snd setting) && without CR (snd setting).

Lemma plainly_inv key value :
  plainly (key, value) = true ->
  Js.nonempty key = true /\ Js.trim key = key /\ without "=" key = true /\
  without "#" key = true /\ without LF key = true /\
  Js.trim value = value /\ without "#" value = true /\ without LF value = true /\
  without CR value = true.
Proof.
  unfold plainly. cbn [fst snd]. rewrite !andb_true_iff, !String.eqb_eq. tauto.
Qed.

Lemma parse_line_plainly toProperty name props errors index setting :
  plainly setting = true ->
  parse_line toProperty name (props, errors) (index, line_of setting) =
  (assign (fst setting) (stored_value toProperty (fst setting) (snd setting)) props,
   errors).
Proof.
  destruct setting as [key value]. intros H. apply plainly_inv in H.
  destruct H as [Hne [Hk [Heq [Hhk [Hlk [Hv [Hhv [Hlv Hcv]]]]]]]].
  unfold line_of. cbn [fst snd]. unfold parse_line.
  rewrite replace_comment_without
    by (rewrite !without_app; cbn [andb]; now rewrite Hhk, Hhv).
  rewrite (trim_setting key value Hne Hk Hv).
  destruct key as [|a key]; [discriminate|].
  cbn [append Js.nonempty negb].
  change (String a (key ++ String "=" value)) with (String a key ++ String "=" value)%string.
  rewrite (match_setting_first (String a key) value Hne Heq).
  rewrite (to_break_without value Hlv Hcv), Hk, Hv. reflexivity.
Qed.

Lemma parse_lines_plainly toProperty name settings : forall props errors index,
  forallb plainly settings = true ->
  fold_left (parse_line toProperty name)
    (combine (seq index (length (map line_of settings))) (map line_of settings))
    (props, errors) =
  (assigned toProperty settings props, errors).
Proof.
  induction settings as [|setting settings IH]; intros props errors index H;
    [reflexivity|].
  cbn [forallb] in H. apply andb_prop in H. destruct H as [Hs H].
  cbn [map length seq combine fold_left].
  rewrite (parse_line_plainly toProperty name props errors index setting Hs).
  now rewrite IH.
Qed.

Lemma line_without_LF setting : plainly setting = true -> without LF (line_of setting) = true.
Proof.
  destruct setting as [key value]. intros H. apply plainly_inv in H.
  destruct H as [Hne [Hk [Heq [Hhk [Hlk [Hv [Hhv [Hlv Hcv]]]]]]]].
  unfold line_of. cbn [fst snd]. rewrite !without_app. cbn [andb]. now rewrite Hlk, Hlv.
Qed.

(** What is written is read back: of a file of settings written plainly,
    one to a line, [parseProperties] makes the property map these settings
    make when they are assigned one after the other (a name that comes
    again takes the later value), with each value that does not belong to
    a [.version] or [.semver] property given to [toProperty]; and it
    reports no bad line. *)
Theorem parse_reads_what_was_written :
  forall toProperty settings name,
    forallb plainly settings = true ->
    parseProperties toProperty (render settings) name =
    (assigned toProperty settings [], []).
Proof.
  intros toProperty settings name H. unfold parseProperties, entries, render.
  destruct settings as [|setting settings]; [reflexivity|].
  rewrite split_join.
  - now apply parse_lines_plainly.
  - discriminate.
  - rewrite forallb_forall in *. intros l Hl. apply in_map_iff in Hl.
    destruct Hl as [st [<- Hst]]. apply line_without_LF. now apply H.
Qed.

(** The theorem at work on a file of three lines. *)
Lemma parse_witness :
  parseProperties Samples.toProperty
    (render [("compilers", "&gcc:&clang"); ("compiler.g71.semver", "7.1");
             ("supportsBinary", "false")])
    "c++.defaults.properties" =
  ([("compilers", JStr "&gcc:&clang"); ("compiler.g71.semver", JStr "7.1");
    ("supportsBinary", JBool false)], []).
Proof.
  exact (parse_reads_what_was_written Samples.toProperty
           [("compilers", "&gcc:&clang"); ("compiler.g71.semver", "7.1");
            ("supportsBinary", "false")]
           "c++.defaults.properties" eq_refl).
Defined.

(** ** Lines that set nothing *)

(** The line up to its first [#]. *)
Fixpoint before_hash (line : string) : string :=
  match line with
  | EmptyString => ""
  | String a rest => if Ascii.eqb a "#" then "" else String a (before_hash rest)
  end.

(** What a line makes of the properties. *)
Definition read_line (toProperty : string -> jsval) (name : string) (props : PropertyMap)
    (line : string) : PropertyMap :=
  fst (parse_line toProperty name (props, []) (0, line)).

Lemma parse_line_fst toProperty name props errors index line :
  fst (parse_line toProperty name (props, errors) (index, line)) =
  read_line toProperty name props line.
Proof.
  unfold read_line, parse_line.
  destruct (negb _); [reflexivity|].
  destruct (match_setting _) as [[key value]|]; reflexivity.
Qed.

Lemma parse_lines_fst toProperty name lines : forall indices state,
  length indices = length lines ->
  fst (fold_left (parse_line toProperty name) (combine indices lines) state) =
  fold_left (read_line toProperty name) lines (fst state).
Proof.
  induction lines as [|line lines IH]; intros indices state Hlen.
  - now destruct indices.
  - destruct indices as [|index indices]; [discriminate|].
    cbn [combine fold_left]. rewrite IH by (cbn in Hlen; lia).
    destruct state as [props errors]. now rewrite parse_line_fst.
Qed.

Lemma parse_fst toProperty blob name :
  fst (parseProperties toProperty blob name) =
  fold_left (read_line toProperty name) (Js.split_on LF blob) [].
Proof.
  unfold parseProperties, entries. apply parse_lines_fst. apply length_seq.
Qed.

Lemma from_break_without s : without LF s = true -> without CR s = true -> from_break s = "".
Proof.
  induction s as [|a s IH]; intros Hl Hc; [reflexivity|].
  rewrite without_cons in Hl, Hc.
  apply andb_prop in Hl. destruct Hl as [Hla Hls].
  apply andb_prop in Hc. destruct Hc as [Hca Hcs].
  cbn [from_break]. unfold is_break.
  apply negb_true_iff in Hla, Hca.
  rewrite Ascii.eqb_sym in Hla, Hca.
  assert (H10 : (nat_of_ascii a =? 10)%nat = false).
  { apply Nat.eqb_neq. intros H. apply Ascii.eqb_neq in Hla. apply Hla.
    rewrite <- (ascii_nat_embedding a), H. reflexivity. }
  assert (H13 : (nat_of_ascii a =? 13)%nat = false).
  { apply Nat.eqb_neq. intros H. apply Ascii.eqb_neq in Hca. apply Hca.
    rewrite <- (ascii_nat_embedding a), H. reflexivity. }
  now rewrite H10, H13, IH.
Qed.

Lemma replace_comment_before_hash line :
  without LF line = true -> without CR line = true ->
  replace_comment line = before_hash line.
Proof.
  induction line as [|a line IH]; intros Hl Hc; [reflexivity|].
  rewrite without_cons in Hl, Hc.
  apply andb_prop in Hl. destruct Hl as [_ Hl].
  apply andb_prop in Hc. destruct Hc as [_ Hc].
  cbn [replace_comment before_hash].
  destruct (Ascii.eqb a "#"); [now apply from_break_without | now rewrite IH].
Qed.

Lemma without_trim_start c s : without c s = true -> without c (Js.trim_start s) = true.
Proof.
  induction s as [|a s IH]; intros H; [reflexivity|].
  cbn [Js.trim_start]. destruct (Js.is_space a); [|exact H].
  rewrite without_cons in H. apply andb_prop in H. now apply IH.
Qed.

Lemma without_trim_end c s : without c s = true -> without c (Js.trim_end s) = true.
Proof.
  induction s as [|a s IH]; intros H; [reflexivity|].
  rewrite without_cons in H. apply andb_prop in H. destruct H as [Ha Hs].
  cbn [Js.trim_end]. specialize (IH Hs).
  destruct (Js.trim_end s) as [|b r].
  - destruct (Js.is_space a); [reflexivity|]. rewrite without_cons. now rewrite Ha.
  - rewrite without_cons. now rewrite Ha, IH.
Qed.

Lemma match_setting_without s : without "=" s = true -> match_setting s = None.
Proof.
  intros H. unfold match_setting.
  assert (Hskip : skip_equals s = s).
  { destruct s as [|a s]; [reflexivity|]. rewrite without_cons in H.
    apply andb_prop in H. destruct H as [Ha _]. apply negb_true_iff in Ha.
    rewrite Ascii.eqb_sym in Ha. cbn [skip_equals]. now rewrite Ha. }
  rewrite Hskip.
  assert (Hcut : cut_at_equals s = None).
  { induction s as [|a s IH]; [reflexivity|]. rewrite without_cons in H.
    apply andb_prop in H. destruct H as [Ha Hs]. apply negb_true_iff in Ha.
    rewrite Ascii.eqb_sym in Ha. cbn [cut_at_equals]. rewrite Ha, IH; [reflexivity | exact Hs|].
    destruct s as [|b s]; [reflexivity|]. rewrite without_cons in Hs.
    apply andb_prop in Hs. destruct Hs as [Hb _]. apply negb_true_iff in Hb.
    rewrite Ascii.eqb_sym in Hb. cbn [skip_equals]. now rewrite Hb. }
  now rewrite Hcut.
Qed.

Lemma read_line_nothing toProperty name props line :
  without LF line = true -> without CR line = true ->
  without "=" (before_hash line) = true ->
  read_line toProperty name props line = props.
Proof.
  intros Hl Hc He. unfold read_line, parse_line.
  rewrite (replace_comment_before_hash line Hl Hc).
  destruct (negb _); [reflexivity|].
  rewrite match_setting_without; [reflexivity|].
  unfold Js.trim. now apply without_trim_end, without_trim_start.
Qed.

(** Lines of code units below 256, as the strings here are: a line
    terminator in them is a line feed or a carriage return, the separators
    U+2028 and U+2029 are not among them.  Such a line that has no line
    terminator in it and no [=] before its first [#] sets nothing, wherever
    it stands: a blank line, a comment, a line of words.  The properties
    read from a file are those read from the file without that line. *)
Theorem lines_without_a_setting_change_nothing :
  forall toProperty name line above below,
    without LF line = true ->
    without CR line = true ->
    without "=" (before_hash line) = true ->
    fst (parseProperties toProperty (above ++ Json.nl ++ line ++ Json.nl ++ below) name) =
    fst (parseProperties toProperty (above ++ Json.nl ++ below) name) /\
    fst (parseProperties toProperty (line ++ Json.nl ++ below) name) =
    fst (parseProperties toProperty below name) /\
    fst (parseProperties toProperty (above ++ Json.nl ++ line) name) =
    fst (parseProperties toProperty above name).
Proof.
  intros toProperty name line above below Hl Hc He.
  assert (Hsplit : Js.split_on LF line = [line]).
  { apply Lines.split_without. unfold without in Hl. now apply negb_true_iff in Hl. }
  rewrite !parse_fst.
  change (Json.nl ++ line ++ Json.nl ++ below)%string
    with (String LF (line ++ String LF below)).
  change (Json.nl ++ below)%string with (String LF below).
  change (Json.nl ++ line)%string with (String LF line).
  rewrite !split_on_app, Hsplit, !fold_left_app. cbn [fold_left].
  now rewrite !(read_line_nothing toProperty name _ line Hl Hc He).
Qed.

(** The theorem at work on a comment between two settings. *)
Lemma lines_without_a_setting_witness :
  fst (parseProperties Samples.toProperty
         ("compilers=g71" ++ Json.nl ++ "  # the local compilers; options=none" ++
          Json.nl ++ "options=-O2")
         "c++.local.properties") =
  fst (parseProperties Samples.toProperty
         ("compilers=g71" ++ Json.nl ++ "options=-O2") "c++.local.properties").
Proof.
  exact (proj1 (lines_without_a_setting_change_nothing Samples.toProperty
                  "c++.local.properties" "  # the local compilers; options=none"
                  "compilers=g71" "options=-O2" eq_refl eq_refl eq_refl)).
Defined.

End ParseFacts.

(* ===================================================================== *)
(** ** [StringStartsWith] *)
(* ===================================================================== *)

Module StartFacts.

Import Config.

Lemma starts_from_tail a s b sub turns : forall i,
  starts_from (String a s) (String b sub) (S i) turns = starts_from s sub i turns.
Proof.
  induction turns as [|turns IH]; intros i; [reflexivity|].
  cbn [starts_from String.get]. now rewrite IH.
Qed.

Lemma starts_from_prefix sub : forall s,
  String.length sub <= String.length s ->
  starts_from s sub 0 (String.length sub) = String.prefix sub s.
Proof.
  induction sub as [|b sub IH]; intros s Hlen; [now destruct s|].
  destruct s as [|a s]; [cbn in Hlen; lia|].
  cbn [String.length starts_from String.get differ String.prefix].
  rewrite starts_from_tail, IH by (cbn in Hlen; lia).
  destruct (Ascii.eqb_spec a b) as [->|Hne].
  - now destruct (ascii_dec b b).
  - destruct (ascii_dec b a) as [->|_]; [contradiction | reflexivity].
Qed.

Lemma prefix_append sub : forall s,
  String.prefix sub s = true <-> exists rest, s = (sub ++ rest)%string.
Proof.
  induction sub as [|b sub IH]; intros s.
  - split; [intros _; now exists s | now destruct s].
  - destruct s as [|a s]; cbn [String.prefix].
    + split; [discriminate | intros [rest H]; discriminate].
    + destruct (ascii_dec b a) as [->|Hne].
      * rewrite IH. split; intros [rest H]; exists rest.
        -- now rewrite H.
        -- now injection H.
      * split; [discriminate|]. intros [rest H]. injection H as H _. congruence.
Qed.

(** [StringStartsWith(s, sub)] is true exactly when [s] is [sub] followed
    by something, which may be nothing. *)
Theorem StringStartsWith_prefix :
  forall s sub,
    StringStartsWith s sub = true <-> exists rest, s = (sub ++ rest)%string.
Proof.
  intros s sub. unfold StringStartsWith.
  destruct (String.length s <? String.length sub)%nat eqn:Hlen.
  - apply Nat.ltb_lt in Hlen. split; [discriminate|].
    intros [rest ->]. rewrite Text.length_append in Hlen. lia.
  - apply Nat.ltb_ge in Hlen. rewrite starts_from_prefix by exact Hlen.
    apply prefix_append.
Qed.

End StartFacts.

(* ===================================================================== *)
(** ** The Swift compiler *)
(* ===================================================================== *)

Module SwiftFacts.

(** The handler of the Swift compiler against the one it replaces: the two
    store the same when the post-processor was ended by a signal or ended
    with status 0.  When it ended with another status, the handler of
    Swift takes what it printed to be the assembly, where the other
    stores an error message; and when it printed nothing, the handler of
    Swift ends with a ReferenceError, storing nothing. *)
Theorem swift_post_processing :
  forall postResult,
    (PipelineFacts.exited_badly postResult = false \/
     Compiler.signal_of postResult <> None ->
     Swift.handlePostProcessResult postResult =
     Swift.Stored (Compiler.handlePostProcessResult postResult)) /\
    (Compiler.signal_of postResult = None ->
     Compiler.status_ok postResult = false ->
     Swift.handlePostProcessResult postResult =
     if Js.nonempty (Exec.stdout postResult)
     then Swift.Stored (Exec.stdout postResult)
     else Swift.Thrown "ReferenceError: util is not defined").
Proof.
  intros postResult.
  unfold Swift.handlePostProcessResult, Compiler.handlePostProcessResult,
    PipelineFacts.exited_badly.
  destruct (Compiler.signal_of postResult) as [sig|]; split; try discriminate;
    try reflexivity.
  - intros [H | H]; [|contradiction].
    cbn [orb] in H. apply negb_false_iff in H. now rewrite H.
  - intros _ H. rewrite H. cbn [negb andb].
    now destruct (Js.nonempty (Exec.stdout postResult)).
Qed.

(** The theorem at work: a demangler that ends with status 1 and prints
    nothing. *)
Lemma swift_post_processing_witness :
  Swift.handlePostProcessResult
    {| Exec.status := Some 1%Z; Exec.signal := None; Exec.stdout := "";
       Exec.stderr := "swift-demangle: no input"; Exec.okToCache := true |} =
  Swift.Thrown "ReferenceError: util is not defined".
Proof.
  exact (proj2 (swift_post_processing
                  {| Exec.status := Some 1%Z; Exec.signal := None; Exec.stdout := "";
                     Exec.stderr := "swift-demangle: no input"; Exec.okToCache := true |})
           eq_refl eq_refl).
Defined.

End SwiftFacts.
